(* ===== verification/_CoqProject ===== *)
-Q . S2P
Prelude.v
Riscv.v
Memory.v
State.v
Spinlock.v
Kalloc.v
Vm.v
VmMap.v
Sv39.v
VmKernel.v
VmDestroy.v
Uart.v
Printf.v
Csr.v
Proc.v
ProcTable.v
ProcMem.v
ProcExit.v
ProcInit.v
Switch.v
Trap.v
ProcModel.v
Sched.v
ProcSpec.v
SchedMem.v
SchedStep.v
SchedInv.v
SchedLive.v
Boot.v
BootInv.v
BootIrq.v
System.v
Refine.v
VmTest.v
SmpLock.v
Deadlock.v
Asm.v
Trampoline.v
Tasks.v
TaskRun.v
SelfTest.v
History.v
