(* ===== verification/Prelude.v ===== *)
(** * Verification of a teaching RISC-V kernel

    ** The program

    An xv6-like kernel for RISC-V in supervisor mode.  entry.S and start.c prepare
    the hart; main.c builds the page allocator, the kernel's page table, the
    process table, the init process and a first thread, and enters the scheduler;
    the threads of proc.c create, wait for and exit as processes, and test each
    other; trap.c serves the timer and the UART.  Everything runs in the kernel's
    address space; user mode is never entered, and trampoline.S, the code for it,
    has no callers yet.

    ** The model

    The machine state is one record, [kstate] of State.v: RAM as a map of bytes,
    the control and context registers, the devices as input streams and a log of
    writes, and the kernel's global variables, [struct cpu] and the process table
    among them.  An operation of the C code is a function of the state and error
    monad [M]: it ends with a value ([Done]), in [panic] ([Panic]), in a loop no
    step of its own leaves ([Spin]), in an access outside memory or through a null
    pointer ([Fault]), or when the fuel of a loop is used up ([NoFuel]).  Integers
    are [Z] with the wrap-around written out ([u64], [i32]).  Pages, page tables
    and free-list links live in RAM; locks, processes and CPUs are records, and a
    [struct proc *] is an index of the process table.

    A function that switches contexts is cut at the switch: [yield] is
    [yield_enter] and [yield_leave], [kerneltrap] is [kerneltrap_enter] and
    [kerneltrap_leave], an iteration of [scheduler] is [scheduler_try] and
    [scheduler_back].  Sched.v puts the halves together in a step relation,
    [step], on worlds: a state, who has the CPU, and where the other threads will
    resume.  Tasks.v refines it by the programs the kernel's threads execute.

    ** The files

    - Prelude: notation, machine integers, automation.  Riscv: include/riscv.h,
      memlayout.h, param.h and the symbols of the linker script ([Linker], with
      the properties [LinkerOk] of their addresses; [demo_linker] has both).
    - Memory: RAM and [memset] (boot/start.c).  State: [kstate], [M], field
      updates.
    - Spinlock: spinlock.c on one hart.  SmpLock: its [acquire] and [release] on
      several harts, interleaved at every access to a lock.  Deadlock: two harts
      that run operations of proc.c.  Kalloc: mm/kalloc.c.
    - Vm, VmMap, VmKernel, VmDestroy, VmTest: mm/vm.c, first its code, then
      mappings, the kernel's address space, freeing, and the debugging functions.
      Sv39: the hardware's page-table walk.
    - Uart: uart.c.  Printf: printf.c and console.c.  Csr: register accessors,
      boot/start.c, plic.c, [trapinithart].
    - Proc: proc.c.  ProcTable, ProcMem, ProcExit, Switch, ProcInit: lemmas on its
      operations; ProcSpec: their specifications.
    - Trap: trap.c with the hart's trap entry and [sret].
    - ProcModel: what processes and their system calls are to their users, an
      abstract model by pids and events.  Sched: the step relation, labelled with
      those events.  SchedStep: the system invariant and the effect of each step.
      SchedMem, SchedInv: the invariant is kept.  SchedLive: progress and fairness.
    - Boot, BootInv: main.c.  BootIrq: the same with interrupts, also those that
      come too early or are fatal.  System: theorems on all reachable states.
    - Asm: swtch.S, kernelvec.S and boot/entry.S, instruction by instruction.
      Trampoline: trampoline.S and [struct trapframe], on the same hart with
      paging.
    - Refine: every step is a run of the model; the map from worlds to it is [abs].
      History: what follows for the pids and statuses that system calls return.
    - Tasks, TaskRun, SelfTest: [init_task] and [simple_task] of proc.c, and the
      run they make from reset.

    ** What is shown

    - Components.  [alloc_page] and [free_page] refine a stack of pages; locks
      give back the state they found and detect misuse; [map_page] and
      [unmap_page] are insertion and deletion in the map a page table stands for,
      which is the translation of the Sv39 hardware; after [kvminit] the hardware
      translates as the kernel's memory map says; [destroy_pagetable] frees each
      page once; [printf] prints what a specification of format strings says.
    - Processes (ProcSpec, Switch, ProcInit): each operation of proc.c on every
      branch; [sleep] and [wakeup], [yield] and the switch back, [alloc_process]
      and [free_process] as round trips.  Asm shows that swtch.S implements the
      exchange of registers they use, and that kernelvec.S is transparent.
    - The trampoline (Trampoline): in every reachable state both routines fault,
      since the page tables do not map what they need; with page tables that do, a
      trap from user mode and the return keep every register.
    - Traps (Trap): what the handler does for each cause; the exact state after a
      timer tick of the scheduler; that with paging on an external interrupt
      faults, since the controller is not mapped.
    - Locks on several harts (SmpLock): mutual exclusion, absence of panics, no
      deadlock for locks acquired in an order.  [create_process] and
      [exit_process] keep to no common order, and two harts running them can block
      each other for ever (Deadlock).
    - The boot (BootInv, BootIrq): from reset [start] and [main] reach the
      scheduler and establish the system invariant [inv].  With interrupts between
      the statements of [main] the same holds, except that one that comes before
      the trap vector is set goes astray, and an external one may be fatal; both
      are configurations of the model.
    - The system (SchedInv, System): in every state reachable from there [inv]
      holds, so that every page of RAM has one owner - the free list, the kernel's
      page table, the stacks, or one process -, no wake-up is lost, at most
      one process runs, and the process tree is sound; every call of a running
      thread ends; a runnable process is dispatched within one round of the table;
      the hardware translates addresses as the kernel's map with the 64 stacks
      says, and each process keeps a stack of its own.
    - Refinement (Refine, History): every run from reset is a run of the process
      model and ends in the state the table stands for; so each status [wait]
      returns is the one its child exited with, it is returned once, and pids are
      never used twice.
    - The self-test (SelfTest): the run of the kernel's own threads prints the
      transcript of a passed test and then only heartbeats.  Runs are
      deterministic but for interrupts ([calm_det] of Tasks), so there is no
      other undisturbed run.

    Theorems with hypotheses have witnesses on concrete states ([demo_state] and
    those built from it) at the end of their file.

    ** Bounds and fuel

    Loops over the process table and over page-table entries are counted.  A page
    table has three levels, so [destroy_pagetable] and [dump_pagetable] run with
    fuel 3, which is shown to suffice for well-formed tables.  [kvmmap] gets one
    round more than there are pages between its ends.  Loops of printf.c run on
    the length of their format or on 64 digits.  The state bounds the number of
    polls after which the UART has room ([io_wait]), which is the fuel of the loop
    of [uart_putc].  [kvminit] needs [kvminit_pages] pages
    and [main] [boot_pages] at most.

    ** Hypotheses on the environment

    The linker script's addresses ([LinkerOk]); a UART whose transmitter becomes
    idle after finitely many reads ([uart_live]); in Asm, a compiled [kerneltrap]
    that keeps to the calling convention ([returns]); in [user_trap_round_trip] of
    Trampoline, page tables that map the two pages the code uses ([space]).

    ** Restrictions of the step relation

    - A thread's [create_process] is a step ([step_create]) only with a function
      other than null and while [nextpid] is below INT_MAX.  proc.c:237-329 tests
      neither: with a null function the new thread would panic in [forkret], and
      past INT_MAX the increment is an overflow, undefined in C.  The only call
      by a thread, in [simple_task], passes [simple_task] itself, once.
    - A call or handler that panics has no step: it ends the run, and is described
      by [system_progress] and [kerneltrap_rejects] instead.
    - The scheduler's local [found] and the [wfi] it guards (proc.c:107, 132, 137)
      are left out: a hart in [wfi] goes on with the same round when an interrupt
      is pending, so runs without it cover those with it, but for the waiting.
    - In a boot, an interrupt that goes astray, a handler that does not return and a
      statement that fails end the run ([boot_config]).

    ** Not modelled

    - More than one hart (param.h sets NCPU to 1), except in SmpLock and Deadlock:
      elsewhere [cpuid] is 0, and a lock held by another hart only appears as one on
      which [acquire] spins.  Deadlock shows one run of two harts, not all.
    - User programs and the functions that would serve their traps, [usertrap] and
      [usertrapret]: they do not exist yet.
    - The accessors of riscv.h that nothing calls.
    - mm/spinlock.c, a copy of spinlock.c that is not built; note.txt, the
      Makefile and the linker script, except for the symbols' addresses.
    - Translation of the kernel's own accesses to RAM and to the UART, both mapped
      to themselves in every reachable state ([kernel_map]); those to the interrupt
      controller, which is not mapped, are translated ([load_reg], [store_reg]).
    - The TLB: translations follow the page table in memory, except in Trampoline.
      [unfenced_stacks] of System says what a hart could still hold that has not
      seen an [sfence.vma] since [procinit].
    - The compiler: C code is modelled as written.  Interrupts are taken in the
      scheduler's window, between the statements of [main], and nowhere else:
      threads run with interrupts off, and a handler that interrupts a statement
      halfway is not modelled. *)

From Stdlib Require Export ZArith Lia Btauto.
From stdpp Require Export base tactics gmap strings numbers list.

(** ** Notation scope of the development *)

Declare Scope kernel_scope.
Delimit Scope kernel_scope with kernel.

Notation "a .& b" := (Z.land a b) (at level 40, left associativity) : kernel_scope.
Notation "a .| b" := (Z.lor a b) (at level 50, left associativity) : kernel_scope.

Open Scope Z_scope.
Open Scope kernel_scope.

(** ** Machine-width integers

    An unsigned long of the program is an integer in [0, 2^64); arithmetic on
    it wraps.  An int is an integer in [-2^31, 2^31). *)

Definition u64 (x : Z) : Z := x mod 2 ^ 64.

Definition u32 (x : Z) : Z := x mod 2 ^ 32.

Definition u8 (x : Z) : Z := x mod 2 ^ 8.

Definition i32 (x : Z) : Z := (x + 2 ^ 31) mod 2 ^ 32 - 2 ^ 31.

Definition i64 (x : Z) : Z := (x + 2 ^ 63) mod 2 ^ 64 - 2 ^ 63.

(** C truth values *)

Definition c_bool (b : bool) : Z := if b then 1 else 0.

(** ** Tactics *)

(** Opens existentials and conjunctions of the context. *)
Ltac deex :=
  repeat match goal with
  | H : exists _, _ |- _ => let x := fresh in destruct H as [x H]
  | H : _ /\ _ |- _ => let H1 := fresh H in destruct H as [H1 H]
  end.

(** Turns boolean comparisons of the context and the goal into propositions. *)
Ltac b2p :=
  repeat match goal with
  | H : (_ =? _) = true |- _ => apply Z.eqb_eq in H
  | H : (_ =? _) = false |- _ => apply Z.eqb_neq in H
  | H : (_ <? _) = true |- _ => apply Z.ltb_lt in H
  | H : (_ <? _) = false |- _ => apply Z.ltb_ge in H
  | H : (_ <=? _) = true |- _ => apply Z.leb_le in H
  | H : (_ <=? _) = false |- _ => apply Z.leb_gt in H
  | H : _ && _ = true |- _ => apply andb_true_iff in H; destruct H
  | H : _ || _ = false |- _ => apply orb_false_iff in H; destruct H
  | H : negb _ = true |- _ => apply negb_true_iff in H
  | H : negb _ = false |- _ => apply negb_false_iff in H
  end.

(** lia after the quotient and remainder equations of the goal are in scope *)
Ltac dmlia := Z.div_mod_to_equations; lia.

(** Equality of integers bit by bit. *)

Create Rewrite HintDb zbits.

#[export] Hint Rewrite Z.land_spec Z.lor_spec Z.lxor_spec Z.ldiff_spec Z.lnot_spec
  Z.shiftl_spec Z.shiftr_spec Z.testbit_0_l using lia : zbits.

Ltac zbits :=
  apply Z.bits_inj'; let i := fresh "i" in let Hi := fresh "Hi" in
  intros i Hi; autorewrite with zbits.

(** ** Integers *)

Lemma u64_range x : 0 <= u64 x < 2 ^ 64.
Proof. unfold u64. apply Z.mod_pos_bound. lia. Qed.

Lemma u64_small x : 0 <= x < 2 ^ 64 -> u64 x = x.
Proof. intros. unfold u64. by apply Z.mod_small. Qed.

Lemma i32_small x : - 2 ^ 31 <= x < 2 ^ 31 -> i32 x = x.
Proof. intros. unfold i32. rewrite Z.mod_small; lia. Qed.

Lemma testbit_high x n i : 0 <= x < 2 ^ n -> n <= i -> Z.testbit x i = false.
Proof.
  intros Hx Hi. destruct (Z.lt_ge_cases n 0) as [Hn|Hn].
  { rewrite Z.pow_neg_r in Hx by lia. lia. }
  rewrite <- (Z.mod_small x (2 ^ n)) by lia.
  by apply Z.mod_pow2_bits_high.
Qed.

Lemma testbit_pow2 k i : 0 <= k -> Z.testbit (2 ^ k) i = (i =? k).
Proof.
  intros Hk. destruct (Z.eqb_spec i k) as [->|Hne].
  - by apply Z.pow2_bits_true.
  - apply Z.pow2_bits_false. lia.
Qed.

(** A flag test of the program, [x & (1 << k)], reads one bit. *)
Lemma land_pow2_testbit x k :
  0 <= k -> (x .& 2 ^ k =? 0) = negb (Z.testbit x k).
Proof.
  intros Hk. destruct (Z.testbit x k) eqn:E; cbn.
  - apply Z.eqb_neq. intros H.
    assert (Hb : Z.testbit (x .& 2 ^ k) k = true).
    { rewrite Z.land_spec, E, testbit_pow2, Z.eqb_refl by lia. done. }
    rewrite H, Z.testbit_0_l in Hb. done.
  - apply Z.eqb_eq. apply Z.bits_inj'. intros i Hi.
    rewrite Z.land_spec, testbit_pow2, Z.testbit_0_l by lia.
    destruct (Z.eqb_spec i k) as [->|]; [by rewrite E | by rewrite andb_false_r].
Qed.

Lemma lor_disjoint_add a b k :
  0 <= k -> a mod 2 ^ k = 0 -> 0 <= b < 2 ^ k -> a .| b = a + b.
Proof.
  intros Hk Ha Hb. rewrite <- Z.lxor_lor, <- Z.add_nocarry_lxor; [done| |];
  (apply Z.bits_inj'; intros i Hi; rewrite Z.land_spec, Z.testbit_0_l;
   destruct (Z.lt_ge_cases i k) as [Hlt|Hge];
   [ replace (Z.testbit a i) with false; [done|];
     symmetry; rewrite <- (Z.mod_pow2_bits_low a k i) by lia;
     rewrite Ha; apply Z.testbit_0_l
   | rewrite (testbit_high b k i) by lia; apply andb_false_r ]).
Qed.

Lemma mod_pow2_le a j k : 0 <= j <= k -> a mod 2 ^ k = 0 -> a mod 2 ^ j = 0.
Proof.
  intros Hjk Ha. apply Z.mod_divide in Ha; [|lia]. apply Z.mod_divide; [lia|].
  eapply Z.divide_trans; [|exact Ha].
  exists (2 ^ (k - j)). rewrite <- Z.pow_add_r by lia. f_equal. lia.
Qed.

(** ** Lists updated by index *)

Lemma list_alter_same {A} (f : A -> A) (l : list A) i :
  (forall x, l !! i = Some x -> f x = x) -> alter f i l = l.
Proof.
  revert i; induction l as [|x l IH]; intros [|i] H; cbn; f_equal; eauto.
Qed.
