(* ===== verification/Riscv.v ===== *)
(** * Machine constants and macros

    The constants and macros of include/riscv.h, include/memlayout.h and
    include/param.h: page size and rounding, Sv39 virtual page numbers, page
    table entries, [MAKE_SATP], the address-space layout of kernel stacks,
    trampoline and trapframe.  Unsigned long arithmetic wraps ([u64]); a 32-bit
    constant that is complemented before it meets an unsigned long
    ([~(PGSIZE-1)]) is sign-extended, which [u64] of the negative integer is. *)

From S2P Require Import Prelude.

(** ** Memory layout *)

Definition KERNBASE : Z := 0x80000000.

Definition PHYSTOP : Z := KERNBASE + 128 * 1024 * 1024.

Definition UART0 : Z := 0x10000000.

Definition UART0_IRQ : Z := 10.

Definition VIRTIO0_IRQ : Z := 1.

Definition PLIC : Z := 0x0c000000.

Definition PLIC_SENABLE (hart : Z) : Z := PLIC + 0x2080 + hart * 0x100.

Definition PLIC_SPRIORITY (hart : Z) : Z := PLIC + 0x201000 + hart * 0x2000.

Definition PLIC_SCLAIM (hart : Z) : Z := PLIC + 0x201004 + hart * 0x2000.

Definition NPROC : nat := 64.

(** ** Pages *)

Definition PGSIZE : Z := 4096.

Definition PGROUNDUP (sz : Z) : Z := u64 (sz + PGSIZE - 1) .& u64 (Z.lnot (PGSIZE - 1)).

Definition PGROUNDDOWN (a : Z) : Z := a .& u64 (Z.lnot (PGSIZE - 1)).

(** ** Sv39 *)

Definition VPN_SHIFT (level : Z) : Z := 12 + 9 * level.

Definition VPN_MASK (va level : Z) : Z := Z.shiftr va (VPN_SHIFT level) .& 0x1FF.

Definition PA2PTE (pa : Z) : Z := u64 (Z.shiftl (Z.shiftr pa 12) 10).

Definition PTE2PA (pte : Z) : Z := u64 (Z.shiftl (Z.shiftr pte 10) 12).

Definition PTE_FLAGS (pte : Z) : Z := pte .& 0x3FF.

Definition PTE_V : Z := Z.shiftl 1 0.

Definition PTE_R : Z := Z.shiftl 1 1.

Definition PTE_W : Z := Z.shiftl 1 2.

Definition PTE_X : Z := Z.shiftl 1 3.

Definition PTE_U : Z := Z.shiftl 1 4.

Definition SATP_SV39 : Z := Z.shiftl 8 60.

Definition MAKE_SATP (pagetable : Z) : Z := SATP_SV39 .| Z.shiftr pagetable 12.

Definition MAXVA : Z := Z.shiftl 1 (9 + 9 + 9 + 12 - 1).

(** ** Top of the address space *)

Definition TRAMPOLINE : Z := MAXVA - PGSIZE.

Definition KSTACK (p : Z) : Z := TRAMPOLINE - (p + 1) * 2 * PGSIZE.

Definition TRAPFRAME : Z := TRAMPOLINE - PGSIZE.

(** The constant [.equ TRAPFRAME] of trampoline.S, written there as a literal. *)
Definition trampoline_S_TRAPFRAME : Z := 0x3fffffe000.

(** ** Status-register bits *)

Definition MSTATUS_MPP_MASK : Z := Z.shiftl 3 11.

Definition MSTATUS_MPP_S : Z := Z.shiftl 1 11.

Definition SSTATUS_SPP : Z := Z.shiftl 1 8.

Definition SSTATUS_SIE : Z := Z.shiftl 1 1.

Definition SIE_STIE : Z := Z.shiftl 1 5.

(** ** Symbols of the linker script

    Addresses the linker chooses: the end of the text section, the first free
    address, and the code addresses the C code stores in registers.  What the
    program relies on is what scripts/kernel.ld arranges: text starts at
    KERNBASE, the trampoline is the last page of text, [etext] is page-aligned
    and everything ends below PHYSTOP; and different functions have different
    addresses. *)
Class Linker := {
  sym_etext : Z;
  sym_end : Z;
  sym_trampoline : Z;
  sym_forkret : Z;
  sym_init_task : Z;
  sym_simple_task : Z;
  sym_kernelvec : Z;
  sym_main : Z;
}.

Class LinkerOk `{Linker} : Prop := {
  etext_above : KERNBASE < sym_etext;
  etext_aligned : sym_etext mod PGSIZE = 0;
  end_above : sym_etext <= sym_end;
  end_below : sym_end < PHYSTOP;
  trampoline_page : sym_trampoline = sym_etext - PGSIZE;
  forkret_text : KERNBASE <= sym_forkret < sym_etext;
  init_task_text : KERNBASE <= sym_init_task < sym_etext;
  simple_task_text : KERNBASE <= sym_simple_task < sym_etext;
  tasks_apart : sym_init_task <> sym_simple_task;
}.

(** A concrete link of the kernel, for examples. *)
Definition demo_linker : Linker := {|
  sym_etext := 0x80004000;
  sym_end := 0x80009128;
  sym_trampoline := 0x80003000;
  sym_forkret := 0x80001a2c;
  sym_init_task := 0x80001f10;
  sym_simple_task := 0x80002004;
  sym_kernelvec := 0x80002a10;
  sym_main := 0x80000200;
|}.

(** The pages an address belongs to: [page_aligned] is the test
    [va % PGSIZE == 0] of the program. *)
Definition page_aligned (a : Z) : bool := a mod PGSIZE =? 0.

(** ** Rounding *)

Lemma land_pgmask a : 0 <= a < 2 ^ 64 -> a .& u64 (Z.lnot (PGSIZE - 1)) = a - a mod PGSIZE.
Proof.
  intros Ha.
  assert (Hm : a .& u64 (Z.lnot (PGSIZE - 1)) = Z.ldiff a (Z.ones 12)).
  { apply Z.bits_inj'. intros i Hi.
    rewrite Z.land_spec, Z.ldiff_spec. unfold u64.
    destruct (Z.lt_ge_cases i 64) as [Hl|Hl].
    - rewrite Z.mod_pow2_bits_low by lia. by rewrite Z.lnot_spec by lia.
    - rewrite (testbit_high a 64 i) by lia. done. }
  rewrite Hm, Z.ldiff_ones_r, Z.shiftl_mul_pow2, Z.shiftr_div_pow2 by lia.
  change (2 ^ 12) with PGSIZE. unfold PGSIZE. dmlia.
Qed.

Lemma PGROUNDDOWN_spec a : 0 <= a < 2 ^ 64 -> PGROUNDDOWN a = a - a mod PGSIZE.
Proof. apply land_pgmask. Qed.

Lemma PGROUNDDOWN_aligned a : 0 <= a < 2 ^ 64 -> PGROUNDDOWN a mod PGSIZE = 0.
Proof. intros Ha. rewrite PGROUNDDOWN_spec by done. unfold PGSIZE. dmlia. Qed.

Lemma PGROUNDDOWN_bounds a :
  0 <= a < 2 ^ 64 -> PGROUNDDOWN a <= a < PGROUNDDOWN a + PGSIZE /\ 0 <= PGROUNDDOWN a.
Proof. intros Ha. rewrite PGROUNDDOWN_spec by done. unfold PGSIZE. dmlia. Qed.

Lemma PGROUNDUP_spec a :
  0 <= a < 2 ^ 64 - PGSIZE ->
  PGROUNDUP a mod PGSIZE = 0 /\ a <= PGROUNDUP a < a + PGSIZE.
Proof.
  intros Ha. unfold PGROUNDUP. rewrite land_pgmask by apply u64_range.
  rewrite u64_small by (unfold PGSIZE in *; lia). unfold PGSIZE. dmlia.
Qed.

(** ** Page-table entries *)

Lemma VPN_MASK_spec va l :
  0 <= l -> VPN_MASK va l = (va / 2 ^ (12 + 9 * l)) mod 512.
Proof.
  intros Hl. unfold VPN_MASK, VPN_SHIFT.
  change 0x1FF with (Z.ones 9). rewrite Z.land_ones, Z.shiftr_div_pow2 by lia. done.
Qed.

Lemma VPN_MASK_range va l : 0 <= l -> 0 <= VPN_MASK va l < 512.
Proof. intros. rewrite VPN_MASK_spec by done. apply Z.mod_pos_bound. lia. Qed.

Lemma PA2PTE_spec pa :
  0 <= pa < 2 ^ 64 -> PA2PTE pa = pa / 4096 * 1024.
Proof.
  intros. unfold PA2PTE.
  rewrite Z.shiftr_div_pow2, Z.shiftl_mul_pow2 by lia.
  apply u64_small. change (2 ^ 12) with 4096. change (2 ^ 10) with 1024. dmlia.
Qed.

Lemma PA2PTE_low pa : 0 <= pa < 2 ^ 64 -> PA2PTE pa mod 2 ^ 10 = 0.
Proof. intros. rewrite PA2PTE_spec by done. apply Z.mod_mul. lia. Qed.

Lemma PTE_build pa fl :
  0 <= pa < 2 ^ 64 -> 0 <= fl < 2 ^ 10 -> PA2PTE pa .| fl = pa / 4096 * 1024 + fl.
Proof.
  intros. rewrite (lor_disjoint_add _ _ 10) by (try apply PA2PTE_low; lia).
  by rewrite PA2PTE_spec.
Qed.

Lemma PTE2PA_build pa fl :
  0 <= pa < 2 ^ 64 -> pa mod PGSIZE = 0 -> 0 <= fl < 2 ^ 10 ->
  PTE2PA (PA2PTE pa .| fl) = pa.
Proof.
  intros Hpa Hal Hfl. rewrite PTE_build by done. unfold PTE2PA.
  rewrite Z.shiftr_div_pow2, Z.shiftl_mul_pow2 by lia.
  change (2 ^ 10) with 1024 in *. rewrite Z.div_add_l by lia.
  rewrite (Z.div_small fl) by lia. rewrite Z.add_0_r.
  change (2 ^ 12) with 4096. unfold PGSIZE in Hal.
  rewrite u64_small; dmlia.
Qed.

Lemma PTE_FLAGS_build pa fl :
  0 <= pa < 2 ^ 64 -> 0 <= fl < 2 ^ 10 -> PTE_FLAGS (PA2PTE pa .| fl) = fl.
Proof.
  intros Hpa Hfl. rewrite PTE_build by done. unfold PTE_FLAGS.
  change 0x3FF with (Z.ones 10). rewrite Z.land_ones by lia.
  rewrite Z.add_comm, Z.mod_add by lia. by apply Z.mod_small.
Qed.

Lemma PTE_build_range pa fl :
  0 <= pa < 2 ^ 64 -> 0 <= fl < 2 ^ 10 -> 0 <= PA2PTE pa .| fl < 2 ^ 64.
Proof.
  intros Hpa Hfl. rewrite PTE_build by done. change (2 ^ 10) with 1024 in *. dmlia.
Qed.

Lemma demo_linker_ok : @LinkerOk demo_linker.
Proof. split; vm_compute; intuition congruence. Qed.
