(* ===== verification/Memory.v ===== *)
(** * Physical memory

    RAM is a finite map from byte addresses to bytes; a location that was never
    written reads as zero, as the .bss section and QEMU's RAM do.  64-bit loads
    and stores are little-endian.  [memset] is the loop of kernel/boot/start.c. *)

From S2P Require Import Prelude Riscv.

Abbreviation memory := (gmap Z Z).

Definition ldb (m : memory) (a : Z) : Z := default 0 (m !! a).

(** An [n]-byte little-endian load and store. *)
Fixpoint ld (n : nat) (m : memory) (a : Z) : Z :=
  match n with
  | O => 0
  | S n' => ldb m a + 256 * ld n' m (a + 1)
  end.

Fixpoint st (n : nat) (m : memory) (a v : Z) : memory :=
  match n with
  | O => m
  | S n' => st n' (<[a := v mod 256]> m) (a + 1) (v / 256)
  end.

Definition ld64 (m : memory) (a : Z) : Z := ld 8 m a.

Definition st64 (m : memory) (a v : Z) : memory := st 8 m a v.

(** [for (i = 0; i < n; i++) cdst[i] = c;]: the first [n] iterations. *)
Fixpoint memset_loop (n : nat) (m : memory) (dst c : Z) : memory :=
  match n with
  | O => m
  | S n' => let m' := memset_loop n' m dst c in <[dst + Z.of_nat n' := u8 c]> m'
  end.

Definition memset (m : memory) (dst c n : Z) : memory := memset_loop (Z.to_nat (u32 n)) m dst c.

#[global] Arguments ld64 : simpl never.
#[global] Arguments st64 : simpl never.
#[global] Arguments memset : simpl never.


(** ** Bytes *)

Lemma ldb_insert m a b v : ldb (<[a := v]> m) b = if decide (a = b) then v else ldb m b.
Proof.
  unfold ldb. destruct (decide (a = b)) as [->|Hne].
  - by rewrite lookup_insert_eq.
  - by rewrite lookup_insert_ne.
Qed.

Lemma ldb_memset_loop n m dst c b :
  ldb (memset_loop n m dst c) b
  = if decide (dst <= b < dst + Z.of_nat n) then u8 c else ldb m b.
Proof.
  induction n as [|n IH]; cbn [memset_loop].
  - rewrite decide_False by lia. done.
  - rewrite ldb_insert, IH. repeat case_decide; done || lia.
Qed.

Lemma ldb_memset m dst c n b :
  0 <= n < 2 ^ 32 ->
  ldb (memset m dst c n) b = if decide (dst <= b < dst + n) then u8 c else ldb m b.
Proof.
  intros Hn. unfold memset, u32. rewrite Z.mod_small, ldb_memset_loop by lia.
  by rewrite Z2Nat.id by lia.
Qed.

(** ** Loads of memories that agree on the loaded bytes *)

Lemma ld_ext n m m' a :
  (forall b, a <= b < a + Z.of_nat n -> ldb m b = ldb m' b) -> ld n m a = ld n m' a.
Proof.
  revert a; induction n as [|n IH]; intros a H; cbn [ld]; [done|].
  rewrite (H a) by lia. f_equal. f_equal. apply IH. intros b Hb. apply H. lia.
Qed.

Lemma ldb_st_other n m a v b : ~ (a <= b < a + Z.of_nat n) -> ldb (st n m a v) b = ldb m b.
Proof.
  revert m a v; induction n as [|n IH]; intros m a v H; cbn [st]; [done|].
  rewrite IH by lia. rewrite ldb_insert, decide_False by lia. done.
Qed.

Lemma ld_st_same n m a v : ld n (st n m a v) a = v mod 256 ^ Z.of_nat n.
Proof.
  revert m a v; induction n as [|n IH]; intros m a v; cbn [ld st].
  - by rewrite Z.mod_1_r.
  - rewrite ldb_st_other by lia. rewrite ldb_insert, decide_True by done.
    rewrite IH. rewrite Nat2Z.inj_succ, Z.pow_succ_r by lia.
    rewrite Z.rem_mul_r by lia. lia.
Qed.

Lemma ld_st_other n k m a b v :
  b + Z.of_nat k <= a \/ a + Z.of_nat n <= b -> ld k (st n m a v) b = ld k m b.
Proof. intros H. apply ld_ext. intros c Hc. apply ldb_st_other. lia. Qed.

Lemma ld64_st64_same m a v : 0 <= v < 2 ^ 64 -> ld64 (st64 m a v) a = v.
Proof. intros Hv. unfold ld64, st64. rewrite ld_st_same. by apply Z.mod_small. Qed.

Lemma ld64_st64_other m a b v :
  b + 8 <= a \/ a + 8 <= b -> ld64 (st64 m a v) b = ld64 m b.
Proof. intros H. apply ld_st_other. lia. Qed.

Lemma ld64_memset_other m dst c n b :
  0 <= n < 2 ^ 32 -> b + 8 <= dst \/ dst + n <= b -> ld64 (memset m dst c n) b = ld64 m b.
Proof.
  intros Hn H. apply ld_ext. intros d Hd. rewrite ldb_memset by lia.
  rewrite decide_False by lia. done.
Qed.

Lemma ld64_memset_zero m dst n b :
  0 <= n < 2 ^ 32 -> dst <= b -> b + 8 <= dst + n -> ld64 (memset m dst 0 n) b = 0.
Proof.
  intros Hn H1 H2. unfold ld64.
  assert (Hb : forall k c, dst <= c -> c + Z.of_nat k <= dst + n -> ld k (memset m dst 0 n) c = 0).
  { induction k as [|k IH]; intros c Hc1 Hc2; cbn [ld]; [done|].
    rewrite IH by lia. rewrite ldb_memset, decide_True by lia. done. }
  apply Hb; lia.
Qed.

(** A byte of memory is in range when every stored byte is. *)
Definition bytes_ok (m : memory) : Prop := forall a, 0 <= ldb m a < 256.

Lemma ld_range n m a : bytes_ok m -> 0 <= ld n m a < 256 ^ Z.of_nat n.
Proof.
  intros Hm. revert a; induction n as [|n IH]; intros a; cbn [ld]; [lia|].
  rewrite Nat2Z.inj_succ, Z.pow_succ_r by lia.
  specialize (IH (a + 1)). pose proof (Hm a). lia.
Qed.

Lemma ld64_range m a : bytes_ok m -> 0 <= ld64 m a < 2 ^ 64.
Proof. intros Hm. by apply (ld_range 8). Qed.

Lemma bytes_ok_empty : bytes_ok ∅.
Proof. intros a. unfold ldb. rewrite lookup_empty. cbn. lia. Qed.

Lemma bytes_ok_st n m a v : bytes_ok m -> bytes_ok (st n m a v).
Proof.
  revert m a v; induction n as [|n IH]; intros m a v Hm; cbn [st]; [done|].
  apply IH. intros b. rewrite ldb_insert. case_decide; [|done].
  apply Z.mod_pos_bound. lia.
Qed.

Lemma bytes_ok_memset m dst c n : bytes_ok m -> bytes_ok (memset m dst c n).
Proof.
  intros Hm b. unfold memset. rewrite ldb_memset_loop. case_decide; [|done].
  apply Z.mod_pos_bound. lia.
Qed.

(** ** Pages *)

(** Two page-aligned addresses are equal or their pages do not overlap. *)
Lemma pages_disjoint p q :
  p mod PGSIZE = 0 -> q mod PGSIZE = 0 -> p <> q -> p + PGSIZE <= q \/ q + PGSIZE <= p.
Proof. unfold PGSIZE. intros Hp Hq Hne. dmlia. Qed.

Lemma ld64_memset_page m p c q off :
  p mod PGSIZE = 0 -> q mod PGSIZE = 0 -> p <> q -> 0 <= off -> off + 8 <= PGSIZE ->
  ld64 (memset m p c PGSIZE) (q + off) = ld64 m (q + off).
Proof.
  intros Hp Hq Hne H1 H2. apply ld64_memset_other; [unfold PGSIZE; lia|].
  destruct (pages_disjoint p q Hp Hq Hne); lia.
Qed.

Lemma ld64_st64_page m p q o1 o2 v :
  p mod PGSIZE = 0 -> q mod PGSIZE = 0 -> p <> q ->
  0 <= o1 -> o1 + 8 <= PGSIZE -> 0 <= o2 -> o2 + 8 <= PGSIZE ->
  ld64 (st64 m (p + o1) v) (q + o2) = ld64 m (q + o2).
Proof.
  intros Hp Hq Hne ? ? ? ?. apply ld64_st64_other.
  destruct (pages_disjoint p q Hp Hq Hne); lia.
Qed.
