(* ===== verification/State.v ===== *)
(** * The kernel's state and the monad its code runs in

    One record holds what the C program keeps in memory and in the hart: RAM,
    the control registers, the memory-mapped devices, [struct cpu cpus[0]], the
    global variables of kalloc.c, vm.c, proc.c, trap.c and printf.c, and the
    process table.  Structures of include/proc.h and include/spinlock.h are
    records with the same fields.

    A function of the kernel is a computation [M A]: from a state it returns
    ([Done]), calls [panic] ([Panic], with the message and the state at the
    call), waits without end ([Spin]), makes an access the program does not
    define, such as a null dereference ([Fault]), or exhausts the fuel of a
    recursion ([NoFuel]). *)

From S2P Require Import Prelude Riscv Memory.

(** ** Data *)

(** include/spinlock.h: [struct spinlock]; the cpu pointer is null or [&cpus[i]]. *)
Record spinlock := Spinlock {
  locked : Z;
  lk_name : string;
  lk_cpu : option nat;
}.

(** include/proc.h: [struct context], the callee-saved registers. *)
Record context := Context {
  ra : Z;
  sp : Z;
  s0 : Z;
  s1 : Z;
  s2 : Z;
  s3 : Z;
  s4 : Z;
  s5 : Z;
  s6 : Z;
  s7 : Z;
  s8 : Z;
  s9 : Z;
  s10 : Z;
  s11 : Z;
}.

(** include/proc.h: [struct cpu]; a [struct proc *] is null or [&proc[i]]. *)
Record cpu := Cpu {
  c_proc : option nat;
  c_context : context;
  c_noff : Z;
  c_intena : Z;
}.

(** include/proc.h: [enum procstate]. *)
Inductive procstate := UNUSED | USED | SLEEPING | RUNNABLE | RUNNING | ZOMBIE.

(** A [void *] used as a sleep channel: null, [&proc[i]], [&ticks] or another address. *)
Inductive ptr := PNull | PProc (i : nat) | PTicks | PAddr (a : Z).

(** include/proc.h: [struct proc]. *)
Record proc := Proc {
  p_lock : spinlock;
  p_state : procstate;
  p_chan : ptr;
  p_killed : Z;
  p_xstate : Z;
  p_pid : Z;
  p_parent : option nat;
  p_kstack : Z;
  p_sz : Z;
  p_pagetable : Z;
  p_trapframe : Z;
  p_context : context;
  p_ofile : list Z;
  p_cwd : Z;
  p_name : list Z;
}.

(** Control registers, one field per CSR the program reads or writes, and [tp]. *)
Record csrs := Csrs {
  mstatus : Z;
  sstatus : Z;
  sie : Z;
  stvec : Z;
  sepc : Z;
  scause : Z;
  stval : Z;
  satp : Z;
  stimecmp : Z;
  mepc : Z;
  medeleg : Z;
  mideleg : Z;
  menvcfg : Z;
  mcounteren : Z;
  pmpaddr0 : Z;
  pmpcfg0 : Z;
  tp : Z;
}.

(** Memory-mapped devices.  What a device answers is not part of the program:
    [io_in t a] is the value that the [t]-th device read of the run returns at
    address [a], and [io_time t] what the time CSR shows then.  [io_log] lists
    the device writes, oldest first.  A polling loop that sees no answer within
    [io_wait] more polls counts as spinning. *)
Record mmio := Mmio {
  io_in : nat -> Z -> Z;
  io_time : nat -> Z;
  io_wait : nat;
  io_now : nat;
  io_log : list (Z * Z);
}.

(** The whole kernel. *)
Record kstate := Kstate {
  mem : memory;
  csr : csrs;
  io : mmio;
  cpu0 : cpu;
  regs : context;
  kmem_lock : spinlock;
  freelist : Z;
  pid_lock : spinlock;
  wait_lock : spinlock;
  tickslock : spinlock;
  printlock : spinlock;
  kernel_pagetable : Z;
  procs : list proc;
  initproc : option nat;
  nextpid : Z;
  ticks : Z;
  forkret_first : Z;
}.

(** Every lock of the kernel. *)
Inductive lock_id := L_kmem | L_pid | L_wait | L_ticks | L_print | L_proc (i : nat).

#[export] Instance procstate_eq_dec : EqDecision procstate.
Proof. solve_decision. Defined.

#[export] Instance ptr_eq_dec : EqDecision ptr.
Proof. solve_decision. Defined.

#[export] Instance lock_id_eq_dec : EqDecision lock_id.
Proof. solve_decision. Defined.

(** ** Zero-initialised objects *)

Definition zero_lock : spinlock := Spinlock 0 "" None.

Definition zero_context : context := Context 0 0 0 0 0 0 0 0 0 0 0 0 0 0.

Definition zero_cpu : cpu := Cpu None zero_context 0 0.

Definition zero_proc : proc :=
  Proc zero_lock UNUSED PNull 0 0 0 None 0 0 0 0 zero_context (replicate 16 0) 0 (replicate 16 0).

(** ** Field updates *)

Definition set_locked (v : Z) (r : spinlock) : spinlock :=
  Spinlock v (lk_name r) (lk_cpu r).

Definition set_lk_cpu (v : option nat) (r : spinlock) : spinlock :=
  Spinlock (locked r) (lk_name r) v.

Definition set_ra (v : Z) (r : context) : context :=
  Context v (sp r) (s0 r) (s1 r) (s2 r) (s3 r) (s4 r) (s5 r) (s6 r) (s7 r) (s8 r) (s9 r) (s10 r) (s11 r).

Definition set_sp (v : Z) (r : context) : context :=
  Context (ra r) v (s0 r) (s1 r) (s2 r) (s3 r) (s4 r) (s5 r) (s6 r) (s7 r) (s8 r) (s9 r) (s10 r) (s11 r).

Definition set_s0 (v : Z) (r : context) : context :=
  Context (ra r) (sp r) v (s1 r) (s2 r) (s3 r) (s4 r) (s5 r) (s6 r) (s7 r) (s8 r) (s9 r) (s10 r) (s11 r).

Definition set_c_proc (v : option nat) (r : cpu) : cpu :=
  Cpu v (c_context r) (c_noff r) (c_intena r).

Definition set_c_context (v : context) (r : cpu) : cpu :=
  Cpu (c_proc r) v (c_noff r) (c_intena r).

Definition set_c_noff (v : Z) (r : cpu) : cpu :=
  Cpu (c_proc r) (c_context r) v (c_intena r).

Definition set_c_intena (v : Z) (r : cpu) : cpu :=
  Cpu (c_proc r) (c_context r) (c_noff r) v.

Definition set_p_lock (v : spinlock) (r : proc) : proc :=
  Proc v (p_state r) (p_chan r) (p_killed r) (p_xstate r) (p_pid r) (p_parent r) (p_kstack r) (p_sz r) (p_pagetable r) (p_trapframe r) (p_context r) (p_ofile r) (p_cwd r) (p_name r).

Definition set_p_state (v : procstate) (r : proc) : proc :=
  Proc (p_lock r) v (p_chan r) (p_killed r) (p_xstate r) (p_pid r) (p_parent r) (p_kstack r) (p_sz r) (p_pagetable r) (p_trapframe r) (p_context r) (p_ofile r) (p_cwd r) (p_name r).

Definition set_p_chan (v : ptr) (r : proc) : proc :=
  Proc (p_lock r) (p_state r) v (p_killed r) (p_xstate r) (p_pid r) (p_parent r) (p_kstack r) (p_sz r) (p_pagetable r) (p_trapframe r) (p_context r) (p_ofile r) (p_cwd r) (p_name r).

Definition set_p_killed (v : Z) (r : proc) : proc :=
  Proc (p_lock r) (p_state r) (p_chan r) v (p_xstate r) (p_pid r) (p_parent r) (p_kstack r) (p_sz r) (p_pagetable r) (p_trapframe r) (p_context r) (p_ofile r) (p_cwd r) (p_name r).

Definition set_p_xstate (v : Z) (r : proc) : proc :=
  Proc (p_lock r) (p_state r) (p_chan r) (p_killed r) v (p_pid r) (p_parent r) (p_kstack r) (p_sz r) (p_pagetable r) (p_trapframe r) (p_context r) (p_ofile r) (p_cwd r) (p_name r).

Definition set_p_pid (v : Z) (r : proc) : proc :=
  Proc (p_lock r) (p_state r) (p_chan r) (p_killed r) (p_xstate r) v (p_parent r) (p_kstack r) (p_sz r) (p_pagetable r) (p_trapframe r) (p_context r) (p_ofile r) (p_cwd r) (p_name r).

Definition set_p_parent (v : option nat) (r : proc) : proc :=
  Proc (p_lock r) (p_state r) (p_chan r) (p_killed r) (p_xstate r) (p_pid r) v (p_kstack r) (p_sz r) (p_pagetable r) (p_trapframe r) (p_context r) (p_ofile r) (p_cwd r) (p_name r).

Definition set_p_kstack (v : Z) (r : proc) : proc :=
  Proc (p_lock r) (p_state r) (p_chan r) (p_killed r) (p_xstate r) (p_pid r) (p_parent r) v (p_sz r) (p_pagetable r) (p_trapframe r) (p_context r) (p_ofile r) (p_cwd r) (p_name r).

Definition set_p_sz (v : Z) (r : proc) : proc :=
  Proc (p_lock r) (p_state r) (p_chan r) (p_killed r) (p_xstate r) (p_pid r) (p_parent r) (p_kstack r) v (p_pagetable r) (p_trapframe r) (p_context r) (p_ofile r) (p_cwd r) (p_name r).

Definition set_p_pagetable (v : Z) (r : proc) : proc :=
  Proc (p_lock r) (p_state r) (p_chan r) (p_killed r) (p_xstate r) (p_pid r) (p_parent r) (p_kstack r) (p_sz r) v (p_trapframe r) (p_context r) (p_ofile r) (p_cwd r) (p_name r).

Definition set_p_trapframe (v : Z) (r : proc) : proc :=
  Proc (p_lock r) (p_state r) (p_chan r) (p_killed r) (p_xstate r) (p_pid r) (p_parent r) (p_kstack r) (p_sz r) (p_pagetable r) v (p_context r) (p_ofile r) (p_cwd r) (p_name r).

Definition set_p_context (v : context) (r : proc) : proc :=
  Proc (p_lock r) (p_state r) (p_chan r) (p_killed r) (p_xstate r) (p_pid r) (p_parent r) (p_kstack r) (p_sz r) (p_pagetable r) (p_trapframe r) v (p_ofile r) (p_cwd r) (p_name r).

Definition set_p_ofile (v : list Z) (r : proc) : proc :=
  Proc (p_lock r) (p_state r) (p_chan r) (p_killed r) (p_xstate r) (p_pid r) (p_parent r) (p_kstack r) (p_sz r) (p_pagetable r) (p_trapframe r) (p_context r) v (p_cwd r) (p_name r).

Definition set_p_cwd (v : Z) (r : proc) : proc :=
  Proc (p_lock r) (p_state r) (p_chan r) (p_killed r) (p_xstate r) (p_pid r) (p_parent r) (p_kstack r) (p_sz r) (p_pagetable r) (p_trapframe r) (p_context r) (p_ofile r) v (p_name r).

Definition set_p_name (v : list Z) (r : proc) : proc :=
  Proc (p_lock r) (p_state r) (p_chan r) (p_killed r) (p_xstate r) (p_pid r) (p_parent r) (p_kstack r) (p_sz r) (p_pagetable r) (p_trapframe r) (p_context r) (p_ofile r) (p_cwd r) v.

Definition set_mstatus (v : Z) (r : csrs) : csrs :=
  Csrs v (sstatus r) (sie r) (stvec r) (sepc r) (scause r) (stval r) (satp r) (stimecmp r) (mepc r) (medeleg r) (mideleg r) (menvcfg r) (mcounteren r) (pmpaddr0 r) (pmpcfg0 r) (tp r).

Definition set_sstatus (v : Z) (r : csrs) : csrs :=
  Csrs (mstatus r) v (sie r) (stvec r) (sepc r) (scause r) (stval r) (satp r) (stimecmp r) (mepc r) (medeleg r) (mideleg r) (menvcfg r) (mcounteren r) (pmpaddr0 r) (pmpcfg0 r) (tp r).

Definition set_sie (v : Z) (r : csrs) : csrs :=
  Csrs (mstatus r) (sstatus r) v (stvec r) (sepc r) (scause r) (stval r) (satp r) (stimecmp r) (mepc r) (medeleg r) (mideleg r) (menvcfg r) (mcounteren r) (pmpaddr0 r) (pmpcfg0 r) (tp r).

Definition set_stvec (v : Z) (r : csrs) : csrs :=
  Csrs (mstatus r) (sstatus r) (sie r) v (sepc r) (scause r) (stval r) (satp r) (stimecmp r) (mepc r) (medeleg r) (mideleg r) (menvcfg r) (mcounteren r) (pmpaddr0 r) (pmpcfg0 r) (tp r).

Definition set_sepc (v : Z) (r : csrs) : csrs :=
  Csrs (mstatus r) (sstatus r) (sie r) (stvec r) v (scause r) (stval r) (satp r) (stimecmp r) (mepc r) (medeleg r) (mideleg r) (menvcfg r) (mcounteren r) (pmpaddr0 r) (pmpcfg0 r) (tp r).

Definition set_scause (v : Z) (r : csrs) : csrs :=
  Csrs (mstatus r) (sstatus r) (sie r) (stvec r) (sepc r) v (stval r) (satp r) (stimecmp r) (mepc r) (medeleg r) (mideleg r) (menvcfg r) (mcounteren r) (pmpaddr0 r) (pmpcfg0 r) (tp r).

Definition set_stval (v : Z) (r : csrs) : csrs :=
  Csrs (mstatus r) (sstatus r) (sie r) (stvec r) (sepc r) (scause r) v (satp r) (stimecmp r) (mepc r) (medeleg r) (mideleg r) (menvcfg r) (mcounteren r) (pmpaddr0 r) (pmpcfg0 r) (tp r).

Definition set_satp (v : Z) (r : csrs) : csrs :=
  Csrs (mstatus r) (sstatus r) (sie r) (stvec r) (sepc r) (scause r) (stval r) v (stimecmp r) (mepc r) (medeleg r) (mideleg r) (menvcfg r) (mcounteren r) (pmpaddr0 r) (pmpcfg0 r) (tp r).

Definition set_stimecmp (v : Z) (r : csrs) : csrs :=
  Csrs (mstatus r) (sstatus r) (sie r) (stvec r) (sepc r) (scause r) (stval r) (satp r) v (mepc r) (medeleg r) (mideleg r) (menvcfg r) (mcounteren r) (pmpaddr0 r) (pmpcfg0 r) (tp r).

Definition set_mepc (v : Z) (r : csrs) : csrs :=
  Csrs (mstatus r) (sstatus r) (sie r) (stvec r) (sepc r) (scause r) (stval r) (satp r) (stimecmp r) v (medeleg r) (mideleg r) (menvcfg r) (mcounteren r) (pmpaddr0 r) (pmpcfg0 r) (tp r).

Definition set_medeleg (v : Z) (r : csrs) : csrs :=
  Csrs (mstatus r) (sstatus r) (sie r) (stvec r) (sepc r) (scause r) (stval r) (satp r) (stimecmp r) (mepc r) v (mideleg r) (menvcfg r) (mcounteren r) (pmpaddr0 r) (pmpcfg0 r) (tp r).

Definition set_mideleg (v : Z) (r : csrs) : csrs :=
  Csrs (mstatus r) (sstatus r) (sie r) (stvec r) (sepc r) (scause r) (stval r) (satp r) (stimecmp r) (mepc r) (medeleg r) v (menvcfg r) (mcounteren r) (pmpaddr0 r) (pmpcfg0 r) (tp r).

Definition set_menvcfg (v : Z) (r : csrs) : csrs :=
  Csrs (mstatus r) (sstatus r) (sie r) (stvec r) (sepc r) (scause r) (stval r) (satp r) (stimecmp r) (mepc r) (medeleg r) (mideleg r) v (mcounteren r) (pmpaddr0 r) (pmpcfg0 r) (tp r).

Definition set_mcounteren (v : Z) (r : csrs) : csrs :=
  Csrs (mstatus r) (sstatus r) (sie r) (stvec r) (sepc r) (scause r) (stval r) (satp r) (stimecmp r) (mepc r) (medeleg r) (mideleg r) (menvcfg r) v (pmpaddr0 r) (pmpcfg0 r) (tp r).

Definition set_pmpaddr0 (v : Z) (r : csrs) : csrs :=
  Csrs (mstatus r) (sstatus r) (sie r) (stvec r) (sepc r) (scause r) (stval r) (satp r) (stimecmp r) (mepc r) (medeleg r) (mideleg r) (menvcfg r) (mcounteren r) v (pmpcfg0 r) (tp r).

Definition set_pmpcfg0 (v : Z) (r : csrs) : csrs :=
  Csrs (mstatus r) (sstatus r) (sie r) (stvec r) (sepc r) (scause r) (stval r) (satp r) (stimecmp r) (mepc r) (medeleg r) (mideleg r) (menvcfg r) (mcounteren r) (pmpaddr0 r) v (tp r).

Definition set_tp (v : Z) (r : csrs) : csrs :=
  Csrs (mstatus r) (sstatus r) (sie r) (stvec r) (sepc r) (scause r) (stval r) (satp r) (stimecmp r) (mepc r) (medeleg r) (mideleg r) (menvcfg r) (mcounteren r) (pmpaddr0 r) (pmpcfg0 r) v.

Definition set_io_now (v : nat) (r : mmio) : mmio :=
  Mmio (io_in r) (io_time r) (io_wait r) v (io_log r).

Definition set_io_log (v : list (Z * Z)) (r : mmio) : mmio :=
  Mmio (io_in r) (io_time r) (io_wait r) (io_now r) v.

Definition set_mem (v : memory) (r : kstate) : kstate :=
  Kstate v (csr r) (io r) (cpu0 r) (regs r) (kmem_lock r) (freelist r) (pid_lock r) (wait_lock r) (tickslock r) (printlock r) (kernel_pagetable r) (procs r) (initproc r) (nextpid r) (ticks r) (forkret_first r).

Definition set_csr (v : csrs) (r : kstate) : kstate :=
  Kstate (mem r) v (io r) (cpu0 r) (regs r) (kmem_lock r) (freelist r) (pid_lock r) (wait_lock r) (tickslock r) (printlock r) (kernel_pagetable r) (procs r) (initproc r) (nextpid r) (ticks r) (forkret_first r).

Definition set_io (v : mmio) (r : kstate) : kstate :=
  Kstate (mem r) (csr r) v (cpu0 r) (regs r) (kmem_lock r) (freelist r) (pid_lock r) (wait_lock r) (tickslock r) (printlock r) (kernel_pagetable r) (procs r) (initproc r) (nextpid r) (ticks r) (forkret_first r).

Definition set_cpu0 (v : cpu) (r : kstate) : kstate :=
  Kstate (mem r) (csr r) (io r) v (regs r) (kmem_lock r) (freelist r) (pid_lock r) (wait_lock r) (tickslock r) (printlock r) (kernel_pagetable r) (procs r) (initproc r) (nextpid r) (ticks r) (forkret_first r).

Definition set_regs (v : context) (r : kstate) : kstate :=
  Kstate (mem r) (csr r) (io r) (cpu0 r) v (kmem_lock r) (freelist r) (pid_lock r) (wait_lock r) (tickslock r) (printlock r) (kernel_pagetable r) (procs r) (initproc r) (nextpid r) (ticks r) (forkret_first r).

Definition set_kmem_lock (v : spinlock) (r : kstate) : kstate :=
  Kstate (mem r) (csr r) (io r) (cpu0 r) (regs r) v (freelist r) (pid_lock r) (wait_lock r) (tickslock r) (printlock r) (kernel_pagetable r) (procs r) (initproc r) (nextpid r) (ticks r) (forkret_first r).

Definition set_freelist (v : Z) (r : kstate) : kstate :=
  Kstate (mem r) (csr r) (io r) (cpu0 r) (regs r) (kmem_lock r) v (pid_lock r) (wait_lock r) (tickslock r) (printlock r) (kernel_pagetable r) (procs r) (initproc r) (nextpid r) (ticks r) (forkret_first r).

Definition set_pid_lock (v : spinlock) (r : kstate) : kstate :=
  Kstate (mem r) (csr r) (io r) (cpu0 r) (regs r) (kmem_lock r) (freelist r) v (wait_lock r) (tickslock r) (printlock r) (kernel_pagetable r) (procs r) (initproc r) (nextpid r) (ticks r) (forkret_first r).

Definition set_wait_lock (v : spinlock) (r : kstate) : kstate :=
  Kstate (mem r) (csr r) (io r) (cpu0 r) (regs r) (kmem_lock r) (freelist r) (pid_lock r) v (tickslock r) (printlock r) (kernel_pagetable r) (procs r) (initproc r) (nextpid r) (ticks r) (forkret_first r).

Definition set_tickslock (v : spinlock) (r : kstate) : kstate :=
  Kstate (mem r) (csr r) (io r) (cpu0 r) (regs r) (kmem_lock r) (freelist r) (pid_lock r) (wait_lock r) v (printlock r) (kernel_pagetable r) (procs r) (initproc r) (nextpid r) (ticks r) (forkret_first r).

Definition set_printlock (v : spinlock) (r : kstate) : kstate :=
  Kstate (mem r) (csr r) (io r) (cpu0 r) (regs r) (kmem_lock r) (freelist r) (pid_lock r) (wait_lock r) (tickslock r) v (kernel_pagetable r) (procs r) (initproc r) (nextpid r) (ticks r) (forkret_first r).

Definition set_kernel_pagetable (v : Z) (r : kstate) : kstate :=
  Kstate (mem r) (csr r) (io r) (cpu0 r) (regs r) (kmem_lock r) (freelist r) (pid_lock r) (wait_lock r) (tickslock r) (printlock r) v (procs r) (initproc r) (nextpid r) (ticks r) (forkret_first r).

Definition set_procs (v : list proc) (r : kstate) : kstate :=
  Kstate (mem r) (csr r) (io r) (cpu0 r) (regs r) (kmem_lock r) (freelist r) (pid_lock r) (wait_lock r) (tickslock r) (printlock r) (kernel_pagetable r) v (initproc r) (nextpid r) (ticks r) (forkret_first r).

Definition set_initproc (v : option nat) (r : kstate) : kstate :=
  Kstate (mem r) (csr r) (io r) (cpu0 r) (regs r) (kmem_lock r) (freelist r) (pid_lock r) (wait_lock r) (tickslock r) (printlock r) (kernel_pagetable r) (procs r) v (nextpid r) (ticks r) (forkret_first r).

Definition set_nextpid (v : Z) (r : kstate) : kstate :=
  Kstate (mem r) (csr r) (io r) (cpu0 r) (regs r) (kmem_lock r) (freelist r) (pid_lock r) (wait_lock r) (tickslock r) (printlock r) (kernel_pagetable r) (procs r) (initproc r) v (ticks r) (forkret_first r).

Definition set_ticks (v : Z) (r : kstate) : kstate :=
  Kstate (mem r) (csr r) (io r) (cpu0 r) (regs r) (kmem_lock r) (freelist r) (pid_lock r) (wait_lock r) (tickslock r) (printlock r) (kernel_pagetable r) (procs r) (initproc r) (nextpid r) v (forkret_first r).

Definition set_forkret_first (v : Z) (r : kstate) : kstate :=
  Kstate (mem r) (csr r) (io r) (cpu0 r) (regs r) (kmem_lock r) (freelist r) (pid_lock r) (wait_lock r) (tickslock r) (printlock r) (kernel_pagetable r) (procs r) (initproc r) (nextpid r) (ticks r) v.

(** Computes field updates and projections, nothing else. *)
Ltac ksimpl :=
  cbn [locked lk_name lk_cpu ra sp s0 s1 s2
    s3 s4 s5 s6 s7 s8 s9 s10
    s11 c_proc c_context c_noff c_intena p_lock p_state p_chan
    p_killed p_xstate p_pid p_parent p_kstack p_sz p_pagetable p_trapframe
    p_context p_ofile p_cwd p_name mstatus sstatus sie stvec
    sepc scause stval satp stimecmp mepc medeleg mideleg
    menvcfg mcounteren pmpaddr0 pmpcfg0 tp io_in io_time io_wait
    io_now io_log mem csr io cpu0 regs kmem_lock
    freelist pid_lock wait_lock tickslock printlock kernel_pagetable procs initproc
    nextpid ticks forkret_first set_locked set_lk_cpu set_ra set_sp set_s0
    set_c_proc set_c_context set_c_noff set_c_intena set_p_lock set_p_state set_p_chan set_p_killed
    set_p_xstate set_p_pid set_p_parent set_p_kstack set_p_sz set_p_pagetable set_p_trapframe set_p_context
    set_p_ofile set_p_cwd set_p_name set_mstatus set_sstatus set_sie set_stvec set_sepc
    set_scause set_stval set_satp set_stimecmp set_mepc set_medeleg set_mideleg set_menvcfg
    set_mcounteren set_pmpaddr0 set_pmpcfg0 set_tp set_io_now set_io_log set_mem set_csr
    set_io set_cpu0 set_regs set_kmem_lock set_freelist set_pid_lock set_wait_lock set_tickslock
    set_printlock set_kernel_pagetable set_procs set_initproc set_nextpid set_ticks set_forkret_first] in *.

(** ** Locks by name *)

Definition get_lock (l : lock_id) (s : kstate) : spinlock :=
  match l with
  | L_kmem => kmem_lock s
  | L_pid => pid_lock s
  | L_wait => wait_lock s
  | L_ticks => tickslock s
  | L_print => printlock s
  | L_proc i => default zero_lock (p_lock <$> procs s !! i)
  end.

Definition set_lock (l : lock_id) (v : spinlock) (s : kstate) : kstate :=
  match l with
  | L_kmem => set_kmem_lock v s
  | L_pid => set_pid_lock v s
  | L_wait => set_wait_lock v s
  | L_ticks => set_tickslock v s
  | L_print => set_printlock v s
  | L_proc i => set_procs (alter (set_p_lock v) i (procs s)) s
  end.

(** ** The monad *)

Inductive outcome (A : Type) :=
  | Done (a : A) (s : kstate)
  | Panic (msg : string) (s : kstate)
  | Spin (s : kstate)
  | Fault (s : kstate)
  | NoFuel.
Arguments Done {A}.
Arguments Panic {A}.
Arguments Spin {A}.
Arguments Fault {A}.
Arguments NoFuel {A}.

Definition M (A : Type) : Type := kstate -> outcome A.

#[export] Instance M_ret : MRet M := fun A a s => Done a s.

#[export] Instance M_bind : MBind M := fun A B f m s =>
  match m s with
  | Done a s' => f a s'
  | Panic msg s' => Panic msg s'
  | Spin s' => Spin s'
  | Fault s' => Fault s'
  | NoFuel => NoFuel
  end.

Definition get_state : M kstate := fun s => Done s s.

Definition gets {A} (f : kstate -> A) : M A := fun s => Done (f s) s.

Definition modify (f : kstate -> kstate) : M unit := fun s => Done tt (f s).

Definition panic {A} (msg : string) : M A := fun s => Panic msg s.

Definition spin {A} : M A := fun s => Spin s.

Definition fault {A} : M A := fun s => Fault s.

(** kernel/printf.c: [assert]. *)
Definition assert (condition : bool) : M unit :=
  if negb condition then panic "assertion failed" else mret tt.

Definition when (b : bool) (m : M unit) : M unit := if b then m else mret tt.

(** [for (i = lo; i < lo + n; i++) body(i)] *)
Fixpoint for_loop (n : nat) (i : Z) (body : Z -> M unit) : M unit :=
  match n with
  | O => mret tt
  | S n' => body i ;; for_loop n' (i + 1) body
  end.

(** [for (p = proc + i; p < proc + i + n; p++) body(p)] *)
Fixpoint for_procs (n : nat) (i : nat) (body : nat -> M unit) : M unit :=
  match n with
  | O => mret tt
  | S n' => body i ;; for_procs n' (S i) body
  end.

(** ** RAM accesses

    RAM is [KERNBASE, PHYSTOP); an access outside it faults. *)

Definition in_ram (a n : Z) : bool := (KERNBASE <=? a) && (a + n <=? PHYSTOP).

Definition load64 (a : Z) : M Z := fun s =>
  if in_ram a 8 then Done (ld64 (mem s) a) s else Fault s.

Definition store64 (a v : Z) : M unit := fun s =>
  if in_ram a 8 then Done tt (set_mem (st64 (mem s) a v) s) else Fault s.

Definition load32 (a : Z) : M Z := fun s =>
  if in_ram a 4 then Done (ld 4 (mem s) a) s else Fault s.

Definition store32 (a v : Z) : M unit := fun s =>
  if in_ram a 4 then Done tt (set_mem (st 4 (mem s) a v) s) else Fault s.

Definition memset_at (dst c n : Z) : M unit := fun s =>
  if in_ram dst n then Done tt (set_mem (memset (mem s) dst c n) s) else Fault s.

(** ** Device accesses *)

Definition read_reg (a : Z) : M Z := fun s =>
  Done (io_in (io s) (io_now (io s)) a) (set_io (set_io_now (S (io_now (io s))) (io s)) s).

Definition write_reg (a v : Z) : M unit := fun s =>
  Done tt (set_io (set_io_log (io_log (io s) ++ [(a, v)]) (io s)) s).

Definition r_time : M Z := fun s =>
  Done (io_time (io s) (io_now (io s))) (set_io (set_io_now (S (io_now (io s))) (io s)) s).

(** ** Interrupt enable *)

Definition intr_get (s : kstate) : bool := negb (sstatus (csr s) .& SSTATUS_SIE =? 0).

Definition w_sstatus (x : Z) : M unit := modify (fun s => set_csr (set_sstatus x (csr s)) s).

Definition intr_on : M unit :=
  x ← gets (fun s => sstatus (csr s));
  w_sstatus (x .| SSTATUS_SIE).

Definition intr_off : M unit :=
  x ← gets (fun s => sstatus (csr s));
  w_sstatus (x .& Z.lnot SSTATUS_SIE).

(** ** The monad's laws *)

Lemma bind_Done {A B} (m : M A) (f : A -> M B) s a s' r :
  m s = Done a s' -> f a s' = r -> (x ← m; f x) s = r.
Proof. intros H1 H2. unfold mbind, M_bind. by rewrite H1. Qed.

(** The same below an existential, for goals [exists s', m s = Done r s' /\ P s']. *)
Lemma bind_Done_inv {A B} (m : M A) (f : A -> M B) s b s' :
  (x ← m; f x) s = Done b s' -> exists a s1, m s = Done a s1 /\ f a s1 = Done b s'.
Proof. unfold mbind, M_bind. destruct (m s) as [a s1| | | |]; [|done..]. eauto. Qed.

Lemma ex_bind_Done {A B} (m : M A) (f : A -> M B) s a s1 r (P : kstate -> Prop) :
  m s = Done a s1 ->
  (exists s', f a s1 = Done r s' /\ P s') -> exists s', (x ← m; f x) s = Done r s' /\ P s'.
Proof. intros H1 (s' & H2 & H3). exists s'. by rewrite (bind_Done m f s a s1 _ H1 H2). Qed.

Lemma Done_inj {A} (a b : A) s s' : Done a s = Done b s' -> a = b /\ s = s'.
Proof. by intros [=]. Qed.

Lemma bind_inv_Done {A B} (m : M A) (f : A -> M B) s b s' :
  (x ← m; f x) s = Done b s' -> exists a s1, m s = Done a s1 /\ f a s1 = Done b s'.
Proof. unfold mbind, M_bind. destruct (m s) eqn:E; try done. eauto. Qed.

Lemma bind_Panic {A B} (m : M A) (f : A -> M B) s msg s' :
  m s = Panic msg s' -> (x ← m; f x) s = Panic msg s'.
Proof. intros H. unfold mbind, M_bind. by rewrite H. Qed.

Lemma bind_Fault {A B} (m : M A) (f : A -> M B) s s' : m s = Fault s' -> (x ← m; f x) s = Fault s'.
Proof. intros H. unfold mbind, M_bind. by rewrite H. Qed.

Lemma bind_Spin {A B} (m : M A) (f : A -> M B) s s' : m s = Spin s' -> (x ← m; f x) s = Spin s'.
Proof. intros H. unfold mbind, M_bind. by rewrite H. Qed.

Lemma bind_start {A B} (m : M A) (f : A -> M B) s s' :
  m s = m s' -> (x ← m; f x) s = (x ← m; f x) s'.
Proof. intros H. unfold mbind, M_bind. by rewrite H. Qed.

Lemma bind_ext {A B} (m : M A) (f g : A -> M B) s :
  (forall a s', f a s' = g a s') -> (x ← m; f x) s = (x ← m; g x) s.
Proof. intros H. unfold mbind, M_bind. by destruct (m s). Qed.

Lemma bind_gets {A B} (g : kstate -> A) (f : A -> M B) s : (x ← gets g; f x) s = f (g s) s.
Proof. done. Qed.

Lemma bind_modify {B} g (f : unit -> M B) s : (x ← modify g; f x) s = f tt (g s).
Proof. done. Qed.

Lemma bind_ret {A B} (a : A) (f : A -> M B) s : (x ← mret a; f x) s = f a s.
Proof. done. Qed.

Lemma bind_assoc {A B C} (m : M A) (f : A -> M B) (g : B -> M C) s :
  (y ← (x ← m; f x); g y) s = (x ← m; y ← f x; g y) s.
Proof. unfold mbind, M_bind. by destruct (m s). Qed.

Lemma load64_ok a s : in_ram a 8 = true -> load64 a s = Done (ld64 (mem s) a) s.
Proof. intros H. unfold load64. by rewrite H. Qed.

Lemma store64_ok a v s :
  in_ram a 8 = true -> store64 a v s = Done tt (set_mem (st64 (mem s) a v) s).
Proof. intros H. unfold store64. by rewrite H. Qed.

Lemma memset_at_ok dst c n s :
  in_ram dst n = true -> memset_at dst c n s = Done tt (set_mem (memset (mem s) dst c n) s).
Proof. intros H. unfold memset_at. by rewrite H. Qed.

(** Runs the first command of a sequence by the lemma [tac] proves. *)
Ltac mstep := eapply bind_Done; [|cbv beta match].
Ltac estep := eapply ex_bind_Done; [|cbv beta match].
Ltac mrun :=
  cbv beta match;
  repeat first
    [ rewrite bind_gets | rewrite bind_modify | rewrite bind_ret | rewrite bind_assoc ];
  cbv beta match.

(** ** State updates *)

Lemma set_mem_twice m m' s : set_mem m (set_mem m' s) = set_mem m s.
Proof. done. Qed.

Lemma set_mem_mem m s : mem (set_mem m s) = m.
Proof. done. Qed.

Lemma get_set_lock l v s :
  (forall i, l = L_proc i -> (i < length (procs s))%nat) -> get_lock l (set_lock l v s) = v.
Proof.
  intros H. destruct l as [| | | | |i]; try done.
  cbn. rewrite list_lookup_alter_eq.
  destruct (lookup_lt_is_Some_2 (procs s) i (H i eq_refl)) as [p ->]. done.
Qed.

Lemma get_set_lock_ne l l' v s : l <> l' -> get_lock l' (set_lock l v s) = get_lock l' s.
Proof.
  intros Hne. destruct l as [| | | | |i], l' as [| | | | |j]; try done.
  cbn. rewrite list_lookup_alter_ne by congruence. done.
Qed.

Lemma set_get_lock l s : set_lock l (get_lock l s) s = s.
Proof.
  destruct s, l as [| | | | |i]; try done. cbn. unfold set_procs. cbn. f_equal.
  apply list_alter_same. intros x Hx. rewrite Hx. by destruct x.
Qed.

Lemma set_set_lock l v w s : set_lock l v (set_lock l w s) = set_lock l v s.
Proof.
  destruct s, l as [| | | | |i]; try done. cbn. unfold set_procs. cbn. f_equal.
  rewrite list_alter_alter_eq. done.
Qed.

(** ** A concrete state, for examples

    RAM and the globals are zero, interrupts are enabled, and the UART is
    always ready to send and has nothing to read. *)
Definition demo_csrs : csrs := Csrs 0 2 0 0 0 0 0 0 0 0 0 0 0 0 0 0 0.

Definition demo_io : mmio := Mmio (fun _ _ => 0x20) (fun t => Z.of_nat t) 0 0 [].

Definition demo_state : kstate :=
  Kstate ∅ demo_csrs demo_io zero_cpu zero_context zero_lock 0 zero_lock zero_lock zero_lock
    zero_lock 0 (replicate NPROC zero_proc) None 1 0 1.
