(* ===== verification/Spinlock.v ===== *)
(** * Spin locks and interrupt nesting

    kernel/spinlock.c on the one hart the kernel runs on: [push_off] and
    [pop_off] with the nesting depth [noff] and the saved enable bit [intena],
    [holding], [acquire] and [release], and [cpuid]/[mycpu] of kernel/proc.c.

    The file ends with the locks' contract: acquiring a free lock succeeds with
    interrupts off, a lock the hart holds already panics, and an
    acquire/release pair, however deeply nested, gives back the interrupt state
    it started from. *)

From S2P Require Import Prelude Riscv Memory State.

(** ** Operations *)

Definition initlock (lk : lock_id) (name : string) : M unit :=
  modify (fun s => set_lock lk (Spinlock 0 name None) s).

Definition cpuid : M Z := gets (fun s => i32 (tp (csr s))).

(** [&cpus[cpuid()]]: the array has NCPU = 1 element. *)
Definition mycpu : M nat :=
  id ← cpuid;
  if id =? 0 then mret 0%nat else fault.

Definition noff (s : kstate) : Z := c_noff (cpu0 s).

Definition intena (s : kstate) : Z := c_intena (cpu0 s).

Definition set_noff (v : Z) (s : kstate) : kstate := set_cpu0 (set_c_noff v (cpu0 s)) s.

Definition set_intena (v : Z) (s : kstate) : kstate := set_cpu0 (set_c_intena v (cpu0 s)) s.

Definition push_off : M unit :=
  old ← gets intr_get;
  intr_off ;;
  _ ← mycpu;
  n ← gets noff;
  when (n =? 0) (_ ← mycpu; modify (set_intena (c_bool old))) ;;
  _ ← mycpu;
  modify (fun s => set_noff (i32 (noff s + 1)) s).

Definition pop_off : M unit :=
  c ← mycpu;
  on ← gets intr_get;
  if (on : bool) then panic "pop_off - interruptible" else
  n ← gets noff;
  if n <? 1 then panic "pop_off" else
  modify (fun s => set_noff (i32 (noff s - 1)) s) ;;
  n ← gets noff;
  i ← gets intena;
  when ((n =? 0) && negb (i =? 0)) intr_on.

Definition holding (lk : lock_id) : M bool :=
  l ← gets (get_lock lk);
  if locked l =? 0 then mret false else
  c ← mycpu;
  mret (bool_decide (lk_cpu l = Some c)).

(** The loop on the atomic swap either stops at its first round or, with the
    only hart in it and interrupts off, never. *)
Definition acquire (lk : lock_id) : M unit :=
  push_off ;;
  h ← holding lk;
  if (h : bool) then panic "acquire" else
  old ← gets (fun s => locked (get_lock lk s));
  modify (fun s => set_lock lk (set_locked 1 (get_lock lk s)) s) ;;
  if negb (old =? 0) then spin else
  c ← mycpu;
  modify (fun s => set_lock lk (set_lk_cpu (Some c) (get_lock lk s)) s).

Definition release (lk : lock_id) : M unit :=
  h ← holding lk;
  if negb h then panic "release" else
  modify (fun s => set_lock lk (set_lk_cpu None (get_lock lk s)) s) ;;
  modify (fun s => set_lock lk (set_locked 0 (get_lock lk s)) s) ;;
  pop_off.

(** ** What the operations do to the state *)

Definition sie_off (s : kstate) : kstate :=
  set_csr (set_sstatus (sstatus (csr s) .& Z.lnot SSTATUS_SIE) (csr s)) s.

Definition sie_on (s : kstate) : kstate :=
  set_csr (set_sstatus (sstatus (csr s) .| SSTATUS_SIE) (csr s)) s.

(** The saved enable bit after an outermost [push_off]. *)
Definition touch (s : kstate) : kstate :=
  set_intena (if noff s =? 0 then c_bool (intr_get s) else intena s) s.

Definition pushed (s : kstate) : kstate := set_noff (noff s + 1) (sie_off (touch s)).

Definition popped (s : kstate) : kstate :=
  let s' := set_noff (noff s - 1) s in
  if (noff s' =? 0) && negb (intena s' =? 0) then sie_on s' else s'.

(** The hart is hart 0, the nesting depth has room, and interrupts are off
    while the depth is positive. *)
Record hart_ok (s : kstate) : Prop := {
  hart_tp : i32 (tp (csr s)) = 0;
  hart_noff : 0 <= noff s < 2 ^ 30;
  hart_intr : 0 < noff s -> intr_get s = false;
}.

Definition lock_free (l : lock_id) (s : kstate) : Prop :=
  locked (get_lock l s) = 0 /\ lk_cpu (get_lock l s) = None.

Definition lock_held (l : lock_id) (s : kstate) : Prop :=
  locked (get_lock l s) = 1 /\ lk_cpu (get_lock l s) = Some 0%nat.

Definition lock_exists (l : lock_id) (s : kstate) : Prop :=
  forall i, l = L_proc i -> (i < length (procs s))%nat.

(** The state inside the critical section of [l]. *)
Definition locked_state (l : lock_id) (s : kstate) : kstate :=
  set_lock l (Spinlock 1 (lk_name (get_lock l s)) (Some 0%nat)) (pushed s).

Definition unlocked_state (l : lock_id) (s : kstate) : kstate :=
  popped (set_lock l (Spinlock 0 (lk_name (get_lock l s)) None) s).

Fixpoint iter_M (n : nat) (m : M unit) : M unit :=
  match n with
  | O => mret tt
  | S n' => m ;; iter_M n' m
  end.

(** The state [j] levels of push_off above [s]. *)
Definition level (s : kstate) (j : nat) : kstate :=
  match j with
  | O => touch s
  | S _ => set_noff (noff s + Z.of_nat j) (sie_off (touch s))
  end.

(** ** The enable bit *)

Lemma sie_bit x : (x .& SSTATUS_SIE =? 0) = negb (Z.testbit x 1).
Proof. by apply (land_pow2_testbit x 1). Qed.

Lemma intr_get_spec s : intr_get s = Z.testbit (sstatus (csr s)) 1.
Proof. unfold intr_get. rewrite sie_bit. apply negb_involutive. Qed.

Lemma sie_testbit i : 0 <= i -> Z.testbit SSTATUS_SIE i = (i =? 1).
Proof. intros. by apply (testbit_pow2 1). Qed.

Lemma sie_off_clear x : Z.testbit (x .& Z.lnot SSTATUS_SIE) 1 = false.
Proof. rewrite Z.land_spec, Z.lnot_spec, sie_testbit by lia. apply andb_false_r. Qed.

Lemma sie_off_on x : Z.testbit x 1 = true -> (x .& Z.lnot SSTATUS_SIE) .| SSTATUS_SIE = x.
Proof.
  intros Hx. zbits. rewrite sie_testbit by lia.
  destruct (Z.eqb_spec i 1) as [->|]; [by rewrite Hx | by destruct (Z.testbit x i)].
Qed.

Lemma sie_off_off x : Z.testbit x 1 = false -> x .& Z.lnot SSTATUS_SIE = x.
Proof.
  intros Hx. zbits. rewrite sie_testbit by lia.
  destruct (Z.eqb_spec i 1) as [->|]; [by rewrite Hx | by destruct (Z.testbit x i)].
Qed.

Lemma sie_lor_on x : Z.testbit x 1 = true -> x .| SSTATUS_SIE = x.
Proof.
  intros Hx. zbits. rewrite sie_testbit by lia.
  destruct (Z.eqb_spec i 1) as [->|]; [by rewrite Hx | by destruct (Z.testbit x i)].
Qed.

Lemma intr_get_sie_off s : intr_get (sie_off s) = false.
Proof. rewrite intr_get_spec. apply sie_off_clear. Qed.

Lemma sie_on_off s : intr_get s = true -> sie_on (sie_off s) = s.
Proof.
  rewrite intr_get_spec. intros H. destruct s as [? [] ? ? ? ? ? ? ? ? ? ? ? ? ? ? ?].
  unfold sie_on, sie_off. ksimpl. rewrite sie_off_on by done. done.
Qed.

Lemma sie_off_id s : intr_get s = false -> sie_off s = s.
Proof.
  rewrite intr_get_spec. intros H. destruct s as [? [] ? ? ? ? ? ? ? ? ? ? ? ? ? ? ?].
  unfold sie_off. ksimpl. rewrite sie_off_off by done. done.
Qed.

Lemma sie_on_id s : intr_get s = true -> sie_on s = s.
Proof.
  rewrite intr_get_spec. intros H. destruct s as [? [] ? ? ? ? ? ? ? ? ? ? ? ? ? ? ?].
  unfold sie_on. ksimpl. rewrite sie_lor_on by done. done.
Qed.

(** ** Projections *)

Lemma bind_mycpu {B} (f : nat -> M B) s :
  i32 (tp (csr s)) = 0 -> (x ← mycpu; f x) s = f 0%nat s.
Proof.
  intros H. eapply bind_Done; [|done].
  unfold mycpu, cpuid. mrun. by rewrite H.
Qed.

Lemma touch_deep s : noff s <> 0 -> touch s = s.
Proof.
  intros H. unfold touch. rewrite (proj2 (Z.eqb_neq _ _) H).
  by destruct s as [? ? ? [] ? ? ? ? ? ? ? ? ? ? ? ? ?].
Qed.

Lemma touch_csr s : csr (touch s) = csr s.
Proof. done. Qed.

Lemma noff_touch s : noff (touch s) = noff s.
Proof. done. Qed.

Lemma noff_pushed s : noff (pushed s) = noff s + 1.
Proof. done. Qed.

Lemma intr_get_pushed s : intr_get (pushed s) = false.
Proof. apply (intr_get_sie_off (touch s)). Qed.

Lemma get_lock_pushed l s : get_lock l (pushed s) = get_lock l s.
Proof. by destruct l. Qed.

Lemma csr_set_lock l v s : csr (set_lock l v s) = csr s.
Proof. by destruct l. Qed.

Lemma cpu0_set_lock l v s : cpu0 (set_lock l v s) = cpu0 s.
Proof. by destruct l. Qed.

Lemma noff_set_lock l v s : noff (set_lock l v s) = noff s.
Proof. unfold noff. by rewrite cpu0_set_lock. Qed.

Lemma intr_get_set_lock l v s : intr_get (set_lock l v s) = intr_get s.
Proof. unfold intr_get. by rewrite csr_set_lock. Qed.

Lemma hart_ok_same s s' : csr s' = csr s -> cpu0 s' = cpu0 s -> hart_ok s -> hart_ok s'.
Proof.
  intros Hc Hp [? ? ?]. unfold noff, intr_get in *. split; unfold noff, intr_get;
    by rewrite ?Hc, ?Hp.
Qed.

Lemma hart_ok_set_lock l v s : hart_ok s -> hart_ok (set_lock l v s).
Proof.
  intros [? ? ?]. split; rewrite ?csr_set_lock, ?noff_set_lock, ?intr_get_set_lock; done.
Qed.

Lemma hart_ok_pushed s : hart_ok s -> noff s + 1 < 2 ^ 30 -> hart_ok (pushed s).
Proof.
  intros [Htp Hn Hi] H. split; rewrite ?noff_pushed, ?intr_get_pushed; [|lia|done].
  done.
Qed.

Lemma hart_ok_touch s : hart_ok s -> hart_ok (touch s).
Proof.
  intros [Htp Hn Hi]. split; rewrite ?touch_csr, ?noff_touch; try done.
Qed.

Lemma lock_exists_pushed l s : lock_exists l s -> lock_exists l (pushed s).
Proof. done. Qed.

(** ** push_off and pop_off *)

Lemma push_off_ok s : hart_ok s -> push_off s = Done tt (pushed s).
Proof.
  intros [Htp Hn _]. unfold push_off, intr_off, w_sstatus. mrun. fold (sie_off s).
  rewrite bind_mycpu by done. mrun. change (noff (sie_off s)) with (noff s).
  unfold pushed. destruct (Z.eqb_spec (noff s) 0) as [E|E]; cbn [when]; mrun.
  all: rewrite ?bind_mycpu by done; mrun; rewrite ?bind_mycpu by done.
  - unfold touch. rewrite E. unfold modify. do 2 f_equal.
    change (i32 (noff s + 1) = 0 + 1). by rewrite E.
  - rewrite touch_deep by done. unfold modify. do 2 f_equal.
    apply i32_small. cbn in *. lia.
Qed.

Lemma pop_off_ok s :
  i32 (tp (csr s)) = 0 -> intr_get s = false -> 1 <= noff s <= 2 ^ 30 ->
  pop_off s = Done tt (popped s).
Proof.
  intros Htp Hi Hge. unfold pop_off. rewrite bind_mycpu by done. mrun.
  rewrite Hi. mrun. rewrite (proj2 (Z.ltb_ge _ _)) by lia. mrun.
  rewrite i32_small by lia. unfold popped. cbv zeta. by case_match.
Qed.

Lemma set_noff_noff s v w : w = noff s -> set_noff w (set_noff v s) = s.
Proof. intros ->. by destruct s as [? ? ? [] ? ? ? ? ? ? ? ? ? ? ? ? ?]. Qed.

Lemma set_noff_id s v : v = noff s -> set_noff v s = s.
Proof. intros ->. by destruct s as [? ? ? [] ? ? ? ? ? ? ? ? ? ? ? ? ?]. Qed.

Lemma pushed_popped s : hart_ok s -> popped (pushed s) = touch s.
Proof.
  intros [_ Hn Hi]. unfold popped. cbv zeta. unfold pushed.
  rewrite set_noff_noff by (change (noff (sie_off (touch s))) with (noff (touch s));
    rewrite noff_touch; unfold noff; cbn; lia).
  change (noff (sie_off (touch s))) with (noff (touch s)). rewrite noff_touch.
  change (intena (sie_off (touch s))) with (intena (touch s)).
  destruct (Z.eqb_spec (noff s) 0) as [H0|H0]; cbn [andb].
  - unfold touch. rewrite H0. cbn [Z.eqb]. change (intena (set_intena (c_bool (intr_get s)) s)) with (c_bool (intr_get s)).
    destruct (intr_get s) eqn:E; cbn [c_bool negb Z.eqb].
    + by apply sie_on_off.
    + by apply sie_off_id.
  - rewrite touch_deep by done. apply sie_off_id, Hi. lia.
Qed.

(** ** holding, acquire and release *)

Lemma holding_held l s : i32 (tp (csr s)) = 0 -> lock_held l s -> holding l s = Done true s.
Proof.
  intros Htp [H1 H2]. unfold holding. mrun. rewrite H1. cbn [Z.eqb].
  rewrite bind_mycpu by done. by rewrite H2.
Qed.

Lemma holding_free l s : locked (get_lock l s) = 0 -> holding l s = Done false s.
Proof. intros H1. unfold holding. mrun. by rewrite H1. Qed.

Lemma holding_spec l s :
  i32 (tp (csr s)) = 0 ->
  holding l s = Done (negb (locked (get_lock l s) =? 0)
                      && bool_decide (lk_cpu (get_lock l s) = Some 0%nat)) s.
Proof.
  intros Htp. unfold holding. mrun. case_match; [done|].
  by rewrite bind_mycpu by done.
Qed.

Lemma acquire_ok l s :
  hart_ok s -> lock_exists l s -> locked (get_lock l s) = 0 ->
  acquire l s = Done tt (locked_state l s).
Proof.
  intros Hh Hex Hf. unfold acquire. mstep; [by apply push_off_ok|].
  mstep. { apply holding_free. by rewrite get_lock_pushed. }
  mrun. rewrite get_lock_pushed, Hf. cbn [Z.eqb negb].
  rewrite bind_mycpu by (rewrite csr_set_lock; apply Hh).
  unfold modify. rewrite get_set_lock by by apply lock_exists_pushed.
  by rewrite set_set_lock.
Qed.

Lemma release_ok l s :
  i32 (tp (csr s)) = 0 -> intr_get s = false -> 1 <= noff s <= 2 ^ 30 ->
  lock_exists l s -> lock_held l s ->
  release l s = Done tt (unlocked_state l s).
Proof.
  intros Htp Hi Hn Hex Hl. unfold release.
  mstep; [by apply holding_held|]. cbn [negb]. mrun.
  rewrite get_set_lock by done. rewrite set_set_lock. unfold set_locked, set_lk_cpu. cbn.
  apply pop_off_ok; by rewrite ?csr_set_lock, ?intr_get_set_lock, ?noff_set_lock.
Qed.

Lemma locked_state_held l s : lock_exists l s -> lock_held l (locked_state l s).
Proof.
  intros H. unfold lock_held, locked_state.
  by rewrite get_set_lock by by apply lock_exists_pushed.
Qed.

Lemma hart_ok_locked_state l s : hart_ok s -> noff s + 1 < 2 ^ 30 -> hart_ok (locked_state l s).
Proof. intros. by apply hart_ok_set_lock, hart_ok_pushed. Qed.

Lemma unlocked_locked l s :
  hart_ok s -> lock_exists l s -> lock_free l s -> unlocked_state l (locked_state l s) = touch s.
Proof.
  intros Hh Hex [H1 H2]. unfold unlocked_state, locked_state.
  rewrite get_set_lock by by apply lock_exists_pushed. rewrite set_set_lock. cbn.
  replace (Spinlock 0 (lk_name (get_lock l s)) None) with (get_lock l (pushed s)).
  - rewrite set_get_lock. by apply pushed_popped.
  - rewrite get_lock_pushed. destruct (get_lock l s). cbn in *. by subst.
Qed.

Lemma get_lock_touch l s : get_lock l (touch s) = get_lock l s.
Proof. by destruct l. Qed.

Lemma intr_get_touch s : intr_get (touch s) = intr_get s.
Proof. unfold intr_get. by rewrite touch_csr. Qed.

Lemma intr_get_popped s :
  intr_get (popped s) = (noff s =? 1) && negb (intena s =? 0) || intr_get s.
Proof.
  unfold popped. cbv zeta. change (noff (set_noff (noff s - 1) s)) with (noff s - 1).
  change (intena (set_noff (noff s - 1) s)) with (intena s).
  replace (noff s - 1 =? 0) with (noff s =? 1)
    by (destruct (Z.eqb_spec (noff s) 1), (Z.eqb_spec (noff s - 1) 0); lia || done).
  destruct ((noff s =? 1) && negb (intena s =? 0)); [|done].
  rewrite intr_get_spec. unfold sie_on. cbn [csr set_csr sstatus set_sstatus].
  rewrite Z.lor_spec, sie_testbit by lia. apply orb_true_r.
Qed.

Lemma release_locked l s :
  hart_ok s -> lock_exists l s -> locked (get_lock l s) = 0 ->
  release l (locked_state l s) = Done tt (unlocked_state l (locked_state l s)).
Proof.
  intros Hh Hex Hf. pose proof (hart_noff s Hh).
  apply release_ok; unfold locked_state;
    rewrite ?csr_set_lock, ?intr_get_set_lock, ?noff_set_lock, ?noff_pushed.
  - apply Hh.
  - apply intr_get_pushed.
  - lia.
  - intros i ->. cbn. rewrite length_alter. by apply (lock_exists_pushed (L_proc i) s).
  - by apply locked_state_held.
Qed.

Lemma touch_touch s : touch (touch s) = touch s.
Proof.
  unfold touch at 1. rewrite noff_touch, intr_get_touch.
  unfold touch. by destruct (noff s =? 0).
Qed.

Lemma noff_level s j : noff (level s j) = noff s + Z.of_nat j.
Proof. destruct j; cbn [level]; [rewrite noff_touch; lia | done]. Qed.

Lemma csr_level_tp s j : tp (csr (level s j)) = tp (csr s).
Proof. by destruct j. Qed.

Lemma hart_ok_level s j : hart_ok s -> noff s + Z.of_nat j < 2 ^ 30 -> hart_ok (level s j).
Proof.
  intros Hh Hj. destruct j as [|j]; [by apply hart_ok_touch|].
  split; rewrite ?csr_level_tp, ?noff_level; [apply Hh | destruct Hh; lia |].
  intros _. apply (intr_get_sie_off (touch s)).
Qed.

Lemma pushed_level s j : hart_ok s -> pushed (level s j) = level s (S j).
Proof.
  intros Hh. unfold pushed. rewrite noff_level.
  assert (E : sie_off (touch (level s j)) = set_noff (noff s + Z.of_nat j) (sie_off (touch s))).
  { destruct j as [|j]; cbn [level].
    - rewrite touch_touch. symmetry. apply set_noff_id.
      change (noff (sie_off (touch s))) with (noff (touch s)). rewrite noff_touch. lia.
    - rewrite touch_deep by (change (noff (set_noff ?v ?r)) with v; destruct Hh; lia).
      rewrite sie_off_id; [done|]. apply (intr_get_sie_off (touch s)). }
  rewrite E. replace (level s (S j)) with (set_noff (noff s + Z.of_nat j + 1) (sie_off (touch s)));
    [done|]. cbn [level]. f_equal. lia.
Qed.

Lemma push_levels s j n :
  hart_ok s -> noff s + Z.of_nat (j + n) < 2 ^ 30 ->
  iter_M n push_off (level s j) = Done tt (level s (j + n)).
Proof.
  intros Hh. revert j; induction n as [|n IH]; intros j Hj; cbn [iter_M].
  - by rewrite Nat.add_0_r.
  - mstep; [apply push_off_ok, hart_ok_level; [done|lia]|].
    rewrite pushed_level, IH by (done || lia). do 2 f_equal. lia.
Qed.

Lemma popped_level s j : hart_ok s -> popped (level s (S j)) = level s j.
Proof.
  intros Hh. destruct j as [|j].
  - replace (level s 1) with (pushed s) by done. by apply pushed_popped.
  - unfold popped. cbv zeta. rewrite noff_level.
    change (noff (set_noff ?v ?r)) with v.
    rewrite (proj2 (Z.eqb_neq _ _)) by (destruct Hh; lia). cbn [andb level].
    replace (noff s + Z.of_nat (S j)) with (noff s + Z.of_nat (S (S j)) - 1) by lia. done.
Qed.

Lemma pop_levels s j n :
  hart_ok s -> noff s + Z.of_nat (j + n) < 2 ^ 30 ->
  iter_M n pop_off (level s (j + n)) = Done tt (level s j).
Proof.
  intros Hh. induction n as [|n IH]; intros Hj; cbn [iter_M].
  - by rewrite Nat.add_0_r.
  - rewrite Nat.add_succ_r. mstep; [apply pop_off_ok|].
    + rewrite csr_level_tp. apply Hh.
    + apply (intr_get_sie_off (touch s)).
    + rewrite noff_level. destruct Hh. lia.
    + rewrite popped_level by done. apply IH. lia.
Qed.

(** ** Updates a critical section makes

    An update of the state that touches neither the hart nor the lock's fields
    commutes with leaving the critical section. *)
Class Independent (l : lock_id) (u : kstate -> kstate) : Prop := {
  ind_get : forall s, get_lock l (u s) = get_lock l s;
  ind_length : forall s, length (procs (u s)) = length (procs s);
  ind_csr : forall s, csr (u s) = csr s;
  ind_cpu0 : forall s, cpu0 (u s) = cpu0 s;
  ind_set_lock : forall v s, set_lock l v (u s) = u (set_lock l v s);
  ind_set_csr : forall v s, set_csr v (u s) = u (set_csr v s);
  ind_set_cpu0 : forall v s, set_cpu0 v (u s) = u (set_cpu0 v s);
}.

#[export] Instance independent_mem l m : Independent l (set_mem m).
Proof. split; intros; by destruct l. Qed.

#[export] Instance independent_freelist l v : Independent l (set_freelist v).
Proof. split; intros; by destruct l. Qed.

#[export] Instance independent_nextpid l v : Independent l (set_nextpid v).
Proof. split; intros; by destruct l. Qed.

#[export] Instance independent_io l v : Independent l (set_io v).
Proof. split; intros; by destruct l. Qed.

#[export] Instance independent_id l : Independent l (fun s => s).
Proof. by split. Qed.

#[export] Instance independent_compose l u v :
  Independent l u -> Independent l v -> Independent l (fun s => u (v s)).
Proof.
  intros [A1 A2 A3 A4 A5 A6 A7] [B1 B2 B3 B4 B5 B6 B7].
  split; intros; congruence.
Qed.

Lemma noff_independent l u `{!Independent l u} s : noff (u s) = noff s.
Proof. unfold noff. by rewrite (ind_cpu0 (l := l)). Qed.

Lemma intr_get_independent l u `{!Independent l u} s : intr_get (u s) = intr_get s.
Proof. unfold intr_get. by rewrite (ind_csr (l := l)). Qed.

Lemma popped_independent l u `{!Independent l u} s : popped (u s) = u (popped s).
Proof.
  unfold popped. cbv zeta. rewrite (noff_independent l u).
  assert (E : forall v, set_noff v (u s) = u (set_noff v s)).
  { intros v. unfold set_noff. by rewrite (ind_cpu0 (l := l)), (ind_set_cpu0 (l := l)). }
  rewrite !E, (noff_independent l u). unfold intena. rewrite (ind_cpu0 (l := l)).
  case_match; [|done]. unfold sie_on.
  by rewrite (ind_csr (l := l)), (ind_set_csr (l := l)).
Qed.

Lemma unlocked_independent l u `{!Independent l u} s :
  unlocked_state l (u s) = u (unlocked_state l s).
Proof.
  unfold unlocked_state. rewrite ind_get, ind_set_lock. by apply (popped_independent l).
Qed.

(** Leaving a critical section whose body made the update [u]. *)
Lemma release_section l u `{!Independent l u} s :
  hart_ok s -> lock_exists l s -> lock_free l s ->
  release l (u (locked_state l s)) = Done tt (u (touch s)).
Proof.
  intros Hh Hex Hf. rewrite <- (unlocked_locked l s) by done.
  rewrite <- unlocked_independent by done.
  pose proof (hart_noff s Hh).
  apply release_ok; unfold locked_state;
    rewrite ?(ind_csr (l := l)), ?(intr_get_independent l u), ?(noff_independent l u),
      ?csr_set_lock, ?intr_get_set_lock, ?noff_set_lock, ?noff_pushed.
  - apply Hh.
  - apply intr_get_pushed.
  - lia.
  - intros i ->. rewrite (ind_length (l := L_proc i)). cbn. rewrite length_alter.
    by apply (lock_exists_pushed (L_proc i) s).
  - unfold lock_held. rewrite ind_get. by apply locked_state_held.
Qed.

(** A lock somebody has: its holder panics, anybody else spins. *)
Lemma acquire_taken l s :
  hart_ok s -> locked (get_lock l s) <> 0 ->
  acquire l s = if bool_decide (lk_cpu (get_lock l s) = Some 0%nat) then Panic "acquire" (pushed s)
                else Spin (set_lock l (set_locked 1 (get_lock l s)) (pushed s)).
Proof.
  intros Hh H0. unfold acquire. mstep; [by apply push_off_ok|].
  mstep; [apply holding_spec; apply Hh|].
  rewrite get_lock_pushed. rewrite (proj2 (Z.eqb_neq _ _) H0). cbn [negb andb].
  case_bool_decide; [done|]. mrun. rewrite get_lock_pushed.
  by rewrite (proj2 (Z.eqb_neq _ _) H0).
Qed.

(** ** The contract of the locks *)

(** [acquire], on every branch.  On a lock that is not locked it returns,
    and then the hart holds the lock, interrupts are off and the nesting depth
    is one more; on a lock this hart holds it panics; on a lock another hart
    would hold it spins. *)
Theorem acquire_cases l s :
  hart_ok s -> lock_exists l s ->
  match acquire l s with
  | Done _ s' =>
      locked (get_lock l s) = 0 /\ lock_held l s' /\ intr_get s' = false
      /\ noff s' = noff s + 1 /\ forall l', l' <> l -> get_lock l' s' = get_lock l' s
  | Panic msg s' =>
      msg = "acquire" /\ locked (get_lock l s) <> 0 /\ lk_cpu (get_lock l s) = Some 0%nat
  | Spin _ => locked (get_lock l s) <> 0 /\ lk_cpu (get_lock l s) <> Some 0%nat
  | Fault _ | NoFuel => False
  end.
Proof.
  intros Hh Hex. destruct (Z.eqb_spec (locked (get_lock l s)) 0) as [H0|H0].
  - rewrite acquire_ok by done. unfold locked_state at 2 3 4.
    rewrite intr_get_set_lock, noff_set_lock. split_and!; try done.
    + by apply locked_state_held.
    + apply intr_get_pushed.
    + intros l' Hne. rewrite get_set_lock_ne by done. apply get_lock_pushed.
  - rewrite acquire_taken by done. by case_bool_decide.
Qed.

(** A critical section gives the machine back as it was: releasing the lock
    just acquired restores every field of the state, the interrupt-enable bit
    and the nesting depth included; only the saved bit [intena] may have been
    overwritten, by an outermost acquire. *)
Theorem acquire_release_restores l s :
  hart_ok s -> lock_exists l s -> lock_free l s ->
  exists s', acquire l s = Done tt s' /\ release l s' = Done tt (touch s)
             /\ intr_get (touch s) = intr_get s /\ noff (touch s) = noff s.
Proof.
  intros Hh Hex Hf. exists (locked_state l s).
  split; [by apply acquire_ok; destruct Hf|].
  split; [|by rewrite intr_get_touch, noff_touch].
  rewrite <- (unlocked_locked l s) by done. apply release_locked; by destruct Hf.
Qed.

(** push_off and pop_off nest.  After [n] calls of push_off, any [k < n]
    calls of pop_off leave interrupts off, and [n] calls give back the
    interrupt-enable bit and the depth of the start. *)
Theorem push_pop_nest n k s :
  hart_ok s -> noff s + Z.of_nat n < 2 ^ 30 -> (k <= n)%nat ->
  exists s1 s2, iter_M n push_off s = Done tt s1 /\ iter_M k pop_off s1 = Done tt s2
    /\ noff s2 = noff s + Z.of_nat n - Z.of_nat k
    /\ ((k < n)%nat -> intr_get s2 = false)
    /\ (k = n -> csr s2 = csr s).
Proof.
  intros Hh Hn Hk. destruct n as [|n].
  { exists s, s. assert (k = 0%nat) as -> by lia. cbn. split_and!; done || lia. }
  exists (level s (S n)), (level s (S n - k)). split_and!.
  - cbn [iter_M]. mstep; [by apply push_off_ok|].
    replace (pushed s) with (level s 1); [|done]. 
    change (S n) with (1 + n)%nat. apply push_levels; [done|lia].
  - replace (level s (S n)) with (level s ((S n - k) + k)) by (f_equal; lia).
    apply pop_levels; [done|lia].
  - rewrite noff_level. lia.
  - intros H. destruct (S n - k)%nat eqn:E; [lia|]. apply (intr_get_sie_off (touch s)).
  - intros ->. replace (S n - S n)%nat with 0%nat by lia. apply touch_csr.
Qed.

(** ** Witnesses *)

Lemma demo_hart : hart_ok demo_state.
Proof. split; [done | vm_compute; intuition congruence | done]. Qed.

Lemma acquire_cases_witness :
  hart_ok demo_state /\ lock_exists L_kmem demo_state /\
  match acquire L_kmem demo_state with
  | Done _ s' => lock_held L_kmem s' /\ noff s' = 1
  | _ => False
  end.
Proof.
  assert (Hex : lock_exists L_kmem demo_state) by by intros i.
  split; [apply demo_hart|]. split; [exact Hex|].
  pose proof (acquire_cases L_kmem demo_state demo_hart Hex) as H.
  destruct (acquire L_kmem demo_state); vm_compute in H |- *; intuition congruence.
Defined.

Lemma acquire_release_restores_witness :
  exists s1 s2, acquire (L_proc 3) demo_state = Done tt s1 /\ release (L_proc 3) s1 = Done tt s2
    /\ intr_get s2 = true.
Proof.
  destruct (acquire_release_restores (L_proc 3) demo_state demo_hart) as (s' & H1 & H2 & H3 & _).
  - intros i [= <-]. cbn. lia.
  - done.
  - exists s', (touch demo_state). split_and!; done.
Defined.

Lemma push_pop_nest_witness :
  exists s1 s2, iter_M 3 push_off demo_state = Done tt s1 /\ iter_M 2 pop_off s1 = Done tt s2
    /\ noff s2 = 1 /\ intr_get s2 = false.
Proof.
  destruct (push_pop_nest 3 2 demo_state demo_hart) as (s1 & s2 & H1 & H2 & H3 & H4 & _).
  - done.
  - lia.
  - exists s1, s2. split_and!; [done|done|exact H3|apply H4; lia].
Defined.
