(* ===== verification/Kalloc.v ===== *)
(** * The physical page allocator

    kernel/mm/kalloc.c: the free pages are linked through their first word,
    [kmem.freelist] holding the address of the first.  The operations are
    [pmm_init], [freerange], [free_page], [alloc_page] and [alloc_pages], with
    the file's self-test.

    The abstract state of the allocator is the list of its free pages
    ([pool s l]); [alloc_page] is specified to pop it and [free_page] to push. *)

From S2P Require Import Prelude Riscv Memory State Spinlock.

Section kalloc.
Context `{L : Linker}.

(** ** Operations *)

Definition free_page (page : Z) : M unit :=
  if negb (page mod PGSIZE =? 0) || (page <? sym_end) || (PHYSTOP <=? page)
  then panic "free_page" else
  memset_at page 1 PGSIZE ;;
  acquire L_kmem ;;
  f ← gets freelist;
  store64 page f ;;
  modify (set_freelist page) ;;
  release L_kmem.

(** [for (; p + PGSIZE <= pa_end; p += PGSIZE) free_page(p);] *)
Fixpoint freerange_loop (fuel : nat) (p pa_end : Z) : M unit :=
  match fuel with
  | O => fun _ => NoFuel
  | S fuel' =>
      if p + PGSIZE <=? pa_end
      then free_page p ;; freerange_loop fuel' (p + PGSIZE) pa_end
      else mret tt
  end.

Definition freerange (pa_start pa_end : Z) : M unit :=
  let p := PGROUNDUP pa_start in
  freerange_loop (S (Z.to_nat ((pa_end - p) / PGSIZE))) p pa_end.

Definition pmm_init : M unit :=
  initlock L_kmem "kmem" ;;
  freerange sym_end PHYSTOP.

Definition alloc_page : M Z :=
  acquire L_kmem ;;
  r ← gets freelist;
  when (negb (r =? 0)) (next ← load64 r; modify (set_freelist next)) ;;
  release L_kmem ;;
  when (negb (r =? 0)) (memset_at r 5 PGSIZE) ;;
  if r =? 0 then panic "alloc_page" else mret r.

(** [for (i = 1; i < n; i++)] of [alloc_pages]: [k] rounds are left. *)
Fixpoint alloc_pages_loop (k : nat) (r : Z) : M Z :=
  match k with
  | O => mret r
  | S k' =>
      f ← gets freelist;
      if f =? 0 then mret 0 else
      next ← load64 f;
      modify (set_freelist next) ;;
      alloc_pages_loop k' r
  end.

Definition alloc_pages (n : Z) : M Z :=
  r ← gets freelist;
  alloc_pages_loop (Z.to_nat (n - 1)) r.

Definition test_physical_memory : M unit :=
  page1 ← alloc_page;
  page2 ← alloc_page;
  assert (negb (page1 =? page2)) ;;
  assert (page1 .& 0xFFF =? 0) ;;
  store32 page1 0x12345678 ;;
  v ← load32 page1;
  assert (v =? 0x12345678) ;;
  free_page page1 ;;
  page3 ← alloc_page;
  free_page page2 ;;
  free_page page3.

(** ** The abstract free list *)

(** A page the allocator may hold: whole, aligned, between [end] and PHYSTOP. *)
Definition page_ok (p : Z) : Prop :=
  p mod PGSIZE = 0 /\ sym_end <= p /\ p + PGSIZE <= PHYSTOP.

#[global] Instance page_ok_dec p : Decision (page_ok p).
Proof. unfold page_ok. apply _. Defined.

(** [flist m h l]: the list that starts at [h] in memory [m] links the pages [l]. *)
Fixpoint flist (m : memory) (h : Z) (l : list Z) : Prop :=
  match l with
  | [] => h = 0
  | p :: l' => h = p /\ page_ok p /\ flist m (ld64 m p) l'
  end.

(** The allocator is usable and its free pages are [l]. *)
Record pool (s : kstate) (l : list Z) : Prop := {
  pool_list : flist (mem s) (freelist s) l;
  pool_nodup : NoDup l;
  pool_hart : hart_ok s;
  pool_lock : lock_free L_kmem s;
}.

(** The abstract allocator: a stack of pages. *)
Definition spec_alloc (l : list Z) : option (Z * list Z) :=
  match l with [] => None | p :: l' => Some (p, l') end.

Definition spec_free (p : Z) (l : list Z) : list Z := p :: l.

(** [only_page p s s']: memory differs at most inside page [p]. *)
Definition only_page (p : Z) (s s' : kstate) : Prop :=
  forall a, ~ (p <= a < p + PGSIZE) -> ldb (mem s') a = ldb (mem s) a.

(** Clients of the allocator: they allocate a page, or free one they own. *)
Inductive client_step : kstate * list Z -> kstate * list Z -> Prop :=
  | client_alloc s owned p s' :
      alloc_page s = Done p s' -> client_step (s, owned) (s', p :: owned)
  | client_free s o1 p o2 s' :
      free_page p s = Done tt s' -> client_step (s, o1 ++ p :: o2) (s', o1 ++ o2).

(** The state without RAM, the free list and the saved enable bit. *)
Definition erase (s : kstate) : kstate := set_mem ∅ (set_freelist 0 (set_intena 0 s)).

(** Effects on the state. *)
Definition alloced (p : Z) (s : kstate) : kstate :=
  set_mem (memset (mem s) p 5 PGSIZE) (set_freelist (ld64 (mem s) p) (touch s)).

Definition freed (p : Z) (s : kstate) : kstate :=
  set_mem (st64 (memset (mem s) p 1 PGSIZE) p (freelist s)) (set_freelist p (touch s)).

(** The pages [lo, lo + PGSIZE, ...], [n] of them. *)
Fixpoint pages_from (lo : Z) (n : nat) : list Z :=
  match n with
  | O => []
  | S n' => lo :: pages_from (lo + PGSIZE) n'
  end.

(** ** Free-list lemmas *)

Context {LO : LinkerOk}.

Lemma page_ok_pos p : page_ok p -> 0 < p < 2 ^ 40.
Proof.
  intros (_ & H1 & H2). pose proof end_above. pose proof etext_above.
  unfold PHYSTOP, KERNBASE, PGSIZE in *. lia.
Qed.

Lemma page_ok_ram p off n :
  page_ok p -> 0 <= off -> off + n <= PGSIZE -> in_ram (p + off) n = true.
Proof.
  intros (_ & H1 & H2) ? ?. pose proof end_above. pose proof etext_above.
  unfold in_ram. rewrite andb_true_iff, !Z.leb_le. lia.
Qed.

Lemma page_ok_ram0 p n : page_ok p -> n <= PGSIZE -> in_ram p n = true.
Proof. intros Hp Hn. rewrite <- (Z.add_0_r p). apply page_ok_ram; done || lia. Qed.

Lemma flist_ext m m' h l :
  (forall p, p ∈ l -> ld64 m p = ld64 m' p) -> flist m h l -> flist m' h l.
Proof.
  revert h; induction l as [|p l IH]; intros h Hm; cbn [flist]; [done|].
  intros (-> & Hp & Hl). split; [done|]. split; [done|].
  rewrite <- Hm by set_solver. apply IH; [|done]. intros q Hq. apply Hm. set_solver.
Qed.

Lemma flist_page_ok m h l p : flist m h l -> p ∈ l -> page_ok p.
Proof.
  revert h; induction l as [|q l IH]; intros h; cbn [flist]; [set_solver|].
  intros (-> & Hp & Hl) [->|Hin]%elem_of_cons; [done|]. by eapply IH.
Qed.

Lemma flist_head_range m h l : flist m h l -> 0 <= h < 2 ^ 64.
Proof.
  destruct l as [|p l]; cbn [flist]; [lia|].
  intros (-> & Hp & _). pose proof (page_ok_pos p Hp). lia.
Qed.

Lemma flist_nil m l : flist m 0 l -> l = [].
Proof.
  destruct l as [|p l]; [done|]. intros (<- & Hp & _).
  pose proof (page_ok_pos 0 Hp). lia.
Qed.

Lemma flist_functional m h l l' : flist m h l -> flist m h l' -> l = l'.
Proof.
  revert h l'; induction l as [|p l IH]; intros h l'; cbn [flist].
  - intros -> H. symmetry. by eapply flist_nil.
  - intros (-> & Hp & Hl). destruct l' as [|p' l']; cbn [flist].
    + intros ->. pose proof (page_ok_pos 0 Hp). lia.
    + intros (<- & _ & Hl'). f_equal. by eapply IH.
Qed.

Lemma pool_page_ok s l p : pool s l -> p ∈ l -> page_ok p.
Proof. intros [H _ _ _]. by eapply flist_page_ok. Qed.

Lemma hart_ok_kalloc m f s : hart_ok s -> hart_ok (set_mem m (set_freelist f (touch s))).
Proof. intros H. by destruct (hart_ok_touch s H). Qed.

Lemma lock_free_kalloc l m f s :
  lock_free l s -> lock_free l (set_mem m (set_freelist f (touch s))).
Proof.
  intros [H1 H2]. unfold lock_free.
  rewrite (ind_get (l := l) (u := set_mem m)), (ind_get (l := l) (u := set_freelist f)).
  by rewrite get_lock_touch.
Qed.

(** ** alloc_page and free_page on the pool *)

Lemma pool_alloced s p l : pool s (p :: l) -> pool (alloced p s) l.
Proof.
  intros [(Hh & Hp & Hl) Hnd Hhart Hlk]. apply NoDup_cons in Hnd as [Hnin Hnd].
  split; [|done|by apply hart_ok_kalloc|by apply lock_free_kalloc].
  cbn. eapply flist_ext; [|exact Hl]. intros q Hq.
  assert (page_ok q) as [Hq1 _] by by eapply flist_page_ok.
  rewrite <- (Z.add_0_r q). symmetry. apply ld64_memset_page; try done; [apply Hp|].
  intros ->. done.
Qed.

Lemma pool_freed s p l : pool s l -> page_ok p -> p ∉ l -> pool (freed p s) (p :: l).
Proof.
  intros [Hl Hnd Hhart Hlk] Hp Hnin.
  split; [|by apply NoDup_cons|by apply hart_ok_kalloc|by apply lock_free_kalloc].
  cbn. split; [done|]. split; [done|].
  rewrite ld64_st64_same by by eapply flist_head_range.
  eapply flist_ext; [|exact Hl]. intros q Hq.
  assert (page_ok q) as [Hq1 _] by by eapply flist_page_ok.
  assert (p <> q) by by intros ->.
  rewrite <- (Z.add_0_r q), <- (Z.add_0_r p). symmetry.
  rewrite ld64_st64_page by (done || apply Hp). rewrite (Z.add_0_r p).
  apply ld64_memset_page; try done. apply Hp.
Qed.


Lemma kalloc_lock_exists s : lock_exists L_kmem s.
Proof. by intros i. Qed.

(** A store into an owned page does not disturb the pool. *)
Lemma pool_set_mem s l m :
  pool s l -> (forall p, p ∈ l -> ld64 m p = ld64 (mem s) p) -> pool (set_mem m s) l.
Proof.
  intros [Hl Hnd Hhart Hlk] Hm. split; [|done|by apply (hart_ok_same s)|done].
  cbn. eapply flist_ext; [|exact Hl]. intros p Hp. by rewrite Hm.
Qed.

Lemma pool_store s l p n off v :
  pool s l -> page_ok p -> p ∉ l -> 0 <= off -> off + Z.of_nat n <= PGSIZE ->
  pool (set_mem (st n (mem s) (p + off) v) s) l.
Proof.
  intros Hpool [Hp _] Hnin H1 H2. apply pool_set_mem; [done|]. intros q Hq.
  destruct (pool_page_ok s l q Hpool Hq) as [Hq' _].
  apply ld_st_other. assert (p <> q) as Hne by by intros ->.
  destruct (pages_disjoint p q Hp Hq' Hne); unfold PGSIZE in *; lia.
Qed.

Lemma freelist_alloced p s : freelist (alloced p s) = ld64 (mem s) p.
Proof. done. Qed.

Lemma alloc_page_head s p :
  hart_ok s -> lock_free L_kmem s -> page_ok p -> freelist s = p ->
  alloc_page s = Done p (alloced p s).
Proof.
  intros Hhart Hlk Hp Hh. pose proof (page_ok_pos p Hp). unfold alloc_page.
  mstep; [by apply acquire_ok; [| |apply Hlk]|]. mrun.
  change (freelist (locked_state L_kmem s)) with (freelist s). rewrite Hh.
  rewrite (proj2 (Z.eqb_neq _ _)) by lia. cbn [negb when]. mrun.
  mstep; [apply load64_ok, page_ok_ram0; done|]. mrun.
  change (mem (locked_state L_kmem s)) with (mem s).
  mstep; [by apply (release_section L_kmem (set_freelist (ld64 (mem s) p)))|].
  mstep; [apply memset_at_ok, page_ok_ram0; done|]. done.
Qed.

Lemma alloc_page_pop s p l : pool s (p :: l) -> alloc_page s = Done p (alloced p s).
Proof. intros [(Hh & Hp & Hl) Hnd Hhart Hlk]. by apply alloc_page_head. Qed.

Lemma alloc_page_empty s : pool s [] -> alloc_page s = Panic "alloc_page" (touch s).
Proof.
  intros [Hh Hnd Hhart Hlk]. cbn in Hh. unfold alloc_page.
  mstep; [by apply acquire_ok; [| |apply Hlk]|]. mrun.
  change (freelist (locked_state L_kmem s)) with (freelist s). rewrite Hh.
  cbn [Z.eqb negb when]. mrun.
  mstep; [by apply (release_section L_kmem (fun s => s))|]. mrun. done.
Qed.

Lemma free_page_bad s p :
  ~ page_ok p -> free_page p s = Panic "free_page" s.
Proof.
  intros Hp. unfold free_page.
  replace (negb (p mod PGSIZE =? 0) || (p <? sym_end) || (PHYSTOP <=? p)) with true; [done|].
  symmetry. apply not_false_iff_true. intros H. b2p. apply Hp.
  split_and!; try done. unfold PHYSTOP, KERNBASE, PGSIZE in *. dmlia.
Qed.

Lemma free_page_link s p :
  hart_ok s -> lock_free L_kmem s -> page_ok p ->
  (acquire L_kmem ;; f ← gets freelist; store64 p f ;; modify (set_freelist p) ;; release L_kmem) s
  = Done tt (set_mem (st64 (mem s) p (freelist s)) (set_freelist p (touch s))).
Proof.
  intros Hhart Hlk Hp. mstep; [by apply acquire_ok; [| |apply Hlk]|]. mrun.
  mstep; [apply store64_ok, page_ok_ram0; [done|unfold PGSIZE; lia]|]. mrun.
  by apply (release_section L_kmem
    (fun r => set_freelist p (set_mem (st64 (mem s) p (freelist s)) r))).
Qed.

Lemma free_page_push s l p :
  pool s l -> page_ok p -> free_page p s = Done tt (freed p s).
Proof.
  intros [Hl Hnd Hhart Hlk] Hp. unfold free_page.
  replace (negb (p mod PGSIZE =? 0) || (p <? sym_end) || (PHYSTOP <=? p)) with false.
  2:{ symmetry. destruct Hp as (H1 & H2 & H3).
      rewrite !orb_false_iff, negb_false_iff, Z.eqb_eq, Z.ltb_ge, Z.leb_gt.
      unfold PGSIZE in *. lia. }
  mstep; [apply memset_at_ok, page_ok_ram0; done|]. mrun.
  rewrite free_page_link by (done || by apply (hart_ok_same s)).
  rewrite set_mem_mem. unfold freed. generalize (memset (mem s) p 1 PGSIZE). reflexivity.
Qed.

Lemma only_page_alloced p s : only_page p s (alloced p s).
Proof.
  intros a Ha. cbn. rewrite ldb_memset by (unfold PGSIZE; lia).
  by rewrite decide_False.
Qed.

Lemma only_page_freed p s : only_page p s (freed p s).
Proof.
  intros a Ha. cbn. unfold st64. rewrite ldb_st_other by (unfold PGSIZE in Ha; lia).
  rewrite ldb_memset by (unfold PGSIZE; lia). by rewrite decide_False.
Qed.

Lemma pages_from_length lo n : length (pages_from lo n) = n.
Proof. revert lo; induction n as [|n IH]; intros lo; cbn; auto. Qed.

Lemma elem_of_pages_from lo n p :
  p ∈ pages_from lo n <-> exists i, (i < n)%nat /\ p = lo + Z.of_nat i * PGSIZE.
Proof.
  revert lo; induction n as [|n IH]; intros lo; cbn [pages_from].
  - split; [set_solver|]. intros (i & Hi & _). lia.
  - rewrite elem_of_cons, IH. split.
    + intros [->|(i & Hi & ->)]; [exists 0%nat; lia|]. exists (S i). lia.
    + intros ([|i] & Hi & ->); [left; lia|]. right. exists i. lia.
Qed.

Lemma NoDup_pages_from lo n : NoDup (pages_from lo n).
Proof.
  revert lo; induction n as [|n IH]; intros lo; cbn [pages_from]; [constructor|].
  apply NoDup_cons. split; [|done].
  rewrite elem_of_pages_from. intros (i & Hi & Heq). unfold PGSIZE in *. lia.
Qed.

Lemma erase_freed p s : erase (freed p s) = erase s.
Proof. unfold freed. generalize (st64 (memset (mem s) p 1 PGSIZE) p (freelist s)). done. Qed.

Lemma freerange_loop_push fuel n s l p pa_end :
  pool s l -> (forall q, q ∈ pages_from p n -> page_ok q /\ q ∉ l) ->
  p + Z.of_nat n * PGSIZE <= pa_end < p + (Z.of_nat n + 1) * PGSIZE -> (n < fuel)%nat ->
  exists s', freerange_loop fuel p pa_end s = Done tt s'
    /\ pool s' (reverse (pages_from p n) ++ l) /\ erase s' = erase s.
Proof.
  revert fuel s l p; induction n as [|n IH]; intros [|fuel] s l p Hpool Hok Hend Hf; try lia;
    cbn [freerange_loop pages_from].
  - rewrite (proj2 (Z.leb_gt _ _)) by lia. exists s. by rewrite reverse_nil.
  - rewrite (proj2 (Z.leb_le _ _)) by (unfold PGSIZE in *; lia).
    destruct (Hok p) as [Hp Hpl]; [apply elem_of_cons; by left|].
    assert (Hpool' := pool_freed s p l Hpool Hp Hpl).
    destruct (IH fuel (freed p s) (p :: l) (p + PGSIZE)) as (s' & E & Hs' & He); try done; try lia.
    { intros q Hq. destruct (Hok q) as [Hq1 Hq2]; [apply elem_of_cons; by right|]. split; [done|].
      apply not_elem_of_cons. split; [|done]. intros ->.
      apply elem_of_pages_from in Hq as (i & _ & Hi). unfold PGSIZE in Hi. lia. }
    exists s'. split.
    + mstep; [by eapply free_page_push|]. done.
    + split; [by rewrite reverse_cons, <- app_assoc|]. rewrite He. apply erase_freed.
Qed.

(** What the pages between [end] and PHYSTOP are. *)
Definition first_page : Z := PGROUNDUP sym_end.

Definition n_pages : nat := Z.to_nat ((PHYSTOP - first_page) / PGSIZE).

(** The pages that [pmm_init] makes available: all of RAM behind the kernel. *)
Definition all_pages : list Z := pages_from first_page n_pages.

Lemma first_page_spec :
  first_page mod PGSIZE = 0 /\ sym_end <= first_page < sym_end + PGSIZE /\ first_page <= PHYSTOP.
Proof.
  pose proof end_above as He1. pose proof etext_above as He2. pose proof end_below as He3.
  destruct (PGROUNDUP_spec sym_end) as [H1 H2];
    [unfold PHYSTOP, KERNBASE, PGSIZE in *; lia|].
  unfold first_page. split_and!; [done|lia|lia|].
  unfold PHYSTOP, KERNBASE, PGSIZE in *. dmlia.
Qed.

Lemma pages_from_ok p : p ∈ pages_from first_page n_pages <-> page_ok p.
Proof.
  destruct first_page_spec as (H1 & H2 & H3). rewrite elem_of_pages_from. unfold page_ok, n_pages.
  unfold PHYSTOP, KERNBASE, PGSIZE in *. split.
  - intros (i & Hi & ->). dmlia.
  - intros (Hp1 & Hp2 & Hp3). exists (Z.to_nat ((p - first_page) / 4096)). dmlia.
Qed.

(** ** Correctness of the allocator *)

Lemma pmm_init_ok s :
  hart_ok s -> freelist s = 0 ->
  exists s', pmm_init s = Done tt s' /\ pool s' (reverse (pages_from first_page n_pages))
    /\ erase s' = erase (set_kmem_lock (Spinlock 0 "kmem" None) s).
Proof.
  intros Hh Hf. destruct first_page_spec as (H1 & H2 & H3).
  pose proof end_above as He1. pose proof etext_above as He2. pose proof end_below as He3.
  set (s0 := set_kmem_lock (Spinlock 0 "kmem" None) s).
  destruct (freerange_loop_push (S n_pages) n_pages s0 [] first_page PHYSTOP)
    as (s' & E & Hs' & He).
  - split; [done | constructor | by apply (hart_ok_same s) | done].
  - intros q Hq. split; [by apply pages_from_ok|apply not_elem_of_nil].
  - unfold n_pages, PHYSTOP, KERNBASE, PGSIZE in *. dmlia.
  - lia.
  - exists s'. rewrite app_nil_r in Hs'. split; [exact E|]. by split.
Qed.

(** C14: [alloc_page] refines the abstract allocator.  With pages left it returns
    the first one, a whole aligned page between [end] and PHYSTOP that is no
    longer free, filled with the byte 5, and the rest of RAM is untouched; with
    none left it panics (it never returns 0). *)
Theorem alloc_page_refines s l :
  pool s l ->
  match spec_alloc l with
  | Some (p, l') =>
      exists s', alloc_page s = Done p s' /\ pool s' l' /\ page_ok p /\ (p ∉ l')
        /\ only_page p s s' /\ (forall a, p <= a < p + PGSIZE -> ldb (mem s') a = 5)
  | None => alloc_page s = Panic "alloc_page" (touch s)
  end.
Proof.
  intros Hpool. destruct l as [|p l]; cbn [spec_alloc]; [by apply alloc_page_empty|].
  exists (alloced p s). split; [by eapply alloc_page_pop|].
  split; [by apply pool_alloced|]. destruct Hpool as [(Hh & Hp & Hl) Hnd Hhart Hlk].
  split; [done|]. apply NoDup_cons in Hnd as [Hnin _]. split; [done|].
  split; [apply only_page_alloced|]. intros a Ha. cbn.
  rewrite ldb_memset by (unfold PGSIZE; lia). by rewrite decide_True.
Qed.

(** C15: [free_page] refines the abstract allocator.  An aligned page between
    [end] and PHYSTOP that is not free already becomes the first free page, and
    RAM outside that page is untouched; any other address panics with the state
    unchanged. *)
Theorem free_page_refines s l p :
  pool s l -> p ∉ l ->
  if decide (page_ok p)
  then exists s', free_page p s = Done tt s' /\ pool s' (spec_free p l) /\ only_page p s s'
  else free_page p s = Panic "free_page" s.
Proof.
  intros Hpool Hnin. case_decide as Hp; [|by apply free_page_bad].
  exists (freed p s). split; [by eapply free_page_push|].
  split; [by apply pool_freed|]. apply only_page_freed.
Qed.

(** No page is ever handed out twice.  However clients that only free pages
    they own interleave their calls, the pages they own and the free pages
    together stay the pages of the start, each exactly once. *)
Theorem allocator_conserves_pages s owned s' owned' l :
  pool s l -> NoDup (owned ++ l) -> Forall page_ok owned ->
  rtc client_step (s, owned) (s', owned') ->
  exists l', pool s' l' /\ NoDup (owned' ++ l') /\ owned' ++ l' ≡ₚ owned ++ l.
Proof.
  intros Hpool Hnd Hok Hsteps.
  remember (s, owned) as x eqn:Ex. remember (s', owned') as y eqn:Ey.
  revert s owned l s' owned' Ex Ey Hpool Hnd Hok.
  induction Hsteps as [x|x y z Hxy Hyz IH]; intros s owned l s' owned' -> Ey Hpool Hnd Hok.
  { injection Ey as -> ->. by exists l. }
  inversion Hxy as [s0 o p s1 Ha E1 E2 | s0 o1 p o2 s1 Hf E1 E2]; subst.
  - destruct l as [|q l].
    { rewrite alloc_page_empty in Ha by done. done. }
    rewrite (alloc_page_pop s q l) in Ha by done. injection Ha as <- <-.
    assert (Hperm : (q :: owned) ++ l ≡ₚ owned ++ q :: l) by by apply Permutation_middle.
    edestruct (IH (alloced q s) (q :: owned) l) as (l' & H1 & H2 & H3); try done.
    + by apply pool_alloced.
    + by rewrite Hperm.
    + constructor; [|done]. eapply pool_page_ok; [done|]. apply elem_of_cons. by left.
    + exists l'. by rewrite H3, Hperm.
  - apply Forall_app in Hok as [Hok1 [Hp Hok2]%Forall_cons].
    rewrite (free_page_push s l p) in Hf by done. injection Hf as <-.
    assert (Hperm : (o1 ++ o2) ++ p :: l ≡ₚ (o1 ++ p :: o2) ++ l).
    { rewrite <- !app_assoc. f_equiv. cbn. symmetry. apply Permutation_middle. }
    edestruct (IH (freed p s) (o1 ++ o2) (p :: l)) as (l' & H1 & H2 & H3); try done.
    + apply pool_freed; [done..|]. intros Hin. apply NoDup_app in Hnd as (_ & Hd & _).
      apply (Hd p); [|done]. set_solver.
    + by rewrite Hperm.
    + by apply Forall_app.
    + exists l'. by rewrite H3, Hperm.
Qed.

(** [pmm_init] terminates and leaves exactly the whole pages between [end]
    and PHYSTOP free, each once, the last page first. *)
Theorem pmm_init_all_pages s :
  hart_ok s -> freelist s = 0 ->
  exists s', pmm_init s = Done tt s' /\ pool s' (reverse (pages_from first_page n_pages))
    /\ forall p, p ∈ reverse (pages_from first_page n_pages) <-> page_ok p.
Proof.
  intros Hh Hf. destruct (pmm_init_ok s Hh Hf) as (s' & E & Hs' & _).
  exists s'. split; [exact E|]. split; [done|]. intros p. by rewrite elem_of_reverse, pages_from_ok.
Qed.

Lemma alloc_pages_loop_spec k r s l :
  pool s l ->
  exists s', alloc_pages_loop k r s = Done (if (k <=? length l)%nat then r else 0) s'
    /\ pool s' (drop k l) /\ mem s' = mem s.
Proof.
  revert s l; induction k as [|k IH]; intros s l Hpool; cbn [alloc_pages_loop]; [by exists s|].
  pose proof Hpool as [Hl Hnd Hhart Hlk]. destruct l as [|p l]; cbn in Hl.
  - exists s. mrun. by rewrite Hl.
  - destruct Hl as (Hh & Hp & Hl). pose proof (page_ok_pos p Hp). mrun. rewrite Hh.
    rewrite (proj2 (Z.eqb_neq _ _)) by lia.
    destruct (IH (set_freelist (ld64 (mem s) p) s) l) as (s' & E & Hs' & Hm).
    { apply NoDup_cons in Hnd as [_ Hnd]. split; [done|done| by apply (hart_ok_same s)|done]. }
    exists s'. split; [|done]. mstep; [apply load64_ok, page_ok_ram0; done|].
    mrun. exact E.
Qed.

(** What [alloc_pages] does.  It returns the first free page when there are
    at least [n - 1] free pages and 0 otherwise, and takes the first [n - 1]
    pages off the free list in both cases. *)
Theorem alloc_pages_takes_one_less s l n :
  pool s l -> 1 <= n ->
  exists s', alloc_pages n s
             = Done (if (Z.to_nat (n - 1) <=? length l)%nat then freelist s else 0) s'
    /\ pool s' (drop (Z.to_nat (n - 1)) l).
Proof.
  intros Hpool Hn. unfold alloc_pages. mrun.
  destruct (alloc_pages_loop_spec (Z.to_nat (n - 1)) (freelist s) s l Hpool)
    as (s' & E & Hs' & _). by exists s'.
Qed.

(** [alloc_pages] hands out a page that stays free: after a successful
    [alloc_pages n] the next [alloc_page] returns the [n]-th page of the block
    ([alloc_pages 1] and [alloc_page] return the same page). *)
Theorem alloc_pages_leaves_last_page_free s l n q :
  pool s l -> 1 <= n -> l !! Z.to_nat (n - 1) = Some q ->
  exists s' s'', alloc_pages n s = Done (freelist s) s' /\ alloc_page s' = Done q s''.
Proof.
  intros Hpool Hn Hq. unfold alloc_pages. mrun.
  destruct (alloc_pages_loop_spec (Z.to_nat (n - 1)) (freelist s) s l Hpool)
    as (s' & E & Hs' & _).
  apply lookup_lt_Some in Hq as Hlt. rewrite (proj2 (Nat.leb_le _ _)) in E by lia.
  rewrite (drop_S l q _ Hq) in Hs'. exists s', (alloced q s'). split; [done|].
  by eapply alloc_page_pop.
Qed.

(** [free_page] does not detect a double free: after freeing a page twice,
    two calls of [alloc_page] both return it. *)
Theorem double_free_aliases s l p :
  pool s l -> page_ok p -> p ∉ l ->
  exists s1 s2 s3 s4, free_page p s = Done tt s1 /\ free_page p s1 = Done tt s2
    /\ alloc_page s2 = Done p s3 /\ alloc_page s3 = Done p s4.
Proof.
  intros Hpool Hp Hnin. assert (Hpool1 := pool_freed s p l Hpool Hp Hnin).
  set (s1 := freed p s) in *. set (s2 := freed p s1).
  assert (Hh2 : hart_ok s2) by by apply hart_ok_kalloc, Hpool1.
  assert (Hl2 : lock_free L_kmem s2) by by apply lock_free_kalloc, Hpool1.
  assert (Hlink : ld64 (mem s2) p = p).
  { cbn. apply ld64_st64_same. pose proof (page_ok_pos p Hp). lia. }
  exists s1, s2, (alloced p s2), (alloced p (alloced p s2)). split_and!.
  - by eapply free_page_push.
  - by eapply free_page_push.
  - by apply alloc_page_head.
  - apply alloc_page_head; [by apply hart_ok_kalloc|by apply lock_free_kalloc|done|].
    by rewrite freelist_alloced.
Qed.

(** The allocator's self-test passes whenever two pages are free, and
    leaves the same pages free. *)
Theorem test_physical_memory_passes s p1 p2 l :
  pool s (p1 :: p2 :: l) ->
  exists s', test_physical_memory s = Done tt s' /\ pool s' (p1 :: p2 :: l).
Proof.
  intros Hpool. unfold test_physical_memory.
  assert (Hp1 : page_ok p1) by (eapply pool_page_ok; [done|]; set_solver).
  assert (Hp2 : page_ok p2) by (eapply pool_page_ok; [done|]; set_solver).
  pose proof (pool_nodup _ _ Hpool) as [Hn1 [Hn2 Hnd]%NoDup_cons]%NoDup_cons.
  apply not_elem_of_cons in Hn1 as [Hne Hn1].
  estep; [by eapply alloc_page_pop|]. apply pool_alloced in Hpool.
  estep; [by eapply alloc_page_pop|]. apply pool_alloced in Hpool.
  rewrite (proj2 (Z.eqb_neq _ _) Hne). cbn [assert negb]. mrun.
  assert (Hal : p1 .& 0xFFF = 0).
  { change 0xFFF with (Z.ones 12). rewrite Z.land_ones by lia. apply Hp1. }
  rewrite Hal. cbn [assert Z.eqb negb]. mrun.
  estep. { unfold store32. by rewrite page_ok_ram0. }
  set (s2 := set_mem _ _). assert (Hpool2 : pool s2 l).
  { pose proof (pool_store _ l p1 4 0 0x12345678 Hpool Hp1 Hn1) as Hst.
    rewrite Z.add_0_r in Hst. by apply Hst. }
  estep. { unfold load32. by rewrite page_ok_ram0. }
  replace (ld 4 (mem s2) p1) with 0x12345678 by (unfold s2; cbn [mem set_mem]; by rewrite ld_st_same).
  cbn [assert Z.eqb Pos.eqb negb]. mrun. clearbody s2. clear Hpool.
  estep; [by eapply free_page_push|].
  apply (pool_freed s2 p1 l) in Hpool2; [|done..].
  estep; [by eapply alloc_page_pop|]. apply pool_alloced in Hpool2.
  estep; [by eapply free_page_push|].
  apply (pool_freed _ p2 l) in Hpool2; [|done..].
  eexists. split; [by eapply free_page_push|].
  apply pool_freed; [done..|]. by apply not_elem_of_cons.
Qed.

End kalloc.

(** ** Witnesses *)

#[local] Existing Instance demo_linker.
#[local] Existing Instance demo_linker_ok.

Definition page_a : Z := 0x8000a000.

Definition page_b : Z := 0x8000b000.

(** Two pages freed into an empty allocator. *)
Definition demo_pool : kstate := freed page_a (freed page_b demo_state).

Lemma demo_hart_ok : hart_ok demo_state.
Proof. split; [done | vm_compute; intuition congruence | done]. Qed.

Lemma page_a_ok : page_ok page_a.
Proof. vm_compute. intuition congruence. Qed.

Lemma page_b_ok : page_ok page_b.
Proof. vm_compute. intuition congruence. Qed.

Lemma demo_empty_pool : pool demo_state [].
Proof. split; [done | constructor | apply demo_hart_ok | done]. Qed.

Lemma demo_pool_ok : pool demo_pool [page_a; page_b].
Proof.
  apply pool_freed; [|apply page_a_ok | by apply not_elem_of_cons; split; [|apply not_elem_of_nil]].
  apply pool_freed; [apply demo_empty_pool | apply page_b_ok | apply not_elem_of_nil].
Qed.

(** An allocator with any supply of free pages. *)
Definition pool_with (l : list Z) : kstate := foldr freed demo_state l.

Definition demo_pages (n : nat) : list Z := pages_from page_a n.

Lemma demo_pages_ok n p : (n <= 1000)%nat -> p ∈ demo_pages n -> page_ok p.
Proof.
  intros Hn (i & Hi & ->)%elem_of_pages_from. unfold page_ok, page_a, PGSIZE, PHYSTOP, KERNBASE.
  change (@sym_end demo_linker) with 2147520808. split_and!; dmlia.
Qed.

Lemma pool_with_ok l : (forall p, p ∈ l -> page_ok p) -> NoDup l -> pool (pool_with l) l.
Proof.
  induction l as [|p l IH]; intros Hok Hnd; [apply demo_empty_pool|].
  apply NoDup_cons in Hnd as [Hnin Hnd]. apply pool_freed; [|by apply Hok; left|done].
  apply IH; [|done]. intros q Hq. apply Hok. by right.
Qed.

Lemma demo_pages_pool n : (n <= 1000)%nat -> pool (pool_with (demo_pages n)) (demo_pages n).
Proof.
  intros Hn. apply pool_with_ok; [by intros p; apply demo_pages_ok|apply NoDup_pages_from].
Qed.

Lemma alloc_page_refines_witness :
  pool demo_pool [page_a; page_b] /\
  exists s', alloc_page demo_pool = Done page_a s' /\ pool s' [page_b].
Proof.
  split; [apply demo_pool_ok|].
  destruct (alloc_page_refines demo_pool [page_a; page_b] demo_pool_ok) as (s' & H1 & H2 & _).
  by exists s'.
Defined.

Lemma free_page_refines_witness :
  pool demo_state [] /\
  exists s', free_page page_b demo_state = Done tt s' /\ pool s' [page_b].
Proof.
  split; [apply demo_empty_pool|].
  pose proof (free_page_refines demo_state [] page_b demo_empty_pool (not_elem_of_nil _)) as H.
  rewrite decide_True in H by apply page_b_ok. destruct H as (s' & H1 & H2 & _). by exists s'.
Defined.

Lemma allocator_conserves_pages_witness :
  exists s' l', client_step (demo_pool, []) (s', [page_a])
    /\ pool s' l' /\ [page_a] ++ l' ≡ₚ [page_a; page_b].
Proof.
  assert (Hstep : client_step (demo_pool, []) (alloced page_a demo_pool, [page_a])).
  { apply client_alloc. by apply (alloc_page_pop _ _ [page_b]), demo_pool_ok. }
  destruct (allocator_conserves_pages demo_pool [] (alloced page_a demo_pool) [page_a]
              [page_a; page_b] demo_pool_ok) as (l' & H1 & H2 & H3).
  - apply (pool_nodup _ _ demo_pool_ok).
  - constructor.
  - by apply rtc_once.
  - by exists (alloced page_a demo_pool), l'.
Defined.

Lemma pmm_init_all_pages_witness :
  hart_ok demo_state /\ exists s', pmm_init demo_state = Done tt s'.
Proof.
  split; [apply demo_hart_ok|].
  destruct (pmm_init_all_pages demo_state demo_hart_ok eq_refl) as (s' & H & _). by exists s'.
Defined.

Lemma alloc_pages_takes_one_less_witness :
  exists s', alloc_pages 3 demo_pool = Done page_a s' /\ pool s' [].
Proof.
  destruct (alloc_pages_takes_one_less demo_pool [page_a; page_b] 3 demo_pool_ok)
    as (s' & H1 & H2); [done|]. exists s'. split; [exact H1|exact H2].
Defined.

Lemma alloc_pages_leaves_last_page_free_witness :
  exists s' s'', alloc_pages 1 demo_pool = Done page_a s' /\ alloc_page s' = Done page_a s''.
Proof.
  destruct (alloc_pages_leaves_last_page_free demo_pool [page_a; page_b] 1 page_a demo_pool_ok)
    as (s' & s'' & H1 & H2); [done|done|]. by exists s', s''.
Defined.

Lemma double_free_aliases_witness :
  exists s1 s2 s3 s4, free_page page_b demo_state = Done tt s1 /\ free_page page_b s1 = Done tt s2
    /\ alloc_page s2 = Done page_b s3 /\ alloc_page s3 = Done page_b s4.
Proof.
  apply (double_free_aliases demo_state [] page_b demo_empty_pool page_b_ok).
  apply not_elem_of_nil.
Defined.

Lemma test_physical_memory_passes_witness :
  exists s', test_physical_memory demo_pool = Done tt s' /\ pool s' [page_a; page_b].
Proof. apply (test_physical_memory_passes demo_pool page_a page_b [] demo_pool_ok). Defined.
