(* ===== verification/VmMap.v ===== *)
(** * Page tables: lookup, insertion and deletion

    [walk_lookup], [walk_create], [map_page] and [unmap_page] of Vm.v are
    related to the map [leaf_pte]: the walks find the slot of an address,
    [map_page] adds one entry and [unmap_page] removes one, and all of them keep
    the tables well formed and disjoint from the free pages. *)

From S2P Require Import Prelude Riscv Memory State Spinlock Kalloc Vm.

Section vm_map.
Context {L : Linker} {LO : LinkerOk}.

(** The pages of the tables and the free pages are together the same. *)
Definition pages_kept (tbl : gmap (list Z) Z) (free : list Z) (tbl' : gmap (list Z) Z)
    (free' : list Z) : Prop :=
  (map_to_list tbl').*2 ++ free' ≡ₚ (map_to_list tbl).*2 ++ free.

(** The tables grew: those of [tbl] are kept, no mapping changed, and only the
    free list and table pages were touched. *)
Record grows (root : Z) (s : kstate) (tbl : gmap (list Z) Z) (free : list Z)
    (s' : kstate) (tbl' : gmap (list Z) Z) (free' : list Z) : Prop := {
  gr_inv : vm_inv s' root tbl' free';
  gr_sub : tbl ⊆ tbl';
  gr_leaf : forall va, leaf_pte (mem s') tbl' va = leaf_pte (mem s) tbl va;
  gr_frame : frame s s';
  gr_only : only_tables tbl' s s';
  gr_pages : pages_kept tbl free tbl' free';
}.

(** What a new table page [c] at slot [i] of the table page [p] changes in RAM. *)
Record enters (m m' : memory) (tbl : gmap (list Z) Z) (p i c : Z) : Prop := {
  en_slot : ld64 m' (p + 8 * i) = PA2PTE c .| PTE_V;
  en_other : forall path q j, tbl !! path = Some q -> 0 <= j < 512 -> (q, j) <> (p, i) ->
    ld64 m' (q + 8 * j) = ld64 m (q + 8 * j);
  en_zero : forall j, 0 <= j < 512 -> ld64 m' (c + 8 * j) = 0;
}.

(** ** Entries *)

Lemma pte_v_test e : (e .& PTE_V =? 0) = negb (pte_valid e).
Proof. by apply (land_pow2_testbit e 0). Qed.

Lemma table_pte_valid c : pte_valid (PA2PTE c .| PTE_V) = true.
Proof. unfold pte_valid. rewrite Z.lor_spec. apply orb_true_r. Qed.

Lemma table_pte_decode c : page_ok c -> PTE2PA (PA2PTE c .| PTE_V) = c.
Proof.
  intros Hc. pose proof (page_ok_pos c Hc). apply PTE2PA_build; [lia|apply Hc|done].
Qed.

Lemma table_pte_range c : page_ok c -> 0 <= PA2PTE c .| PTE_V < 2 ^ 64.
Proof. intros Hc. pose proof (page_ok_pos c Hc). apply PTE_build_range; [lia|done]. Qed.

Lemma pte_addr_ram p va l : page_ok p -> 0 <= l -> in_ram (pte_addr p va l) 8 = true.
Proof.
  intros Hp Hl. pose proof (VPN_MASK_range va l Hl). apply page_ok_ram; [done|lia|].
  unfold PGSIZE. lia.
Qed.

Lemma slot_ram p i : page_ok p -> 0 <= i < 512 -> in_ram (p + 8 * i) 8 = true.
Proof. intros Hp Hi. apply page_ok_ram; [done|lia|unfold PGSIZE; lia]. Qed.

Lemma slots_disjoint p i q j :
  page_ok p -> page_ok q -> 0 <= i < 512 -> 0 <= j < 512 -> (q, j) <> (p, i) ->
  q + 8 * j + 8 <= p + 8 * i \/ p + 8 * i + 8 <= q + 8 * j.
Proof.
  intros [Hp _] [Hq _] Hi Hj Hne. destruct (decide (p = q)) as [->|Hpq].
  - assert (i <> j) by congruence. lia.
  - destruct (pages_disjoint p q Hp Hq Hpq); unfold PGSIZE in *; lia.
Qed.

Lemma slot_not_in_page p q j :
  page_ok p -> page_ok q -> p <> q -> 0 <= j < 512 ->
  q + 8 * j + 8 <= p \/ p + PGSIZE <= q + 8 * j.
Proof.
  intros [Hp _] [Hq _] Hpq Hj.
  destruct (pages_disjoint p q Hp Hq Hpq); unfold PGSIZE in *; lia.
Qed.

(** ** Frames *)

Lemma frame_refl s : frame s s.
Proof. by split. Qed.

Lemma frame_noff s s' : frame s s' -> noff s' = noff s.
Proof.
  intros [H _]. assert (E : noff (erase s') = noff (erase s)) by by rewrite H. exact E.
Qed.

Lemma frame_trans s1 s2 s3 : frame s1 s2 -> frame s2 s3 -> frame s1 s3.
Proof.
  intros H12 H23. pose proof (frame_noff _ _ H12) as Hn. destruct H12 as [H1 H2], H23 as [H3 H4].
  split; [congruence|]. intros H. rewrite H4 by congruence. by apply H2.
Qed.

#[export] Instance frame_preorder : PreOrder frame.
Proof. split; [exact frame_refl | exact frame_trans]. Qed.

Lemma frame_set_mem m s s' : frame s s' -> frame s (set_mem m s').
Proof. intros [H1 H2]. by split. Qed.

Lemma frame_alloced c s : frame s (alloced c s).
Proof.
  unfold alloced. generalize (memset (mem s) c 5 PGSIZE) (ld64 (mem s) c). intros m f.
  split; [done|]. intros H. by rewrite touch_deep.
Qed.

(** ** Growing the tables *)

Lemma wf_table_ok m root tbl path p : pt_wf m root tbl -> tbl !! path = Some p -> page_ok p.
Proof. intros H. apply (wf_page _ _ _ H). Qed.

Lemma pt_wf_enter m m' root tbl path p i c :
  pt_wf m root tbl -> tbl !! path = Some p -> (length path < 2)%nat -> 0 <= i < 512 ->
  tbl !! (path ++ [i]) = None -> page_ok c -> (forall path q, tbl !! path = Some q -> q <> c) ->
  enters m m' tbl p i c ->
  pt_wf m' root (<[path ++ [i] := c]> tbl).
Proof.
  intros [Wr Wp Wpa Wi Wn] Hp Hlen Hi Hnone Hc Hfresh [Es Eo Ez].
  assert (Hlookup : forall q x, tbl !! q = Some x -> <[path ++ [i] := c]> tbl !! q = Some x).
  { intros q x Hq. rewrite lookup_insert_ne; [done|]. intros <-. congruence. }
  assert (Hinv : forall q x, <[path ++ [i] := c]> tbl !! q = Some x ->
    (q = path ++ [i] /\ x = c) \/ tbl !! q = Some x).
  { intros q x [[<- <-]|[_ ?]]%lookup_insert_Some; eauto. }
  split.
  - by apply Hlookup.
  - intros q x [[-> ->]|Hq]%Hinv; [done|by eapply Wp].
  - intros q j x [[E ->]|Hq]%Hinv.
    + apply app_inj_tail in E as [-> ->]. split; [done|]. split; [done|]. exists p. by apply Hlookup.
    + apply Wpa in Hq as (? & ? & y & Hy). split; [done|]. split; [done|]. exists y. by apply Hlookup.
  - intros q1 q2 x [[-> ->]|H1]%Hinv [[-> E]|H2]%Hinv; try done.
    + by apply Hfresh in H2.
    + subst x. by apply Hfresh in H1.
    + by eapply Wi.
  - intros q x j Hq Hql Hj.
    apply Hinv in Hq as [[-> ->]|Hq].
    + rewrite lookup_insert_ne by (intros E%(f_equal length); rewrite !length_app in E; cbn in E; lia).
      destruct (tbl !! ((path ++ [i]) ++ [j])) eqn:E.
      { apply Wpa in E as (_ & _ & y & Hy). congruence. }
      by rewrite Ez.
    + destruct (decide (q ++ [j] = path ++ [i])) as [E|Hne].
      * rewrite E, lookup_insert_eq. apply app_inj_tail in E as [-> ->].
        assert (x = p) as -> by congruence. done.
      * rewrite lookup_insert_ne by done. specialize (Wn q x j Hq Hql Hj).
        rewrite (Eo q) by (try done; intros [= -> ->];
          apply Hne; f_equal; by eapply Wi). done.
Qed.

Lemma leaf_enter m m' root tbl path p i c va :
  pt_wf m root tbl -> tbl !! path = Some p -> (length path < 2)%nat ->
  tbl !! (path ++ [i]) = None -> enters m m' tbl p i c ->
  leaf_pte m' (<[path ++ [i] := c]> tbl) va = leaf_pte m tbl va.
Proof.
  intros Hwf Hp Hlen Hnone [Es Eo Ez]. unfold leaf_pte.
  pose proof (VPN_MASK_range va 0 ltac:(lia)).
  destruct (decide (path ++ [i] = path1 va)) as [E|Hne].
  - rewrite <- E, lookup_insert_eq, Hnone. cbn. unfold pte_addr. by rewrite Ez.
  - rewrite lookup_insert_ne by done. destruct (tbl !! path1 va) as [q|] eqn:Eq; [|done].
    cbn. unfold pte_addr. rewrite (Eo (path1 va)); [done|done|done|].
    intros [= -> _]. assert (path1 va = path) as <- by by eapply (wf_inj _ _ _ Hwf).
    cbn in Hlen. lia.
Qed.

Lemma enters_entered s root tbl path p i c :
  pt_wf (mem s) root tbl -> tbl !! path = Some p -> 0 <= i < 512 -> page_ok c ->
  (forall path q, tbl !! path = Some q -> q <> c) ->
  enters (mem s) (mem (entered (p + 8 * i) c s)) tbl p i c.
Proof.
  intros Hwf Hp Hi Hc Hfresh. pose proof (wf_page _ _ _ Hwf _ _ Hp) as Hpok.
  assert (Hpc := Hfresh _ _ Hp).
  split; cbn [entered mem set_mem alloced].
  - apply ld64_st64_same. by apply table_pte_range.
  - intros path' q j Hq Hj Hne. pose proof (wf_page _ _ _ Hwf _ _ Hq) as Hqok.
    assert (Hqc := Hfresh _ _ Hq).
    rewrite ld64_st64_other by by apply slots_disjoint.
    rewrite !ld64_memset_other; try done;
      (apply slot_not_in_page; [done|done|congruence|done]).
  - intros j Hj. assert (p <> c) by done.
    rewrite ld64_st64_other by (apply slots_disjoint; congruence || done).
    apply ld64_memset_zero; unfold PGSIZE; lia.
Qed.

Lemma mem_entered_only s pte p i c path tbl :
  tbl !! path = Some p -> pte = p + 8 * i -> 0 <= i < 512 ->
  only_tables (<[path ++ [i] := c]> tbl) s (entered pte c s).
Proof.
  intros Hp -> Hi a Ha. cbn [entered mem set_mem].
  assert (Hap : ~ (p <= a < p + PGSIZE)).
  { apply (Ha path). rewrite lookup_insert_ne; [done|].
    intros E%(f_equal length). rewrite length_app in E. cbn in E. lia. }
  assert (Hac : ~ (c <= a < c + PGSIZE)) by (apply (Ha (path ++ [i])); by rewrite lookup_insert_eq).
  unfold st64. rewrite ldb_st_other by (unfold PGSIZE in *; lia).
  rewrite ldb_memset, decide_False by (done || unfold PGSIZE; lia).
  by apply only_page_alloced.
Qed.

Lemma entered_grows s root tbl free path p i c :
  vm_inv s root tbl (c :: free) -> tbl !! path = Some p -> (length path < 2)%nat ->
  0 <= i < 512 -> tbl !! (path ++ [i]) = None ->
  grows root s tbl (c :: free) (entered (p + 8 * i) c s) (<[path ++ [i] := c]> tbl) free.
Proof.
  intros [Hpool Hwf Hdisj] Hp Hlen Hi Hnone.
  assert (Hc : page_ok c) by (eapply pool_page_ok; [done|]; apply elem_of_cons; by left).
  assert (Hfresh : forall path q, tbl !! path = Some q -> q <> c).
  { intros q x Hq ->. apply (Hdisj _ _ Hq). apply elem_of_cons. by left. }
  assert (He := enters_entered s root tbl path p i c Hwf Hp Hi Hc Hfresh).
  assert (Hpok := wf_page _ _ _ Hwf _ _ Hp).
  split.
  - split.
    + apply pool_alloced in Hpool as Hpool'.
      apply pool_set_mem; [done|]. intros q Hq.
      assert (Hqok := pool_page_ok _ _ _ Hpool' Hq).
      assert (Hqp : p <> q). { intros ->. apply (Hdisj _ _ Hp). apply elem_of_cons. by right. }
      assert (Hqc : c <> q).
      { intros ->. pose proof (pool_nodup _ _ Hpool) as [Hx _]%NoDup_cons. done. }
      rewrite <- (Z.add_0_r q). cbn [mem entered set_mem].
      destruct Hpok as [Hp1 _], Hqok as [Hq1 _], Hc as [Hc1 _].
      rewrite ld64_st64_page by (done || unfold PGSIZE; lia).
      by apply ld64_memset_page.
    + by eapply pt_wf_enter.
    + intros q x [[<- <-]|[_ Hq]]%lookup_insert_Some.
      * by pose proof (pool_nodup _ _ Hpool) as [Hx _]%NoDup_cons.
      * intros Hin. apply (Hdisj _ _ Hq). apply elem_of_cons. by right.
  - by apply insert_subseteq.
  - intros va. by eapply leaf_enter.
  - apply frame_set_mem, frame_alloced.
  - by eapply mem_entered_only.
  - unfold pages_kept. rewrite map_to_list_insert by done. cbn. by rewrite Permutation_middle.
Qed.

Lemma grows_refl root s tbl free : vm_inv s root tbl free -> grows root s tbl free s tbl free.
Proof. intros H. split; try done. by unfold pages_kept. Qed.

Lemma grows_trans root s1 tbl1 free1 s2 tbl2 free2 s3 tbl3 free3 :
  grows root s1 tbl1 free1 s2 tbl2 free2 -> grows root s2 tbl2 free2 s3 tbl3 free3 ->
  grows root s1 tbl1 free1 s3 tbl3 free3.
Proof.
  intros [I1 S1 L1 F1 O1 P1] [I2 S2 L2 F2 O2 P2]. split.
  - done.
  - by etrans.
  - intros va. by rewrite L2, L1.
  - by etrans.
  - intros a Ha. rewrite O2 by done. apply O1. intros q x Hq. apply (Ha q).
    by eapply lookup_weaken.
  - unfold pages_kept in *. by etrans.
Qed.

(** ** The walks *)

Lemma walk_create_entry_present s root tbl path p i c :
  pt_wf (mem s) root tbl -> tbl !! path = Some p -> (length path < 2)%nat -> 0 <= i < 512 ->
  tbl !! (path ++ [i]) = Some c -> walk_create_entry (p + 8 * i) s = Done true s.
Proof.
  intros Hwf Hp Hlen Hi Hc. unfold walk_create_entry.
  mstep; [apply load64_ok, slot_ram; [by eapply wf_page|done]|].
  pose proof (wf_node _ _ _ Hwf _ _ _ Hp Hlen Hi) as Hn. rewrite Hc in Hn.
  by rewrite Hn, pte_v_test, table_pte_valid.
Qed.

Lemma walk_create_entry_new s root tbl free path p i c :
  vm_inv s root tbl (c :: free) -> tbl !! path = Some p -> (length path < 2)%nat ->
  0 <= i < 512 -> tbl !! (path ++ [i]) = None ->
  walk_create_entry (p + 8 * i) s = Done true (entered (p + 8 * i) c s).
Proof.
  intros [Hpool Hwf Hdisj] Hp Hlen Hi Hnone. unfold walk_create_entry.
  assert (Hc : page_ok c) by (eapply pool_page_ok; [done|]; apply elem_of_cons; by left).
  assert (Hpok := wf_page _ _ _ Hwf _ _ Hp). pose proof (page_ok_pos c Hc).
  mstep; [apply load64_ok, slot_ram; done|].
  pose proof (wf_node _ _ _ Hwf _ _ _ Hp Hlen Hi) as Hn. rewrite Hnone in Hn.
  rewrite pte_v_test, Hn. cbn [negb]. mstep; [by eapply alloc_page_pop|].
  rewrite (proj2 (Z.eqb_neq _ _)) by lia.
  mstep; [by apply memset_at_ok, page_ok_ram0|].
  mstep; [by apply store64_ok, slot_ram|]. rewrite set_mem_mem, set_mem_twice. reflexivity.
Qed.

Lemma walk_create_entry_oom s root tbl path p i :
  vm_inv s root tbl [] -> tbl !! path = Some p -> (length path < 2)%nat ->
  0 <= i < 512 -> tbl !! (path ++ [i]) = None ->
  walk_create_entry (p + 8 * i) s = Panic "alloc_page" (touch s).
Proof.
  intros [Hpool Hwf Hdisj] Hp Hlen Hi Hnone. unfold walk_create_entry.
  mstep; [apply load64_ok, slot_ram; [by eapply wf_page|done]|].
  pose proof (wf_node _ _ _ Hwf _ _ _ Hp Hlen Hi) as Hn. rewrite Hnone in Hn.
  rewrite pte_v_test, Hn. cbn [negb]. apply bind_Panic. by apply alloc_page_empty.
Qed.

(** Whether the table of a path exists, as the number of pages it needs. *)
Definition absent (tbl : gmap (list Z) Z) (path : list Z) : nat :=
  match tbl !! path with None => 1 | Some _ => 0 end.

(** One round of [walk_create]. *)
Lemma walk_create_round s root tbl free path p i :
  vm_inv s root tbl free -> tbl !! path = Some p -> (length path < 2)%nat -> 0 <= i < 512 ->
  (absent tbl (path ++ [i]) <= length free)%nat ->
  exists s' tbl' c, walk_create_entry (p + 8 * i) s = Done true s'
    /\ grows root s tbl free s' tbl' (drop (absent tbl (path ++ [i])) free)
    /\ load64 (p + 8 * i) s' = Done (PA2PTE c .| PTE_V) s'
    /\ tbl' !! (path ++ [i]) = Some c /\ page_ok c
    /\ (forall q, q <> path ++ [i] -> tbl' !! q = tbl !! q).
Proof.
  intros Hinv Hp Hlen Hi. pose proof Hinv as [Hpool Hwf Hdisj]. unfold absent.
  destruct (tbl !! (path ++ [i])) as [c|] eqn:E; intros Hf.
  - exists s, tbl, c. rewrite drop_0.
    split; [by eapply walk_create_entry_present|].
    split; [by apply grows_refl|]. split; [|split; [done|split; [|done]]].
    + rewrite load64_ok by (apply slot_ram; [by eapply wf_page|done]).
      pose proof (wf_node _ _ _ Hwf _ _ _ Hp Hlen Hi) as Hn. rewrite E in Hn. by rewrite Hn.
    + by eapply wf_page.
  - destruct free as [|c free]; [cbn in Hf; lia|]. cbn [drop].
    assert (Hc : page_ok c) by (eapply pool_page_ok; [done|]; apply elem_of_cons; by left).
    exists (entered (p + 8 * i) c s), (<[path ++ [i] := c]> tbl), c. rewrite drop_0.
    pose proof (wf_page _ _ _ Hwf _ _ Hp) as Hpok.
    split; [by eapply walk_create_entry_new|].
    split; [by apply entered_grows|].
    split; [|split; [by rewrite lookup_insert_eq|split; [done|]]].
    + rewrite load64_ok by by apply slot_ram. unfold entered at 1. cbn [mem set_mem].
      by rewrite ld64_st64_same by by apply table_pte_range.
    + intros q Hq. by rewrite lookup_insert_ne.
Qed.

Lemma missing_absent tbl va m root :
  pt_wf m root tbl -> missing tbl va = (absent tbl (path2 va) + absent tbl (path1 va))%nat.
Proof.
  intros Hwf. unfold missing, absent.
  destruct (tbl !! path2 va) eqn:E2, (tbl !! path1 va) eqn:E1; try done.
  destruct (wf_path _ _ _ Hwf (path2 va) (VPN_MASK va 1) z E1) as (_ & _ & x & Hx). congruence.
Qed.

Lemma walk_create_ok s root tbl free va :
  vm_inv s root tbl free -> (missing tbl va <= length free)%nat ->
  exists s' tbl' c, walk_create root va s = Done (pte_addr c va 0) s'
    /\ grows root s tbl free s' tbl' (drop (missing tbl va) free)
    /\ tbl' !! path1 va = Some c.
Proof.
  intros Hinv. pose proof (vm_wf _ _ _ _ Hinv) as Hwf.
  rewrite (missing_absent tbl va _ _ Hwf). intros Hf.
  destruct (walk_create_round s root tbl free [] root (VPN_MASK va 2))
    as (s1 & t1 & c1 & E1 & G1 & L1 & T1 & P1 & N1);
    [done|by apply Hwf|cbn; lia|apply VPN_MASK_range; lia|unfold path2 in Hf; cbn [app]; lia|].
  cbn [app] in *. change [VPN_MASK va 2] with (path2 va) in *.
  assert (Ha : absent t1 (path1 va) = absent tbl (path1 va)) by (unfold absent; by rewrite N1).
  destruct (walk_create_round s1 root t1 (drop (absent tbl (path2 va)) free) (path2 va) c1
    (VPN_MASK va 1)) as (s2 & t2 & c2 & E2 & G2 & L2 & T2 & P2 & N2);
    [apply G1|done|cbn; lia|apply VPN_MASK_range; lia| |].
  { change (path2 va ++ [VPN_MASK va 1]) with (path1 va). rewrite Ha, length_drop. lia. }
  change (path2 va ++ [VPN_MASK va 1]) with (path1 va) in *. rewrite Ha in G2.
  rewrite drop_drop in G2. exists s2, t2, c2. split; [|split; [by eapply grows_trans|done]].
  unfold walk_create, walk_create_loop. change (Z.of_nat 2) with 2. change (Z.of_nat 1) with 1.
  unfold pte_addr at 1 2 3 4. mstep; [exact E1|]. cbn [negb].
  mstep; [exact L1|]. rewrite table_pte_decode by done.
  mstep; [exact E2|]. cbn [negb]. mstep; [exact L2|].
  by rewrite table_pte_decode by done.
Qed.

Lemma walk_create_present s root tbl free va c :
  vm_inv s root tbl free -> tbl !! path1 va = Some c ->
  walk_create root va s = Done (pte_addr c va 0) s.
Proof.
  intros [Hpool Hwf Hdisj] Hc. unfold walk_create, walk_create_loop.
  change (Z.of_nat 2) with 2. change (Z.of_nat 1) with 1.
  destruct (wf_path _ _ _ Hwf (path2 va) (VPN_MASK va 1) c Hc) as (Hv1 & _ & c1 & Hc1).
  destruct (wf_path _ _ _ Hwf [] (VPN_MASK va 2) c1 Hc1) as (Hv2 & _ & _).
  assert (Hr := wf_root _ _ _ Hwf).
  assert (P1 := wf_page _ _ _ Hwf _ _ Hc1). assert (P0 := wf_page _ _ _ Hwf _ _ Hc).
  assert (N2 := wf_node _ _ _ Hwf [] root _ Hr ltac:(cbn; lia) Hv2).
  assert (N1 := wf_node _ _ _ Hwf (path2 va) c1 _ Hc1 ltac:(cbn; lia) Hv1).
  change (tbl !! (path2 va ++ [VPN_MASK va 1])) with (tbl !! path1 va) in N1. rewrite Hc in N1.
  change (tbl !! ([] ++ [VPN_MASK va 2])) with (tbl !! path2 va) in N2. rewrite Hc1 in N2.
  change (root + 8 * VPN_MASK va 2) with (pte_addr root va 2) in N2.
  change (c1 + 8 * VPN_MASK va 1) with (pte_addr c1 va 1) in N1.
  mstep. { by eapply (walk_create_entry_present s root tbl [] root _ c1); [| |cbn; lia| |]. }
  cbn [negb]. mstep; [apply load64_ok, pte_addr_ram; [by eapply wf_page|lia]|].
  rewrite N2, table_pte_decode by done.
  mstep. { by eapply (walk_create_entry_present s root tbl (path2 va) c1 _ c); [| |cbn; lia| |]. }
  cbn [negb]. mstep; [apply load64_ok, pte_addr_ram; [done|lia]|].
  by rewrite N1, table_pte_decode by done.
Qed.

Lemma walk_create_oom s root tbl free va :
  vm_inv s root tbl free -> (length free < missing tbl va)%nat ->
  exists s', walk_create root va s = Panic "alloc_page" s'.
Proof.
  intros Hinv. pose proof (vm_wf _ _ _ _ Hinv) as Hwf.
  rewrite (missing_absent tbl va _ _ Hwf). intros Hf.
  unfold walk_create, walk_create_loop. change (Z.of_nat 2) with 2. change (Z.of_nat 1) with 1.
  unfold pte_addr at 1 2 3 4.
  assert (Hroot := wf_root _ _ _ Hwf).
  destruct (decide (absent tbl (path2 va) <= length free)%nat) as [Hle|Hgt].
  - destruct (walk_create_round s root tbl free [] root (VPN_MASK va 2))
      as (s1 & t1 & c1 & E1 & G1 & L1 & T1 & P1 & N1);
      [done|done|cbn; lia|apply VPN_MASK_range; lia|done|].
    cbn [app] in *. change [VPN_MASK va 2] with (path2 va) in *.
    assert (Ha : absent t1 (path1 va) = absent tbl (path1 va)) by (unfold absent; by rewrite N1).
    assert (Hd : drop (absent tbl (path2 va)) free = []).
    { apply nil_length_inv. rewrite length_drop. unfold absent in *.
      destruct (tbl !! path1 va); lia. }
    rewrite Hd in G1. eexists. mstep; [exact E1|]. cbn [negb].
    mstep; [exact L1|]. rewrite table_pte_decode by done.
    apply bind_Panic. eapply (walk_create_entry_oom s1 root t1 (path2 va) c1); try done.
    + apply G1.
    + cbn. lia.
    + apply VPN_MASK_range. lia.
    + change (path2 va ++ [VPN_MASK va 1]) with (path1 va). unfold absent in *.
      destruct (t1 !! path1 va), (tbl !! path1 va); try done. lia.
  - unfold absent in Hgt. destruct (tbl !! path2 va) eqn:E2; [lia|].
    assert (free = []) as -> by (apply nil_length_inv; lia).
    eexists. apply bind_Panic. eapply (walk_create_entry_oom s root tbl [] root); try done.
    + cbn. lia.
    + apply VPN_MASK_range. lia.
Qed.

Lemma walk_lookup_ok s root tbl va :
  pt_wf (mem s) root tbl ->
  walk_lookup root va s
  = Done (match tbl !! path1 va with Some c => pte_addr c va 0 | None => 0 end) s.
Proof.
  intros Hwf. unfold walk_lookup, walk_lookup_loop.
  change (Z.of_nat 2) with 2. change (Z.of_nat 1) with 1.
  assert (Hr := wf_root _ _ _ Hwf). assert (Hv2 := VPN_MASK_range va 2 ltac:(lia)).
  assert (Hv1 := VPN_MASK_range va 1 ltac:(lia)).
  mstep; [apply load64_ok, pte_addr_ram; [by eapply wf_page|lia]|].
  pose proof (wf_node _ _ _ Hwf [] root _ Hr ltac:(cbn; lia) Hv2) as Hn. cbn [app] in Hn.
  change (root + 8 * VPN_MASK va 2) with (pte_addr root va 2) in Hn.
  rewrite pte_v_test. change [VPN_MASK va 2] with (path2 va) in Hn.
  destruct (tbl !! path2 va) as [c1|] eqn:E2.
  - rewrite Hn, table_pte_valid. cbn [negb].
    assert (P1 := wf_page _ _ _ Hwf _ _ E2). rewrite table_pte_decode by done.
    mstep; [apply load64_ok, pte_addr_ram; [done|lia]|].
    pose proof (wf_node _ _ _ Hwf (path2 va) c1 _ E2 ltac:(cbn; lia) Hv1) as Hn1.
    change (path2 va ++ [VPN_MASK va 1]) with (path1 va) in Hn1.
    change (c1 + 8 * VPN_MASK va 1) with (pte_addr c1 va 1) in Hn1. rewrite pte_v_test.
    destruct (tbl !! path1 va) as [c2|] eqn:E1.
    + rewrite Hn1, table_pte_valid. cbn [negb].
      assert (P2 := wf_page _ _ _ Hwf _ _ E1). by rewrite table_pte_decode.
    + by rewrite Hn1.
  - rewrite Hn. cbn [negb]. destruct (tbl !! path1 va) eqn:E1; [|done].
    destruct (wf_path _ _ _ Hwf (path2 va) (VPN_MASK va 1) z E1) as (_ & _ & x & Hx). congruence.
Qed.

(** ** Writing a leaf *)

Lemma same_vpn_path va va' : path1 va = path1 va' -> VPN_MASK va 0 = VPN_MASK va' 0 -> same_vpn va va'.
Proof. intros [= H2 H1] H0. done. Qed.

Lemma pt_wf_write m root tbl va c e :
  pt_wf m root tbl -> tbl !! path1 va = Some c -> pt_wf (st64 m (pte_addr c va 0) e) root tbl.
Proof.
  intros [Wr Wp Wpa Wi Wn] Hc. split; try done. intros q x j Hq Hl Hj.
  assert (Hne : x <> c). { intros ->. assert (q = path1 va) as -> by by eapply Wi. cbn in Hl. lia. }
  rewrite ld64_st64_other; [by apply Wn|].
  apply slots_disjoint; [by eapply Wp|by eapply Wp|apply VPN_MASK_range; lia|done|congruence].
Qed.

Lemma leaf_write m root tbl va c e va' :
  pt_wf m root tbl -> tbl !! path1 va = Some c -> 0 <= e < 2 ^ 64 ->
  leaf_pte (st64 m (pte_addr c va 0) e) tbl va'
  = if decide (same_vpn va va') then (if pte_valid e then Some e else None)
    else leaf_pte m tbl va'.
Proof.
  intros Hwf Hc He. pose proof (VPN_MASK_range va 0 ltac:(lia)) as R.
  pose proof (VPN_MASK_range va' 0 ltac:(lia)) as R'. unfold leaf_pte.
  case_decide as Hs.
  - destruct Hs as (H2 & H1 & H0). assert (path1 va' = path1 va) as -> by (unfold path1; congruence).
    rewrite Hc. cbn. unfold pte_addr. rewrite H0, ld64_st64_same by done. done.
  - destruct (tbl !! path1 va') as [c'|] eqn:Hc'; [|done]. cbn. unfold pte_addr.
    rewrite ld64_st64_other; [done|].
    apply slots_disjoint; [by eapply wf_page|by eapply wf_page|done|done|].
    intros [= -> H0]. apply Hs. apply same_vpn_path; [|done].
    by eapply (wf_inj _ _ _ Hwf).
Qed.

Lemma vm_inv_write s root tbl free va c e :
  vm_inv s root tbl free -> tbl !! path1 va = Some c ->
  vm_inv (set_mem (st64 (mem s) (pte_addr c va 0) e) s) root tbl free.
Proof.
  intros [Hpool Hwf Hdisj] Hc. split; [|by apply pt_wf_write|done].
  pose proof (VPN_MASK_range va 0 ltac:(lia)).
  apply (pool_store s free c 8 (8 * VPN_MASK va 0) e Hpool);
    [by eapply wf_page|by eapply Hdisj|lia|unfold PGSIZE; lia].
Qed.

Lemma only_tables_write s tbl va c e :
  tbl !! path1 va = Some c ->
  only_tables tbl s (set_mem (st64 (mem s) (pte_addr c va 0) e) s).
Proof.
  intros Hc a Ha. apply Ha in Hc. pose proof (VPN_MASK_range va 0 ltac:(lia)).
  cbn [mem set_mem]. apply ldb_st_other. unfold pte_addr, PGSIZE in *. lia.
Qed.

(** ** A new table *)

Lemma ld64_memset_table m c j :
  page_ok c -> 0 <= j < 512 -> ld64 (memset m c 0 PGSIZE) (c + 8 * j) = 0.
Proof.
  intros Hc Hj. apply ld64_memset_zero; unfold PGSIZE; lia.
Qed.

Lemma pt_wf_new m c : page_ok c -> pt_wf (memset m c 0 PGSIZE) c {[ [] := c ]}.
Proof.
  intros Hc. split.
  - by rewrite lookup_singleton_eq.
  - by intros path p [_ <-]%lookup_singleton_Some.
  - intros path i p [E _]%lookup_singleton_Some. by destruct path.
  - by intros p1 p2 p [<- _]%lookup_singleton_Some [<- _]%lookup_singleton_Some.
  - intros path p i [<- <-]%lookup_singleton_Some _ Hi. rewrite lookup_singleton_ne by done.
    by rewrite ld64_memset_table.
Qed.

Lemma leaf_pte_new m c va : leaf_pte m {[ [] := c ]} va = None.
Proof. unfold leaf_pte. by rewrite lookup_singleton_ne. Qed.

Lemma missing_new c va : missing {[ [] := c ]} va = 2%nat.
Proof. unfold missing. by rewrite lookup_singleton_ne. Qed.

Lemma create_pagetable_ok s c free :
  pool s (c :: free) ->
  create_pagetable s = Done c (set_mem (memset (mem (alloced c s)) c 0 PGSIZE) (alloced c s))
  /\ vm_inv (set_mem (memset (mem (alloced c s)) c 0 PGSIZE) (alloced c s)) c {[ [] := c ]} free.
Proof.
  intros Hpool. assert (Hc : page_ok c) by (eapply pool_page_ok; [done|]; set_solver).
  pose proof (page_ok_pos c Hc). split.
  - unfold create_pagetable. mstep; [by eapply alloc_page_pop|].
    rewrite (proj2 (Z.eqb_neq _ _)) by lia.
    mstep; [by apply memset_at_ok, page_ok_ram0|]. done.
  - pose proof (pool_alloced _ _ _ Hpool) as Hp'.
    pose proof (pool_nodup _ _ Hpool) as [Hnin _]%NoDup_cons. split.
    + apply pool_set_mem; [done|]. intros q Hq.
      assert (Hqok := pool_page_ok _ _ _ Hp' Hq).
      rewrite <- (Z.add_0_r q). destruct Hc as [Hc1 _], Hqok as [Hq1 _].
      apply ld64_memset_page; try done. by intros ->.
    + rewrite set_mem_mem. by apply pt_wf_new.
    + by intros path p [_ <-]%lookup_singleton_Some.
Qed.

(** A table only depends on the contents of its own pages. *)
Lemma pt_wf_ext m m' root tbl :
  pt_wf m root tbl -> (forall path p a, tbl !! path = Some p -> p <= a < p + PGSIZE -> ldb m' a = ldb m a) ->
  pt_wf m' root tbl /\ forall va, leaf_pte m' tbl va = leaf_pte m tbl va.
Proof.
  intros [Wr Wp Wpa Wi Wn] Hm.
  assert (Hw : forall path p i, tbl !! path = Some p -> 0 <= i < 512 ->
    ld64 m' (p + 8 * i) = ld64 m (p + 8 * i)).
  { intros path p i Hp Hi. apply ld_ext. intros j Hj. eapply Hm; [done|]. unfold PGSIZE. lia. }
  split.
  - split; try done. intros path p i Hp Hl Hi. specialize (Wn path p i Hp Hl Hi).
    rewrite (Hw path p i) by done. done.
  - intros va. unfold leaf_pte. destruct (tbl !! path1 va) as [c|] eqn:E; [|done].
    cbn. unfold pte_addr. by rewrite (Hw (path1 va)) by (done || apply VPN_MASK_range; lia).
Qed.

(** ** map_page and unmap_page *)

(** The table of [s'] is that of [s] with the entry [e] added at [va]. *)
Record maps (root : Z) (s : kstate) (tbl : gmap (list Z) Z) (free : list Z) (va e : Z)
    (s' : kstate) (tbl' : gmap (list Z) Z) (free' : list Z) : Prop := {
  mp_inv : vm_inv s' root tbl' free';
  mp_sub : tbl ⊆ tbl';
  mp_leaf : forall va', leaf_pte (mem s') tbl' va'
            = if decide (same_vpn va va') then Some e else leaf_pte (mem s) tbl va';
  mp_frame : frame s s';
  mp_only : only_tables tbl' s s';
  mp_pages : pages_kept tbl free tbl' free';
  mp_path : is_Some (tbl' !! path1 va);
}.

Definition leaf_entry (pa perm : Z) : Z := PA2PTE pa .| u64 perm .| PTE_V.

Lemma leaf_entry_build pa perm :
  0 <= perm < 2 ^ 10 -> leaf_entry pa perm = PA2PTE pa .| (perm .| PTE_V).
Proof. intros H. unfold leaf_entry. rewrite u64_small, Z.lor_assoc by lia. done. Qed.

Lemma perm_valid_range perm : 0 <= perm < 2 ^ 10 -> 0 <= perm .| PTE_V < 2 ^ 10.
Proof.
  intros H. change PTE_V with 1. assert (H0 : 0 <= perm .| 1) by (apply Z.lor_nonneg; lia).
  split; [done|]. destruct (Z.eq_dec (perm .| 1) 0) as [->|Hne]; [lia|].
  apply Z.log2_lt_pow2; [lia|]. rewrite Z.log2_lor by lia. apply Z.max_lub_lt; [|done].
  destruct (Z.eq_dec perm 0) as [->|]; [done|]. apply Z.log2_lt_pow2; lia.
Qed.

Lemma leaf_entry_range pa perm :
  0 <= pa < 2 ^ 64 -> 0 <= perm < 2 ^ 10 -> 0 <= leaf_entry pa perm < 2 ^ 64.
Proof.
  intros Hpa Hp. rewrite leaf_entry_build by done.
  apply PTE_build_range; [done|by apply perm_valid_range].
Qed.

Lemma leaf_entry_valid pa perm : pte_valid (leaf_entry pa perm) = true.
Proof. unfold pte_valid, leaf_entry. rewrite Z.lor_spec. apply orb_true_r. Qed.

Lemma leaf_pte_slot m tbl va c (e : option Z) :
  tbl !! path1 va = Some c -> leaf_pte m tbl va = e ->
  pte_valid (ld64 m (pte_addr c va 0)) = bool_decide (is_Some e).
Proof.
  intros Hc <-. unfold leaf_pte. rewrite Hc. cbn. destruct (pte_valid _) eqn:E; [|done].
  by rewrite bool_decide_eq_true_2.
Qed.

Lemma leaf_pte_path m tbl va e : leaf_pte m tbl va = Some e -> exists c, tbl !! path1 va = Some c.
Proof. unfold leaf_pte. destruct (tbl !! path1 va); [eauto|done]. Qed.

Lemma leaf_missing m root tbl va e :
  pt_wf m root tbl -> leaf_pte m tbl va = Some e -> missing tbl va = 0%nat.
Proof.
  intros Hwf He. destruct (leaf_pte_path _ _ _ _ He) as [c Hc]. unfold missing.
  destruct (wf_path _ _ _ Hwf (path2 va) (VPN_MASK va 1) c Hc) as (_ & _ & x & Hx).
  by rewrite Hx, Hc.
Qed.

Lemma page_ok_nonzero p va : page_ok p -> (pte_addr p va 0 =? 0) = false.
Proof.
  intros Hp. pose proof (page_ok_pos p Hp). pose proof (VPN_MASK_range va 0 ltac:(lia)).
  apply Z.eqb_neq. unfold pte_addr. lia.
Qed.

Lemma aligned_test va pa :
  va mod PGSIZE = 0 -> pa mod PGSIZE = 0 ->
  negb (va mod PGSIZE =? 0) || negb (pa mod PGSIZE =? 0) = false.
Proof. intros -> ->. done. Qed.

Lemma map_page_ok s root tbl free va pa perm :
  vm_inv s root tbl free -> va mod PGSIZE = 0 -> pa mod PGSIZE = 0 ->
  0 <= pa < 2 ^ 64 -> 0 <= perm < 2 ^ 10 ->
  leaf_pte (mem s) tbl va = None -> (missing tbl va <= length free)%nat ->
  exists s' tbl', map_page root va pa perm s = Done 0 s'
    /\ maps root s tbl free va (leaf_entry pa perm) s' tbl' (drop (missing tbl va) free).
Proof.
  intros Hinv Hva Hpa Hpar Hperm Hleaf Hf.
  destruct (walk_create_ok s root tbl free va Hinv Hf) as (s1 & tbl' & c & E & G & Hc).
  pose proof (gr_inv _ _ _ _ _ _ _ G) as Hinv1. pose proof (vm_wf _ _ _ _ Hinv1) as Hwf1.
  assert (Pc := wf_page _ _ _ Hwf1 _ _ Hc).
  exists (set_mem (st64 (mem s1) (pte_addr c va 0) (leaf_entry pa perm)) s1), tbl'. split.
  - unfold map_page. rewrite aligned_test by done. mstep; [exact E|].
    rewrite page_ok_nonzero by done. mstep; [apply load64_ok, pte_addr_ram; [done|lia]|].
    rewrite pte_v_test, (leaf_pte_slot _ tbl' va c None Hc) by by rewrite (gr_leaf _ _ _ _ _ _ _ G).
    mstep; [apply store64_ok, pte_addr_ram; [done|lia]|]. done.
  - split.
    + by apply vm_inv_write.
    + apply G.
    + intros va'. cbn [mem set_mem]. rewrite (leaf_write _ root), leaf_entry_valid by
        (done || by apply leaf_entry_range). by rewrite (gr_leaf _ _ _ _ _ _ _ G).
    + apply frame_set_mem, G.
    + intros a Ha. rewrite (only_tables_write s1 tbl' va c) by done. by apply G.
    + apply G.
    + by eexists.
Qed.

(** C16: [map_page], on every branch.  A misaligned address gives -1 and changes
    nothing.  An address that is mapped already panics with "remap".  Otherwise
    the call adds exactly one entry to the mapping, keeps every other mapping,
    keeps the table well formed and disjoint from the free pages, takes exactly
    the table pages that were missing from the allocator and touches RAM in
    table pages only; with too few free pages it panics. *)
Theorem map_page_spec s root tbl free va pa perm :
  vm_inv s root tbl free -> 0 <= pa < 2 ^ 64 -> 0 <= perm < 2 ^ 10 ->
  if decide (va mod PGSIZE = 0 /\ pa mod PGSIZE = 0)
  then match leaf_pte (mem s) tbl va with
       | Some _ => map_page root va pa perm s = Panic "remap" s
       | None =>
           if decide (missing tbl va <= length free)%nat
           then exists s' tbl', map_page root va pa perm s = Done 0 s'
                /\ maps root s tbl free va (leaf_entry pa perm) s' tbl' (drop (missing tbl va) free)
           else exists s', map_page root va pa perm s = Panic "alloc_page" s'
       end
  else map_page root va pa perm s = Done (-1) s.
Proof.
  intros Hinv Hpa Hperm. pose proof (vm_wf _ _ _ _ Hinv) as Hwf. case_decide as Hal.
  - destruct Hal as [Hv Hp]. destruct (leaf_pte (mem s) tbl va) as [e|] eqn:Hleaf.
    + destruct (leaf_pte_path _ _ _ _ Hleaf) as [c Hc]. assert (Pc := wf_page _ _ _ Hwf _ _ Hc).
      assert (Hm := leaf_missing _ _ _ _ _ Hwf Hleaf).
      unfold map_page. rewrite aligned_test by done.
      pose proof (walk_create_present s root tbl free va c Hinv Hc) as E.
      mstep; [exact E|]. rewrite page_ok_nonzero by done.
      mstep; [apply load64_ok, pte_addr_ram; [done|lia]|].
      by rewrite pte_v_test, (leaf_pte_slot _ tbl va c (Some e) Hc).
    + case_decide as Hf; [by apply map_page_ok|].
      destruct (walk_create_oom s root tbl free va) as [s' E]; [done|lia|].
      exists s'. unfold map_page. rewrite aligned_test by done. by apply bind_Panic.
  - unfold map_page. destruct (Z.eqb_spec (va mod PGSIZE) 0), (Z.eqb_spec (pa mod PGSIZE) 0);
      cbn [negb orb]; tauto || done.
Qed.

Lemma unmap_page_ok s root tbl free va e :
  vm_inv s root tbl free -> leaf_pte (mem s) tbl va = Some e ->
  exists s', unmap_page root va s = Done tt s' /\ vm_inv s' root tbl free
    /\ frame s s' /\ only_tables tbl s s'
    /\ (forall va', leaf_pte (mem s') tbl va'
          = if decide (same_vpn va va') then None else leaf_pte (mem s) tbl va').
Proof.
  intros Hinv Hleaf. pose proof (vm_wf _ _ _ _ Hinv) as Hwf.
  destruct (leaf_pte_path _ _ _ _ Hleaf) as [c Hc]. assert (Pc := wf_page _ _ _ Hwf _ _ Hc).
  assert (E := walk_lookup_ok s root tbl va Hwf). rewrite Hc in E.
  exists (set_mem (st64 (mem s) (pte_addr c va 0) 0) s). split; [|split_and!].
  - unfold unmap_page. mstep; [exact E|]. rewrite page_ok_nonzero by done.
    mstep; [apply load64_ok, pte_addr_ram; [done|lia]|].
    rewrite pte_v_test, (leaf_pte_slot _ tbl va c (Some e) Hc) by done. cbn [negb].
    rewrite bool_decide_eq_true_2 by eauto. cbn [negb]. by apply store64_ok, pte_addr_ram.
  - by apply vm_inv_write.
  - by apply frame_set_mem.
  - by apply only_tables_write.
  - intros va'. cbn [mem set_mem]. by rewrite (leaf_write _ root) by done.
Qed.

(** C17: [unmap_page], on every branch: it deletes exactly the entry of the
    address and nothing else; without a table or an entry for it, it panics. *)
Theorem unmap_page_spec s root tbl free va :
  vm_inv s root tbl free ->
  match tbl !! path1 va, leaf_pte (mem s) tbl va with
  | None, _ => unmap_page root va s = Panic "unmap_page: address not mapped" s
  | Some _, None => unmap_page root va s = Panic "unmap_page: not mapped" s
  | Some _, Some _ =>
      exists s', unmap_page root va s = Done tt s' /\ vm_inv s' root tbl free
        /\ frame s s' /\ only_tables tbl s s'
        /\ (forall va', leaf_pte (mem s') tbl va'
              = if decide (same_vpn va va') then None else leaf_pte (mem s) tbl va')
  end.
Proof.
  intros Hinv. pose proof (vm_wf _ _ _ _ Hinv) as Hwf.
  assert (E := walk_lookup_ok s root tbl va Hwf).
  destruct (tbl !! path1 va) as [c|] eqn:Hc.
  - assert (Pc := wf_page _ _ _ Hwf _ _ Hc).
    destruct (leaf_pte (mem s) tbl va) as [e|] eqn:Hleaf.
    + by apply (unmap_page_ok s root tbl free va e).
    + unfold unmap_page. mstep; [exact E|]. rewrite page_ok_nonzero by done.
      mstep; [apply load64_ok, pte_addr_ram; [done|lia]|].
      by rewrite pte_v_test, (leaf_pte_slot _ tbl va c None Hc) by done.
  - unfold unmap_page. mstep; [exact E|]. done.
Qed.

End vm_map.

(** ** Witnesses *)

#[local] Existing Instance demo_linker.
#[local] Existing Instance demo_linker_ok.

(** A new table with five free pages left. *)
Definition demo_table : kstate :=
  let s := pool_with (demo_pages 6) in
  set_mem (memset (mem (alloced page_a s)) page_a 0 PGSIZE) (alloced page_a s).

Definition demo_free : list Z := pages_from page_b 5.

Lemma demo_table_inv : vm_inv demo_table page_a {[ [] := page_a ]} demo_free.
Proof. apply (create_pagetable_ok (pool_with (demo_pages 6)) page_a demo_free), demo_pages_pool. lia. Qed.

Lemma map_page_spec_witness :
  exists s' tbl', map_page page_a 0x1000000 page_b (PTE_R .| PTE_W) demo_table = Done 0 s'
    /\ leaf_pte (mem s') tbl' 0x1000000 = Some (leaf_entry page_b (PTE_R .| PTE_W)).
Proof.
  pose proof (map_page_spec demo_table page_a {[ [] := page_a ]} demo_free 0x1000000 page_b
    (PTE_R .| PTE_W) demo_table_inv) as H.
  rewrite leaf_pte_new, !decide_True in H by (vm_compute; intuition congruence || lia).
  destruct H as (s' & tbl' & E & M); [by vm_compute; split|by vm_compute; split|].
  exists s', tbl'. split; [exact E|]. rewrite (mp_leaf _ _ _ _ _ _ _ _ _ M).
  clear E M. rewrite decide_True; [reflexivity|]. unfold same_vpn. split_and!; reflexivity.
Defined.

(** That table with one page mapped. *)
Lemma demo_mapped :
  exists s' tbl', map_page page_a 0x1000000 page_b (PTE_R .| PTE_W) demo_table = Done 0 s'
    /\ maps page_a demo_table {[ [] := page_a ]} demo_free 0x1000000 (leaf_entry page_b (PTE_R .| PTE_W))
         s' tbl' (drop 2 demo_free).
Proof.
  pose proof (map_page_ok demo_table page_a {[ [] := page_a ]} demo_free 0x1000000 page_b
    (PTE_R .| PTE_W) demo_table_inv) as H. rewrite missing_new in H.
  apply H; first [apply leaf_pte_new | done | (cbn; lia) | (vm_compute; split; congruence)].
Qed.

Lemma unmap_page_spec_witness :
  exists s s' tbl, vm_inv s page_a tbl (drop 2 demo_free)
    /\ leaf_pte (mem s) tbl 0x1000000 = Some (leaf_entry page_b (PTE_R .| PTE_W))
    /\ unmap_page page_a 0x1000000 s = Done tt s' /\ leaf_pte (mem s') tbl 0x1000000 = None.
Proof.
  destruct demo_mapped as (s & tbl & _ & M). pose proof (mp_inv _ _ _ _ _ _ _ _ _ M) as I.
  pose proof (unmap_page_spec s page_a tbl _ 0x1000000 I) as H.
  destruct (mp_path _ _ _ _ _ _ _ _ _ M) as [c Hc].
  pose proof (mp_leaf _ _ _ _ _ _ _ _ _ M 0x1000000) as Hl. rewrite decide_True in Hl by done.
  rewrite Hc, Hl in H. destruct H as (s' & E & _ & _ & _ & Hl').
  exists s, s', tbl. split_and!; [exact I|exact Hl|exact E|].
  rewrite Hl'. by rewrite decide_True.
Defined.
