(* ===== verification/Sv39.v ===== *)
(** * The hardware's view of a page table

    The Sv39 address translation of the RISC-V privileged architecture, as the
    specification the page-table code is measured against: a virtual address
    must be sign-extended from bit 38; a walk from level 2 down stops at the first entry with R or
    X set; an entry that is invalid, writable but not readable, or has reserved
    bits set faults, and so does a misaligned superpage.  (The accessed and
    dirty bits are the ones hardware updates itself, as QEMU does.)

    [translate_wf] relates it to the map [leaf_pte] that vm.c maintains. *)

From S2P Require Import Prelude Riscv Memory State Spinlock Kalloc Vm VmMap.

(** ** Definitions *)

Definition canonical (va : Z) : bool :=
  ((0 <=? va) && (va <? 2 ^ 38)) || ((2 ^ 64 - 2 ^ 38 <=? va) && (va <? 2 ^ 64)).

Definition pte_ppn (e : Z) : Z := (e / 2 ^ 10) mod 2 ^ 44.

Definition pte_reserved (e : Z) : Z := e / 2 ^ 54.

Definition pte_faults (e : Z) : bool :=
  negb (Z.testbit e 0) || (negb (Z.testbit e 1) && Z.testbit e 2) || negb (pte_reserved e =? 0).

Definition pte_is_leaf (e : Z) : bool := Z.testbit e 1 || Z.testbit e 3.

Fixpoint sv39_walk (level : nat) (m : memory) (a va : Z) : option (Z * nat) :=
  let e := ld64 m (a + 8 * ((va / 2 ^ (12 + 9 * Z.of_nat level)) mod 512)) in
  if pte_faults e then None
  else if pte_is_leaf e then Some (e, level)
  else match level with
       | O => None
       | S level' => sv39_walk level' m (pte_ppn e * 4096) va
       end.

(** The physical address of [va] and the ten flag bits of its entry. *)
Definition sv39_translate (m : memory) (root va : Z) : option (Z * Z) :=
  if negb (canonical va) then None else
  match sv39_walk 2 m root va with
  | Some (e, level) =>
      let size := 2 ^ (12 + 9 * Z.of_nat level) in
      if (pte_ppn e * 4096) mod size =? 0
      then Some (pte_ppn e * 4096 + va mod size, e mod 2 ^ 10) else None
  | None => None
  end.

(** Translation by a value [x] of satp: bare mode is the identity. *)
Definition satp_translate (m : memory) (x va : Z) : option (Z * Z) :=
  if x / 2 ^ 60 =? 8 then sv39_translate m ((x mod 2 ^ 44) * 4096) va
  else if x / 2 ^ 60 =? 0 then Some (va, 15) else None.

(** What the hart translates. *)
Definition hw_translate (s : kstate) (va : Z) : option (Z * Z) := satp_translate (mem s) (satp (csr s)) va.

(** An entry the hardware accepts as a leaf. *)
Definition hw_leaf (e : Z) : bool := negb (pte_faults e) && pte_is_leaf e.

(** ** Table entries *)

Section sv39.
Context {L : Linker} {LO : LinkerOk}.

Lemma pte_ppn_build pa fl :
  0 <= pa < 2 ^ 56 -> 0 <= fl < 2 ^ 10 -> pte_ppn (PA2PTE pa .| fl) = pa / 4096.
Proof.
  intros Hpa Hfl. rewrite PTE_build by lia. unfold pte_ppn.
  change (2 ^ 10) with 1024 in *. rewrite Z.div_add_l by lia. rewrite (Z.div_small fl) by lia.
  rewrite Z.add_0_r. apply Z.mod_small. dmlia.
Qed.

Lemma pte_reserved_build pa fl :
  0 <= pa < 2 ^ 56 -> 0 <= fl < 2 ^ 10 -> pte_reserved (PA2PTE pa .| fl) = 0.
Proof.
  intros Hpa Hfl. rewrite PTE_build by lia. unfold pte_reserved. apply Z.div_small.
  change (2 ^ 10) with 1024 in *. dmlia.
Qed.

Lemma pte_flag_build pa fl i :
  0 <= pa < 2 ^ 64 -> 0 <= i < 10 -> Z.testbit (PA2PTE pa .| fl) i = Z.testbit fl i.
Proof.
  intros Hpa Hi. rewrite Z.lor_spec.
  replace (Z.testbit (PA2PTE pa) i) with false; [done|].
  symmetry. rewrite <- (Z.mod_pow2_bits_low (PA2PTE pa) 10 i) by lia.
  rewrite PA2PTE_low by done. apply Z.testbit_0_l.
Qed.

Lemma table_pte_hw c :
  page_ok c -> pte_faults (PA2PTE c .| PTE_V) = false /\ pte_is_leaf (PA2PTE c .| PTE_V) = false
    /\ pte_ppn (PA2PTE c .| PTE_V) * 4096 = c.
Proof.
  intros Hc. pose proof (page_ok_pos c Hc). unfold pte_faults, pte_is_leaf.
  rewrite !pte_flag_build, pte_reserved_build, pte_ppn_build by (lia || done).
  split_and!; try done. destruct Hc as [Hc _]. unfold PGSIZE in Hc. dmlia.
Qed.

Lemma invalid_pte_faults e : pte_valid e = false -> pte_faults e = true.
Proof. unfold pte_valid, pte_faults. by intros ->. Qed.

(** ** The walk of a well-formed table *)

Lemma sv39_walk_down m root tbl path p level va :
  pt_wf m root tbl -> tbl !! path = Some p -> (length path < 2)%nat ->
  sv39_walk (S level) m p va
  = match tbl !! (path ++ [VPN_MASK va (Z.of_nat (S level))]) with
    | Some c => sv39_walk level m c va
    | None => None
    end.
Proof.
  intros Hwf Hp Hlen. cbn [sv39_walk]. rewrite <- VPN_MASK_spec by lia.
  assert (Hi := VPN_MASK_range va (Z.of_nat (S level)) ltac:(lia)).
  pose proof (wf_node _ _ _ Hwf _ _ _ Hp Hlen Hi) as Hn.
  destruct (tbl !! (path ++ [VPN_MASK va (Z.of_nat (S level))])) as [c|] eqn:E.
  - rewrite Hn. destruct (table_pte_hw c) as (-> & -> & ->); [by eapply wf_page|done].
  - by rewrite invalid_pte_faults.
Qed.

Lemma sv39_walk_wf m root tbl va :
  pt_wf m root tbl ->
  sv39_walk 2 m root va
  = match leaf_pte m tbl va with
    | Some e => if hw_leaf e then Some (e, 0%nat) else None
    | None => None
    end.
Proof.
  intros Hwf. pose proof (wf_root _ _ _ Hwf) as Hr.
  rewrite (sv39_walk_down m root tbl [] root) by (done || cbn; lia). cbn [app].
  change (tbl !! [VPN_MASK va (Z.of_nat 2)]) with (tbl !! path2 va).
  unfold leaf_pte. destruct (tbl !! path2 va) as [c1|] eqn:E2.
  - rewrite (sv39_walk_down m root tbl (path2 va) c1) by (done || cbn; lia).
    change (tbl !! (path2 va ++ [VPN_MASK va (Z.of_nat 1)])) with (tbl !! path1 va).
    destruct (tbl !! path1 va) as [c|] eqn:E1; [|done].
    cbn [sv39_walk mbind option_bind]. rewrite <- VPN_MASK_spec by lia.
    change (c + 8 * VPN_MASK va (Z.of_nat 0)) with (pte_addr c va 0).
    set (e := ld64 m (pte_addr c va 0)). unfold hw_leaf.
    destruct (pte_valid e) eqn:Ev; [|by rewrite invalid_pte_faults].
    destruct (pte_faults e), (pte_is_leaf e); done.
  - destruct (tbl !! path1 va) as [c|] eqn:E1; [|done].
    destruct (wf_path _ _ _ Hwf (path2 va) (VPN_MASK va 1) c E1) as (_ & _ & x & Hx). congruence.
Qed.

Lemma translate_wf m root tbl va :
  pt_wf m root tbl ->
  sv39_translate m root va
  = if canonical va then
      e ← leaf_pte m tbl va;
      if hw_leaf e then Some (pte_ppn e * 4096 + va mod 4096, e mod 2 ^ 10) else None
    else None.
Proof.
  intros Hwf. unfold sv39_translate. destruct (canonical va); [|done]. cbn [negb].
  rewrite (sv39_walk_wf m root tbl) by done. destruct (leaf_pte m tbl va) as [e|]; [|done].
  cbn [mbind option_bind]. destruct (hw_leaf e); [|done].
  change (2 ^ (12 + 9 * Z.of_nat 0)) with 4096. by rewrite Z.mod_mul.
Qed.

(** A leaf entry with sane permissions translates to its page. *)
Lemma leaf_entry_hw pa perm :
  0 <= pa < 2 ^ 56 -> pa mod PGSIZE = 0 -> 0 <= perm < 2 ^ 10 ->
  Z.testbit perm 1 = true ->
  hw_leaf (leaf_entry pa perm) = true
  /\ pte_ppn (leaf_entry pa perm) * 4096 = pa
  /\ leaf_entry pa perm mod 2 ^ 10 = perm .| PTE_V.
Proof.
  intros Hpa Hal Hp Hr. rewrite leaf_entry_build by done.
  pose proof (perm_valid_range perm Hp) as Hpv. unfold hw_leaf, pte_faults, pte_is_leaf.
  rewrite !pte_flag_build, pte_reserved_build, pte_ppn_build by (lia || done).
  rewrite !Z.lor_spec, Hr. split_and!.
  - change (Z.testbit PTE_V 0) with true. by rewrite orb_true_r.
  - unfold PGSIZE in Hal. dmlia.
  - rewrite PTE_build by lia. change (2 ^ 10) with 1024 in *.
    rewrite Z.add_comm, Z.mod_add by lia. by apply Z.mod_small.
Qed.

(** The root that [MAKE_SATP] stores is the one the hardware reads back. *)
Lemma make_satp_root c :
  page_ok c ->
  MAKE_SATP c / 2 ^ 60 = 8 /\ (MAKE_SATP c mod 2 ^ 44) * 4096 = c.
Proof.
  intros Hc. pose proof (page_ok_pos c Hc).
  assert (E : MAKE_SATP c = 8 * 2 ^ 60 + c / 4096).
  { unfold MAKE_SATP. rewrite Z.shiftr_div_pow2 by lia. change (2 ^ 12) with 4096.
    rewrite (lor_disjoint_add _ _ 60); [done|lia|done|dmlia]. }
  rewrite E. destruct Hc as [Hc _]. unfold PGSIZE in Hc. split.
  - rewrite Z.div_add_l by lia. rewrite Z.div_small by dmlia. lia.
  - replace (8 * 2 ^ 60 + c / 4096) with (c / 4096 + (8 * 2 ^ 16) * 2 ^ 44) by lia.
    rewrite Z.mod_add by lia. rewrite Z.mod_small by dmlia. dmlia.
Qed.

Lemma pte_accessors e :
  pte_reserved e = 0 -> PTE2PA e = pte_ppn e * 4096 /\ PTE_FLAGS e = e mod 2 ^ 10.
Proof.
  unfold pte_reserved. intros He. apply Z.div_small_iff in He; [|done].
  assert (Hr : 0 <= e < 2 ^ 54) by lia. split.
  - unfold PTE2PA, pte_ppn. rewrite Z.shiftr_div_pow2, Z.shiftl_mul_pow2 by lia.
    rewrite (Z.mod_small (e / 2 ^ 10)) by dmlia. change (2 ^ 12) with 4096.
    apply u64_small. dmlia.
  - unfold PTE_FLAGS. change 0x3FF with (Z.ones 10). by rewrite Z.land_ones.
Qed.

Lemma hw_leaf_accessors e :
  hw_leaf e = true -> PTE2PA e = pte_ppn e * 4096 /\ PTE_FLAGS e = e mod 2 ^ 10.
Proof.
  unfold hw_leaf, pte_faults. intros H. b2p. apply pte_accessors.
  repeat match goal with H : _ || _ = false |- _ => apply orb_false_iff in H; destruct H end. b2p. done.
Qed.

(** C18: what the C code looks up is what the hardware translates.  On a
    well-formed table the hardware maps a canonical address to a physical
    address with certain permissions exactly when [walk_lookup] finds a slot that
    holds an entry the hardware accepts as a leaf, and then the physical address
    is the one [PTE2PA] of that entry gives plus the page offset and the permissions are
    its [PTE_FLAGS]. *)
Theorem walk_lookup_is_translation s root tbl va pa fl :
  pt_wf (mem s) root tbl -> canonical va = true ->
  sv39_translate (mem s) root va = Some (pa, fl)
  <-> exists slot e, walk_lookup root va s = Done slot s /\ slot <> 0
      /\ load64 slot s = Done e s /\ hw_leaf e = true
      /\ pa = PTE2PA e + va mod PGSIZE /\ fl = PTE_FLAGS e.
Proof.
  intros Hwf Hva. rewrite (translate_wf _ _ tbl), Hva by done. unfold leaf_pte.
  rewrite (walk_lookup_ok s root tbl va Hwf). destruct (tbl !! path1 va) as [c|] eqn:Hc; cycle 1.
  { cbn. split; [done|]. intros (slot & e & [= <-] & Hs & _). done. }
  assert (Pc := wf_page _ _ _ Hwf _ _ Hc). cbn [mbind option_bind].
  assert (Hload := load64_ok _ s (pte_addr_ram c va 0 Pc ltac:(lia))).
  set (w := ld64 (mem s) (pte_addr c va 0)) in *. split.
  - destruct (pte_valid w) eqn:Hv; [cbn|done]. destruct (hw_leaf w) eqn:Hl; [|done].
    intros [= <- <-]. exists (pte_addr c va 0), w. destruct (hw_leaf_accessors w Hl) as [-> ->].
    split_and!; try done. pose proof (page_ok_nonzero c va Pc). by b2p.
  - intros (slot & e & [= <-] & Hs & Hload' & Hl & -> & ->).
    rewrite Hload in Hload'. injection Hload' as <-. destruct (hw_leaf_accessors w Hl) as [-> ->].
    destruct (pte_valid w) eqn:Hv.
    + cbn. by rewrite Hl.
    + unfold hw_leaf in Hl. rewrite invalid_pte_faults in Hl by done. done.
Qed.

End sv39.

(** ** Witness *)

#[local] Existing Instance demo_linker.
#[local] Existing Instance demo_linker_ok.

Lemma walk_lookup_is_translation_witness :
  exists s tbl, pt_wf (mem s) page_a tbl /\ canonical 0x1000123 = true
    /\ sv39_translate (mem s) page_a 0x1000123 = Some (page_b + 0x123, PTE_R .| PTE_W .| PTE_V).
Proof.
  destruct demo_mapped as (s & tbl & _ & M).
  pose proof (vm_wf _ _ _ _ (mp_inv _ _ _ _ _ _ _ _ _ M)) as Hwf.
  exists s, tbl. split; [exact Hwf|]. split; [reflexivity|].
  apply (walk_lookup_is_translation s page_a tbl); [exact Hwf|reflexivity|].
  pose proof (mp_leaf _ _ _ _ _ _ _ _ _ M 0x1000123) as Hl. rewrite decide_True in Hl by done.
  rewrite (walk_lookup_ok s page_a tbl) by done. unfold leaf_pte in Hl.
  destruct (tbl !! path1 0x1000123) as [c|] eqn:Hc; [|done]. cbn [mbind option_bind] in Hl.
  assert (Pc := wf_page _ _ _ Hwf _ _ Hc).
  destruct (pte_valid _); [|done]. injection Hl as Hl.
  exists (pte_addr c 0x1000123 0), (leaf_entry page_b (PTE_R .| PTE_W)).
  split; [done|]. split; [by apply Z.eqb_neq, page_ok_nonzero|]. split.
  { rewrite load64_ok by by apply pte_addr_ram. by rewrite Hl. }
  split_and!; vm_compute; reflexivity.
Defined.
