(* ===== verification/VmKernel.v ===== *)
(** * The kernel's address space

    [create_pagetable], [kvmmap], [kvminit] and [kvminithart] of kernel/mm/vm.c:
    what ranges they map, that they finish, how many table pages they need, and
    what the hardware translates once paging is on.  [kernel_leaf] is the
    specification: the entry the kernel's page table holds for an address. *)

From S2P Require Import Prelude Riscv Memory State Spinlock Kalloc Vm VmMap Sv39.

Section vm_kernel.
Context {L : Linker} {LO : LinkerOk}.

(** ** Definitions *)

(** The page of [va] within the 39 bits a walk looks at. *)
Definition vbase (va : Z) : Z := ((va / 4096) mod 2 ^ 27) * 4096.

(** Table pages that mapping the pages [a, a + PGSIZE, ..., last] may need. *)
Definition budget (tbl : gmap (list Z) Z) (a last : Z) : nat :=
  missing tbl a + Z.to_nat (last / 2 ^ 21 - a / 2 ^ 21) + Z.to_nat (last / 2 ^ 30 - a / 2 ^ 30).

(** [s'] maps [a .. last] to [pa ..] with [perm], and is as [s] otherwise. *)
Record maps_range (root : Z) (s : kstate) (tbl : gmap (list Z) Z) (free : list Z)
    (a last pa perm : Z) (k : nat) (s' : kstate) (tbl' : gmap (list Z) Z) : Prop := {
  mr_inv : vm_inv s' root tbl' (drop k free);
  mr_sub : tbl ⊆ tbl';
  mr_leaf : forall va, leaf_pte (mem s') tbl' va
            = if decide (a <= vbase va <= last) then Some (leaf_entry (pa + (vbase va - a)) perm)
              else leaf_pte (mem s) tbl va;
  mr_frame : frame s s';
  mr_only : only_tables tbl' s s';
  mr_pages : pages_kept tbl free tbl' (drop k free);
}.

(** The tables of [kvminit]: kernel text read and execute, the rest of RAM read
    and write, the UART, and nothing else. *)
Definition kernel_leaf (va : Z) : option Z :=
  let p := vbase va in
  if decide (KERNBASE <= p < sym_etext) then Some (leaf_entry p (PTE_R .| PTE_X))
  else if decide (sym_etext <= p < PHYSTOP) then Some (leaf_entry p (PTE_R .| PTE_W))
  else if decide (p = UART0) then Some (leaf_entry p (PTE_R .| PTE_W))
  else None.

(** What the hardware translates with it: address and permission bits. *)
Definition kernel_translate (va : Z) : option (Z * Z) :=
  if decide (KERNBASE <= va < sym_etext) then Some (va, PTE_R .| PTE_X .| PTE_V)
  else if decide (sym_etext <= va < PHYSTOP) then Some (va, PTE_R .| PTE_W .| PTE_V)
  else if decide (UART0 <= va < UART0 + PGSIZE) then Some (va, PTE_R .| PTE_W .| PTE_V)
  else None.

(** Table pages that are enough for [kvminit]. *)
Definition kvminit_pages : nat := 70.

(** The kernel's page table is in place. *)
Record kernel_space (s : kstate) (tbl : gmap (list Z) Z) (free : list Z) : Prop := {
  ks_inv : vm_inv s (kernel_pagetable s) tbl free;
  ks_leaf : forall va, leaf_pte (mem s) tbl va = kernel_leaf va;
}.

(** ** Virtual page numbers *)

Lemma vpn_split va :
  (va / 4096) mod 2 ^ 27
  = (VPN_MASK va 2 * 512 + VPN_MASK va 1) * 512 + VPN_MASK va 0.
Proof.
  rewrite !VPN_MASK_spec by lia. change (12 + 9 * 2) with (12 + 18).
  change (12 + 9 * 1) with (12 + 9). change (12 + 9 * 0) with 12.
  rewrite !Z.pow_add_r, <- !Z.div_div by lia. change (2 ^ 12) with 4096.
  generalize (va / 4096). intros n. change (2 ^ 27) with 134217728.
  change (2 ^ 18) with 262144. change (2 ^ 9) with 512. dmlia.
Qed.

Lemma same_vpn_vbase va va' : same_vpn va va' <-> vbase va = vbase va'.
Proof.
  unfold same_vpn, vbase. rewrite !vpn_split.
  pose proof (VPN_MASK_range va 2 ltac:(lia)). pose proof (VPN_MASK_range va' 2 ltac:(lia)).
  pose proof (VPN_MASK_range va 1 ltac:(lia)). pose proof (VPN_MASK_range va' 1 ltac:(lia)).
  pose proof (VPN_MASK_range va 0 ltac:(lia)). pose proof (VPN_MASK_range va' 0 ltac:(lia)).
  lia.
Qed.

Lemma vbase_aligned va : 0 <= va < 2 ^ 39 -> va mod PGSIZE = 0 -> vbase va = va.
Proof.
  unfold PGSIZE, vbase. intros H1 H2. change (2 ^ 39) with (4096 * 2 ^ 27) in H1.
  rewrite (Z.mod_small (va / 4096)) by dmlia. dmlia.
Qed.

Lemma vbase_mod va : vbase va mod PGSIZE = 0.
Proof. unfold vbase, PGSIZE. by rewrite Z.mod_mul. Qed.

Lemma leaf_pte_vbase m tbl va va' :
  vbase va = vbase va' -> leaf_pte m tbl va = leaf_pte m tbl va'.
Proof.
  intros H. apply same_vpn_vbase in H as (H2 & H1 & H0).
  unfold leaf_pte, path1, pte_addr. by rewrite H2, H1, H0.
Qed.

(** Two neighbouring pages share tables unless a boundary lies between them. *)
Lemma missing_next tbl a :
  0 <= a -> a + PGSIZE < 2 ^ 39 -> a mod PGSIZE = 0 -> is_Some (tbl !! path1 a) ->
  (forall x, tbl !! path1 a = Some x -> is_Some (tbl !! path2 a)) ->
  (missing tbl (a + PGSIZE) <= Z.to_nat ((a + PGSIZE) / 2 ^ 21 - a / 2 ^ 21)
     + Z.to_nat ((a + PGSIZE) / 2 ^ 30 - a / 2 ^ 30))%nat.
Proof.
  intros H0 H1 Hal [c Hc] H2. destruct (H2 c Hc) as [c2 Hc2].
  assert (E : forall l, 0 < l -> (a + PGSIZE) / 2 ^ (12 + 9 * l) = a / 2 ^ (12 + 9 * l) ->
    VPN_MASK (a + PGSIZE) l = VPN_MASK a l).
  { intros l Hl El. by rewrite !VPN_MASK_spec, El by lia. }
  assert (E1 := E 1 ltac:(lia)). assert (E2 := E 2 ltac:(lia)).
  change (2 ^ (12 + 9 * 1)) with (2 ^ 21) in E1. change (2 ^ (12 + 9 * 2)) with (2 ^ 30) in E2.
  clear E. unfold missing, path1, path2 in *. unfold PGSIZE in *.
  change (2 ^ 21) with 2097152 in *. change (2 ^ 30) with 1073741824 in *.
  destruct (Z.eq_dec ((a + 4096) / 2097152) (a / 2097152)) as [X1|X1];
  destruct (Z.eq_dec ((a + 4096) / 1073741824) (a / 1073741824)) as [X2|X2].
  - rewrite E1, E2, Hc2, Hc by done. lia.
  - exfalso. clear - X1 X2 H0. dmlia.
  - rewrite E2, Hc2 by done. case_match; [lia|]. clear - X1 H0. dmlia.
  - case_match; [case_match|]; [lia| |]; clear - X1 X2 H0; dmlia.
Qed.

Lemma budget_next tbl tbl' a last :
  0 <= a -> a < last -> last < 2 ^ 39 -> a mod PGSIZE = 0 -> last mod PGSIZE = 0 ->
  is_Some (tbl' !! path1 a) ->
  (forall x, tbl' !! path1 a = Some x -> is_Some (tbl' !! path2 a)) ->
  (missing tbl a + budget tbl' (a + PGSIZE) last <= budget tbl a last)%nat.
Proof.
  intros H0 Hlt Hl Ha1 Ha2 Hp H2. unfold budget.
  assert (Hle : a + PGSIZE <= last) by (unfold PGSIZE in *; dmlia).
  pose proof (missing_next tbl' a H0 ltac:(lia) Ha1 Hp H2).
  assert (a / 2 ^ 21 <= (a + PGSIZE) / 2 ^ 21) by (apply Z.div_le_mono; unfold PGSIZE; lia).
  assert ((a + PGSIZE) / 2 ^ 21 <= last / 2 ^ 21) by (apply Z.div_le_mono; lia).
  assert (a / 2 ^ 30 <= (a + PGSIZE) / 2 ^ 30) by (apply Z.div_le_mono; unfold PGSIZE; lia).
  assert ((a + PGSIZE) / 2 ^ 30 <= last / 2 ^ 30) by (apply Z.div_le_mono; lia).
  lia.
Qed.

Lemma wf_path2 m root tbl va x :
  pt_wf m root tbl -> tbl !! path1 va = Some x -> is_Some (tbl !! path2 va).
Proof.
  intros Hwf Hx. destruct (wf_path _ _ _ Hwf (path2 va) (VPN_MASK va 1) x Hx) as (_ & _ & y & Hy).
  eauto.
Qed.

(** ** kvmmap *)

Lemma decide_iff_eq (P Q : Prop) `{Decision P, Decision Q} {A} (x y : A) :
  (P <-> Q) -> (if decide P then x else y) = (if decide Q then x else y).
Proof. intros H1. destruct (decide P), (decide Q); tauto. Qed.

(** Mapping [a] and then [a + PGSIZE .. last] maps [a .. last]. *)
Lemma maps_range_step root s tbl free a last pa perm k s1 tbl1 s2 tbl2 :
  0 <= a -> a < last -> last < 2 ^ 39 -> a mod PGSIZE = 0 ->
  maps root s tbl free a (leaf_entry pa perm) s1 tbl1 (drop (missing tbl a) free) ->
  maps_range root s1 tbl1 (drop (missing tbl a) free) (a + PGSIZE) last (pa + PGSIZE) perm k s2 tbl2 ->
  maps_range root s tbl free a last pa perm (missing tbl a + k) s2 tbl2.
Proof.
  intros H0 Hlt Hl Ha [I1 S1 L1 F1 O1 C1 P1] [I2 S2 L2 F2 O2 C2]. rewrite drop_drop in I2, C2.
  split; [done|by etrans| |by etrans| |].
  - intros va. rewrite L2, L1. pose proof (vbase_mod va) as Hm.
    assert (Hs : same_vpn a va <-> vbase va = a).
    { rewrite same_vpn_vbase, vbase_aligned by (done || lia). done. }
    unfold PGSIZE in *.
    destruct (decide (same_vpn a va)) as [Hsv|Hsv];
      [assert (Hv : vbase va = a) by tauto | assert (Hv : vbase va <> a) by tauto];
      repeat case_decide; try lia; try done;
      first [exfalso; dmlia | f_equal; f_equal; lia].
  - intros x Hx. rewrite O2 by done. apply O1. intros q y Hq. apply (Hx q).
    by eapply lookup_weaken.
  - unfold pages_kept in *. by etrans.
Qed.

Lemma maps_range_one root s tbl free a pa perm s1 tbl1 :
  0 <= a < 2 ^ 39 -> a mod PGSIZE = 0 ->
  maps root s tbl free a (leaf_entry pa perm) s1 tbl1 (drop (missing tbl a) free) ->
  maps_range root s tbl free a a pa perm (missing tbl a) s1 tbl1.
Proof.
  intros H0 Ha [I1 S1 L1 F1 O1 C1 P1]. split; try done. intros va. rewrite L1.
  assert (Hs : same_vpn a va <-> vbase va = a).
  { rewrite same_vpn_vbase, vbase_aligned by (done || lia). done. }
  destruct (decide (same_vpn a va)) as [Hsv|Hsv];
    [assert (Hv : vbase va = a) by tauto | assert (Hv : vbase va <> a) by tauto];
    case_decide; try lia; try done.
  f_equal. f_equal. lia.
Qed.

Lemma kvmmap_loop_ok fuel root perm last :
  0 <= perm < 2 ^ 10 -> last < 2 ^ 39 -> last mod PGSIZE = 0 ->
  forall s tbl free a pa,
  vm_inv s root tbl free -> 0 <= a <= last -> a mod PGSIZE = 0 -> pa mod PGSIZE = 0 ->
  0 <= pa -> pa + (last - a) + PGSIZE < 2 ^ 64 -> (last - a) / PGSIZE < Z.of_nat fuel ->
  (forall x, a <= x <= last -> leaf_pte (mem s) tbl x = None) ->
  (budget tbl a last <= length free)%nat ->
  exists s' tbl' k, kvmmap_loop fuel root a pa last perm s = Done tt s'
    /\ (k <= budget tbl a last)%nat /\ maps_range root s tbl free a last pa perm k s' tbl'.
Proof.
  intros Hperm Hlast Hlal. induction fuel as [|fuel IH];
    intros s tbl free a pa Hinv Ha Haal Hpal Hpa Hpl Hfuel Hnone Hfree.
  { exfalso. unfold PGSIZE in *. dmlia. }
  cbn [kvmmap_loop].
  assert (Hb : (missing tbl a <= budget tbl a last)%nat) by (unfold budget; lia).
  destruct (map_page_ok s root tbl free a pa perm) as (s1 & tbl1 & E1 & M1);
    [done|done|done|unfold PGSIZE in *; lia|done|apply Hnone; lia|lia|].
  pose proof (vm_wf _ _ _ _ (mp_inv _ _ _ _ _ _ _ _ _ M1)) as Hwf1.
  destruct (Z.eqb_spec a last) as [->|Hne].
  - exists s1, tbl1, (missing tbl last). split; [|split; [done|]].
    + by mstep; [exact E1|].
    + apply maps_range_one; [lia|done|done].
  - assert (Hle : a + PGSIZE <= last) by (unfold PGSIZE in *; dmlia).
    pose proof (budget_next tbl tbl1 a last ltac:(lia) ltac:(lia) Hlast Haal Hlal
      (mp_path _ _ _ _ _ _ _ _ _ M1) (fun x => wf_path2 _ _ _ _ x Hwf1)) as Hbn.
    destruct (IH s1 tbl1 (drop (missing tbl a) free) (a + PGSIZE) (pa + PGSIZE))
      as (s2 & tbl2 & k & E2 & Hk & M2);
      [apply M1|unfold PGSIZE in *; lia|unfold PGSIZE in *; dmlia|unfold PGSIZE in *; dmlia
      |unfold PGSIZE in *; lia|unfold PGSIZE in *; lia|unfold PGSIZE in *; dmlia| |
      rewrite length_drop; lia|].
    { intros x Hx. rewrite (mp_leaf _ _ _ _ _ _ _ _ _ M1), decide_False.
      - apply Hnone. unfold PGSIZE in *; lia.
      - rewrite same_vpn_vbase, vbase_aligned by (done || lia). unfold vbase.
        unfold PGSIZE in *. change (2 ^ 39) with (4096 * 2 ^ 27) in *.
        rewrite Z.mod_small by dmlia. dmlia. }
    exists s2, tbl2, (missing tbl a + k)%nat. split; [|split; [lia|]].
    + mstep; [exact E1|]. cbn [Z.eqb negb].
      rewrite !u64_small by (unfold PGSIZE in *; lia). exact E2.
    + eapply maps_range_step; try done; lia.
Qed.

Lemma kvmmap_ok s root tbl free va pa sz perm :
  vm_inv s root tbl free -> 0 <= perm < 2 ^ 10 ->
  va mod PGSIZE = 0 -> pa mod PGSIZE = 0 -> 0 <= va -> 0 < sz -> va + sz <= 2 ^ 39 ->
  0 <= pa -> pa + sz + PGSIZE < 2 ^ 64 ->
  let last := PGROUNDDOWN (va + sz - 1) in
  (forall x, va <= x < va + sz -> leaf_pte (mem s) tbl x = None) ->
  (budget tbl va last <= length free)%nat ->
  exists s' tbl' k, kvmmap root va pa sz perm s = Done tt s'
    /\ (k <= budget tbl va last)%nat /\ maps_range root s tbl free va last pa perm k s' tbl'.
Proof.
  intros Hinv Hperm Hva Hpal Hva0 Hsz Hend Hpa Hpl last Hnone Hfree.
  pose proof (PGROUNDDOWN_bounds (va + sz - 1) ltac:(lia)) as Hbd.
  pose proof (PGROUNDDOWN_aligned (va + sz - 1) ltac:(lia)) as Hal. fold last in Hbd, Hal.
  unfold kvmmap. rewrite (proj2 (Z.eqb_neq sz 0)) by lia.
  rewrite (u64_small (va + sz - 1)) by lia. fold last. cbv zeta.
  assert (Hva' : PGROUNDDOWN va = va) by (rewrite PGROUNDDOWN_spec, Hva by lia; lia).
  rewrite Hva'. assert (Hle : va <= last) by (unfold PGSIZE in *; dmlia).
  rewrite u64_small by lia.
  apply kvmmap_loop_ok; try done; try lia.
  intros x Hx. assert (Hb : leaf_pte (mem s) tbl x = leaf_pte (mem s) tbl (x - x mod PGSIZE)).
  { apply leaf_pte_vbase. unfold vbase, PGSIZE. f_equal. f_equal. dmlia. }
  rewrite Hb. apply Hnone. unfold PGSIZE in *. dmlia.
Qed.

(** ** kvminit *)

Lemma missing_le tbl va : (missing tbl va <= 2)%nat.
Proof. unfold missing. repeat case_match; lia. Qed.

Lemma budget_le tbl a last k1 k2 :
  last / 2 ^ 21 - a / 2 ^ 21 <= Z.of_nat k1 -> last / 2 ^ 30 - a / 2 ^ 30 <= Z.of_nat k2 ->
  (budget tbl a last <= 2 + k1 + k2)%nat.
Proof. intros H1 H2. unfold budget. pose proof (missing_le tbl a). lia. Qed.

Lemma vm_inv_kernel_pagetable s root tbl free v :
  vm_inv s root tbl free -> vm_inv (set_kernel_pagetable v s) root tbl free.
Proof.
  intros [[P1 P2 P3 P4] W D]. split; [split|done|done]; try done. by apply (hart_ok_same s).
Qed.

Lemma frame_kernel_pagetable s s' : frame s s' -> kernel_pagetable s' = kernel_pagetable s.
Proof.
  intros [H _]. assert (E : kernel_pagetable (erase s') = kernel_pagetable (erase s)) by by rewrite H.
  exact E.
Qed.

Lemma frame_set_kernel_pagetable v s s' :
  frame s s' -> frame (set_kernel_pagetable v s) (set_kernel_pagetable v s').
Proof.
  intros [H1 H2]. split; [|done].
  change (set_kernel_pagetable v (erase s') = set_kernel_pagetable v (erase s)). by rewrite H1.
Qed.

(** The last page of [va, va + sz) when [sz] is a number of pages. *)
Lemma last_page va sz :
  va mod PGSIZE = 0 -> sz mod PGSIZE = 0 -> 0 <= va -> 0 < sz -> va + sz <= 2 ^ 39 ->
  PGROUNDDOWN (va + sz - 1) = va + sz - PGSIZE.
Proof. intros. rewrite PGROUNDDOWN_spec by lia. unfold PGSIZE in *. dmlia. Qed.

(** The identity range from [va] is mapped, with [k] pages for new tables. *)
Record identity_mapped (root va sz perm : Z) (s : kstate) (tbl : gmap (list Z) Z) (free : list Z)
    (k : nat) (s' : kstate) (tbl' : gmap (list Z) Z) : Prop := {
  im_run : kvmmap root va va sz perm s = Done tt s';
  im_inv : vm_inv s' root tbl' (drop k free);
  im_frame : frame s s';
  im_leaf : forall x, leaf_pte (mem s') tbl' x
        = if decide (va <= vbase x < va + sz) then Some (leaf_entry (vbase x) perm)
          else leaf_pte (mem s) tbl x;
  im_pages : pages_kept tbl free tbl' (drop k free);
}.

(** [kvmmap] of an identity range, with a bound on the table pages it takes. *)
Lemma kvmmap_identity s root tbl free va sz perm k1 k2 :
  vm_inv s root tbl free -> 0 <= perm < 2 ^ 10 ->
  va mod PGSIZE = 0 -> sz mod PGSIZE = 0 -> 0 <= va -> 0 < sz -> va + sz <= 2 ^ 39 ->
  (forall x, va <= x < va + sz -> leaf_pte (mem s) tbl x = None) ->
  (va + sz - PGSIZE) / 2 ^ 21 - va / 2 ^ 21 <= Z.of_nat k1 ->
  (va + sz - PGSIZE) / 2 ^ 30 - va / 2 ^ 30 <= Z.of_nat k2 ->
  (2 + k1 + k2 <= length free)%nat ->
  exists s' tbl' k, (k <= 2 + k1 + k2)%nat /\ identity_mapped root va sz perm s tbl free k s' tbl'.
Proof.
  intros Hinv Hperm Hva Hsz Hva0 Hpos Hend Hnone Hk1 Hk2 Hf.
  assert (Hlast := last_page va sz Hva Hsz Hva0 Hpos Hend).
  pose proof (budget_le tbl va (va + sz - PGSIZE) k1 k2 Hk1 Hk2) as Hb.
  destruct (kvmmap_ok s root tbl free va va sz perm) as (s' & tbl' & k & E & Hk & M);
    try done; [unfold PGSIZE; lia|rewrite Hlast; lia|].
  rewrite Hlast in *. exists s', tbl', k. split; [lia|].
  split; [done|apply M|apply M| |apply M]. intros x. rewrite (mr_leaf _ _ _ _ _ _ _ _ _ _ _ M).
  pose proof (vbase_mod x). replace (va + (vbase x - va)) with (vbase x) by lia.
  apply decide_iff_eq. unfold PGSIZE in *. split; dmlia.
Qed.

(** The regions [kvminit] maps, in units of the tables of the two lower levels. *)
Lemma etext_regions :
  (sym_etext - KERNBASE) mod PGSIZE = 0 /\ (PHYSTOP - sym_etext) mod PGSIZE = 0
  /\ 1024 <= (sym_etext - PGSIZE) / 2 ^ 21 <= sym_etext / 2 ^ 21 /\ sym_etext / 2 ^ 21 <= 1087
  /\ (sym_etext - PGSIZE) / 2 ^ 30 = 2 /\ sym_etext / 2 ^ 30 = 2.
Proof.
  pose proof etext_above. pose proof etext_aligned. pose proof end_above. pose proof end_below.
  change KERNBASE with 2147483648 in *. change PHYSTOP with 2281701376 in *. unfold PGSIZE in *.
  assert ((sym_etext - 4096) / 2 ^ 21 <= sym_etext / 2 ^ 21) by (apply Z.div_le_mono; lia).
  split_and!; dmlia.
Qed.

Lemma kvminit_text s root tbl free :
  vm_inv s root tbl free -> (forall x, leaf_pte (mem s) tbl x = None) ->
  (2 + Z.to_nat ((sym_etext - PGSIZE) / 2 ^ 21 - 1024) <= length free)%nat ->
  exists s' tbl' k, (k <= 2 + Z.to_nat ((sym_etext - PGSIZE) / 2 ^ 21 - 1024))%nat
    /\ identity_mapped root KERNBASE (sym_etext - KERNBASE) (PTE_R .| PTE_X) s tbl free k s' tbl'.
Proof.
  intros I HL Hf. pose proof etext_above. pose proof end_above. pose proof end_below.
  destruct etext_regions as (R1 & R2 & R3 & R4 & R5 & R6).
  change KERNBASE with 2147483648 in *. change PHYSTOP with 2281701376 in *.
  destruct (kvmmap_identity s root tbl free 2147483648 (sym_etext - 2147483648)
    (PTE_R .| PTE_X) (Z.to_nat ((sym_etext - PGSIZE) / 2 ^ 21 - 1024)) 0) as (s' & tbl' & k & K & M);
    try done; try lia.
  - replace (2147483648 + (sym_etext - 2147483648) - PGSIZE) with (sym_etext - PGSIZE) by lia.
    change (2147483648 / 2 ^ 21) with 1024. lia.
  - replace (2147483648 + (sym_etext - 2147483648) - PGSIZE) with (sym_etext - PGSIZE) by lia. by rewrite R5.
  - exists s', tbl', k. split; [lia|done].
Qed.

Lemma kvminit_data s root tbl free :
  vm_inv s root tbl free ->
  (forall x, leaf_pte (mem s) tbl x = if decide (KERNBASE <= vbase x < sym_etext)
     then Some (leaf_entry (vbase x) (PTE_R .| PTE_X)) else None) ->
  (2 + Z.to_nat (1087 - sym_etext / 2 ^ 21) <= length free)%nat ->
  exists s' tbl' k, (k <= 2 + Z.to_nat (1087 - sym_etext / 2 ^ 21))%nat
    /\ identity_mapped root sym_etext (PHYSTOP - sym_etext) (PTE_R .| PTE_W) s tbl free k s' tbl'.
Proof.
  intros I HL Hf. pose proof etext_above. pose proof end_above. pose proof end_below.
  pose proof etext_aligned. destruct etext_regions as (R1 & R2 & R3 & R4 & R5 & R6).
  change KERNBASE with 2147483648 in *. change PHYSTOP with 2281701376 in *.
  destruct (kvmmap_identity s root tbl free sym_etext (2281701376 - sym_etext)
    (PTE_R .| PTE_W) (Z.to_nat (1087 - sym_etext / 2 ^ 21)) 0) as (s' & tbl' & k & K & M);
    try done; try lia.
  - intros x Hx. rewrite HL, decide_False; [done|]. unfold vbase, PGSIZE in *. rewrite Z.mod_small by dmlia. dmlia.
  - replace (sym_etext + (2281701376 - sym_etext) - PGSIZE) with 2281697280 by (unfold PGSIZE; lia).
    change (2281697280 / 2 ^ 21) with 1087. lia.
  - replace (sym_etext + (2281701376 - sym_etext) - PGSIZE) with 2281697280 by (unfold PGSIZE; lia). by rewrite R6.
  - exists s', tbl', k. split; [lia|done].
Qed.

Lemma kvminit_uart s root tbl free :
  vm_inv s root tbl free -> (forall x, vbase x = UART0 -> leaf_pte (mem s) tbl x = None) -> (2 <= length free)%nat ->
  exists s' tbl' k, (k <= 2)%nat /\ identity_mapped root UART0 PGSIZE (PTE_R .| PTE_W) s tbl free k s' tbl'.
Proof.
  intros I HL Hf. apply (kvmmap_identity s root tbl free UART0 PGSIZE (PTE_R .| PTE_W) 0 0); try done.
  intros x Hx. apply HL. unfold UART0, vbase, PGSIZE in *. rewrite Z.mod_small by dmlia. dmlia.
Qed.

Lemma kvminit_ok s root free :
  pool s (root :: free) -> (kvminit_pages <= length (root :: free))%nat ->
  exists s' tbl k, kvminit s = Done tt s' /\ kernel_pagetable s' = root
    /\ (k <= kvminit_pages)%nat /\ kernel_space s' tbl (drop k (root :: free))
    /\ frame (set_kernel_pagetable root s) s'
    /\ (map_to_list tbl).*2 ++ drop k (root :: free) ≡ₚ root :: free.
Proof.
  intros Hpool Hlen. unfold kvminit_pages in *. cbn [length] in Hlen.
  destruct etext_regions as (R1 & R2 & R3 & R4 & R5 & R6).
  pose proof etext_above as B1. pose proof end_above as B2. pose proof end_below as B3.
  destruct (create_pagetable_ok s root free Hpool) as [E0 I0].
  set (s0 := set_mem _ _) in *. unfold kvminit.
  assert (F0 : frame s s0) by (apply frame_set_mem, frame_alloced).
  clearbody s0. apply (vm_inv_kernel_pagetable _ _ _ _ root) in I0.
  apply (frame_set_kernel_pagetable root) in F0.
  destruct (kvminit_text (set_kernel_pagetable root s0) root _ free I0) as (s1 & t1 & k1 & K1 & [E1 I1 F1 L1 P1]);
    [intros; apply leaf_pte_new|lia|].
  destruct (kvminit_data s1 root t1 _ I1) as (s2 & t2 & k2 & K2 & [E2 I2 F2 L2 P2]).
  { intros x. rewrite L1, leaf_pte_new. by replace (KERNBASE + (sym_etext - KERNBASE)) with sym_etext by lia. }
  { rewrite length_drop. lia. }
  rewrite drop_drop in I2, P2.
  destruct (kvminit_uart s2 root t2 _ I2) as (s3 & t3 & k3 & K3 & [E3 I3 F3 L3 P3]).
  { intros x Hx. rewrite L2, L1, Hx, leaf_pte_new, !decide_False; [done| |];
      unfold UART0; change KERNBASE with 2147483648 in *; lia. }
  { rewrite length_drop. lia. }
  rewrite drop_drop in I3, P3.
  assert (Hk : kernel_pagetable s3 = root).
  { by rewrite (frame_kernel_pagetable s2 s3), (frame_kernel_pagetable s1 s2),
      (frame_kernel_pagetable (set_kernel_pagetable root s0) s1). }
  exists s3, t3, (S (k1 + k2 + k3)). split_and!; [|done|lia| | |].
  - mstep; [exact E0|]. mrun.
    rewrite (u64_small (sym_etext - _)), (u64_small (_ - sym_etext))
      by (change KERNBASE with 2147483648 in *; change PHYSTOP with 2281701376 in *; lia).
    mstep; [exact E1|]. mstep; [exact E2|]. exact E3.
  - split; [rewrite Hk; exact I3|]. intros x. rewrite L3, L2, L1, leaf_pte_new. unfold kernel_leaf.
    change KERNBASE with 2147483648 in *. change PHYSTOP with 2281701376 in *.
    pose proof (vbase_mod x) as Hm. unfold UART0, PGSIZE in *.
    destruct (decide (vbase x = 268435456)) as [->|]; repeat case_decide; try lia; try done.
    exfalso. dmlia.
  - etrans; [exact F0|]. etrans; [exact F1|]. by etrans.
  - cbn [drop]. unfold pages_kept in *. rewrite P3, P2, P1, map_to_list_singleton. done.
Qed.

(** ** The hardware's view *)

Lemma kernel_leaf_hw va perm :
  0 <= vbase va < 2 ^ 39 -> 0 <= perm < 2 ^ 10 -> Z.testbit perm 1 = true -> va / 4096 < 2 ^ 27 ->
  0 <= va ->
  (e ← Some (leaf_entry (vbase va) perm);
   if hw_leaf e then Some (pte_ppn e * 4096 + va mod 4096, e mod 2 ^ 10) else None)
  = Some (va, perm .| PTE_V).
Proof.
  intros Hr Hp Ht Hva H0. destruct (leaf_entry_hw (vbase va) perm) as (E1 & E2 & E3);
    [lia|apply vbase_mod|done|done|]. cbn [mbind option_bind]. rewrite E1, E2, E3.
  f_equal. f_equal. unfold vbase. rewrite Z.mod_small by dmlia. dmlia.
Qed.

(** The leaves of [kernel_leaf] translate as [kernel_translate] says. *)
Lemma kernel_leaf_translate va :
  0 <= va < 2 ^ 64 ->
  (if canonical va then
     e ← kernel_leaf va; if hw_leaf e then Some (pte_ppn e * 4096 + va mod 4096, e mod 2 ^ 10) else None
   else None) = kernel_translate va.
Proof.
  intros Hva.
  pose proof end_below. pose proof end_above. pose proof etext_above. pose proof etext_aligned.
  unfold kernel_leaf, kernel_translate, canonical.
  change KERNBASE with 2147483648 in *. change PHYSTOP with 2281701376 in *. unfold UART0, PGSIZE in *.
  destruct (Z.lt_ge_cases va (2 ^ 39)) as [Hlow|Hhigh].
  - assert (Hb : vbase va = va / 4096 * 4096) by (unfold vbase; rewrite Z.mod_small by dmlia; done).
    destruct (Z.lt_ge_cases va (2 ^ 38)) as [Hlow'|Hmid].
    + replace ((0 <=? va) && (va <? 2 ^ 38)) with true by (symmetry; lia). cbn [orb].
      repeat case_decide; try (exfalso; dmlia);
        try (by rewrite kernel_leaf_hw by (rewrite ?Hb; done || dmlia)); done.
    + replace ((0 <=? va) && (va <? 2 ^ 38)) with false by (symmetry; lia).
      replace ((2 ^ 64 - 2 ^ 38 <=? va) && (va <? 2 ^ 64)) with false by (symmetry; lia). cbn [orb].
      repeat case_decide; try lia; done.
  - replace ((0 <=? va) && (va <? 2 ^ 38)) with false by (symmetry; lia). cbn [orb].
    rewrite !(decide_False (P := _ <= va < _)) by lia.
    destruct ((2 ^ 64 - 2 ^ 38 <=? va) && (va <? 2 ^ 64)) eqn:Hc; [|done]. b2p.
    assert (Hb : 2 ^ 38 <= vbase va) by (unfold vbase; dmlia).
    rewrite !decide_False by lia. done.
Qed.

Lemma kernel_space_translate s tbl free va :
  kernel_space s tbl free -> 0 <= va < 2 ^ 64 ->
  sv39_translate (mem s) (kernel_pagetable s) va = kernel_translate va.
Proof.
  intros [I Hl] Hva. rewrite (translate_wf _ _ tbl) by apply I. rewrite Hl. by apply kernel_leaf_translate.
Qed.

(** Turning paging on with the kernel's page table. *)
Lemma kvminithart_translate s tbl free va :
  kernel_space s tbl free -> 0 <= va < 2 ^ 64 ->
  exists s', kvminithart s = Done tt s' /\ mem s' = mem s /\ hw_translate s' va = kernel_translate va.
Proof.
  intros K Hva. eexists. split; [done|]. split; [done|]. unfold hw_translate, satp_translate.
  change (satp (csr _)) with (MAKE_SATP (kernel_pagetable s)).
  pose proof (vm_wf _ _ _ _ (ks_inv _ _ _ K)) as Hwf.
  destruct (make_satp_root (kernel_pagetable s)) as [E1 E2];
    [apply (wf_page _ _ _ Hwf _ _ (wf_root _ _ _ Hwf))|].
  cbv zeta. rewrite E1, E2. cbn [Z.eqb]. by apply (kernel_space_translate s tbl free).
Qed.

(** ** The address space: theorems *)

(** [kvmmap] maps what it is asked to, and terminates.  For a page-aligned
    range that is not mapped yet, in the low 2^39 bytes and with enough free
    pages, it returns after mapping exactly the pages of [va, va + sz) to
    consecutive physical pages with the given permissions, takes at most [budget]
    pages for tables, and keeps every other mapping.  A size of zero does
    nothing and a misaligned physical address panics. *)
Theorem kvmmap_spec s root tbl free va pa sz perm :
  vm_inv s root tbl free -> 0 <= perm < 2 ^ 10 -> va mod PGSIZE = 0 -> 0 <= va -> 0 <= sz ->
  va + sz <= 2 ^ 39 -> 0 <= pa -> pa + sz + PGSIZE < 2 ^ 64 ->
  (forall x, va <= x < va + sz -> leaf_pte (mem s) tbl x = None) ->
  (budget tbl va (PGROUNDDOWN (va + sz - 1)) <= length free)%nat ->
  if decide (sz = 0) then kvmmap root va pa sz perm s = Done tt s
  else if decide (pa mod PGSIZE = 0) then
    exists s' tbl' k, kvmmap root va pa sz perm s = Done tt s'
      /\ (k <= budget tbl va (PGROUNDDOWN (va + sz - 1)))%nat
      /\ maps_range root s tbl free va (PGROUNDDOWN (va + sz - 1)) pa perm k s' tbl'
  else kvmmap root va pa sz perm s = Panic "kvmmap" s.
Proof.
  intros Hinv Hperm Hva Hva0 Hsz Hend Hpa Hpl Hnone Hfree. case_decide as H0; [by subst sz|].
  case_decide as Hal.
  - by apply kvmmap_ok; try lia.
  - unfold kvmmap. rewrite (proj2 (Z.eqb_neq sz 0)) by done. cbv zeta.
    cbn [kvmmap_loop]. unfold map_page at 1. rewrite (proj2 (Z.eqb_neq (pa mod PGSIZE) 0)) by done.
    cbn [negb]. by rewrite orb_true_r.
Qed.

(** C19: the kernel's address space.  From an allocator with at least
    [kvminit_pages] free pages, [kvminit] returns, and once [kvminithart] has
    turned paging on the hardware translates every 64-bit address as
    [kernel_translate] says: kernel text to itself, readable and executable but
    not writable, the rest of RAM and the UART to themselves, readable and
    writable, everything else to nothing. *)
Theorem kernel_space_is_identity s free va :
  pool s free -> (kvminit_pages <= length free)%nat -> 0 <= va < 2 ^ 64 ->
  exists s1 s2 tbl k, kvminit s = Done tt s1 /\ kvminithart s1 = Done tt s2
    /\ vm_inv s1 (kernel_pagetable s1) tbl (drop k free) /\ (k <= kvminit_pages)%nat
    /\ hw_translate s2 va = kernel_translate va.
Proof.
  intros Hpool Hlen Hva. destruct free as [|root free]; [cbn in Hlen; unfold kvminit_pages in Hlen; lia|].
  destruct (kvminit_ok s root free Hpool Hlen) as (s1 & tbl & k & E & Hr & Hk & K & F & _).
  destruct (kvminithart_translate s1 tbl _ va K Hva) as (s2 & E2 & _ & H2).
  exists s1, s2, tbl, k. split_and!; try done. apply K.
Qed.

(** C37: two things the kernel needs later are not in that address space: the
    claim register of the interrupt controller, which [plic_claim] reads on
    every external interrupt, and the trampoline page, which
    include/memlayout.h documents as mapped at the top of kernel memory. *)
Theorem kernel_space_misses_plic_and_trampoline s free :
  pool s free -> (kvminit_pages <= length free)%nat ->
  exists s1 s2, kvminit s = Done tt s1 /\ kvminithart s1 = Done tt s2
    /\ hw_translate s2 (PLIC_SCLAIM 0) = None /\ hw_translate s2 TRAMPOLINE = None.
Proof.
  intros Hpool Hlen. destruct free as [|root free]; [cbn in Hlen; unfold kvminit_pages in Hlen; lia|].
  destruct (kvminit_ok s root free Hpool Hlen) as (s1 & tbl & k & E & Hr & Hk & K & F & _).
  assert (H : forall va, 0 <= va < 2 ^ 64 -> kernel_translate va = None ->
    exists s', kvminithart s1 = Done tt s' /\ hw_translate s' va = None).
  { intros va Hva Hn. destruct (kvminithart_translate s1 tbl _ va K Hva) as (s' & E' & _ & H').
    exists s'. by rewrite H', Hn. }
  pose proof etext_above. pose proof end_above. pose proof end_below.
  change KERNBASE with 2147483648 in *. change PHYSTOP with 2281701376 in *.
  assert (Hn : forall va, va = PLIC_SCLAIM 0 \/ va = TRAMPOLINE -> kernel_translate va = None).
  { intros va Hor. unfold kernel_translate. change KERNBASE with 2147483648 in *.
    change PHYSTOP with 2281701376 in *. change UART0 with 268435456. change PGSIZE with 4096.
    change (PLIC_SCLAIM 0) with 203427844 in Hor. change TRAMPOLINE with 274877902848 in Hor.
    by rewrite !decide_False by lia. }
  destruct (H (PLIC_SCLAIM 0)) as (s2 & E2 & R2); [by vm_compute; split|by apply Hn; left|].
  destruct (H TRAMPOLINE) as (s3 & E3 & R3); [by vm_compute; split|by apply Hn; right|].
  exists s1, s2. split_and!; try done. congruence.
Qed.

(** The file's self-test passes: with four free pages [test_pagetable]
    returns, with the page it maps and the table left allocated. *)
Theorem test_pagetable_passes s pt pa t1 t2 free :
  pool s (pt :: pa :: t1 :: t2 :: free) ->
  exists s' tbl, test_pagetable s = Done tt s' /\ vm_inv s' pt tbl free
    /\ leaf_pte (mem s') tbl 0x1000000 = Some (leaf_entry pa (PTE_R .| PTE_W)).
Proof.
  intros Hpool. destruct (create_pagetable_ok s pt _ Hpool) as [E0 I0].
  set (s0 := set_mem _ _) in *. clearbody s0.
  pose proof (vm_pool _ _ _ _ I0) as P0.
  assert (Hpa : page_ok pa) by (eapply pool_page_ok; [exact P0|]; by left).
  pose proof (page_ok_pos pa Hpa) as Hpr.
  assert (I1 : vm_inv (alloced pa s0) pt {[ [] := pt ]} (t1 :: t2 :: free)).
  { split; [by apply pool_alloced| |].
    - apply (pt_wf_ext (mem s0)); [apply I0|]. intros path p a Hp Ha.
      apply (only_page_alloced pa s0). apply lookup_singleton_Some in Hp as Hp'.
      destruct Hp' as [<- <-]. assert (pt <> pa).
      { intros ->. apply (vm_disj _ _ _ _ I0 _ _ Hp). by left. }
      destruct Hpa as [Ha1 _], (wf_page _ _ _ (vm_wf _ _ _ _ I0) _ _ Hp) as [Ha2 _].
      destruct (pages_disjoint pt pa Ha2 Ha1) as [|]; [done|unfold PGSIZE in *; lia|unfold PGSIZE in *; lia].
    - intros path p Hp Hin. apply (vm_disj _ _ _ _ I0 _ _ Hp). by right. }
  pose proof (map_page_ok (alloced pa s0) pt {[ [] := pt ]} (t1 :: t2 :: free) 0x1000000 pa
    (PTE_R .| PTE_W) I1 eq_refl) as H2. rewrite missing_new in H2. cbn [drop length] in H2.
  destruct H2 as (s2 & tbl & E2 & [I2 S2 L2 F2 O2 C2 [c Hc]]);
    [apply Hpa|lia|done|apply leaf_pte_new|lia|].
  specialize (L2 0x1000000). rewrite decide_True in L2 by done.
  pose proof (vm_wf _ _ _ _ I2) as Hwf. assert (Pc := wf_page _ _ _ Hwf _ _ Hc).
  assert (He : ld64 (mem s2) (pte_addr c 0x1000000 0) = leaf_entry pa (PTE_R .| PTE_W)).
  { unfold leaf_pte in L2. rewrite Hc in L2. cbn [mbind option_bind] in L2.
    destruct (pte_valid _); [by injection L2|done]. }
  exists s2, tbl. split; [|by split].
  unfold test_pagetable. mstep; [exact E0|]. mstep; [by eapply alloc_page_pop|].
  mstep; [exact E2|]. mstep; [reflexivity|].
  mstep; [apply (walk_lookup_ok s2 pt tbl _ Hwf)|]. rewrite Hc. rewrite page_ok_nonzero by done.
  mstep; [reflexivity|]. mstep; [by apply load64_ok, pte_addr_ram|]. rewrite He.
  rewrite leaf_entry_build by done.
  assert (Hbit : forall k, 0 <= k < 10 -> ((PA2PTE pa .| (PTE_R .| PTE_W .| PTE_V)) .& 2 ^ k
    =? 0) = negb (Z.testbit (PTE_R .| PTE_W .| PTE_V) k)).
  { intros k Hk. rewrite land_pow2_testbit by lia. f_equal. apply pte_flag_build; lia. }
  pose proof (Hbit 0 ltac:(lia)) as B0. pose proof (Hbit 1 ltac:(lia)) as B1.
  pose proof (Hbit 2 ltac:(lia)) as B2. pose proof (Hbit 3 ltac:(lia)) as B3.
  change (2 ^ 0) with PTE_V in B0. change (2 ^ 1) with PTE_R in B1.
  change (2 ^ 2) with PTE_W in B2. change (2 ^ 3) with PTE_X in B3.
  rewrite B0, B1, B2, B3, PTE2PA_build, Z.eqb_refl by (apply Hpa || done || lia).
  reflexivity.
Qed.

End vm_kernel.

(** ** Witnesses *)

#[local] Existing Instance demo_linker.
#[local] Existing Instance demo_linker_ok.

Lemma kvmmap_spec_witness :
  exists s' tbl', kvmmap page_a 0x1000000 page_b 0x3000 (PTE_R .| PTE_W) demo_table = Done tt s'
    /\ leaf_pte (mem s') tbl' 0x1002000 = Some (leaf_entry (page_b + 0x2000) (PTE_R .| PTE_W)).
Proof.
  pose proof (kvmmap_spec demo_table page_a {[ [] := page_a ]} demo_free 0x1000000 page_b 0x3000
    (PTE_R .| PTE_W) demo_table_inv) as H.
  change (PGROUNDDOWN (0x1000000 + 0x3000 - 1)) with 0x1002000 in H. unfold budget in H.
  rewrite missing_new, decide_False, decide_True in H by (done || lia).
  destruct H as (s' & tbl' & k & E & _ & M);
    [split; reflexivity || (vm_compute; congruence)|reflexivity|lia|lia|lia
    |unfold page_b; lia|unfold page_b, PGSIZE; lia|intros x _; apply leaf_pte_new|vm_compute; lia|].
  exists s', tbl'. split; [exact E|]. rewrite (mr_leaf _ _ _ _ _ _ _ _ _ _ _ M).
  rewrite decide_True by (vm_compute; split; congruence). reflexivity.
Defined.

Lemma kernel_space_is_identity_witness :
  exists s1 s2, kvminit (pool_with (demo_pages 70)) = Done tt s1 /\ kvminithart s1 = Done tt s2
    /\ hw_translate s2 0x80000000 = Some (0x80000000, PTE_R .| PTE_X .| PTE_V).
Proof.
  destruct (kernel_space_is_identity (pool_with (demo_pages 70)) (demo_pages 70) 0x80000000)
    as (s1 & s2 & tbl & k & E1 & E2 & _ & _ & H).
  - apply demo_pages_pool. lia.
  - unfold demo_pages. rewrite pages_from_length. unfold kvminit_pages. lia.
  - vm_compute. split; congruence.
  - exists s1, s2. split; [exact E1|]. split; [exact E2|]. rewrite H. reflexivity.
Defined.

Lemma kernel_space_misses_plic_and_trampoline_witness :
  exists s1 s2, kvminit (pool_with (demo_pages 70)) = Done tt s1 /\ kvminithart s1 = Done tt s2
    /\ hw_translate s2 (PLIC_SCLAIM 0) = None /\ hw_translate s2 TRAMPOLINE = None.
Proof.
  apply (kernel_space_misses_plic_and_trampoline (pool_with (demo_pages 70)) (demo_pages 70)).
  - apply demo_pages_pool. lia.
  - unfold demo_pages. rewrite pages_from_length. unfold kvminit_pages. lia.
Defined.

Lemma test_pagetable_passes_witness :
  exists s' tbl, test_pagetable (pool_with (demo_pages 4)) = Done tt s'
    /\ vm_inv s' 0x8000a000 tbl []
    /\ leaf_pte (mem s') tbl 0x1000000 = Some (leaf_entry 0x8000b000 (PTE_R .| PTE_W)).
Proof.
  apply (test_pagetable_passes (pool_with (demo_pages 4)) 0x8000a000 0x8000b000 0x8000c000
    0x8000d000 []).
  apply (demo_pages_pool 4). lia.
Defined.
