(* ===== verification/VmDestroy.v ===== *)
(** * Freeing a page table

    [destroy_pagetable] of kernel/mm/vm.c frees the pages a table maps and the
    pages of the table itself, children first.  [pt_pages] computes the pages in
    the order they are freed, from the table in RAM; for a well-formed table
    without leaf entries they are exactly the table's pages. *)

From S2P Require Import Prelude Riscv Memory State Spinlock Kalloc Vm VmMap.

Section vm_destroy.
Context {L : Linker} {LO : LinkerOk}.

(** ** Definitions *)

(** An entry that points to a lower-level table: valid, without R, W and X. *)
Definition pte_is_table (e : Z) : bool :=
  negb (e .& PTE_V =? 0) && (e .& (PTE_R .| PTE_W .| PTE_X) =? 0).

Fixpoint collect (n : nat) (i : Z) (f : Z -> option (list Z)) : option (list Z) :=
  match n with
  | O => Some []
  | S n' => l ← f i; l' ← collect n' (i + 1) f; Some (l ++ l')
  end.

(** The pages [destroy_pagetable] frees, in order; none when [fuel] levels do
    not reach the bottom. *)
Fixpoint pt_pages (fuel : nat) (m : memory) (pt : Z) : option (list Z) :=
  match fuel with
  | O => None
  | S fuel' =>
      l ← collect 512 0 (fun i =>
        let e := ld64 m (pt + 8 * i) in
        if pte_is_table e then pt_pages fuel' m (PTE2PA e)
        else if negb (e .& PTE_V =? 0) then Some [PTE2PA e] else Some []);
      Some (l ++ [pt])
  end.

(** RAM agrees with [m] on the pages [K]. *)
Definition agree_on (m : memory) (K : list Z) (s : kstate) : Prop :=
  forall p a, p ∈ K -> p <= a < p + PGSIZE -> ldb (mem s) a = ldb m a.

(** RAM outside the pages [K] is the same. *)
Definition only_pages (K : list Z) (s s' : kstate) : Prop :=
  forall a, (forall p, p ∈ K -> ~ (p <= a < p + PGSIZE)) -> ldb (mem s') a = ldb (mem s) a.

(** [act] frees the pages [l], in this order, when RAM holds [m] on them and on [K]. *)
Definition frees (m : memory) (K : list Z) (act : M unit) (l : list Z) : Prop :=
  forall s free, pool s free -> NoDup (K ++ l) -> (forall p, p ∈ K ++ l -> page_ok p) ->
  (forall p, p ∈ l -> p ∉ free) -> agree_on m (K ++ l) s ->
  exists s', act s = Done tt s' /\ pool s' (reverse l ++ free) /\ frame s s' /\ only_pages l s s'.

(** The pages of a table without leaves, in the order they are freed. *)
Definition sub_pages (tbl : gmap (list Z) Z) (path : list Z) : list Z :=
  match tbl !! path with
  | Some c => (seqZ 0 512 ≫= fun j => option_list (tbl !! (path ++ [j]))) ++ [c]
  | None => []
  end.

Definition table_pages (tbl : gmap (list Z) Z) (root : Z) : list Z :=
  (seqZ 0 512 ≫= fun i => sub_pages tbl [i]) ++ [root].

(** ** Agreement *)

Lemma agree_sub m K K' s : (forall p, p ∈ K' -> p ∈ K) -> agree_on m K s -> agree_on m K' s.
Proof. intros Hs H p a Hp. apply H. by apply Hs. Qed.

Lemma agree_other m K l s s' :
  agree_on m K s -> only_pages l s s' -> (forall p, p ∈ K ++ l -> page_ok p) ->
  (forall p, p ∈ K -> p ∉ l) -> agree_on m K s'.
Proof.
  intros Ha Ho Hok Hd p a Hp Hpa. rewrite Ho; [by eapply Ha|]. intros q Hq Hqa.
  assert (Hne : p <> q) by (intros ->; by apply (Hd q)).
  destruct (Hok p) as [Hp1 _]; [set_solver|]. destruct (Hok q) as [Hq1 _]; [set_solver|].
  destruct (pages_disjoint p q Hp1 Hq1 Hne); lia.
Qed.

Lemma only_pages_refl l s : only_pages l s s.
Proof. by intros a _. Qed.

Lemma only_pages_app l1 l2 s1 s2 s3 :
  only_pages l1 s1 s2 -> only_pages l2 s2 s3 -> only_pages (l1 ++ l2) s1 s3.
Proof. intros H1 H2 a Ha. rewrite H2, H1; [done| |]; intros p Hp; apply Ha; set_solver. Qed.

(** ** Actions that free *)

Lemma frees_weaken m K K' act l :
  (forall p, p ∈ K' -> p ∈ K) -> NoDup K' -> frees m K' act l -> frees m K act l.
Proof.
  intros Hs Hnd H s free Hp Hn Hok Hd Ha. apply NoDup_app in Hn as (Hn1 & Hn2 & Hn3).
  apply (H s free); try done.
  - apply NoDup_app. split; [done|]. split; [|done]. intros p Hin. by apply Hn2, Hs.
  - intros p Hin. apply Hok. set_solver.
  - eapply agree_sub; [|done]. set_solver.
Qed.

Lemma frees_ret m K : frees m K (mret tt) [].
Proof.
  intros s free Hp _ _ _ _. exists s. split_and!; [done|done|done|]. apply only_pages_refl.
Qed.

Lemma frees_seq m K a b l1 l2 :
  frees m K a l1 -> frees m K b l2 -> frees m K (a ;; b) (l1 ++ l2).
Proof.
  intros Ha Hb s free Hp Hn Hok Hd Hag.
  assert (Hn' := Hn). rewrite app_assoc in Hn'. apply NoDup_app in Hn' as (HnK1 & Hn12 & Hn2).
  apply NoDup_app in HnK1 as (HnK & HK1 & Hn1).
  destruct (Ha s free) as (s1 & E1 & P1 & F1 & O1); try done.
  { apply NoDup_app. split; [done|]. split; [done|done]. }
  { intros p Hin. apply Hok. set_solver. }
  { intros p Hin. apply Hd. set_solver. }
  { eapply agree_sub; [|done]. set_solver. }
  destruct (Hb s1 (reverse l1 ++ free)) as (s2 & E2 & P2 & F2 & O2).
  { done. }
  { apply NoDup_app. split; [done|]. split; [|done]. intros p Hin Hin2. apply (Hn12 p); set_solver. }
  { intros p Hin. apply Hok. set_solver. }
  { intros p Hin [Hr|Hf]%elem_of_app.
    - apply elem_of_reverse in Hr. apply (Hn12 p); set_solver.
    - apply (Hd p); set_solver. }
  { eapply (agree_other m (K ++ l2) l1 s s1); [|done| |].
    - eapply agree_sub; [|done]. set_solver.
    - intros p Hin. apply Hok. set_solver.
    - intros p Hin Hl1. apply elem_of_app in Hin as [Hin|Hin].
      + by apply (HK1 p).
      + apply (Hn12 p); set_solver. }
  exists s2. split; [by mstep; [exact E1|]|]. split; [|split; [by etrans|]].
  - by rewrite reverse_app, <- app_assoc.
  - by eapply only_pages_app.
Qed.

Lemma frees_loop m K (body : Z -> M unit) f :
  (forall i l, 0 <= i < 512 -> f i = Some l -> frees m K (body i) l) ->
  forall n i l, 0 <= i -> i + Z.of_nat n <= 512 -> collect n i f = Some l ->
  frees m K (for_loop n i body) l.
Proof.
  intros Hb. induction n as [|n IH]; intros i l H0 H1 Hc; cbn [collect for_loop] in *.
  - injection Hc as <-. apply frees_ret.
  - destruct (f i) as [l1|] eqn:E1; [|done]. cbn [mbind option_bind] in Hc.
    destruct (collect n (i + 1) f) as [l2|] eqn:E2; [|done]. injection Hc as <-.
    apply frees_seq; [apply Hb; [lia|done]|apply IH; [lia|lia|done]].
Qed.

Lemma frame_freed p s : frame s (freed p s).
Proof.
  unfold freed. generalize (st64 (memset (mem s) p 1 PGSIZE) p (freelist s)). intros m.
  split; [done|]. intros H. by rewrite touch_deep.
Qed.

Lemma frees_page m K p : frees m K (free_page p) [p].
Proof.
  intros s free Hp _ Hok Hd _. assert (Hpok : page_ok p) by (apply Hok; set_solver).
  exists (freed p s). split; [by eapply free_page_push|]. split; [|split].
  - apply pool_freed; [done|done|]. apply Hd. set_solver.
  - apply frame_freed.
  - intros a Ha. apply only_page_freed. apply Ha. set_solver.
Qed.

(** Freeing the page [p] last: the action before may still read it. *)
Lemma frees_last m act l p :
  frees m [p] act l -> frees m [] (act ;; free_page p) (l ++ [p]).
Proof.
  intros Ha s free Hp Hn Hok Hd Hag. cbn [app] in *. apply NoDup_app in Hn as (Hn1 & Hn2 & _).
  destruct (Ha s free) as (s1 & E1 & P1 & F1 & O1); try done.
  { cbn [app]. apply NoDup_cons. split; [|done]. intros Hin. apply (Hn2 p); set_solver. }
  { intros q Hin. apply Hok. set_solver. }
  { intros q Hin. apply Hd. set_solver. }
  { eapply agree_sub; [|done]. set_solver. }
  destruct (frees_page m [] p s1 (reverse l ++ free)) as (s2 & E2 & P2 & F2 & O2).
  { done. }
  { apply NoDup_singleton. }
  { intros q Hin. apply Hok. set_solver. }
  { intros q Hq. apply list_elem_of_singleton in Hq as ->. intros [Hr|Hf]%elem_of_app.
    - apply elem_of_reverse in Hr. apply (Hn2 p); set_solver.
    - apply (Hd p); set_solver. }
  { eapply (agree_other m [p] l s s1); [|done| |].
    - eapply agree_sub; [|done]. set_solver.
    - intros q Hin. apply Hok. set_solver.
    - intros q Hq. apply list_elem_of_singleton in Hq as ->. intros Hin. apply (Hn2 p); set_solver. }
  exists s2. split; [by mstep; [exact E1|]|]. split; [|split; [by etrans|]].
  - rewrite reverse_app, <- app_assoc. done.
  - by eapply only_pages_app.
Qed.

Lemma frees_destroy fuel m pt l :
  pt_pages fuel m pt = Some l -> frees m [] (destroy_pagetable fuel pt) l.
Proof.
  revert pt l; induction fuel as [|fuel IH]; intros pt l Hl; [done|].
  cbn [pt_pages destroy_pagetable] in *.
  apply bind_Some in Hl as (l1 & Hc & [= <-]). apply frees_last. eapply frees_loop; [|done|lia|exact Hc].
  intros i li Hi Hli s free Hp Hn Hok Hd Hag. unfold pte_is_table in Hli. cbv zeta in Hli.
  assert (Hin : pt ∈ [pt] ++ li) by by left.
  assert (Hpt : page_ok pt) by by apply Hok.
  assert (He : ld64 (mem s) (pt + 8 * i) = ld64 m (pt + 8 * i)).
  { apply ld_ext. intros b Hb. apply (Hag pt); [done|]. unfold PGSIZE. lia. }
  assert (Hload : load64 (pt + 8 * i) s = Done (ld64 m (pt + 8 * i)) s).
  { rewrite load64_ok by by apply slot_ram. by rewrite He. }
  unfold mbind at 1, M_bind. rewrite Hload.
  destruct (negb _ && _) eqn:Et.
  - assert (Hw : frees m [pt] (destroy_pagetable fuel (PTE2PA (ld64 m (pt + 8 * i)))) li)
      by (apply (frees_weaken m [pt] []); [by intros p ?%not_elem_of_nil|constructor|by apply IH]).
    by apply (Hw s free).
  - destruct (negb (ld64 m (pt + 8 * i) .& PTE_V =? 0)).
    + injection Hli as <-. by apply (frees_page m [pt] _ s free Hp).
    + injection Hli as <-. by apply (frees_ret m [pt] s free Hp).
Qed.

(** ** Tables without leaves *)

Lemma collect_bind n i f g :
  (forall j, i <= j < i + Z.of_nat n -> f j = Some (g j)) ->
  collect n i f = Some (seqZ i (Z.of_nat n) ≫= g).
Proof.
  revert i; induction n as [|n IH]; intros i H; cbn [collect]; [done|].
  rewrite H by lia. cbn [mbind option_bind]. rewrite IH by (intros; apply H; lia).
  cbn [mbind option_bind]. rewrite (seqZ_cons i (Z.of_nat (S n))) by lia.
  cbn [mbind list_bind]. do 3 f_equal. replace (Z.of_nat n) with (Z.pred (Z.of_nat (S n))) by lia.
  done.
Qed.

Lemma table_pte_is_table c : page_ok c -> pte_is_table (PA2PTE c .| PTE_V) = true.
Proof.
  intros Hc. pose proof (page_ok_pos c Hc). unfold pte_is_table.
  rewrite pte_v_test, table_pte_valid. cbn [negb andb]. apply Z.eqb_eq.
  change (PTE_R .| PTE_W .| PTE_X) with 14. apply Z.bits_inj'. intros i Hi.
  rewrite Z.land_spec, Z.lor_spec, Z.testbit_0_l.
  destruct (Z.lt_ge_cases i 10) as [Hlt|Hge].
  - replace (Z.testbit (PA2PTE c) i) with false.
    + assert (E : i = 0 \/ i = 1 \/ i = 2 \/ i = 3 \/ i = 4 \/ i = 5 \/ i = 6 \/ i = 7 \/ i = 8
        \/ i = 9) by lia. by destruct E as [->|[->|[->|[->|[->|[->|[->|[->|[->| ->]]]]]]]]].
    + symmetry. rewrite <- (Z.mod_pow2_bits_low (PA2PTE c) 10 i) by lia.
      rewrite PA2PTE_low by lia. apply Z.testbit_0_l.
  - rewrite (testbit_high 14 10 i) by lia. apply andb_false_r.
Qed.

Lemma invalid_not_table e : pte_valid e = false -> pte_is_table e = false /\ negb (e .& PTE_V =? 0) = false.
Proof. intros H. unfold pte_is_table. by rewrite pte_v_test, H. Qed.

(** The pages below one node of a well-formed table. *)
Lemma pt_pages_node m root tbl path p fuel (g : Z -> list Z) :
  pt_wf m root tbl -> tbl !! path = Some p -> (length path < 2)%nat ->
  (forall i c, 0 <= i < 512 -> tbl !! (path ++ [i]) = Some c -> pt_pages fuel m c = Some (g i)) ->
  (forall i, 0 <= i < 512 -> tbl !! (path ++ [i]) = None -> g i = []) ->
  pt_pages (S fuel) m p = Some ((seqZ 0 512 ≫= g) ++ [p]).
Proof.
  intros Hwf Hp Hl Hsome Hnone. cbn [pt_pages]. rewrite (collect_bind 512 0 _ g); [done|].
  intros i Hi. cbv zeta. pose proof (wf_node _ _ _ Hwf _ _ i Hp Hl ltac:(lia)) as Hn.
  destruct (tbl !! (path ++ [i])) as [c|] eqn:E.
  - assert (Hc : page_ok c) by by eapply wf_page.
    rewrite Hn, table_pte_is_table, table_pte_decode by done. apply Hsome; [lia|done].
  - destruct (invalid_not_table _ Hn) as [-> ->]. by rewrite Hnone by (done || lia).
Qed.

(** A lowest-level table without valid entries. *)
Lemma pt_pages_leaf m p fuel :
  (forall i, 0 <= i < 512 -> pte_valid (ld64 m (p + 8 * i)) = false) ->
  pt_pages (S fuel) m p = Some [p].
Proof.
  intros H. cbn [pt_pages]. rewrite (collect_bind 512 0 _ (fun _ => [])).
  - reflexivity.
  - intros i Hi. cbv zeta. by destruct (invalid_not_table _ (H i ltac:(lia))) as [-> ->].
Qed.

(** The leaf entry in slot [k] of the table at path [i; j]. *)
Lemma leaf_at m tbl i j k c :
  tbl !! [i; j] = Some c -> 0 <= i < 512 -> 0 <= j < 512 -> 0 <= k < 512 ->
  leaf_pte m tbl (((i * 512 + j) * 512 + k) * 4096)
  = if pte_valid (ld64 m (c + 8 * k)) then Some (ld64 m (c + 8 * k)) else None.
Proof.
  intros Hc Hi Hj Hk. unfold leaf_pte, path1, pte_addr. rewrite !VPN_MASK_spec by lia.
  change (2 ^ (12 + 9 * 2)) with 1073741824. change (2 ^ (12 + 9 * 1)) with 2097152.
  change (2 ^ (12 + 9 * 0)) with 4096.
  replace ((((i * 512 + j) * 512 + k) * 4096 / 1073741824) mod 512) with i by dmlia.
  replace ((((i * 512 + j) * 512 + k) * 4096 / 2097152) mod 512) with j by dmlia.
  replace ((((i * 512 + j) * 512 + k) * 4096 / 4096) mod 512) with k by dmlia.
  by rewrite Hc.
Qed.

Lemma pt_pages_wf m root tbl :
  pt_wf m root tbl -> (forall va, leaf_pte m tbl va = None) ->
  pt_pages 3 m root = Some (table_pages tbl root).
Proof.
  intros Hwf Hnone. pose proof (wf_root _ _ _ Hwf) as Hr.
  apply (pt_pages_node m root tbl []); [done|done|cbn; lia| |].
  - intros i c1 Hi Hc1. cbn [app] in *. unfold sub_pages. rewrite Hc1.
    apply (pt_pages_node m root tbl [i]); [done|done|cbn; lia| |].
    + intros j c Hj Hc. rewrite Hc. apply pt_pages_leaf. intros k Hk.
      specialize (Hnone (((i * 512 + j) * 512 + k) * 4096)).
      rewrite (leaf_at m tbl i j k c Hc) in Hnone by lia.
      by destruct (pte_valid _).
    + intros j Hj Hc. by rewrite Hc.
  - intros i Hi Hc. cbn [app] in Hc. unfold sub_pages. by rewrite Hc.
Qed.

Lemma elem_of_option_list {A} (x : A) (o : option A) : x ∈ option_list o <-> o = Some x.
Proof. destruct o; cbn; set_solver. Qed.

(** They are the pages of [tbl], each once. *)
Lemma elem_of_sub_pages tbl m root path c :
  pt_wf m root tbl ->
  c ∈ sub_pages tbl path <-> exists p, tbl !! path = Some p
    /\ (c = p \/ exists j, 0 <= j < 512 /\ tbl !! (path ++ [j]) = Some c).
Proof.
  intros Hwf. unfold sub_pages. destruct (tbl !! path) as [p|] eqn:E.
  - rewrite elem_of_app, list_elem_of_bind, list_elem_of_singleton. split.
    + intros [(j & Hc & Hj)| ->]; [|eauto]. apply elem_of_seqZ in Hj.
      apply elem_of_option_list in Hc. exists p. split; [done|]. right. exists j. split; [lia|done].
    + intros (p' & [= <-] & [->|(j & Hj & Hc)]); [by right|]. left. exists j.
      rewrite elem_of_option_list, elem_of_seqZ. split; [done|lia].
  - split; [set_solver|]. by intros (p & [=] & _).
Qed.

Lemma elem_of_table_pages tbl m root c :
  pt_wf m root tbl -> c ∈ table_pages tbl root <-> exists path, tbl !! path = Some c.
Proof.
  intros Hwf. pose proof (wf_root _ _ _ Hwf) as Hr. unfold table_pages.
  rewrite elem_of_app, list_elem_of_bind, list_elem_of_singleton. split.
  - intros [(i & Hc & Hi)| ->]; [|eauto].
    apply (elem_of_sub_pages tbl m root) in Hc as (p & Hp & [->|(j & _ & Hc)]); eauto.
  - intros [path Hc]. destruct path as [|x q _] using rev_ind.
    { right. congruence. }
    left. destruct (wf_path _ _ _ Hwf _ _ _ Hc) as (Hx & Hl & p & Hp).
    destruct q as [|y q _] using rev_ind; cbn [app] in *.
    + exists x. rewrite elem_of_seqZ. split; [|lia].
      apply (elem_of_sub_pages tbl m root); [done|]. exists c. split; [done|by left].
    + destruct (wf_path _ _ _ Hwf _ _ _ Hp) as (Hy & Hl2 & p2 & Hp2).
      rewrite length_app in Hl. cbn in Hl. assert (q = []) as -> by (apply nil_length_inv; lia).
      cbn [app] in *. exists y. rewrite elem_of_seqZ. split; [|lia].
      apply (elem_of_sub_pages tbl m root); [done|]. exists p. split; [done|]. right.
      exists x. done.
Qed.

Lemma NoDup_sub_pages tbl m root path :
  pt_wf m root tbl -> NoDup (sub_pages tbl path).
Proof.
  intros Hwf. unfold sub_pages. destruct (tbl !! path) as [p|] eqn:E; [|constructor].
  apply NoDup_app. split_and!; [| |apply NoDup_singleton].
  - apply NoDup_bind; [| |apply NoDup_seqZ].
    + intros i j c _ _ Hi%elem_of_option_list Hj%elem_of_option_list.
      pose proof (wf_inj _ _ _ Hwf _ _ _ Hi Hj) as Heq. by apply app_inj_tail in Heq as [_ ->].
    + intros j _. destruct (tbl !! (path ++ [j])); cbn; [apply NoDup_singleton|constructor].
  - intros c (j & Hc%elem_of_option_list & _)%list_elem_of_bind ->%list_elem_of_singleton.
    pose proof (wf_inj _ _ _ Hwf _ _ _ Hc E) as Heq.
    apply (f_equal length) in Heq. rewrite length_app in Heq. cbn in Heq. lia.
Qed.

Lemma NoDup_table_pages tbl m root : pt_wf m root tbl -> NoDup (table_pages tbl root).
Proof.
  intros Hwf. pose proof (wf_root _ _ _ Hwf) as Hr. unfold table_pages.
  apply NoDup_app. split_and!; [| |apply NoDup_singleton].
  - apply NoDup_bind; [| |apply NoDup_seqZ].
    + intros i j c _ _ Hi Hj.
      apply (elem_of_sub_pages tbl m root) in Hi as (p & Hp & Hi); [|done].
      apply (elem_of_sub_pages tbl m root) in Hj as (q & Hq & Hj); [|done].
      assert (Hh : exists t t', tbl !! (i :: t) = Some c /\ tbl !! (j :: t') = Some c).
      { destruct Hi as [->|(a & _ & Hi)], Hj as [->|(b & _ & Hj)]; eauto 6. }
      destruct Hh as (t & t' & H1 & H2). pose proof (wf_inj _ _ _ Hwf _ _ _ H1 H2). congruence.
    + intros i _. by eapply NoDup_sub_pages.
  - intros c (i & Hc & _)%list_elem_of_bind ->%list_elem_of_singleton.
    apply (elem_of_sub_pages tbl m root) in Hc as (p & Hp & [->|(j & _ & Hc)]); [| |done].
    + by pose proof (wf_inj _ _ _ Hwf _ _ _ Hp Hr).
    + by pose proof (wf_inj _ _ _ Hwf _ _ _ Hc Hr).
Qed.

Lemma table_pages_perm tbl m root :
  pt_wf m root tbl -> table_pages tbl root ≡ₚ (map_to_list tbl).*2.
Proof.
  intros Hwf. apply NoDup_Permutation.
  - by eapply NoDup_table_pages.
  - apply NoDup_fmap_2_strong; [|apply NoDup_map_to_list].
    intros [p1 c1] [p2 c2] H1%elem_of_map_to_list H2%elem_of_map_to_list [= ->].
    by rewrite (wf_inj _ _ _ Hwf _ _ _ H1 H2).
  - intros c. rewrite (elem_of_table_pages tbl m root) by done. rewrite list_elem_of_fmap. split.
    + intros [path Hp]. exists (path, c). split; [done|]. by apply elem_of_map_to_list.
    + intros ([path c'] & -> & Hp%elem_of_map_to_list). by exists path.
Qed.

Lemma destroy_empty_table s root tbl free :
  vm_inv s root tbl free -> (forall va, leaf_pte (mem s) tbl va = None) ->
  exists s', destroy_pagetable 3 root s = Done tt s'
    /\ pool s' (reverse (table_pages tbl root) ++ free) /\ frame s s'
    /\ only_pages (table_pages tbl root) s s'.
Proof.
  intros [Hp Hwf Hd] Hnone.
  apply (frees_destroy 3 (mem s) root _ (pt_pages_wf _ _ _ Hwf Hnone) s free Hp); cbn [app].
  - by eapply NoDup_table_pages.
  - intros p Hin. apply (elem_of_table_pages tbl (mem s)) in Hin as [path Hin]; [|done].
    by eapply wf_page.
  - intros p Hin. apply (elem_of_table_pages tbl (mem s)) in Hin as [path Hin]; [|done].
    by eapply Hd.
  - done.
Qed.

(** ** Theorems *)

(** C36: [destroy_pagetable] frees exactly the pages it should, and terminates.
    When the tree below [pt] has at most [fuel] levels, [pt_pages] lists the
    pages it reaches: the pages of the tables, each after everything below it,
    and the pages that valid leaf entries name.  If these are distinct allocator
    pages that are not free, the call returns with precisely them added to the
    free list, in that order, and no other page of RAM touched. *)
Theorem destroy_pagetable_frees s free fuel pt l :
  pool s free -> pt_pages fuel (mem s) pt = Some l -> NoDup l ->
  (forall p, p ∈ l -> page_ok p /\ p ∉ free) ->
  exists s', destroy_pagetable fuel pt s = Done tt s'
    /\ pool s' (reverse l ++ free) /\ frame s s' /\ only_pages l s s'.
Proof.
  intros Hp Hl Hn Hok. apply (frees_destroy fuel (mem s) pt l Hl s free Hp); cbn [app]; try done.
  - intros p Hin. by apply Hok.
  - intros p Hin. by apply Hok.
Qed.

(** A page table gives back every page it took.  For a well-formed table
    without leaf entries, [destroy_pagetable] frees each page of the table once,
    so that the free pages afterwards are those before and those of the table. *)
Theorem destroy_returns_table_pages s root tbl free :
  vm_inv s root tbl free -> (forall va, leaf_pte (mem s) tbl va = None) ->
  exists s' free', destroy_pagetable 3 root s = Done tt s' /\ pool s' free'
    /\ free' ≡ₚ (map_to_list tbl).*2 ++ free.
Proof.
  intros Hinv Hnone. destruct (destroy_empty_table s root tbl free Hinv Hnone) as (s' & E & P & _).
  exists s', (reverse (table_pages tbl root) ++ free). split; [done|]. split; [done|].
  rewrite reverse_Permutation. f_equiv. apply (table_pages_perm tbl (mem s) root), Hinv.
Qed.

End vm_destroy.

(** ** Witnesses *)

#[local] Existing Instance demo_linker.
#[local] Existing Instance demo_linker_ok.

Lemma demo_table_pages : pt_pages 3 (mem demo_table) page_a = Some [page_a].
Proof.
  rewrite (pt_pages_wf _ page_a {[ [] := page_a ]}) by apply demo_table_inv || apply leaf_pte_new.
  by vm_compute.
Qed.

Lemma destroy_pagetable_frees_witness :
  exists s', destroy_pagetable 3 page_a demo_table = Done tt s' /\ pool s' (page_a :: demo_free).
Proof.
  destruct (destroy_pagetable_frees demo_table demo_free 3 page_a [page_a]) as (s' & E & P & _).
  - apply demo_table_inv.
  - apply demo_table_pages.
  - apply NoDup_singleton.
  - intros p Hp. apply list_elem_of_singleton in Hp as ->. split; [apply page_a_ok|].
    apply (vm_disj _ _ _ _ demo_table_inv [] page_a). apply lookup_singleton_eq.
  - exists s'. split; [exact E|exact P].
Defined.

Lemma destroy_returns_table_pages_witness :
  exists s' free', destroy_pagetable 3 page_a demo_table = Done tt s' /\ pool s' free'
    /\ free' ≡ₚ page_a :: demo_free.
Proof.
  destruct (destroy_returns_table_pages demo_table page_a {[ [] := page_a ]} demo_free
    demo_table_inv) as (s' & free' & E & P & H).
  - intros va. apply leaf_pte_new.
  - exists s', free'. split_and!; [exact E|exact P|exact H].
Defined.
