(* ===== verification/Uart.v ===== *)
(** * Console device

    kernel/uart.c and kernel/console.c: initialisation of the 16550 UART,
    polling output, input, and [consputc].

    What reaches the serial line is the list of device writes in [io_log];
    [sent bs] relates the states before and after sending the bytes [bs].  The
    class [Emits] is the interface between the device and everything that prints:
    an action that, on a live UART, returns after sending a known text. *)

From S2P Require Import Prelude Riscv Memory State Spinlock.

(** ** Registers *)

Definition RHR : Z := 0.

Definition THR : Z := 0.

Definition IER : Z := 1.

Definition IER_RX_ENABLE : Z := Z.shiftl 1 0.

Definition IER_TX_ENABLE : Z := Z.shiftl 1 1.

Definition FCR : Z := 2.

Definition FCR_FIFO_ENABLE : Z := Z.shiftl 1 0.

Definition FCR_FIFO_CLEAR : Z := Z.shiftl 3 1.

Definition ISR : Z := 2.

Definition LCR : Z := 3.

Definition LCR_EIGHT_BITS : Z := Z.shiftl 3 0.

Definition LCR_BAUD_LATCH : Z := Z.shiftl 1 7.

Definition LSR : Z := 5.

Definition LSR_RX_READY : Z := Z.shiftl 1 0.

Definition LSR_TX_IDLE : Z := Z.shiftl 1 5.

(** Registers are unsigned chars. *)
Definition ReadReg (reg : Z) : M Z := v ← read_reg (UART0 + reg); mret (u8 v).

Definition WriteReg (reg v : Z) : M unit := write_reg (UART0 + reg) (u8 v).

(** ** uart.c *)

Definition uartinit : M unit :=
  WriteReg IER 0x00 ;;
  WriteReg LCR LCR_BAUD_LATCH ;;
  WriteReg 0 0x03 ;;
  WriteReg 1 0x00 ;;
  WriteReg LCR LCR_EIGHT_BITS ;;
  WriteReg FCR (FCR_FIFO_ENABLE .| FCR_FIFO_CLEAR) ;;
  WriteReg IER (IER_TX_ENABLE .| IER_RX_ENABLE) ;;
  initlock L_print "printlock".

(** The polling loop, [fuel] rounds of it. *)
Fixpoint uart_wait (fuel : nat) : M unit :=
  match fuel with
  | O => spin
  | S fuel' =>
      v ← ReadReg LSR;
      if v .& LSR_TX_IDLE =? 0 then uart_wait fuel' else mret tt
  end.

Definition uart_putc (c : Z) : M unit :=
  n ← gets (fun s => io_wait (io s));
  uart_wait (S n) ;;
  WriteReg THR c.

(** A C string is the list of its bytes without the terminating NUL. *)
Fixpoint uart_puts (s : list Z) : M unit :=
  match s with
  | [] => mret tt
  | c :: s' =>
      when (c =? 10) (uart_putc 13) ;;
      uart_putc c ;;
      uart_puts s'
  end.

Definition uartgetc : M Z :=
  v ← ReadReg LSR;
  if negb (v .& LSR_RX_READY =? 0) then ReadReg RHR else mret (-1).

(** ** console.c *)

Definition consoleintr (c : Z) : M unit := mret tt.

(** The loop of [uart_intr], back in uart.c, [fuel] rounds of it. *)
Fixpoint uart_intr_loop (fuel : nat) : M unit :=
  match fuel with
  | O => spin
  | S fuel' =>
      c ← uartgetc;
      if c =? -1 then mret tt else
      consoleintr c ;;
      uart_intr_loop fuel'
  end.

Definition uart_intr : M unit :=
  _ ← ReadReg ISR;
  n ← gets (fun s => io_wait (io s));
  uart_intr_loop (S n).

Definition BACKSPACE : Z := 0x100.

Definition consputc (c : Z) : M unit :=
  if c =? BACKSPACE then
    uart_putc 8 ;; uart_putc 32 ;; uart_putc 8
  else uart_putc c.

(** ** What was sent *)

(** The UART answers each poll for room within [io_wait] further polls. *)
Definition uart_live (s : kstate) : Prop :=
  forall t, exists k, (k <= io_wait (io s))%nat
    /\ Z.testbit (io_in (io s) (t + k) (UART0 + LSR)) 5 = true.

(** The state after [n] more reads and the device writes [w]. *)
Definition io_step (n : nat) (w : list (Z * Z)) (s : kstate) : kstate :=
  set_io (Mmio (io_in (io s)) (io_time (io s)) (io_wait (io s)) (io_now (io s) + n) (io_log (io s) ++ w)) s.

(** [bs] went out on the serial line, and nothing else happened. *)
Definition sent (bs : list Z) (s s' : kstate) : Prop :=
  exists n, s' = io_step n ((fun b => (UART0 + THR, b)) <$> bs) s.

(** An action that returns [a] after sending [bs]. *)
Class Emits {A} (act : M A) (a : A) (bs : list Z) : Prop :=
  emits : forall s, uart_live s -> exists s', act s = Done a s' /\ sent bs s s'.

(** A device log as the line sees it: the bytes written to THR. *)
Definition line (log : list (Z * Z)) : list Z :=
  omap (fun w => if (w.1 =? UART0 + THR) then Some w.2 else None) log.

(** What [uart_puts] puts on the line. *)
Fixpoint crlf (s : list Z) : list Z :=
  match s with
  | [] => []
  | c :: s' => (if c =? 10 then [13; 10] else [u8 c]) ++ crlf s'
  end.

(** ** Composition *)

Lemma io_step_step n1 w1 n2 w2 s : io_step n2 w2 (io_step n1 w1 s) = io_step (n1 + n2) (w1 ++ w2) s.
Proof. unfold io_step. ksimpl. by rewrite <- Nat.add_assoc, <- app_assoc. Qed.

Lemma io_step_0 s : io_step 0 [] s = s.
Proof. destruct s as [? ? [] ]. unfold io_step. ksimpl. unfold set_io. cbn. by rewrite Nat.add_0_r, app_nil_r. Qed.

Lemma sent_nil s : sent [] s s.
Proof. exists 0%nat. by rewrite io_step_0. Qed.

Lemma sent_app bs1 bs2 s1 s2 s3 : sent bs1 s1 s2 -> sent bs2 s2 s3 -> sent (bs1 ++ bs2) s1 s3.
Proof.
  intros [n1 ->] [n2 ->]. exists (n1 + n2)%nat. by rewrite io_step_step, fmap_app.
Qed.

Lemma uart_live_sent bs s s' : sent bs s s' -> uart_live s -> uart_live s'.
Proof. by intros [n ->]. Qed.

Lemma sent_log bs s s' :
  sent bs s s' -> line (io_log (io s')) = line (io_log (io s)) ++ bs.
Proof.
  intros [n ->]. unfold io_step, line. ksimpl. rewrite omap_app. f_equal.
  induction bs as [|b bs IH]; [done|]. cbn. by rewrite IH.
Qed.

#[export] Instance emits_ret {A} (a : A) : Emits (mret a) a [].
Proof. intros s _. exists s. split; [done|apply sent_nil]. Qed.

#[export] Instance emits_bind {A B} (m : M A) (f : A -> M B) a b bs1 bs2 :
  Emits m a bs1 -> Emits (f a) b bs2 -> Emits (x ← m; f x) b (bs1 ++ bs2).
Proof.
  intros H1 H2 s Hl. destruct (H1 s Hl) as (s1 & E1 & S1).
  destruct (H2 s1) as (s2 & E2 & S2); [by eapply uart_live_sent|].
  exists s2. split; [by mstep; [exact E1|]|by eapply sent_app].
Qed.

Lemma emits_eq {A} (m : M A) a bs bs' : bs = bs' -> Emits m a bs -> Emits m a bs'.
Proof. by intros <-. Qed.

(** ** Output *)

Lemma lsr_idle v : (u8 v .& LSR_TX_IDLE =? 0) = negb (Z.testbit v 5).
Proof.
  change LSR_TX_IDLE with (2 ^ 5). rewrite land_pow2_testbit by lia. f_equal.
  unfold u8. by apply Z.mod_pow2_bits_low.
Qed.

Lemma ReadReg_ok reg s :
  ReadReg reg s = Done (u8 (io_in (io s) (io_now (io s)) (UART0 + reg))) (io_step 1 [] s).
Proof.
  unfold ReadReg, io_step. rewrite Nat.add_1_r, app_nil_r. reflexivity.
Qed.

Lemma uart_wait_ok fuel s k :
  (k < fuel)%nat -> Z.testbit (io_in (io s) (io_now (io s) + k) (UART0 + LSR)) 5 = true ->
  exists n, uart_wait fuel s = Done tt (io_step n [] s).
Proof.
  revert s k; induction fuel as [|fuel IH]; intros s k Hk Hb; [lia|]. cbn [uart_wait].
  destruct (Z.testbit (io_in (io s) (io_now (io s)) (UART0 + LSR)) 5) eqn:Hb0.
  - exists 1%nat. mstep; [apply ReadReg_ok|]. by rewrite lsr_idle, Hb0.
  - destruct k as [|k]; [rewrite Nat.add_0_r in Hb; congruence|].
    destruct (IH (io_step 1 [] s) k) as [n En]; [lia| |].
    + cbn. by replace (io_now (io s) + 1 + k)%nat with (io_now (io s) + S k)%nat by lia.
    + exists (1 + n)%nat. mstep; [apply ReadReg_ok|]. rewrite lsr_idle, Hb0. cbn [negb].
      by rewrite En, io_step_step.
Qed.

Lemma uart_wait_stuck fuel s :
  (forall k, (k < fuel)%nat -> Z.testbit (io_in (io s) (io_now (io s) + k) (UART0 + LSR)) 5 = false) ->
  exists s', uart_wait fuel s = Spin s'.
Proof.
  revert s; induction fuel as [|fuel IH]; intros s Hk; [by eexists|]. cbn [uart_wait].
  destruct (IH (io_step 1 [] s)) as [s' E].
  { intros k Hlt. cbn. replace (io_now (io s) + 1 + k)%nat with (io_now (io s) + S k)%nat by lia.
    apply Hk. lia. }
  exists s'. mstep; [apply ReadReg_ok|]. rewrite lsr_idle.
  specialize (Hk 0%nat ltac:(lia)). rewrite Nat.add_0_r in Hk. by rewrite Hk.
Qed.

#[export] Instance uart_putc_emits c : Emits (uart_putc c) tt [u8 c].
Proof.
  intros s Hl. destruct (Hl (io_now (io s))) as (k & Hk & Hb).
  destruct (uart_wait_ok (S (io_wait (io s))) s k) as [n En]; [lia|done|].
  exists (io_step n [(UART0 + THR, u8 c)] s). split; [|by exists n].
  unfold uart_putc. mrun. mstep; [exact En|].
  unfold WriteReg, write_reg, io_step. ksimpl. rewrite app_nil_r. reflexivity.
Qed.

#[export] Instance consputc_emits c : c <> BACKSPACE -> Emits (consputc c) tt [u8 c].
Proof.
  intros Hc. unfold consputc. rewrite (proj2 (Z.eqb_neq _ _)) by done. apply _.
Qed.

Lemma uart_puts_emits s : Emits (uart_puts s) tt (crlf s).
Proof.
  induction s as [|c s IH]; cbn [uart_puts crlf]; [apply _|].
  destruct (Z.eqb_spec c 10) as [->|Hc]; cbn [when].
  - eapply emits_eq; [|apply _]. by rewrite !app_nil_r || done.
  - eapply emits_eq; [|apply _]. done.
Qed.

(** ** Input *)

Lemma uartgetc_empty s :
  Z.testbit (io_in (io s) (io_now (io s)) (UART0 + LSR)) 0 = false ->
  uartgetc s = Done (-1) (io_step 1 [] s).
Proof.
  intros H. unfold uartgetc. mstep; [apply ReadReg_ok|].
  change LSR_RX_READY with (2 ^ 0). rewrite land_pow2_testbit by lia.
  unfold u8. rewrite Z.mod_pow2_bits_low, H by lia. done.
Qed.

Lemma uartgetc_ready s :
  Z.testbit (io_in (io s) (io_now (io s)) (UART0 + LSR)) 0 = true ->
  uartgetc s = Done (u8 (io_in (io s) (S (io_now (io s))) (UART0 + RHR))) (io_step 2 [] s).
Proof.
  intros H. unfold uartgetc. mstep; [apply ReadReg_ok|].
  change LSR_RX_READY with (2 ^ 0). rewrite land_pow2_testbit by lia.
  unfold u8 at 1. rewrite Z.mod_pow2_bits_low, H by lia. cbn [negb].
  rewrite ReadReg_ok, io_step_step. cbn. by rewrite Nat.add_1_r.
Qed.

Lemma uart_intr_loop_ok k fuel s :
  (k < fuel)%nat ->
  (forall j, (j < k)%nat -> Z.testbit (io_in (io s) (io_now (io s) + 2 * j) (UART0 + LSR)) 0 = true) ->
  Z.testbit (io_in (io s) (io_now (io s) + 2 * k) (UART0 + LSR)) 0 = false ->
  uart_intr_loop fuel s = Done tt (io_step (2 * k + 1) [] s).
Proof.
  revert fuel s; induction k as [|k IH]; intros [|fuel] s Hf Hr Hn; try lia; cbn [uart_intr_loop].
  - mstep; [apply uartgetc_empty; by rewrite Nat.add_0_r in Hn|]. done.
  - mstep; [apply uartgetc_ready; specialize (Hr 0%nat ltac:(lia)); by rewrite Nat.add_0_r in Hr|].
    rewrite (proj2 (Z.eqb_neq _ _)).
    2:{ unfold u8. pose proof (Z.mod_pos_bound (io_in (io s) (S (io_now (io s))) (UART0 + RHR)) (2 ^ 8)
          ltac:(lia)). lia. }
    unfold consoleintr. mrun. rewrite (IH fuel (io_step 2 [] s)); [|lia| |].
    + rewrite io_step_step. do 2 f_equal. lia.
    + intros j Hj. cbn. replace (io_now (io s) + 2 + (j + (j + 0)))%nat with (io_now (io s) + 2 * S j)%nat by lia.
      apply Hr. lia.
    + cbn. by replace (io_now (io s) + 2 + (k + (k + 0)))%nat with (io_now (io s) + 2 * S k)%nat by lia.
Qed.

(** ** Theorems *)

(** [uart_putc] writes a byte only after a poll has seen room for it.  If
    one of the next [io_wait + 1] polls sees the transmitter idle, it returns
    with exactly the low byte of [c] written to THR; if none does, it keeps
    polling and writes nothing. *)
Theorem uart_putc_polls s c :
  (exists s', uart_putc c s = Done tt s' /\ sent [u8 c] s s'
    /\ exists k, (k <= io_wait (io s))%nat
       /\ Z.testbit (io_in (io s) (io_now (io s) + k) (UART0 + LSR)) 5 = true)
  \/ (exists s', uart_putc c s = Spin s'
    /\ forall k, (k <= io_wait (io s))%nat ->
       Z.testbit (io_in (io s) (io_now (io s) + k) (UART0 + LSR)) 5 = false).
Proof.
  set (idle := fun k => Z.testbit (io_in (io s) (io_now (io s) + k) (UART0 + LSR)) 5).
  destruct (existsb idle (seq 0 (S (io_wait (io s))))) eqn:E.
  - left. apply existsb_exists in E as (k & Hk%in_seq & Hb). 
    destruct (uart_wait_ok (S (io_wait (io s))) s k) as [n En]; [lia|done|].
    exists (io_step n [(UART0 + THR, u8 c)] s). split; [|split; [by exists n|]].
    + unfold uart_putc. mrun. mstep; [exact En|].
      unfold WriteReg, write_reg, io_step. ksimpl. rewrite app_nil_r. reflexivity.
    + exists k. split; [lia|done].
  - right. assert (Hn : forall k, (k <= io_wait (io s))%nat -> idle k = false).
    { intros k Hk. apply not_true_iff_false. intros Hb. apply not_true_iff_false in E. apply E.
      apply existsb_exists. exists k. split; [apply in_seq; lia|done]. }
    destruct (uart_wait_stuck (S (io_wait (io s))) s) as [s' Es].
    { intros k Hk. apply Hn. lia. }
    exists s'. split; [|done]. unfold uart_putc. mrun.
    unfold mbind at 1, M_bind at 1. by rewrite Es.
Qed.

(** [uart_puts] sends the string with every newline preceded by a carriage
    return, and changes nothing else of the machine. *)
Theorem uart_puts_sends_crlf s str :
  uart_live s ->
  exists s', uart_puts str s = Done tt s' /\ sent (crlf str) s s'
    /\ line (io_log (io s')) = line (io_log (io s)) ++ crlf str.
Proof.
  intros Hl. destruct (uart_puts_emits str s Hl) as (s' & E & S).
  exists s'. split_and!; [done|done|by apply sent_log].
Qed.

(** [uart_intr] empties the receiver and returns: when [k] bytes are waiting,
    it reads the status and the byte [k] times, sees the empty status, and
    stops; a received byte 0xff is not taken for "empty". *)
Theorem uart_intr_drains s k :
  (k <= io_wait (io s))%nat ->
  (forall j, (j < k)%nat ->
     Z.testbit (io_in (io s) (S (io_now (io s)) + 2 * j) (UART0 + LSR)) 0 = true) ->
  Z.testbit (io_in (io s) (S (io_now (io s)) + 2 * k) (UART0 + LSR)) 0 = false ->
  uart_intr s = Done tt (io_step (2 * k + 2) [] s).
Proof.
  intros Hk Hr Hn. unfold uart_intr. mstep; [apply ReadReg_ok|]. mrun.
  assert (E1 : io_now (io (io_step 1 [] s)) = S (io_now (io s))) by (cbn; lia).
  rewrite (uart_intr_loop_ok k); [|cbn; lia| |].
  - rewrite io_step_step. do 2 f_equal. lia.
  - intros j Hj. rewrite E1. by apply Hr.
  - by rewrite E1.
Qed.

(** [uartinit] programs the device in the order its data sheet asks for,
    leaves it in normal mode with FIFOs and interrupts on, and makes the print
    lock free. *)
Theorem uartinit_programs s :
  exists s', uartinit s = Done tt s'
    /\ io_log (io s') = io_log (io s) ++
       [(UART0 + IER, 0); (UART0 + LCR, 0x80); (UART0, 3); (UART0 + 1, 0); (UART0 + LCR, 3);
        (UART0 + FCR, 7); (UART0 + IER, 3)]
    /\ lock_free L_print s' /\ lk_name (get_lock L_print s') = "printlock".
Proof.
  eexists. split; [reflexivity|]. cbn. by rewrite <- !app_assoc.
Qed.

(** ** Witnesses *)

Lemma demo_uart_live : uart_live demo_state.
Proof. intros t. exists 0%nat. split; [lia|reflexivity]. Qed.

Lemma uart_puts_sends_crlf_witness :
  exists s', uart_puts [72; 105; 10] demo_state = Done tt s'
    /\ line (io_log (io s')) = [72; 105; 13; 10].
Proof.
  destruct (uart_puts_sends_crlf demo_state [72; 105; 10] demo_uart_live) as (s' & E & _ & H).
  exists s'. split; [exact E|exact H].
Defined.

(** A device with one byte, 0xff, waiting. *)
Definition demo_receiver : kstate :=
  set_io (Mmio (fun t a => if a =? UART0 + LSR then (if (t <? 2)%nat then 0x21 else 0x20) else 0xff)
    (fun t => Z.of_nat t) 3 0 []) demo_state.

Lemma uart_intr_drains_witness : uart_intr demo_receiver = Done tt (io_step 4 [] demo_receiver).
Proof.
  apply (uart_intr_drains demo_receiver 1).
  - cbn. lia.
  - intros j Hj. assert (j = 0%nat) as -> by lia. reflexivity.
  - reflexivity.
Defined.
