(* ===== verification/Printf.v ===== *)
(** * Formatted output

    kernel/printf.c: [printint], [printptr], [printf] and the body of [panic];
    and the users of it in kernel/console.c, [clear_screen] and [clear_line].

    [format] is the specification of [printf]: the text a format string and its
    arguments stand for.  The characters of a format that are left are the
    model of its index [i].  The bound on the loops is the length of the format,
    and 64 digits for [printint]. *)

From Stdlib Require Import Ascii.
From S2P Require Import Prelude Riscv Memory State Spinlock Uart.

(** ** Characters *)

Definition chr (a : ascii) : Z := Z.of_N (N_of_ascii a).

Definition str (s : string) : list Z := chr <$> String.list_ascii_of_string s.

Definition nl : list Z := [10].

(** [s[i] & 0xff] of a C string: its bytes, and 0 at the end. *)
Definition char_at (s : list Z) (i : nat) : Z := default 0 (s !! i) .& 0xff.

Definition digits : list Z := str "0123456789abcdef".

Definition digit (i : Z) : Z := default 0 (digits !! Z.to_nat i).

(** Arguments of a variadic call: a register, or a string pointer. *)
Inductive vararg := VInt (x : Z) | VStr (s : option (list Z)).

Definition va_int (ap : list vararg) : M (Z * list vararg) :=
  match ap with
  | VInt x :: ap' => mret (x, ap')
  | _ => fault
  end.

Definition va_str (ap : list vararg) : M (option (list Z) * list vararg) :=
  match ap with
  | VStr p :: ap' => mret (p, ap')
  | _ => fault
  end.

(** ** printint and printptr *)

(** [buf[i++] = c] for [char buf[20]]. *)
Definition buf_push (buf : list Z) (c : Z) : M (list Z) :=
  if (20 <=? length buf)%nat then fault else mret (buf ++ [c]).

Fixpoint printint_digits (fuel : nat) (x base : Z) (buf : list Z) : M (list Z) :=
  match fuel with
  | O => fun _ => NoFuel
  | S fuel' =>
      buf ← buf_push buf (digit (x mod base));
      let x := x / base in
      if negb (x =? 0) then printint_digits fuel' x base buf else mret buf
  end.

Fixpoint put_all (cs : list Z) : M unit :=
  match cs with
  | [] => mret tt
  | c :: cs' => consputc c ;; put_all cs'
  end.

Definition printint (xx base : Z) (sign : bool) : M unit :=
  let sign := sign && (xx <? 0) in
  let x := if sign then u64 (- xx) else u64 xx in
  buf ← printint_digits 64 x base [];
  buf ← (if sign then buf_push buf (chr "-") else mret buf);
  put_all (reverse buf).

Fixpoint printptr_loop (n : nat) (x : Z) : M unit :=
  match n with
  | O => mret tt
  | S n' => consputc (digit (Z.shiftr x 60)) ;; printptr_loop n' (u64 (Z.shiftl x 4))
  end.

Definition printptr (x : Z) : M unit :=
  consputc (chr "0") ;;
  consputc (chr "x") ;;
  printptr_loop 16 x.

(** ** printf *)

Fixpoint printf_loop (fuel : nat) (fmt : list Z) (ap : list vararg) : M unit :=
  match fuel with
  | O => fun _ => NoFuel
  | S fuel' =>
      let cx := char_at fmt 0 in
      if cx =? 0 then mret tt else
      if negb (cx =? chr "%") then consputc cx ;; printf_loop fuel' (drop 1 fmt) ap else
      let fmt := drop 1 fmt in
      let c0 := char_at fmt 0 in
      let c1 := if negb (c0 =? 0) then char_at fmt 1 else 0 in
      let c2 := if negb (c1 =? 0) then char_at fmt 2 else 0 in
      if c0 =? chr "d" then
        '(v, ap) ← va_int ap; printint (i32 v) 10 true ;; printf_loop fuel' (drop 1 fmt) ap
      else if (c0 =? chr "l") && (c1 =? chr "d") then
        '(v, ap) ← va_int ap; printint (i64 v) 10 true ;; printf_loop fuel' (drop 2 fmt) ap
      else if (c0 =? chr "l") && (c1 =? chr "l") && (c2 =? chr "d") then
        '(v, ap) ← va_int ap; printint (i64 v) 10 true ;; printf_loop fuel' (drop 3 fmt) ap
      else if c0 =? chr "u" then
        '(v, ap) ← va_int ap; printint (u32 v) 10 false ;; printf_loop fuel' (drop 1 fmt) ap
      else if (c0 =? chr "l") && (c1 =? chr "u") then
        '(v, ap) ← va_int ap; printint (i64 v) 10 false ;; printf_loop fuel' (drop 2 fmt) ap
      else if (c0 =? chr "l") && (c1 =? chr "l") && (c2 =? chr "u") then
        '(v, ap) ← va_int ap; printint (i64 v) 10 false ;; printf_loop fuel' (drop 3 fmt) ap
      else if c0 =? chr "x" then
        '(v, ap) ← va_int ap; printint (u32 v) 16 false ;; printf_loop fuel' (drop 1 fmt) ap
      else if (c0 =? chr "l") && (c1 =? chr "x") then
        '(v, ap) ← va_int ap; printint (i64 v) 16 false ;; printf_loop fuel' (drop 2 fmt) ap
      else if (c0 =? chr "l") && (c1 =? chr "l") && (c2 =? chr "x") then
        '(v, ap) ← va_int ap; printint (i64 v) 16 false ;; printf_loop fuel' (drop 3 fmt) ap
      else if c0 =? chr "p" then
        '(v, ap) ← va_int ap; printptr (u64 v) ;; printf_loop fuel' (drop 1 fmt) ap
      else if c0 =? chr "c" then
        '(v, ap) ← va_int ap; consputc (i32 (u32 v)) ;; printf_loop fuel' (drop 1 fmt) ap
      else if c0 =? chr "s" then
        '(p, ap) ← va_str ap;
        put_all (u8 <$> default (str "(null)") p) ;; printf_loop fuel' (drop 1 fmt) ap
      else if c0 =? chr "%" then
        consputc (chr "%") ;; printf_loop fuel' (drop 1 fmt) ap
      else if c0 =? 0 then mret tt
      else
        consputc (chr "%") ;; consputc c0 ;; printf_loop fuel' (drop 1 fmt) ap
  end.

Definition printf (fmt : list Z) (ap : list vararg) : M Z :=
  acquire L_print ;;
  printf_loop (S (length fmt)) fmt ap ;;
  release L_print ;;
  mret 0.

(** The body of [panic] after the call; [State.panic] is the call itself. *)
Definition panic_body (s : list Z) : M unit :=
  modify (fun st => set_lock L_print (set_locked 0 (get_lock L_print st)) st) ;;
  printf (str "panic: ") [] ;;
  printf (str "%s" ++ nl) [VStr (Some s)] ;;
  spin.

Definition clear_screen : M unit :=
  printf (27 :: str "[2J") [] ;;
  printf (27 :: str "[H") [] ;;
  mret tt.

Definition clear_line : M unit :=
  printf (27 :: str "[K") [] ;;
  mret tt.

(** ** Specification *)

(** The numeral of [x], most significant digit first. *)
Fixpoint numeral (fuel : nat) (base x : Z) : list Z :=
  match fuel with
  | O => []
  | S fuel' => (if x <? base then [] else numeral fuel' base (x / base)) ++ [digit (x mod base)]
  end.

Definition render (base : Z) (sign : bool) (xx : Z) : list Z :=
  if sign && (xx <? 0) then chr "-" :: numeral 64 base (- xx) else numeral 64 base (u64 xx).

Fixpoint hex_nibbles (n : nat) (x : Z) : list Z :=
  match n with
  | O => []
  | S n' => hex_nibbles n' (x / 16) ++ [digit (x mod 16)]
  end.

(** Reading a number back. *)
Definition digit_value (c : Z) : option Z :=
  (fun p => Z.of_nat p.1) <$> list_find (fun d => d = c) digits.

Definition read_digits (base : Z) (cs : list Z) (acc : Z) : option Z :=
  foldl (fun acc c => a ← acc; d ← digit_value c; if d <? base then Some (a * base + d) else None)
    (Some acc) cs.

Definition read_int (base : Z) (cs : list Z) : option Z :=
  match cs with
  | [] => None
  | c :: cs' => if c =? chr "-" then Z.opp <$> read_digits base cs' 0 else read_digits base cs 0
  end.

(** What follows a percent sign. *)
Inductive conv :=
  | CInt (wide : bool) (base : Z) (sign : bool)
  | CPtr
  | CChar
  | CStr
  | CPercent
  | COther (c : Z).

(** The conversion at the head of a format and the rest; none at its end. *)
Definition int_conv (c : Z) (wide : bool) : option conv :=
  if c =? chr "d" then Some (CInt wide 10 true)
  else if c =? chr "u" then Some (CInt wide 10 false)
  else if c =? chr "x" then Some (CInt wide 16 false)
  else None.

Definition plain_conv (c : Z) : conv :=
  default (if c =? chr "p" then CPtr else if c =? chr "c" then CChar else if c =? chr "s" then CStr
           else if c =? chr "%" then CPercent else COther c) (int_conv c false).

Definition conv_of (fmt : list Z) : option (conv * nat) :=
  match fmt with
  | [] => None
  | c0 :: r =>
      if negb (c0 =? chr "l") then Some (plain_conv c0, 1%nat) else
      match int_conv (char_at r 0) true with
      | Some k => Some (k, 2%nat)
      | None =>
          match (if char_at r 0 =? chr "l" then int_conv (char_at r 1) true else None) with
          | Some k => Some (k, 3%nat)
          | None => Some (COther c0, 1%nat)
          end
      end
  end.

(** The text of one conversion and the arguments left. *)
Definition conv_text (k : conv) (ap : list vararg) : option (list Z * list vararg) :=
  match k, ap with
  | CInt wide base sign, VInt v :: ap' =>
      let v := if wide then i64 v else if sign then i32 v else u32 v in
      Some (render base sign v, ap')
  | CPtr, VInt v :: ap' => Some (str "0x" ++ hex_nibbles 16 (u64 v), ap')
  | CChar, VInt v :: ap' =>
      Some (if i32 (u32 v) =? BACKSPACE then [8; 32; 8] else [u8 v], ap')
  | CStr, VStr p :: ap' => Some (u8 <$> default (str "(null)") p, ap')
  | CPercent, _ => Some (str "%", ap)
  | COther c, _ => Some (str "%" ++ [c], ap)
  | _, _ => None
  end.

Fixpoint format (fuel : nat) (fmt : list Z) (ap : list vararg) : option (list Z) :=
  match fuel, fmt with
  | O, _ | _, [] => Some []
  | S fuel', c :: r =>
      if negb (c =? chr "%") then (cons c) <$> format fuel' r ap else
      match conv_of r with
      | None => Some []
      | Some (k, n) =>
          '(t, ap) ← conv_text k ap;
          (app t) <$> format fuel' (drop n r) ap
      end
  end.

(** The text of a call, none when an argument is missing or of the wrong kind. *)
Definition formatted (fmt : list Z) (ap : list vararg) : option (list Z) :=
  format (S (length fmt)) fmt ap.

(** [printf] printed [bs]: only the device log moved, and the saved enable bit. *)
Definition says (bs : list Z) (s s' : kstate) : Prop := sent bs (touch s) s'.

(** What [printf_loop] does for one conversion, before going on with [cont]. *)
Definition run_conv (k : conv) (ap : list vararg) (cont : list vararg -> M unit) : M unit :=
  match k with
  | CInt wide base sign =>
      '(v, ap) ← va_int ap;
      printint (if wide then i64 v else if sign then i32 v else u32 v) base sign ;; cont ap
  | CPtr => '(v, ap) ← va_int ap; printptr (u64 v) ;; cont ap
  | CChar => '(v, ap) ← va_int ap; consputc (i32 (u32 v)) ;; cont ap
  | CStr => '(p, ap) ← va_str ap; put_all (u8 <$> default (str "(null)") p) ;; cont ap
  | CPercent => consputc (chr "%") ;; cont ap
  | COther c => consputc (chr "%") ;; consputc c ;; cont ap
  end.

(** A character of a C string. *)
Definition is_char (c : Z) : Prop := 0 < c < 256.

#[global] Instance is_char_dec c : Decision (is_char c).
Proof. unfold is_char. apply _. Defined.

(** ** Numerals *)

Lemma digit_byte i : 0 <= digit i < 256.
Proof.
  unfold digit. destruct (digits !! Z.to_nat i) as [c|] eqn:E; [|cbn; lia]. cbn.
  assert (H : Forall (fun c => 0 <= c < 256) digits) by (vm_compute; repeat constructor; congruence).
  rewrite Forall_lookup in H. by eapply H.
Qed.

Lemma digit_value_digit i : 0 <= i < 16 -> digit_value (digit i) = Some i.
Proof.
  intros Hi. assert (E : i = Z.of_nat (Z.to_nat i)) by lia. rewrite E.
  assert (H : forall n, (n < 16)%nat -> digit_value (digit (Z.of_nat n)) = Some (Z.of_nat n)).
  { intros n Hn. do 16 (destruct n as [|n]; [reflexivity|]). lia. }
  apply H. lia.
Qed.

Lemma numeral_bytes fuel base x : Forall (fun c => 0 <= c < 256) (numeral fuel base x).
Proof.
  revert x; induction fuel as [|fuel IH]; intros x; cbn [numeral]; [constructor|].
  apply Forall_app. split; [case_match; [constructor|apply IH]|].
  constructor; [apply digit_byte|constructor].
Qed.

Lemma numeral_length fuel base x n :
  2 <= base -> 0 <= x < base ^ Z.of_nat n -> (1 <= n <= fuel)%nat ->
  (1 <= length (numeral fuel base x) <= n)%nat.
Proof.
  intros Hb. revert x fuel; induction n as [|n IH]; intros x [|fuel] Hx Hn; try lia.
  cbn [numeral]. rewrite length_app. cbn [length].
  destruct (Z.ltb_spec x base) as [Hlt|Hge]; [cbn; lia|].
  destruct n as [|n]; [change (base ^ Z.of_nat 1) with (base ^ 1) in Hx; rewrite Z.pow_1_r in Hx; lia|].
  assert (0 <= x / base < base ^ Z.of_nat (S n)).
  { split; [apply Z.div_pos; lia|]. apply Z.div_lt_upper_bound; [lia|].
    rewrite <- Z.pow_succ_r by lia. replace (Z.succ (Z.of_nat (S n))) with (Z.of_nat (S (S n))) by lia. lia. }
  pose proof (IH (x / base) fuel ltac:(done) ltac:(lia)). lia.
Qed.

Lemma read_digits_app base l1 l2 acc :
  read_digits base (l1 ++ l2) acc = a ← read_digits base l1 acc; read_digits base l2 a.
Proof.
  unfold read_digits. rewrite foldl_app. destruct (foldl _ (Some acc) l1) as [a|] eqn:E; [done|].
  cbn. clear E. induction l2 as [|c l2 IH]; [done|]. exact IH.
Qed.

Lemma read_numeral fuel base x n :
  2 <= base <= 16 -> 0 <= x < base ^ Z.of_nat n -> (1 <= n <= fuel)%nat ->
  read_digits base (numeral fuel base x) 0 = Some x.
Proof.
  intros Hb. revert x fuel; induction n as [|n IH]; intros x [|fuel] Hx Hn; try lia.
  cbn [numeral]. rewrite read_digits_app.
  pose proof (Z.mod_pos_bound x base ltac:(lia)) as Hm.
  assert (Hlast : forall a, read_digits base [digit (x mod base)] a = Some (a * base + x mod base)).
  { intros a. unfold read_digits. cbn [foldl mbind option_bind]. rewrite digit_value_digit by lia.
    cbn [mbind option_bind].
    by rewrite (proj2 (Z.ltb_lt _ _)) by lia. }
  destruct (Z.ltb_spec x base) as [Hlt|Hge].
  - change (read_digits base [] 0) with (Some 0). cbn [mbind option_bind]. rewrite Hlast, Z.mod_small by lia. f_equal.
  - destruct n as [|n]; [change (base ^ Z.of_nat 1) with (base ^ 1) in Hx; rewrite Z.pow_1_r in Hx; lia|].
    rewrite IH; [|split; [apply Z.div_pos; lia|]|lia].
    + cbn [mbind option_bind]. rewrite Hlast. f_equal.
      rewrite Z.mul_comm, <- Z.div_mod by lia. done.
    + apply Z.div_lt_upper_bound; [lia|]. rewrite <- Z.pow_succ_r by lia. replace (Z.succ (Z.of_nat (S n))) with (Z.of_nat (S (S n))) by lia. lia.
Qed.

(** The range of integers a conversion prints. *)
Definition int_range (sign : bool) (xx : Z) : Prop :=
  if sign then - 2 ^ 63 <= xx < 2 ^ 63 else - 2 ^ 63 <= xx < 2 ^ 64.

Lemma printint_digits_ok base n : 2 <= base ->
  forall fuel x buf s, 0 <= x < base ^ Z.of_nat n -> (1 <= n <= fuel)%nat -> (length buf + n <= 20)%nat ->
  printint_digits fuel x base buf s = Done (buf ++ reverse (numeral fuel base x)) s.
Proof.
  intros Hb. induction n as [|n IH]; intros [|fuel] x buf s Hx Hn Hl; try lia.
  cbn [printint_digits numeral]. unfold buf_push.
  rewrite (proj2 (Nat.leb_gt _ _)) by lia. mrun. rewrite reverse_app.
  destruct (Z.ltb_spec x base) as [Hlt|Hge].
  - rewrite Z.div_small by lia. reflexivity.
  - destruct n as [|n]; [change (base ^ Z.of_nat 1) with (base ^ 1) in Hx; rewrite Z.pow_1_r in Hx; lia|].
    assert (1 <= x / base) by (apply Z.div_le_lower_bound; lia).
    rewrite (proj2 (Z.eqb_neq _ _)) by lia. cbn [negb].
    rewrite IH; [by rewrite <- app_assoc| |lia|rewrite length_app; cbn; lia].
    split; [lia|]. apply Z.div_lt_upper_bound; [lia|].
    rewrite <- Z.pow_succ_r by lia. replace (Z.succ (Z.of_nat (S n))) with (Z.of_nat (S (S n))) by lia. lia.
Qed.

(** ** Emission *)

Definition con_text (c : Z) : list Z := if c =? BACKSPACE then [8; 32; 8] else [u8 c].

#[export] Instance consputc_emits_text c : Emits (consputc c) tt (con_text c).
Proof.
  unfold consputc, con_text. destruct (c =? BACKSPACE); [|apply _].
  eapply emits_eq; [|apply _]. done.
Qed.

Lemma con_text_byte c : 0 <= c < 256 -> con_text c = [c].
Proof.
  intros Hc. unfold con_text, BACKSPACE. rewrite (proj2 (Z.eqb_neq _ _)) by lia.
  unfold u8. by rewrite Z.mod_small by lia.
Qed.

Lemma consputc_emits_byte c : 0 <= c < 256 -> Emits (consputc c) tt [c].
Proof. intros Hc. eapply emits_eq; [|apply consputc_emits_text]. by apply con_text_byte. Qed.

Lemma put_all_emits cs : Forall (fun c => 0 <= c < 256) cs -> Emits (put_all cs) tt cs.
Proof.
  induction 1 as [|c cs Hc Hcs IH]; cbn [put_all]; [apply _|].
  apply (emits_bind _ _ tt tt [c] cs); [by apply consputc_emits_byte|done].
Qed.

Lemma emits_then (m : M unit) {B} (f : M B) b bs1 bs2 :
  Emits m tt bs1 -> Emits f b bs2 -> Emits (m ;; f) b (bs1 ++ bs2).
Proof. intros H1 H2. by apply (emits_bind m (fun _ => f) tt). Qed.

(** Pure steps of the monad in front of an action. *)
Lemma emits_pure {A B} (m : M A) (f : A -> M B) a b bs :
  (forall s, m s = Done a s) -> Emits (f a) b bs -> Emits (x ← m; f x) b bs.
Proof.
  intros Hm H s Hl. destruct (H s Hl) as (s' & E & S). exists s'. split; [|done].
  by mstep; [apply Hm|].
Qed.

Lemma printint_emits xx base sign :
  base = 10 \/ base = 16 -> int_range sign xx ->
  Emits (printint xx base sign) tt (render base sign xx).
Proof.
  intros Hb Hr. unfold printint, render. cbv zeta.
  assert (H2 : 2 <= base) by lia.
  assert (Hn : forall x, 0 <= x < 2 ^ 64 -> 0 <= x < base ^ Z.of_nat 20) by (intros x; destruct Hb as [-> | ->]; lia).
  destruct (sign && (xx <? 0)) eqn:E.
  - apply andb_true_iff in E as [-> E]. b2p. cbn [int_range] in Hr. rewrite u64_small by lia.
    eapply emits_pure.
    { intros s. apply (printint_digits_ok base 19 H2); [destruct Hb as [-> | ->]; lia|lia|cbn; lia]. }
    cbn beta. eapply emits_pure.
    { intros s. unfold buf_push. cbn [app].
      pose proof (numeral_length 64 base (- xx) 19 H2 ltac:(destruct Hb as [-> | ->]; lia) ltac:(lia)).
      rewrite length_reverse. rewrite (proj2 (Nat.leb_gt _ _)) by lia. reflexivity. }
    cbn [app]. rewrite reverse_app, reverse_involutive.
    apply put_all_emits. constructor; [cbv; split; congruence|apply numeral_bytes].
  - eapply emits_pure.
    { intros s. apply (printint_digits_ok base 20 H2); [apply Hn, u64_range|lia|cbn; lia]. }
    cbn beta. eapply emits_pure; [by intros s|]. cbn [app]. rewrite reverse_involutive.
    apply put_all_emits, numeral_bytes.
Qed.

Lemma hex_nibbles_cons n y : hex_nibbles (S n) y = digit ((y / 16 ^ Z.of_nat n) mod 16) :: hex_nibbles n y.
Proof.
  revert y; induction n as [|n IH]; intros y.
  - cbn [hex_nibbles app]. by rewrite Z.div_1_r.
  - change (hex_nibbles (S (S n)) y) with (hex_nibbles (S n) (y / 16) ++ [digit (y mod 16)]).
    rewrite IH. change (hex_nibbles (S n) y) with (hex_nibbles n (y / 16) ++ [digit (y mod 16)]).
    cbn [app]. f_equal. rewrite Z.div_div by lia. do 3 f_equal.
    rewrite Nat2Z.inj_succ, Z.pow_succ_r by lia. lia.
Qed.

Lemma top_nibble y n :
  (n <= 15)%nat ->
  Z.shiftr (u64 (y * 16 ^ Z.of_nat (15 - n))) 60 = (y / 16 ^ Z.of_nat n) mod 16.
Proof.
  intros Hn. rewrite Z.shiftr_div_pow2 by lia. unfold u64.
  set (c := 16 ^ Z.of_nat (15 - n)). set (b := 16 ^ Z.of_nat n).
  assert (Hc : 0 < c) by (apply Z.pow_pos_nonneg; lia).
  assert (Hb : 0 < b) by (apply Z.pow_pos_nonneg; lia).
  assert (E60 : 2 ^ 60 = b * c).
  { unfold b, c. rewrite <- Z.pow_add_r by lia.
    replace (Z.of_nat n + Z.of_nat (15 - n)) with 15 by lia. reflexivity. }
  assert (E64 : 2 ^ 64 = (b * 16) * c) by lia.
  rewrite E64, E60, Z.mul_mod_distr_r, Z.div_mul_cancel_r by lia.
  rewrite (Z.mul_comm b 16), Z.mul_comm. rewrite Z.rem_mul_r by lia.
  rewrite Z.add_comm, Z.mul_comm, Z.div_add_l by lia.
  rewrite (Z.div_small (y mod b)) by (apply Z.mod_pos_bound; lia). lia.
Qed.

Lemma printptr_loop_emits n y :
  (n <= 16)%nat ->
  Emits (printptr_loop n (u64 (y * 16 ^ Z.of_nat (16 - n)))) tt (hex_nibbles n y).
Proof.
  induction n as [|n IH]; intros Hn; cbn [printptr_loop]; [apply _|].
  rewrite hex_nibbles_cons. replace (16 - S n)%nat with (15 - n)%nat by lia.
  rewrite top_nibble by lia.
  replace (u64 (Z.shiftl (u64 (y * 16 ^ Z.of_nat (15 - n))) 4))
    with (u64 (y * 16 ^ Z.of_nat (16 - n))).
  - apply (emits_bind _ _ tt tt [_] (hex_nibbles n y)); [apply consputc_emits_byte, digit_byte|].
    apply IH. lia.
  - rewrite Z.shiftl_mul_pow2 by lia. unfold u64. rewrite Z.mul_mod_idemp_l by lia.
    rewrite <- Z.mul_assoc. do 2 f_equal. change (2 ^ 4) with (16 ^ 1).
    rewrite <- Z.pow_add_r by lia. f_equal. lia.
Qed.

Lemma printptr_emits x : 0 <= x < 2 ^ 64 -> Emits (printptr x) tt (str "0x" ++ hex_nibbles 16 x).
Proof.
  intros Hx. unfold printptr. change (str "0x") with ([chr "0"] ++ [chr "x"]). rewrite <- app_assoc.
  apply (emits_bind _ _ tt tt); [by apply consputc_emits_byte|].
  apply (emits_bind _ _ tt tt); [by apply consputc_emits_byte|].
  pose proof (printptr_loop_emits 16 x ltac:(lia)) as H.
  change (16 ^ Z.of_nat (16 - 16)) with 1 in H. rewrite Z.mul_1_r, u64_small in H by done. exact H.
Qed.

(** ** printf against its specification *)

Lemma i32_range v : - 2 ^ 31 <= i32 v < 2 ^ 31.
Proof. unfold i32. pose proof (Z.mod_pos_bound (v + 2 ^ 31) (2 ^ 32) ltac:(lia)). lia. Qed.

Lemma i64_range v : - 2 ^ 63 <= i64 v < 2 ^ 63.
Proof. unfold i64. pose proof (Z.mod_pos_bound (v + 2 ^ 63) (2 ^ 64) ltac:(lia)). lia. Qed.

Lemma conv_int_range (wide sign : bool) v :
  int_range sign (if wide then i64 v else if sign then i32 v else u32 v).
Proof.
  pose proof (i32_range v). pose proof (i64_range v). unfold int_range, u32.
  pose proof (Z.mod_pos_bound v (2 ^ 32) ltac:(lia)). destruct wide, sign; lia.
Qed.

Lemma u8_i32_u32 v : u8 (i32 (u32 v)) = u8 v.
Proof.
  unfold u8, i32, u32. apply Z.bits_inj'. intros i Hi.
  destruct (Z.lt_ge_cases i 8) as [Hlt|Hge]; [|by rewrite !Z.mod_pow2_bits_high by lia].
  rewrite !Z.mod_pow2_bits_low by lia.
  replace ((v mod 2 ^ 32 + 2 ^ 31) mod 2 ^ 32 - 2 ^ 31)
    with (v + (- (v / 2 ^ 32) - ((v mod 2 ^ 32 + 2 ^ 31) / 2 ^ 32)) * 2 ^ 24 * 2 ^ 8) by dmlia.
  rewrite <- (Z.mod_pow2_bits_low _ 8) by lia. rewrite Z.mod_add by lia.
  by rewrite Z.mod_pow2_bits_low by lia.
Qed.

Lemma u8_range v : 0 <= u8 v < 256.
Proof. unfold u8. apply Z.mod_pos_bound. lia. Qed.

(** The base of an integer conversion is one that [printint] is called with. *)
Definition conv_ok (k : conv) : Prop :=
  match k with
  | CInt _ base _ => base = 10 \/ base = 16
  | COther c => 0 <= c < 256
  | _ => True
  end.

Lemma run_conv_emits k ap t ap' cont bs :
  conv_ok k -> conv_text k ap = Some (t, ap') -> Emits (cont ap') tt bs ->
  Emits (run_conv k ap cont) tt (t ++ bs).
Proof.
  intros Hk Ht Hc. destruct k as [wide base sign| | | | |c].
  - destruct ap as [|[v|] ap]; try done. injection Ht as <- <-. apply emits_pure with (v, ap); [done|].
    apply emits_then; [|exact Hc]. apply printint_emits; [done|apply conv_int_range].
  - destruct ap as [|[v|] ap]; try done. injection Ht as <- <-. apply emits_pure with (v, ap); [done|].
    apply emits_then; [|exact Hc]. apply printptr_emits, u64_range.
  - destruct ap as [|[v|] ap]; try done. cbn [conv_text] in Ht. injection Ht as <- <-.
    apply emits_pure with (v, ap); [done|].
    apply emits_then; [|exact Hc]. eapply emits_eq; [|apply consputc_emits_text].
    unfold con_text. by rewrite u8_i32_u32.
  - destruct ap as [|[|p] ap]; try done. injection Ht as <- <-. apply emits_pure with (p, ap); [done|].
    apply emits_then; [|exact Hc]. apply put_all_emits. apply Forall_forall.
    intros c (x & -> & _)%list_elem_of_fmap. apply u8_range.
  - destruct ap; injection Ht as <- <-; (apply emits_then; [by apply consputc_emits_byte|exact Hc]).
  - assert (Ht' : t = str "%" ++ [c] /\ ap' = ap) by (destruct ap; by injection Ht as <- <-).
    destruct Ht' as [-> ->]. cbn [run_conv]. rewrite <- app_assoc.
    apply emits_then; [by apply consputc_emits_byte|].
    apply emits_then; [by apply consputc_emits_byte|exact Hc].
Qed.

Lemma char_at_0 c r : is_char c -> char_at (c :: r) 0 = c.
Proof.
  intros Hc. unfold char_at. cbn. change 0xff with (Z.ones 8). rewrite Z.land_ones by lia.
  unfold is_char in Hc. apply Z.mod_small. lia.
Qed.

Lemma char_at_nil i : char_at [] i = 0.
Proof. done. Qed.

Lemma char_at_range r i : Forall is_char r -> 0 <= char_at r i < 256.
Proof.
  intros Hr. unfold char_at. change 0xff with (Z.ones 8). rewrite Z.land_ones by lia.
  apply Z.mod_pos_bound. lia.
Qed.

(** The cascade of tests in [printf] recognises the conversions of [conv_of]. *)
Lemma printf_loop_conv fuel r ap s :
  Forall is_char r ->
  printf_loop (S fuel) (chr "%" :: r) ap s
  = match conv_of r with
    | None => Done tt s
    | Some (k, n) => run_conv k ap (printf_loop fuel (drop n r)) s
    end.
Proof.
  intros Hr. cbn [printf_loop]. change (char_at (chr "%" :: r) 0) with 37.
  change (37 =? 0) with false. change (negb (37 =? chr "%")) with false. cbv iota.
  change (drop 1 (chr "%" :: r)) with r. destruct r as [|c0 r]; [done|].
  apply Forall_cons in Hr as [Hc0 Hr]. rewrite char_at_0 by done.
  unfold is_char in Hc0. rewrite (proj2 (Z.eqb_neq c0 0)) by lia. cbn [negb].
  change (char_at (c0 :: r) 1) with (char_at r 0). change (char_at (c0 :: r) 2) with (char_at r 1).
  cbn [conv_of]. unfold plain_conv, int_conv.
  change (chr "d") with 100. change (chr "l") with 108. change (chr "u") with 117.
  change (chr "x") with 120. change (chr "p") with 112. change (chr "c") with 99.
  change (chr "s") with 115. change (chr "%") with 37.
  destruct (Z.eqb_spec c0 108) as [->|Hl]; cbn [negb andb].
  - change (108 =? 100) with false. change (108 =? 117) with false. change (108 =? 120) with false.
    change (108 =? 112) with false. change (108 =? 99) with false. change (108 =? 115) with false.
    change (108 =? 37) with false. cbv iota. cbn [andb].
    generalize (char_at r 0) (char_at r 1). intros c1 c2.
    destruct (Z.eqb_spec c1 100) as [->|H1]; [done|]. destruct (Z.eqb_spec c1 117) as [->|H2]; [done|].
    destruct (Z.eqb_spec c1 120) as [->|H3]; [done|].
    destruct (Z.eqb_spec c1 108) as [->|H4]; [|done]. cbn [negb andb Z.eqb].
    change (108 =? 0) with false. cbn [negb].
    destruct (Z.eqb_spec c2 100) as [->|]; [done|]. destruct (Z.eqb_spec c2 117) as [->|]; [done|].
    destruct (Z.eqb_spec c2 120) as [->|]; done.
  - destruct (Z.eqb_spec c0 100) as [->|]; [done|]. destruct (Z.eqb_spec c0 117) as [->|]; [done|].
    destruct (Z.eqb_spec c0 120) as [->|]; [done|]. destruct (Z.eqb_spec c0 112) as [->|]; [done|].
    destruct (Z.eqb_spec c0 99) as [->|]; [done|]. destruct (Z.eqb_spec c0 115) as [->|]; [done|].
    destruct (Z.eqb_spec c0 37) as [->|]; done.
Qed.

Lemma conv_of_ok r k n :
  Forall is_char r -> conv_of r = Some (k, n) -> conv_ok k /\ (1 <= n)%nat.
Proof.
  intros Hr. destruct r as [|c0 r]; [done|]. apply Forall_cons in Hr as [Hc0 _].
  unfold is_char in Hc0. cbn [conv_of]. unfold plain_conv, int_conv.
  intros H. repeat case_match; cbn in *; simplify_eq; cbn; (split; [lia || done|lia]).
Qed.

Lemma printf_loop_emits fuel fmt ap bs :
  Forall is_char fmt -> (length fmt < fuel)%nat -> format fuel fmt ap = Some bs ->
  Emits (printf_loop fuel fmt ap) tt bs.
Proof.
  revert fmt ap bs; induction fuel as [|fuel IH]; intros fmt ap bs Hf Hl Hb; [lia|].
  destruct fmt as [|c r]; [injection Hb as <-; apply emits_ret|].
  apply Forall_cons in Hf as [Hc Hr]. cbn [length] in Hl. cbn [format] in Hb.
  destruct (Z.eqb_spec c (chr "%")) as [->|Hne]; cbn [negb] in Hb.
  - intros s Hs. rewrite printf_loop_conv by done. revert s Hs.
    destruct (conv_of r) as [[k n]|] eqn:Ek.
    + destruct (conv_of_ok r k n Hr Ek) as [Hk Hn].
      apply bind_Some in Hb as ([t ap'] & Ht & Hb). apply fmap_Some in Hb as (bs' & Hb & ->).
      apply (run_conv_emits k ap t ap'); [done|done|].
      apply IH; [by apply Forall_drop|rewrite length_drop; lia|done].
    + injection Hb as <-. apply emits_ret.
  - apply fmap_Some in Hb as (bs' & Hb & ->). cbn [printf_loop]. rewrite char_at_0 by done.
    unfold is_char in Hc. rewrite (proj2 (Z.eqb_neq c 0)) by lia.
    rewrite (proj2 (Z.eqb_neq _ _) Hne). cbn [negb].
    apply (emits_then _ _ _ [c]); [apply consputc_emits_byte; lia|].
    apply IH; [done|change (drop 1 (c :: r)) with r; lia|done].
Qed.

#[export] Instance independent_io_step l n w : Independent l (io_step n w).
Proof. split; intros; by destruct l. Qed.

(** [printf] from any state in which the print lock is free. *)
Lemma printf_ok fmt ap bs s :
  hart_ok s -> lock_free L_print s -> uart_live s ->
  Forall is_char fmt -> formatted fmt ap = Some bs ->
  exists s', printf fmt ap s = Done 0 s' /\ says bs s s'.
Proof.
  intros Hh Hlk Hlive Hf Hb.
  destruct (printf_loop_emits _ _ _ _ Hf (Nat.lt_succ_diag_r _) Hb (locked_state L_print s))
    as (s1 & E1 & n & S1); [done|].
  exists (io_step n ((fun b => (UART0 + THR, b)) <$> bs) (touch s)). split; [|by exists n].
  unfold printf. mstep; [by apply acquire_ok; destruct Hlk|]. mstep; [exact E1|]. subst s1.
  mstep; [by apply release_section|]. done.
Qed.

(** A format with one [%d] and no other percent sign. *)
Lemma formatted_int1 pre post v :
  Forall (fun c => c <> 37) pre -> Forall (fun c => c <> 37) post ->
  formatted (pre ++ str "%d" ++ post) [VInt v] = Some (pre ++ render 10 true (i32 v) ++ post).
Proof.
  intros Hpre Hpost. unfold formatted.
  assert (Hlit : forall l fuel, Forall (fun c => c <> 37) l -> (length l <= fuel)%nat ->
    format fuel l [] = Some l).
  { intros l fuel Hl. revert fuel. induction Hl as [|c l Hc Hl IH]; intros [|fuel] Hf; try done;
      cbn [length] in Hf; [lia|]. cbn [format]. change (chr "%") with 37.
    rewrite (proj2 (Z.eqb_neq c 37) Hc). cbn [negb]. by rewrite IH by lia. }
  change (str "%d" ++ post) with (chr "%" :: chr "d" :: post).
  assert (Hgen : forall fuel, (length (pre ++ chr "%" :: chr "d" :: post) <= fuel)%nat ->
    format fuel (pre ++ chr "%" :: chr "d" :: post) [VInt v]
    = Some (pre ++ render 10 true (i32 v) ++ post)).
  { induction Hpre as [|c l Hc Hl IH]; intros [|fuel] Hf; cbn [length app] in *; try lia.
    - cbn [format]. change (negb (chr "%" =? chr "%")) with false. cbv iota.
      change (conv_of (chr "d" :: post)) with (Some (CInt false 10 true, 1%nat)).
      cbn [mbind option_bind conv_text drop]. by rewrite drop_0, Hlit by (done || lia).
    - cbn [format]. change (chr "%") with 37. rewrite (proj2 (Z.eqb_neq c 37) Hc). cbn [negb].
      change (chr "%") with 37 in *. by rewrite IH by lia. }
  apply Hgen. lia.
Qed.

Lemma touch_io_step n w s : touch (io_step n w s) = io_step n w (touch s).
Proof. done. Qed.

Lemma says_trans bs1 bs2 s1 s2 s3 : says bs1 s1 s2 -> says bs2 s2 s3 -> says (bs1 ++ bs2) s1 s3.
Proof.
  intros [n1 ->] H. eapply sent_app; [by exists n1|].
  unfold says in H. by rewrite touch_io_step, touch_touch in H.
Qed.

Lemma says_frame bs s s' :
  says bs s s' -> hart_ok s -> lock_free L_print s -> uart_live s ->
  hart_ok s' /\ lock_free L_print s' /\ uart_live s'.
Proof.
  intros [n ->] Hh Hl Hu. split; [|done].
  apply (hart_ok_same (touch s)); [done|done|by apply hart_ok_touch].
Qed.

Lemma acquire_broken l s :
  hart_ok s -> lock_exists l s -> locked (get_lock l s) = 0 ->
  acquire l s = acquire l (set_lock l (Spinlock 0 (lk_name (get_lock l s)) None) s).
Proof.
  intros Hh Hex H0. set (s0 := set_lock l _ s).
  assert (G : get_lock l s0 = Spinlock 0 (lk_name (get_lock l s)) None) by by apply get_set_lock.
  rewrite !acquire_ok; try done; try by rewrite G.
  - f_equal. unfold locked_state. rewrite G. cbn [lk_name].
    destruct l as [| | | | |i]; try done. unfold s0. cbn. unfold set_procs. cbn. f_equal.
    by rewrite list_alter_alter_eq.
  - by apply hart_ok_set_lock.
  - intros i ->. unfold s0. cbn. rewrite length_alter. by apply Hex.
Qed.

Lemma numeral_digits fuel base x : Forall (fun c => c <> 45) (numeral fuel base x).
Proof.
  revert x; induction fuel as [|fuel IH]; intros x; cbn [numeral]; [constructor|].
  apply Forall_app. split; [case_match; [constructor|apply IH]|]. constructor; [|constructor].
  unfold digit. destruct (digits !! _) as [c|] eqn:E; [|done]. cbn.
  assert (H : Forall (fun c => c <> 45) digits) by (vm_compute; repeat constructor; congruence).
  rewrite Forall_lookup in H. by eapply H.
Qed.

Lemma read_render base sign xx :
  base = 10 \/ base = 16 -> int_range sign xx ->
  read_int base (render base sign xx) = Some (if sign then xx else u64 xx).
Proof.
  intros Hb Hr. unfold render.
  assert (Hn : forall x, 0 <= x < 2 ^ 64 -> read_digits base (numeral 64 base x) 0 = Some x
    /\ (1 <= length (numeral 64 base x))%nat).
  { intros x Hx. assert (0 <= x < base ^ Z.of_nat 20) by (destruct Hb as [-> | ->]; lia).
    split; [apply (read_numeral 64 base x 20); lia|].
    pose proof (numeral_length 64 base x 20 ltac:(lia) ltac:(done) ltac:(lia)). lia. }
  destruct (sign && (xx <? 0)) eqn:E.
  - apply andb_true_iff in E as [-> E]. b2p. cbn [int_range] in Hr. cbn [read_int].
    destruct (Hn (- xx) ltac:(lia)) as [-> _]. cbn. f_equal. lia.
  - destruct (Hn (u64 xx) (u64_range xx)) as [H1 H2].
    pose proof (numeral_digits 64 base (u64 xx)) as Hd.
    destruct (numeral 64 base (u64 xx)) as [|c cs] eqn:En; [cbn in H2; lia|].
    apply Forall_cons in Hd as [Hc _]. cbn [read_int]. change (chr "-") with 45.
    rewrite (proj2 (Z.eqb_neq _ _) Hc), H1. destruct sign; [|done]. f_equal.
    cbn [andb] in E. b2p. cbn [int_range] in Hr. apply u64_small. lia.
Qed.

Lemma render_length base sign xx :
  base = 10 \/ base = 16 -> int_range sign xx -> (length (render base sign xx) <= 20)%nat.
Proof.
  intros Hb Hr. unfold render. destruct (sign && (xx <? 0)) eqn:E.
  - apply andb_true_iff in E as [-> E]. b2p. cbn [int_range] in Hr. cbn [length].
    pose proof (numeral_length 64 base (- xx) 19 ltac:(lia) ltac:(destruct Hb as [-> | ->]; lia) ltac:(lia)).
    lia.
  - pose proof (u64_range xx).
    pose proof (numeral_length 64 base (u64 xx) 20 ltac:(lia) ltac:(destruct Hb as [-> | ->]; lia) ltac:(lia)).
    lia.
Qed.

(** ** Theorems *)

(** C34: [printf] implements its specification.  For every format string and
    arguments that [formatted] gives a text for, it returns 0 after sending
    exactly that text, with the print lock released, the interrupt state as
    before and nothing else of the machine changed but the saved enable bit. *)
Theorem printf_refines_format fmt ap bs s :
  hart_ok s -> lock_free L_print s -> uart_live s ->
  Forall is_char fmt -> formatted fmt ap = Some bs ->
  exists s', printf fmt ap s = Done 0 s' /\ sent bs (touch s) s'
    /\ line (io_log (io s')) = line (io_log (io s)) ++ bs
    /\ lock_free L_print s' /\ intr_get s' = intr_get s.
Proof.
  intros Hh Hlk Hl Hf Hb. destruct (printf_ok fmt ap bs s Hh Hlk Hl Hf Hb) as (s' & E & S).
  exists s'. destruct (says_frame bs s s' S Hh Hlk Hl) as (_ & Hlk' & _).
  split_and!; try done.
  - by apply sent_log in S.
  - destruct S as [n ->]. apply intr_get_touch.
Qed.

(** C35: numbers print correctly.  In base 10 and 16, for every value of the
    C type, [printint] stays within its 20-byte buffer, terminates, and sends a
    numeral that reads back as the number: signed numbers as themselves, the
    others as unsigned 64-bit numbers. *)
Theorem printint_round_trip xx base sign s :
  base = 10 \/ base = 16 -> int_range sign xx -> uart_live s ->
  exists bs s', printint xx base sign s = Done tt s' /\ sent bs s s' /\ (length bs <= 20)%nat
    /\ read_int base bs = Some (if sign then xx else u64 xx).
Proof.
  intros Hb Hr Hl. destruct (printint_emits xx base sign Hb Hr s Hl) as (s' & E & S).
  exists (render base sign xx), s'. split_and!; [done|done|by apply render_length|by apply read_render].
Qed.

(** [panic] gets its message out even when it is called with the print lock
    held by this hart, as from inside [printf]: it sends "panic: ", the message
    and a newline, and then spins. *)
Theorem panic_prints msg s :
  hart_ok s -> uart_live s -> Forall is_char msg ->
  exists s', panic_body msg s = Spin s'
    /\ line (io_log (io s')) = line (io_log (io s)) ++ str "panic: " ++ msg ++ nl.
Proof.
  intros Hh Hl Hm. set (s1 := set_lock L_print (set_locked 0 (get_lock L_print s)) s).
  set (s0 := set_lock L_print (Spinlock 0 (lk_name (get_lock L_print s)) None) s).
  assert (Hh0 : hart_ok s0) by by apply hart_ok_set_lock.
  assert (E0 : forall fmt ap, printf fmt ap s1 = printf fmt ap s0).
  { intros fmt ap. apply bind_start.
    rewrite (acquire_broken L_print s1); [done|by apply hart_ok_set_lock|done|done]. }
  destruct (printf_ok (str "panic: ") [] (str "panic: ") s0) as (s2 & E2 & S2); try done.
  { by apply (bool_decide_unpack _). }
  destruct (says_frame _ _ _ S2) as (Hh2 & Hlk2 & Hl2); try done.
  assert (Hm' : u8 <$> msg = msg).
  { clear - Hm. induction Hm as [|c msg Hc _ IH]; [done|]. cbn. rewrite IH. f_equal.
    unfold is_char in Hc. unfold u8. apply Z.mod_small. lia. }
  destruct (printf_ok (str "%s" ++ nl) [VStr (Some msg)] (msg ++ nl) s2) as (s3 & E3 & S3); try done.
  { by apply (bool_decide_unpack _). }
  { by rewrite <- Hm' at 2. }
  exists s3. split.
  - unfold panic_body. mrun. mstep; [rewrite E0; exact E2|]. by mstep; [exact E3|].
  - pose proof (sent_log _ _ _ (says_trans _ _ _ _ _ S2 S3)) as H. by rewrite H.
Qed.

(** ** Witnesses *)

Lemma printf_refines_format_witness :
  exists s', printf (str "tick %d, 0x%x" ++ nl) [VInt (-7); VInt 0xABC] demo_state = Done 0 s'
    /\ line (io_log (io s')) = str "tick -7, 0xabc" ++ nl.
Proof.
  destruct (printf_refines_format (str "tick %d, 0x%x" ++ nl) [VInt (-7); VInt 0xABC]
    (str "tick -7, 0xabc" ++ nl) demo_state) as (s' & E & _ & H & _).
  - apply demo_hart.
  - done.
  - apply demo_uart_live.
  - by apply (bool_decide_unpack _).
  - vm_compute. reflexivity.
  - exists s'. split; [exact E|exact H].
Defined.

Lemma printint_round_trip_witness :
  exists bs s', printint (- 2 ^ 63) 10 true demo_state = Done tt s' /\ sent bs demo_state s'
    /\ read_int 10 bs = Some (- 2 ^ 63).
Proof.
  destruct (printint_round_trip (- 2 ^ 63) 10 true demo_state) as (bs & s' & E & S & _ & H).
  - by left.
  - cbn. lia.
  - apply demo_uart_live.
  - exists bs, s'. split_and!; [exact E|exact S|exact H].
Defined.

Lemma panic_prints_witness :
  exists s', panic_body (str "acquire") (locked_state L_print demo_state) = Spin s'
    /\ line (io_log (io s')) = str "panic: acquire" ++ nl.
Proof.
  destruct (panic_prints (str "acquire") (locked_state L_print demo_state)) as (s' & E & H).
  - apply hart_ok_locked_state; [apply demo_hart|done].
  - apply demo_uart_live.
  - by apply (bool_decide_unpack _).
  - exists s'. split; [exact E|exact H].
Defined.
