(* ===== verification/Csr.v ===== *)
(** * Control and status registers

    The accessors of include/riscv.h that are inline assembly over one CSR, and
    [timer_init], [trapinithart], and the interrupt controller of kernel/plic.c
    that use them; its registers are reached through the page table in force.  The
    interrupt-enable helpers [intr_on], [intr_off],
    [intr_get] and [w_sstatus] are in State.v, where the locks need them. *)

From S2P Require Import Prelude Riscv Memory State Spinlock Kalloc Vm VmMap Sv39.

(** ** Accessors *)

Definition r_mstatus : M Z := gets (fun s => mstatus (csr s)).

Definition w_mstatus (x : Z) : M unit := modify (fun s => set_csr (set_mstatus x (csr s)) s).

Definition w_mepc (x : Z) : M unit := modify (fun s => set_csr (set_mepc x (csr s)) s).

Definition r_sstatus : M Z := gets (fun s => sstatus (csr s)).

Definition r_sie : M Z := gets (fun s => sie (csr s)).

Definition w_sie (x : Z) : M unit := modify (fun s => set_csr (set_sie x (csr s)) s).

Definition w_sepc (x : Z) : M unit := modify (fun s => set_csr (set_sepc x (csr s)) s).

Definition r_sepc : M Z := gets (fun s => sepc (csr s)).

Definition r_medeleg : M Z := gets (fun s => medeleg (csr s)).

Definition w_medeleg (x : Z) : M unit := modify (fun s => set_csr (set_medeleg x (csr s)) s).

Definition r_mideleg : M Z := gets (fun s => mideleg (csr s)).

Definition w_mideleg (x : Z) : M unit := modify (fun s => set_csr (set_mideleg x (csr s)) s).

Definition w_stvec (x : Z) : M unit := modify (fun s => set_csr (set_stvec x (csr s)) s).

Definition r_stvec : M Z := gets (fun s => stvec (csr s)).

Definition r_stimecmp : M Z := gets (fun s => stimecmp (csr s)).

Definition w_stimecmp (x : Z) : M unit := modify (fun s => set_csr (set_stimecmp x (csr s)) s).

Definition r_menvcfg : M Z := gets (fun s => menvcfg (csr s)).

Definition w_menvcfg (x : Z) : M unit := modify (fun s => set_csr (set_menvcfg x (csr s)) s).

Definition w_pmpcfg0 (x : Z) : M unit := modify (fun s => set_csr (set_pmpcfg0 x (csr s)) s).

Definition w_pmpaddr0 (x : Z) : M unit := modify (fun s => set_csr (set_pmpaddr0 x (csr s)) s).

Definition w_satp (x : Z) : M unit := modify (fun s => set_csr (set_satp x (csr s)) s).

Definition r_scause : M Z := gets (fun s => scause (csr s)).

Definition r_stval : M Z := gets (fun s => stval (csr s)).

Definition w_mcounteren (x : Z) : M unit := modify (fun s => set_csr (set_mcounteren x (csr s)) s).

Definition r_mcounteren : M Z := gets (fun s => mcounteren (csr s)).

Definition r_tp : M Z := gets (fun s => tp (csr s)).

(** ** trap.c: set-up *)

Section csr.
Context `{L : Linker}.

Definition trapinithart : M unit := w_stvec sym_kernelvec.

Definition timer_init : M unit :=
  x ← r_sie;
  w_sie (x .| SIE_STIE) ;;
  x ← r_menvcfg;
  w_menvcfg (x .| Z.shiftl 1 63) ;;
  x ← r_mcounteren;
  w_mcounteren (x .| 2) ;;
  initlock L_ticks "time".

(** ** start.c *)

(** [start] up to the [mret] that ends it. *)
Definition start : M unit :=
  x ← r_mstatus;
  let x := x .& u64 (Z.lnot MSTATUS_MPP_MASK) in
  let x := x .| MSTATUS_MPP_S in
  w_mstatus x ;;
  w_mepc sym_main ;;
  w_satp 0 ;;
  w_medeleg 0xffff ;;
  w_mideleg (Z.shiftl 1 5 .| Z.shiftl 1 9) ;;
  w_pmpaddr0 0x3fffffffffffff ;;
  w_pmpcfg0 0xf ;;
  intr_on ;;
  timer_init ;;
  w_mcounteren 7 ;;
  t ← r_time;
  w_stimecmp (u64 (t + 10000)).

(** ** plic.c *)

(** A load or store of a device register at the virtual address [va]: the hart
    translates it, and faults if the page table has no readable or writable
    entry there. *)
Definition load_reg (va : Z) : M Z := fun s =>
  match hw_translate s va with
  | Some (pa, fl) => if Z.testbit fl 1 then read_reg pa s else Fault s
  | None => Fault s
  end.

Definition store_reg (va v : Z) : M unit := fun s =>
  match hw_translate s va with
  | Some (pa, fl) => if Z.testbit fl 2 then write_reg pa v s else Fault s
  | None => Fault s
  end.

Definition plicinit : M unit :=
  store_reg (PLIC + UART0_IRQ * 4) 1 ;;
  store_reg (PLIC + VIRTIO0_IRQ * 4) 1.

Definition plicinithart : M unit :=
  let hart := 0 in
  store_reg (PLIC_SENABLE hart) (Z.shiftl 1 UART0_IRQ .| Z.shiftl 1 VIRTIO0_IRQ) ;;
  store_reg (PLIC_SPRIORITY hart) 0.

Definition plic_claim : M Z :=
  let hart := 0 in
  irq ← load_reg (PLIC_SCLAIM hart);
  mret (i32 irq).

Definition plic_complete (irq : Z) : M unit :=
  let hart := 0 in
  store_reg (PLIC_SCLAIM hart) (u32 irq).

(** ** What start sets up *)

(** Machine-mode state from which [mret] enters [main] in supervisor mode: MPP
    is S, the return address is [main], paging is off, and supervisor mode may
    use all memory, the timer and the counters. *)
Record booted (s : kstate) : Prop := {
  bt_mpp : (Z.shiftr (mstatus (csr s)) 11) .& 3 = 1;
  bt_mepc : mepc (csr s) = sym_main;
  bt_satp : satp (csr s) = 0;
  bt_deleg : medeleg (csr s) = 0xffff /\ mideleg (csr s) = 0x220;
  bt_pmp : pmpaddr0 (csr s) = 0x3fffffffffffff /\ pmpcfg0 (csr s) = 0xf;
  bt_sie : Z.testbit (sie (csr s)) 5 = true;
  bt_stce : Z.testbit (menvcfg (csr s)) 63 = true;
  bt_counters : mcounteren (csr s) = 7;
  bt_intr : intr_get s = true;
  bt_tickslock : lock_free L_ticks s;
}.

(** The control registers after [start]. *)
Definition start_csrs (t : Z) (c : csrs) : csrs :=
  Csrs ((mstatus c .& u64 (Z.lnot MSTATUS_MPP_MASK)) .| MSTATUS_MPP_S)
    (sstatus c .| SSTATUS_SIE) (sie c .| SIE_STIE) (stvec c) (sepc c) (scause c) (stval c) 0
    (u64 (t + 10000)) sym_main 0xffff 0x220 (menvcfg c .| Z.shiftl 1 63) 7 0x3fffffffffffff 0xf (tp c).

Lemma start_ok s :
  start s = Done tt (set_csr (start_csrs (io_time (io s) (io_now (io s))) (csr s))
    (set_tickslock (Spinlock 0 "time" None) (set_io (set_io_now (S (io_now (io s))) (io s)) s))).
Proof.
  destruct s as [m c [] ? ? ? ? ? ? ? ? ? ? ? ? ? ?]. destruct c.
  cbv -[Z.land Z.lor Z.shiftl Z.lnot Z.add u64 MSTATUS_MPP_MASK MSTATUS_MPP_S SSTATUS_SIE SIE_STIE
    sym_main]. reflexivity.
Qed.

(** [start] prepares the switch to supervisor mode.  Whatever the registers
    held at reset, it returns with everything [booted] lists set up and the
    first timer interrupt due 10000 ticks later; all other mstatus bits, the trap
    vector, RAM and the devices are untouched. *)
Theorem start_boots s :
  0 <= mstatus (csr s) < 2 ^ 64 ->
  exists s', start s = Done tt s' /\ booted s'
    /\ stimecmp (csr s') = u64 (io_time (io s) (io_now (io s)) + 10000)
    /\ (forall i, 0 <= i < 64 -> i <> 11 -> i <> 12 ->
          Z.testbit (mstatus (csr s')) i = Z.testbit (mstatus (csr s)) i)
    /\ stvec (csr s') = stvec (csr s) /\ mem s' = mem s /\ io_log (io s') = io_log (io s).
Proof.
  intros Hm. rewrite start_ok. eexists. split; [reflexivity|].
  assert (Hbit : forall i, 0 <= i < 64 ->
    Z.testbit ((mstatus (csr s) .& u64 (Z.lnot MSTATUS_MPP_MASK)) .| MSTATUS_MPP_S) i
    = if decide (i = 11) then true else if decide (i = 12) then false
      else Z.testbit (mstatus (csr s)) i).
  { intros i Hi. rewrite Z.lor_spec, Z.land_spec.
    change MSTATUS_MPP_S with (2 ^ 11). rewrite testbit_pow2 by lia. unfold u64.
    rewrite Z.mod_pow2_bits_low, Z.lnot_spec by lia.
    change MSTATUS_MPP_MASK with (Z.shiftl 3 11). rewrite Z.shiftl_spec by lia.
    destruct (decide (i = 11)) as [->|]; [by rewrite orb_true_r|].
    destruct (decide (i = 12)) as [->|]; [by rewrite andb_false_r|].
    replace (Z.testbit 3 (i - 11)) with false.
    - rewrite andb_true_r. by rewrite (proj2 (Z.eqb_neq i 11)), orb_false_r by done.
    - destruct (Z.lt_ge_cases (i - 11) 0); [by rewrite Z.testbit_neg_r|].
      symmetry. apply (testbit_high 3 2); lia. }
  split; [|split; [done|split; [|done]]].
  - split.
    + unfold start_csrs. ksimpl. change 3 with (Z.ones 2) at 1. rewrite Z.land_ones, Z.shiftr_div_pow2 by lia.
      apply Z.bits_inj'. intros i Hi.
      destruct (Z.lt_ge_cases i 2) as [Hlt|Hge].
      * rewrite Z.mod_pow2_bits_low, Z.div_pow2_bits by lia.
        assert (i = 0 \/ i = 1) as [-> | ->] by lia; by rewrite Hbit by lia.
      * rewrite Z.mod_pow2_bits_high by lia. symmetry. by apply (testbit_high 1 2); lia.
    + done.
    + done.
    + done.
    + done.
    + unfold start_csrs. ksimpl. rewrite Z.lor_spec. apply orb_true_r.
    + unfold start_csrs. ksimpl. rewrite Z.lor_spec. apply orb_true_r.
    + done.
    + rewrite intr_get_spec. unfold start_csrs. ksimpl. rewrite Z.lor_spec. apply orb_true_r.
    + done.
  - intros i Hi H11 H12. unfold start_csrs. ksimpl. rewrite Hbit by done. by rewrite !decide_False by done.
Qed.

(** Before paging is on, device registers are where their addresses say. *)
Lemma load_reg_bare a s : satp (csr s) = 0 -> load_reg a s = read_reg a s.
Proof. intros H. unfold load_reg, hw_translate, satp_translate. by rewrite H. Qed.

Lemma store_reg_bare a v s : satp (csr s) = 0 -> store_reg a v s = write_reg a v s.
Proof. intros H. unfold store_reg, hw_translate, satp_translate. by rewrite H. Qed.

Lemma load_reg_inv a s v s' :
  load_reg a s = Done v s' -> exists pa fl, hw_translate s a = Some (pa, fl)
    /\ v = io_in (io s) (io_now (io s)) pa /\ s' = set_io (set_io_now (S (io_now (io s))) (io s)) s.
Proof.
  unfold load_reg. destruct (hw_translate s a) as [[pa fl]|]; [|done]. destruct (Z.testbit fl 1); [|done].
  intros [= <- <-]. by exists pa, fl.
Qed.

Lemma store_reg_inv a v s s' : store_reg a v s = Done tt s' -> exists pa, write_reg pa v s = Done tt s'.
Proof.
  unfold store_reg. destruct (hw_translate s a) as [[pa fl]|]; [|done]. destruct (Z.testbit fl 2); [|done]. eauto.
Qed.

Lemma plic_claim_faults s : hw_translate s (PLIC_SCLAIM 0) = None -> plic_claim s = Fault s.
Proof. intros H. unfold plic_claim, load_reg, mbind, M_bind. by rewrite H. Qed.

Lemma plic_claim_ok s irq :
  satp (csr s) = 0 -> 0 <= irq < 2 ^ 31 -> io_in (io s) (io_now (io s)) (PLIC + 0x201004) = irq ->
  plic_claim s = Done irq (set_io (set_io_now (S (io_now (io s))) (io s)) s).
Proof.
  intros Hs Hi Hin. unfold plic_claim. change (PLIC_SCLAIM 0) with (PLIC + 0x201004).
  mstep; [by apply load_reg_bare|]. rewrite Hin, i32_small by lia. reflexivity.
Qed.

(** The interrupt controller's protocol, before paging is on: [plicinit] and [plicinithart] give
    both devices a non-zero priority, enable exactly them for hart 0 and accept
    every priority, and [plic_complete] acknowledges at the register
    [plic_claim] reads. *)
Theorem plic_protocol s irq :
  satp (csr s) = 0 -> 0 <= irq < 2 ^ 31 ->
  exists s1, (plicinit ;; plicinithart) s = Done tt s1
    /\ io_log (io s1) = io_log (io s) ++ [(PLIC + 40, 1); (PLIC + 4, 1); (PLIC + 0x2080, 0x402);
         (PLIC + 0x201000, 0)]
    /\ (io_in (io s1) (io_now (io s1)) (PLIC + 0x201004) = irq ->
        exists s2 s3, plic_claim s1 = Done irq s2 /\ plic_complete irq s2 = Done tt s3
          /\ io_log (io s3) = io_log (io s1) ++ [(PLIC + 0x201004, irq)]).
Proof.
  intros Hs Hi. eexists. split.
  { unfold plicinit, plicinithart. rewrite bind_assoc.
    do 3 (mstep; [rewrite store_reg_bare by exact Hs; reflexivity|]). rewrite store_reg_bare by exact Hs. reflexivity. }
  split; [cbn; by rewrite <- !app_assoc|].
  intros Hin. eexists _, _. split_and!.
  - by apply plic_claim_ok.
  - unfold plic_complete. rewrite store_reg_bare by exact Hs. reflexivity.
  - cbn. do 3 f_equal. unfold u32. apply Z.mod_small. lia.
Qed.

End csr.

(** ** Witnesses *)

#[local] Existing Instance demo_linker.

Lemma start_boots_witness : exists s', start demo_state = Done tt s' /\ booted s'.
Proof.
  destruct (start_boots demo_state) as (s' & E & B & _); [vm_compute; split; congruence|].
  exists s'. split; [exact E|exact B].
Defined.

Lemma plic_protocol_witness :
  exists s1, (plicinit ;; plicinithart) demo_state = Done tt s1.
Proof.
  destruct (plic_protocol demo_state 0x20) as (s1 & E & _); [done|lia|]. exists s1. exact E.
Defined.
