(* ===== verification/Proc.v ===== *)
(** * Processes: operations

    kernel/proc.c: the process table, its allocation and release, creation,
    sleeping and waking, exit and wait.  A [struct proc *] is an index into
    [procs]; null is [None].

    Control leaves a kernel thread only inside [sched], at its [swtch].  A
    function that can get there is given as the part before the switch
    ([sched_enter], [yield_enter], [sleep_enter], [exit_process]) and the part
    after it ([sched_leave], [yield_leave], [sleep_leave]); Sched.v puts the
    parts of all threads and the scheduler together. *)

From S2P Require Import Prelude Riscv Memory State Spinlock Kalloc Vm Uart Printf Csr.

(** ** Access to the table *)

(** Dereferences a [struct proc *]. *)
Definition deref (p : option nat) : M nat :=
  match p with
  | Some i => mret i
  | None => fault
  end.

Definition get_proc (i : nat) : M proc := gets (fun s => default zero_proc (procs s !! i)).

Definition upd (f : proc -> proc) (i : nat) : M unit :=
  modify (fun s => set_procs (alter f i (procs s)) s).

(** [for (p = proc + i; n slots) { r = body(p); if (r) return r; }] *)
Fixpoint find_procs {A} (n : nat) (i : nat) (body : nat -> M (option A)) : M (option A) :=
  match n with
  | O => mret None
  | S n' =>
      r ← body i;
      match r with
      | Some a => mret (Some a)
      | None => find_procs n' (S i) body
      end
  end.

Definition is_null (p : option nat) : bool := match p with None => true | Some _ => false end.

Definition chan_null (c : ptr) : bool := bool_decide (c = PNull).

Section proc.
Context `{L : Linker}.

(** ** Operations *)

Definition myproc : M (option nat) :=
  push_off ;;
  _ ← mycpu;
  p ← gets (fun s => c_proc (cpu0 s));
  pop_off ;;
  mret p.

(** [swtch(&p->context, &mycpu()->context)] and back: the registers are those
    of a [struct context]. *)
Definition swtch_to_cpu (p : nat) : M unit :=
  r ← gets regs;
  upd (set_p_context r) p ;;
  modify (fun s => set_regs (c_context (cpu0 s)) s).

Definition swtch_to_proc (p : nat) : M unit :=
  modify (fun s => set_cpu0 (set_c_context (regs s) (cpu0 s)) s) ;;
  pr ← get_proc p;
  modify (set_regs (p_context pr)).

(** [sched] up to its switch; the result is its local variable [intena]. *)
Definition sched_enter : M Z :=
  p ← myproc;
  p ← deref p;
  h ← holding (L_proc p);
  if negb h then panic "sched p->lock" else
  _ ← mycpu;
  n ← gets noff;
  if negb (n =? 1) then panic "sched locks" else
  pr ← get_proc p;
  if bool_decide (p_state pr = RUNNING) then panic "sched RUNNING" else
  on ← gets intr_get;
  if (on : bool) then panic "sched interruptible" else
  _ ← mycpu;
  i ← gets intena;
  swtch_to_cpu p ;;
  mret i.

Definition sched_leave (intena : Z) : M unit :=
  _ ← mycpu;
  modify (set_intena intena).

Definition procinit : M unit :=
  initlock L_wait "wait_lock" ;;
  for_procs NPROC 0 (fun p =>
    initlock (L_proc p) "proc" ;;
    upd (set_p_state UNUSED) p ;;
    pa ← alloc_page;
    if pa =? 0 then panic "kstack" else
    let va := KSTACK (Z.of_nat p) in
    k ← gets kernel_pagetable;
    kvmmap k va pa PGSIZE (PTE_R .| PTE_W) ;;
    upd (set_p_kstack va) p).

(** One look of [scheduler]'s inner loop at slot [p], up to the switch: true
    when it switches to the process. *)
Definition scheduler_try (p : nat) : M bool :=
  acquire (L_proc p) ;;
  pr ← get_proc p;
  if bool_decide (p_state pr = RUNNABLE) then
    upd (set_p_state RUNNING) p ;;
    modify (fun s => set_cpu0 (set_c_proc (Some p) (cpu0 s)) s) ;;
    swtch_to_proc p ;;
    mret true
  else
    release (L_proc p) ;;
    mret false.

(** The same iteration after the process has switched back. *)
Definition scheduler_back (p : nat) : M unit :=
  modify (fun s => set_cpu0 (set_c_proc None (cpu0 s)) s) ;;
  release (L_proc p).

(** The start of a round: an interrupt may be taken between the two. *)
Definition scheduler_window : M unit :=
  intr_on ;;
  intr_off.

(** [forkret] up to the call of the thread's function; the result is the
    address to call. *)
Definition forkret : M Z :=
  p ← myproc;
  p ← deref p;
  release (L_proc p) ;;
  first ← gets forkret_first;
  when (negb (first =? 0))
    (modify (set_forkret_first 0) ;;
     printf (str "init: first process started" ++ nl) [] ;;
     mret tt) ;;
  pr ← get_proc p;
  if negb (s0 (p_context pr) =? 0) then mret (s0 (p_context pr)) else
  printf (str "forkret: no kernel task and userret not implemented" ++ nl) [] ;;
  panic "forkret".

(** A page table of the process has three levels. *)
Definition pt_depth : nat := 3.

Definition proc_pagetable (p : nat) : M Z :=
  pagetable ← create_pagetable;
  if pagetable =? 0 then mret 0 else
  r ← map_page pagetable TRAMPOLINE sym_trampoline (PTE_R .| PTE_X);
  if r <? 0 then
    destroy_pagetable pt_depth pagetable ;;
    mret 0
  else
  r ← map_page pagetable TRAPFRAME PGSIZE (PTE_R .| PTE_W);
  if r <? 0 then
    unmap_page pagetable TRAMPOLINE ;;
    destroy_pagetable pt_depth pagetable ;;
    mret 0
  else mret pagetable.

Definition proc_freepagetable (pagetable sz : Z) : M unit :=
  unmap_page pagetable TRAMPOLINE ;;
  unmap_page pagetable TRAPFRAME ;;
  destroy_pagetable pt_depth pagetable.

Definition free_process (p : nat) : M unit :=
  pr ← get_proc p;
  when (negb (p_trapframe pr =? 0)) (free_page (p_trapframe pr)) ;;
  upd (set_p_trapframe 0) p ;;
  pr ← get_proc p;
  when (negb (p_pagetable pr =? 0)) (proc_freepagetable (p_pagetable pr) (p_sz pr)) ;;
  upd (set_p_pagetable 0) p ;;
  upd (set_p_sz 0) p ;;
  upd (set_p_pid 0) p ;;
  upd (set_p_parent None) p ;;
  upd (fun pr => set_p_name (<[0%nat := 0]> (p_name pr)) pr) p ;;
  upd (set_p_chan PNull) p ;;
  upd (set_p_killed 0) p ;;
  upd (set_p_xstate 0) p ;;
  upd (set_p_state UNUSED) p.

Definition allocpid : M Z :=
  acquire L_pid ;;
  pid ← gets nextpid;
  modify (fun s => set_nextpid (i32 (nextpid s + 1)) s) ;;
  release L_pid ;;
  mret pid.

(** The search of [alloc_process]: it leaves the lock of the slot it finds held. *)
Definition find_unused : M (option nat) :=
  find_procs NPROC 0 (fun p =>
    acquire (L_proc p) ;;
    pr ← get_proc p;
    if bool_decide (p_state pr = UNUSED) then mret (Some p)
    else release (L_proc p) ;; mret None).

Definition alloc_process : M (option nat) :=
  r ← find_unused;
  match r with
  | None => mret None
  | Some p =>
      pid ← allocpid;
      upd (set_p_pid pid) p ;;
      upd (set_p_state USED) p ;;
      pr ← get_proc p;
      printf (str "alloc_process: allocated process %d" ++ nl) [VInt (p_pid pr)] ;;
      tf ← alloc_page;
      upd (set_p_trapframe tf) p ;;
      if tf =? 0 then
        free_process p ;; release (L_proc p) ;; mret None
      else
      pt ← proc_pagetable p;
      upd (set_p_pagetable pt) p ;;
      if pt =? 0 then
        free_process p ;; release (L_proc p) ;; mret None
      else
      upd (set_p_context zero_context) p ;;
      upd (fun pr => set_p_context (set_ra sym_forkret (p_context pr)) pr) p ;;
      upd (fun pr => set_p_context (set_sp (u64 (p_kstack pr + PGSIZE)) (p_context pr)) pr) p ;;
      mret (Some p)
  end.

Definition create_process (entrypoint : Z) : M Z :=
  r ← alloc_process;
  match r with
  | None => panic "create_process: alloc_process failed"
  | Some p =>
      curr_p ← myproc;
      when (negb (is_null curr_p))
        (acquire L_wait ;;
         upd (set_p_parent curr_p) p ;;
         release L_wait) ;;
      upd (fun pr => set_p_context (set_s0 entrypoint (p_context pr)) pr) p ;;
      upd (set_p_state RUNNABLE) p ;;
      release (L_proc p) ;;
      pr ← get_proc p;
      mret (p_pid pr)
  end.

(** [sleep] up to the switch: the process and [sched]'s saved bit. *)
Definition sleep_enter (chan : ptr) (lk : option lock_id) : M (nat * Z) :=
  p ← myproc;
  match p with
  | None => panic "sleep"
  | Some p =>
      match lk with
      | None => panic "sleep without lk"
      | Some lk =>
          when (negb (bool_decide (lk = L_proc p)))
            (acquire (L_proc p) ;; release lk) ;;
          upd (set_p_chan chan) p ;;
          upd (set_p_state SLEEPING) p ;;
          i ← sched_enter;
          mret (p, i)
      end
  end.

Definition sleep_leave (p : nat) (intena : Z) (lk : lock_id) : M unit :=
  sched_leave intena ;;
  upd (set_p_chan PNull) p ;;
  when (negb (bool_decide (lk = L_proc p)))
    (release (L_proc p) ;; acquire lk).

Definition wakeup (chan : ptr) : M unit :=
  for_procs NPROC 0 (fun p =>
    me ← myproc;
    when (negb (bool_decide (Some p = me)))
      (acquire (L_proc p) ;;
       pr ← get_proc p;
       when (bool_decide (p_state pr = SLEEPING) && bool_decide (p_chan pr = chan))
         (upd (set_p_state RUNNABLE) p) ;;
       release (L_proc p))).

(** The hand-over of the children to [initproc]. *)
Definition reparent (p : option nat) : M unit :=
  for_procs NPROC 0 (fun pp =>
    pr ← get_proc pp;
    when (bool_decide (p_parent pr = p))
      (ip ← gets initproc;
       upd (set_p_parent ip) pp ;;
       pr ← get_proc pp;
       match ip with
       | Some i => when (bool_decide (p_state pr = ZOMBIE)) (wakeup (PProc i))
       | None => mret tt
       end)).

(** [exit_process] up to the switch; control never comes back to it ("zombie
    exit" is the panic if it did). *)
Definition exit_process (status : Z) : M Z :=
  p ← myproc;
  ip ← gets initproc;
  if bool_decide (p = ip) then panic "init exiting" else
  acquire L_wait ;;
  reparent p ;;
  i ← deref p;
  pr ← get_proc i;
  match p_parent pr with
  | Some par => wakeup (PProc par)
  | None => mret tt
  end ;;
  acquire (L_proc i) ;;
  upd (set_p_xstate (i32 status)) i ;;
  upd (set_p_state ZOMBIE) i ;;
  release L_wait ;;
  sched_enter.

(** One scan of the table in [wait_process]: the pid and exit status of a zombie
    child, which it frees, releasing its lock, or whether there are children. *)
Fixpoint wait_scan (n np : nat) (p : option nat) (havekids : bool) : M (option (Z * Z) * bool) :=
  match n with
  | O => mret (None, havekids)
  | S n' =>
      pr ← get_proc np;
      if bool_decide (p_parent pr = p) then
        acquire (L_proc np) ;;
        pr ← get_proc np;
        if bool_decide (p_state pr = ZOMBIE) then
          let pid := p_pid pr in
          let status := p_xstate pr in
          free_process np ;;
          release (L_proc np) ;;
          mret (Some (pid, status), true)
        else
          release (L_proc np) ;;
          wait_scan n' (S np) p true
      else wait_scan n' (S np) p havekids
  end.

Definition wait_begin : M (option nat) :=
  p ← myproc;
  acquire L_wait ;;
  mret p.

(** What one round of [wait_process] comes to: it returns a child's pid and
    status or -1, or it has gone to sleep. *)
Inductive wait_result := WaitRet (pid status : Z) | WaitNone | WaitSleep (p : nat) (intena : Z).

Definition wait_round (p : option nat) : M wait_result :=
  '(z, havekids) ← wait_scan NPROC 0 p false;
  match z with
  | Some (pid, status) => release L_wait ;; mret (WaitRet pid status)
  | None =>
      i ← (if negb havekids then mret 0%nat else deref p);
      pr ← get_proc i;
      if negb havekids || negb (p_killed pr =? 0) then
        release L_wait ;; mret WaitNone
      else
        '(q, intena) ← sleep_enter (PProc i) (Some L_wait);
        mret (WaitSleep q intena)
  end.

(** [yield] up to the switch, and after it. *)
Definition yield_enter : M (nat * Z) :=
  p ← myproc;
  p ← deref p;
  acquire (L_proc p) ;;
  upd (set_p_state RUNNABLE) p ;;
  i ← sched_enter;
  mret (p, i).

Definition yield_leave (p : nat) (intena : Z) : M unit :=
  sched_leave intena ;;
  release (L_proc p).

Definition userinit : M unit :=
  p ← alloc_process;
  modify (set_initproc p) ;;
  p ← deref p;
  upd (fun pr => set_p_context (set_s0 sym_init_task (p_context pr)) pr) p ;;
  upd (fun pr => set_p_context (set_ra sym_forkret (p_context pr)) pr) p ;;
  upd (set_p_state RUNNABLE) p ;;
  release (L_proc p) ;;
  pr ← get_proc p;
  printf (str "userinit: created init process pid %d" ++ nl) [VInt (p_pid pr)] ;;
  mret tt.

End proc.
