(* ===== verification/ProcTable.v ===== *)
(** * The process table: lemmas and the simple operations

    Updates of table slots inside critical sections, and the operations that
    only read or change slots: [myproc], [allocpid], the search of
    [alloc_process], [wakeup], [reparent] and [sched]. *)

From S2P Require Import Prelude Riscv Memory State Spinlock Kalloc Vm VmMap Uart Printf Csr Proc.

(** ** Definitions *)

(** A slot update that leaves the slot's lock alone. *)
Class LockNeutral (f : proc -> proc) : Prop := {
  ln_lock : forall p, p_lock (f p) = p_lock p;
  ln_comm : forall v p, f (set_p_lock v p) = set_p_lock v (f p);
}.

(** The same for an update of the whole table. *)
Class TableNeutral (F : list proc -> list proc) : Prop := {
  tn_length : forall ps, length (F ps) = length ps;
  tn_lock : forall i ps, p_lock <$> F ps !! i = p_lock <$> ps !! i;
  tn_comm : forall v i ps, alter (set_p_lock v) i (F ps) = F (alter (set_p_lock v) i ps);
}.

Definition table (F : list proc -> list proc) (s : kstate) : kstate := set_procs (F (procs s)) s.

(** What [wakeup] does to a slot, and to the table up to slot [n]. *)
Definition wake1 (chan : ptr) (p : proc) : proc :=
  if bool_decide (p_state p = SLEEPING) && bool_decide (p_chan p = chan)
  then set_p_state RUNNABLE p else p.

Definition woken_upto (n : nat) (chan : ptr) (cur : option nat) (ps : list proc) : list proc :=
  imap (fun j p => if (j <? n)%nat && negb (bool_decide (Some j = cur)) then wake1 chan p else p) ps.

Definition woken : ptr -> option nat -> list proc -> list proc := woken_upto NPROC.

(** No slot's lock is held, except possibly those in [held]. *)
Definition plocks_free (held : nat -> Prop) (s : kstate) : Prop :=
  length (procs s) = NPROC /\ forall i, (i < NPROC)%nat -> ~ held i -> lock_free (L_proc i) s.

(** The index of the first unused slot. *)
Definition first_unused (ps : list proc) : option nat :=
  fst <$> list_find (fun p => p_state p = UNUSED) ps.

(** ** Neutral updates *)

#[export] Instance ln_state v : LockNeutral (set_p_state v). Proof. by split. Qed.
#[export] Instance ln_chan v : LockNeutral (set_p_chan v). Proof. by split. Qed.
#[export] Instance ln_killed v : LockNeutral (set_p_killed v). Proof. by split. Qed.
#[export] Instance ln_xstate v : LockNeutral (set_p_xstate v). Proof. by split. Qed.
#[export] Instance ln_pid v : LockNeutral (set_p_pid v). Proof. by split. Qed.
#[export] Instance ln_parent v : LockNeutral (set_p_parent v). Proof. by split. Qed.
#[export] Instance ln_kstack v : LockNeutral (set_p_kstack v). Proof. by split. Qed.
#[export] Instance ln_sz v : LockNeutral (set_p_sz v). Proof. by split. Qed.
#[export] Instance ln_pagetable v : LockNeutral (set_p_pagetable v). Proof. by split. Qed.
#[export] Instance ln_trapframe v : LockNeutral (set_p_trapframe v). Proof. by split. Qed.
#[export] Instance ln_context v : LockNeutral (set_p_context v). Proof. by split. Qed.
#[export] Instance ln_context_of (g : context -> context) :
  LockNeutral (fun p => set_p_context (g (p_context p)) p).
Proof. by split. Qed.
#[export] Instance ln_name_of (g : list Z -> list Z) :
  LockNeutral (fun p => set_p_name (g (p_name p)) p).
Proof. by split. Qed.
#[export] Instance ln_id : LockNeutral (fun p => p). Proof. by split. Qed.
#[export] Instance ln_compose f g : LockNeutral f -> LockNeutral g -> LockNeutral (fun p => f (g p)).
Proof. intros [F1 F2] [G1 G2]. split; intros; by rewrite ?F1, ?G1, ?G2, ?F2. Qed.

#[export] Instance ln_wake1 chan : LockNeutral (wake1 chan).
Proof. split; intros; unfold wake1; repeat case_bool_decide; done. Qed.

Lemma alter_lookup {A} (f : A -> A) i j (l : list A) :
  alter f i l !! j = if decide (i = j) then f <$> l !! j else l !! j.
Proof.
  case_decide as H; [subst; apply list_lookup_alter_eq|by apply list_lookup_alter_ne].
Qed.

#[export] Instance tn_alter f i `{!LockNeutral f} : TableNeutral (alter f i).
Proof.
  split.
  - intros ps. apply length_alter.
  - intros j ps. rewrite alter_lookup. case_decide; [|done].
    destruct (ps !! j); [|done]. cbn. f_equal. apply ln_lock.
  - intros v j ps. apply list_eq. intros k. rewrite !alter_lookup.
    repeat case_decide; subst; try done. destruct (ps !! k); [|done]. cbn. f_equal.
    by rewrite (ln_comm (f := f)).
Qed.

#[export] Instance tn_woken n chan cur : TableNeutral (woken_upto n chan cur).
Proof.
  unfold woken_upto. split.
  - intros ps. apply length_imap.
  - intros i ps. rewrite list_lookup_imap. destruct (ps !! i); [|done]. cbn. f_equal.
    case_match; [apply ln_lock|done].
  - intros v i ps. apply list_eq. intros k. rewrite alter_lookup, !list_lookup_imap, alter_lookup.
    case_decide; [|done]. destruct (ps !! k); [|done]. cbn. f_equal.
    case_match; [|done]. by rewrite (ln_comm (f := wake1 chan)).
Qed.

#[export] Instance tn_id : TableNeutral (fun ps => ps). Proof. by split. Qed.

#[export] Instance tn_compose F G :
  TableNeutral F -> TableNeutral G -> TableNeutral (fun ps => F (G ps)).
Proof. intros [F1 F2 F3] [G1 G2 G3]. split; intros; by rewrite ?F1, ?F2, ?F3, ?G1, ?G2, ?G3. Qed.

#[export] Instance independent_table l F `{!TableNeutral F} : Independent l (table F).
Proof.
  unfold table. split; try done.
  - intros s. destruct l as [| | | | |i]; try done. cbn. by rewrite (tn_lock (F := F)).
  - intros s. cbn. apply (tn_length (F := F)).
  - intros v s. destruct l as [| | | | |i]; try done. cbn. unfold set_procs. cbn.
    by rewrite (tn_comm (F := F)).
Qed.

(** ** Locked and touched states *)

Lemma pushed_touch s : pushed (touch s) = pushed s.
Proof. unfold pushed. by rewrite touch_touch, noff_touch. Qed.

Lemma locked_state_touch l s : locked_state l (touch s) = locked_state l s.
Proof. unfold locked_state. by rewrite pushed_touch, get_lock_touch. Qed.

Lemma noff_locked l s : noff (locked_state l s) = noff s + 1.
Proof. unfold locked_state. by rewrite noff_set_lock, noff_pushed. Qed.

Lemma touch_locked l s : hart_ok s -> touch (locked_state l s) = locked_state l s.
Proof. intros [_ [H _] _]. apply touch_deep. rewrite noff_locked. lia. Qed.

Lemma lock_free_locked l l' s : l <> l' -> lock_free l' s -> lock_free l' (locked_state l s).
Proof.
  intros Hne H. unfold lock_free, locked_state. by rewrite get_set_lock_ne, get_lock_pushed.
Qed.

Lemma procs_locked l s :
  procs (locked_state l s)
  = match l with
    | L_proc i => alter (set_p_lock (Spinlock 1 (lk_name (get_lock l s)) (Some 0%nat))) i (procs s)
    | _ => procs s
    end.
Proof. by destruct l. Qed.

Lemma length_procs_locked l s : length (procs (locked_state l s)) = length (procs s).
Proof. rewrite procs_locked. destruct l; try done. apply length_alter. Qed.

Lemma get_proc_ok i p s : procs s !! i = Some p -> get_proc i s = Done p s.
Proof. intros H. unfold get_proc, gets. by rewrite H. Qed.

Lemma lookup_alter_slot s k p f : procs s !! k = Some p -> alter f k (procs s) !! k = Some (f p).
Proof. intros H. by rewrite list_lookup_alter_eq, H. Qed.

Lemma upd_ok f i s : upd f i s = Done tt (table (alter f i) s).
Proof. done. Qed.

Lemma table_table F G s : table F (table G s) = table (fun ps => F (G ps)) s.
Proof. done. Qed.

Lemma touch_table F s : touch (table F s) = table F (touch s).
Proof. done. Qed.

(** The slot seen inside its own critical section: only the lock differs. *)
Lemma lookup_locked_self i p s :
  procs s !! i = Some p ->
  procs (locked_state (L_proc i) s) !! i
  = Some (set_p_lock (Spinlock 1 (lk_name (p_lock p)) (Some 0%nat)) p).
Proof.
  intros H. rewrite procs_locked, alter_lookup, decide_True, H by done. cbn. by rewrite H.
Qed.

Lemma lock_exists_proc i s : length (procs s) = NPROC -> (i < NPROC)%nat -> lock_exists (L_proc i) s.
Proof. intros Hl Hi j [= <-]. lia. Qed.

Lemma lock_exists_global l s : (forall i, l <> L_proc i) -> lock_exists l s.
Proof. intros H i ->. by destruct (H i). Qed.

Lemma plocks_free_table held F s `{!TableNeutral F} :
  plocks_free held s -> plocks_free held (table F s).
Proof.
  intros [Hl Hf]. split; [cbn; by rewrite (tn_length (F := F))|]. intros i Hi Hh.
  unfold lock_free. rewrite (ind_get (l := L_proc i) (u := table F)). by apply Hf.
Qed.

Lemma plocks_free_touch held s : plocks_free held s -> plocks_free held (touch s).
Proof.
  intros [Hl Hf]. split; [done|]. intros i Hi Hh. unfold lock_free. rewrite get_lock_touch.
  by apply Hf.
Qed.

Lemma hart_ok_table F s : hart_ok s -> hart_ok (table F s).
Proof. by apply hart_ok_same. Qed.

(** ** myproc *)

Lemma myproc_ok s : hart_ok s -> myproc s = Done (c_proc (cpu0 s)) (touch s).
Proof.
  intros Hh. unfold myproc. mstep; [by apply push_off_ok|].
  rewrite bind_mycpu by apply Hh. mrun.
  change (c_proc (cpu0 (pushed s))) with (c_proc (cpu0 s)).
  mstep; [|reflexivity]. rewrite <- (pushed_popped s Hh). apply pop_off_ok.
  - apply Hh.
  - apply intr_get_pushed.
  - rewrite noff_pushed. destruct Hh. lia.
Qed.

(** ** for_procs *)

Lemma for_procs_step n i body s s1 s2 :
  body i s = Done tt s1 -> for_procs n (S i) body s1 = Done tt s2 ->
  for_procs (S n) i body s = Done tt s2.
Proof. intros H1 H2. cbn [for_procs]. by mstep; [exact H1|]. Qed.

(** ** wakeup *)

Definition wakeup_body (chan : ptr) (p : nat) : M unit :=
  me ← myproc;
  when (negb (bool_decide (Some p = me)))
    (acquire (L_proc p) ;;
     pr ← get_proc p;
     when (bool_decide (p_state pr = SLEEPING) && bool_decide (p_chan pr = chan))
       (upd (set_p_state RUNNABLE) p) ;;
     release (L_proc p)).

Lemma table_wake1 chan i p s :
  procs s !! i = Some p ->
  table (alter (wake1 chan) i) s
  = if bool_decide (p_state p = SLEEPING) && bool_decide (p_chan p = chan)
    then table (alter (set_p_state RUNNABLE) i) s else s.
Proof.
  intros Hp. unfold wake1. destruct (bool_decide (p_state p = SLEEPING)) eqn:E1, 
    (bool_decide (p_chan p = chan)) eqn:E2; cbn [andb]; unfold table.
  - f_equal. apply list_eq. intros j. rewrite !alter_lookup.
    destruct (decide (i = j)) as [<-|]; [|done]. rewrite Hp. cbn. by rewrite E1, E2.
  - replace (alter _ i (procs s)) with (procs s); [by destruct s|]. symmetry. apply list_alter_same.
    intros x Hx. simplify_eq. by rewrite E1, E2.
  - replace (alter _ i (procs s)) with (procs s); [by destruct s|]. symmetry. apply list_alter_same.
    intros x Hx. simplify_eq. by rewrite E1.
  - replace (alter _ i (procs s)) with (procs s); [by destruct s|]. symmetry. apply list_alter_same.
    intros x Hx. simplify_eq. by rewrite E1.
Qed.

Lemma wakeup_body_ok chan i s :
  hart_ok s -> length (procs s) = NPROC -> (i < NPROC)%nat ->
  (c_proc (cpu0 s) <> Some i -> lock_free (L_proc i) s) ->
  wakeup_body chan i s
  = Done tt (if bool_decide (Some i = c_proc (cpu0 s)) then touch s
             else table (alter (wake1 chan) i) (touch s)).
Proof.
  intros Hh Hlen Hi Hf. unfold wakeup_body. mstep; [by apply myproc_ok|].
  case_bool_decide as Hc; cbn [negb when]; [done|].
  assert (Hfree : lock_free (L_proc i) (touch s)).
  { unfold lock_free. rewrite get_lock_touch. apply Hf. congruence. }
  assert (Hex : lock_exists (L_proc i) (touch s)) by by apply lock_exists_proc.
  pose proof (hart_ok_touch s Hh) as Hh'.
  destruct (lookup_lt_is_Some_2 (procs s) i) as [p Hp]; [lia|].
  mstep; [by apply acquire_ok; [| |apply Hfree]|].
  mstep; [by apply get_proc_ok, (lookup_locked_self i p)|].
  cbn [p_state p_chan set_p_lock]. rewrite (table_wake1 chan i p) by done.
  destruct (_ && _); cbn [when].
  - mstep; [apply upd_ok|]. rewrite (release_section (L_proc i) (table (alter (set_p_state RUNNABLE) i)))
      by done. by rewrite touch_touch.
  - mrun. rewrite (release_section (L_proc i) (fun s => s)) by done. by rewrite touch_touch.
Qed.

Lemma woken_step n chan cur ps :
  woken_upto (S n) chan cur ps
  = if bool_decide (Some n = cur) then woken_upto n chan cur ps
    else alter (wake1 chan) n (woken_upto n chan cur ps).
Proof.
  unfold woken_upto. apply list_eq. intros j. case_bool_decide as Hc.
  - rewrite !list_lookup_imap. destruct (ps !! j); [|done]. cbn [fmap option_fmap option_map]. f_equal.
    destruct (decide (j = n)) as [->|Hne].
    + rewrite bool_decide_eq_true_2 by done. cbn [negb]. by rewrite !andb_false_r.
    + replace (j <? S n)%nat with (j <? n)%nat; [done|].
      destruct (Nat.ltb_spec j n), (Nat.ltb_spec j (S n)); lia || done.
  - rewrite alter_lookup, !list_lookup_imap. case_decide as Hj.
    + subst j. destruct (ps !! n); [|done]. cbn [fmap option_fmap option_map]. f_equal.
      rewrite Nat.ltb_irrefl, (proj2 (Nat.ltb_lt n (S n))) by lia.
      by rewrite bool_decide_eq_false_2.
    + destruct (ps !! j); [|done]. cbn [fmap option_fmap option_map]. f_equal.
      replace (j <? S n)%nat with (j <? n)%nat; [reflexivity|].
      destruct (Nat.ltb_spec j n), (Nat.ltb_spec j (S n)); lia || done.
Qed.

Lemma woken_0 chan cur ps : woken_upto 0 chan cur ps = ps.
Proof.
  unfold woken_upto. apply list_eq. intros j. rewrite list_lookup_imap. by destruct (ps !! j).
Qed.

Lemma wakeup_loop chan s n i :
  hart_ok s -> length (procs s) = NPROC -> (i + n = NPROC)%nat ->
  (forall j, (j < NPROC)%nat -> c_proc (cpu0 s) <> Some j -> lock_free (L_proc j) s) ->
  for_procs n i (wakeup_body chan) (table (woken_upto i chan (c_proc (cpu0 s))) (touch s))
  = Done tt (table (woken chan (c_proc (cpu0 s))) (touch s)).
Proof.
  intros Hh Hlen. revert i; induction n as [|n IH]; intros i Hin Hf.
  - cbn. by replace i with NPROC by lia.
  - eapply for_procs_step; [|apply IH; [lia|done]].
    rewrite wakeup_body_ok.
    + rewrite touch_table, touch_touch.
      change (c_proc (cpu0 (table _ (touch s)))) with (c_proc (cpu0 s)).
      f_equal. unfold table. ksimpl. rewrite woken_step. by case_bool_decide.
    + by apply hart_ok_table, hart_ok_touch.
    + cbn. unfold woken_upto. by rewrite length_imap.
    + lia.
    + intros Hc. unfold lock_free. rewrite (ind_get (l := L_proc i)), get_lock_touch.
      apply Hf; [lia|done].
Qed.

Lemma wakeup_ok chan s :
  hart_ok s -> length (procs s) = NPROC ->
  (forall j, (j < NPROC)%nat -> c_proc (cpu0 s) <> Some j -> lock_free (L_proc j) s) ->
  wakeup chan s = Done tt (table (woken chan (c_proc (cpu0 s))) (touch s)).
Proof.
  intros Hh Hlen Hf. unfold wakeup. fold (wakeup_body chan).
  rewrite <- (wakeup_loop chan s NPROC 0) by done. unfold table. rewrite woken_0.
  change (set_procs (procs (touch s)) (touch s)) with (touch s).
  unfold NPROC. cbn [for_procs]. apply bind_start.
  pose proof (hart_ok_touch s Hh) as Hh'.
  unfold NPROC in *. rewrite !wakeup_body_ok; try done; try (unfold NPROC; lia).
  - by rewrite touch_touch.
  - intros Hc. unfold lock_free. rewrite get_lock_touch. apply Hf; [lia|done].
  - intros Hc. apply Hf; [lia|done].
Qed.

(** ** allocpid *)

Lemma allocpid_ok s :
  hart_ok s -> lock_free L_pid s ->
  allocpid s = Done (nextpid s) (set_nextpid (i32 (nextpid s + 1)) (touch s)).
Proof.
  intros Hh Hf. unfold allocpid. mstep; [by apply acquire_ok; [|apply lock_exists_global|apply Hf]|].
  mrun. change (nextpid (locked_state L_pid s)) with (nextpid s).
  mstep; [apply (release_section L_pid (set_nextpid (i32 (nextpid s + 1)))); [done| |done];
    by apply lock_exists_global|]. done.
Qed.

(** ** The search of alloc_process *)

Lemma find_unused_loop s n i :
  hart_ok s -> plocks_free (fun _ => False) s -> (i + n = NPROC)%nat ->
  find_procs n i (fun p =>
    acquire (L_proc p) ;;
    pr ← get_proc p;
    if bool_decide (p_state pr = UNUSED) then mret (Some p)
    else release (L_proc p) ;; mret None) (touch s)
  = match first_unused (drop i (procs s)) with
    | Some k => Done (Some (i + k)%nat) (locked_state (L_proc (i + k)) s)
    | None => Done None (touch s)
    end.
Proof.
  intros Hh Hpl. destruct (plocks_free_touch _ _ Hpl) as [Hlen Hfree].
  pose proof (hart_ok_touch s Hh) as Hh'. change (procs (touch s)) with (procs s) in Hlen.
  revert i; induction n as [|n IH]; intros i Hin; cbn [find_procs].
  { unfold first_unused. rewrite drop_ge by lia. done. }
  destruct (lookup_lt_is_Some_2 (procs s) i) as [p Hp]; [lia|].
  unfold first_unused. rewrite (drop_S _ p) by done. cbn [list_find].
  assert (Hex : lock_exists (L_proc i) (touch s)) by (apply lock_exists_proc; done || lia).
  assert (Hf : lock_free (L_proc i) (touch s)) by (apply Hfree; [lia|tauto]).
  rewrite bind_assoc. mstep; [by apply acquire_ok; [| |apply Hf]|]. rewrite bind_assoc.
  mstep; [by apply get_proc_ok, (lookup_locked_self i p)|]. cbn [p_state set_p_lock].
  destruct (decide (p_state p = UNUSED)) as [Hu|Hu].
  - rewrite bool_decide_eq_true_2 by done. cbn [fmap option_fmap option_map fst]. rewrite Nat.add_0_r.
    by rewrite <- (locked_state_touch (L_proc i) s).
  - rewrite bool_decide_eq_false_2, bind_assoc by done.
    mstep; [by apply (release_section (L_proc i) (fun s => s))|]. mrun. rewrite touch_touch.
    specialize (IH (S i) ltac:(lia)). unfold first_unused in IH. rewrite IH.
    destruct (list_find _ (drop (S i) (procs s))) as [[k q]|]; [|done]. cbn.
    by rewrite <- Nat.add_succ_r.
Qed.

Lemma find_unused_ok s :
  hart_ok s -> plocks_free (fun _ => False) s ->
  find_unused s = match first_unused (procs s) with
    | Some k => Done (Some k) (locked_state (L_proc k) s)
    | None => Done None (touch s)
    end.
Proof.
  intros Hh Hpl. pose proof (find_unused_loop s NPROC 0 Hh Hpl eq_refl) as H.
  rewrite drop_0 in H. refine (eq_trans _ H). unfold find_unused, NPROC. cbn [find_procs].
  apply bind_start. destruct Hpl as [Hlen Hf].
  assert (Hf0 : lock_free (L_proc 0) s) by (apply Hf; [unfold NPROC; lia|tauto]).
  assert (Hf0' : lock_free (L_proc 0) (touch s)) by (unfold lock_free; by rewrite get_lock_touch).
  apply bind_start. pose proof (hart_ok_touch s Hh).
  rewrite !acquire_ok; try done; try apply Hf0; try apply Hf0'.
  - by rewrite locked_state_touch.
  - apply lock_exists_proc; [done|unfold NPROC; lia].
  - apply lock_exists_proc; [done|unfold NPROC; lia].
Qed.

Lemma first_unused_Some ps k :
  first_unused ps = Some k ->
  exists p, ps !! k = Some p /\ p_state p = UNUSED
    /\ forall j q, ps !! j = Some q -> (j < k)%nat -> p_state q <> UNUSED.
Proof.
  unfold first_unused. intros H. apply fmap_Some in H as ([k' p] & H & ->).
  apply list_find_Some in H as (Hp & Hs & Hbefore). exists p. split_and!; try done.
Qed.

Lemma first_unused_None ps :
  first_unused ps = None <-> Forall (fun p => p_state p <> UNUSED) ps.
Proof.
  unfold first_unused. rewrite fmap_None, list_find_None. done.
Qed.

(** ** sched *)

(** The state in which [sched] has switched to the scheduler. *)
Definition switched (p : nat) (s : kstate) : kstate :=
  set_regs (c_context (cpu0 s)) (table (alter (set_p_context (regs s)) p) s).

Lemma sched_enter_ok s p pr :
  hart_ok s -> c_proc (cpu0 s) = Some p -> procs s !! p = Some pr -> lock_held (L_proc p) s ->
  noff s = 1 -> p_state pr <> RUNNING -> sched_enter s = Done (intena s) (switched p s).
Proof.
  intros Hh Hc Hp Hl Hn Hst. unfold sched_enter.
  assert (Ht : touch s = s) by (apply touch_deep; lia).
  mstep; [by apply myproc_ok|]. rewrite Hc, Ht. cbn [deref]. mrun.
  mstep; [apply holding_held; [apply Hh|done]|]. cbn [negb].
  rewrite bind_mycpu by apply Hh. mrun. rewrite Hn. cbn [Z.eqb negb].
  mstep; [by apply get_proc_ok|]. rewrite bool_decide_eq_false_2 by done. mrun.
  rewrite (hart_intr s Hh) by lia. rewrite bind_mycpu by apply Hh. mrun. reflexivity.
Qed.

(** [sched] switches only when its four checks hold. *)
Lemma sched_enter_inv s i s' :
  hart_ok s -> sched_enter s = Done i s' ->
  exists p, c_proc (cpu0 s) = Some p /\ holding (L_proc p) (touch s) = Done true (touch s)
    /\ noff s = 1 /\ p_state (default zero_proc (procs s !! p)) <> RUNNING /\ intr_get s = false
    /\ i = intena s /\ s' = switched p s.
Proof.
  intros Hh. unfold sched_enter. rewrite (bind_Done _ _ s _ (touch s) _ (myproc_ok s Hh) eq_refl).
  destruct (c_proc (cpu0 s)) as [p|] eqn:Hc; [|done]. cbn [deref]. mrun.
  pose proof (hart_ok_touch s Hh) as Hh'.
  rewrite (bind_Done _ _ _ _ _ _ (holding_spec (L_proc p) (touch s) (hart_tp _ Hh')) eq_refl).
  destruct (_ && _) eqn:Eh; cbn [negb]; [|done].
  rewrite bind_mycpu by apply Hh'. mrun. rewrite noff_touch.
  destruct (Z.eqb_spec (noff s) 1) as [Hn|]; cbn [negb]; [|done].
  assert (Ht : touch s = s) by (apply touch_deep; lia). rewrite Ht in *.
  unfold get_proc. mrun.
  destruct (decide (p_state (default zero_proc (procs s !! p)) = RUNNING)) as [Hs|Hs];
    [by rewrite bool_decide_eq_true_2|rewrite bool_decide_eq_false_2 by done].
  mrun.
  destruct (intr_get s) eqn:Hi; [done|]. rewrite bind_mycpu by apply Hh'. mrun.
  intros [= <- <-]. exists p. split_and!; try done.
  rewrite holding_spec by apply Hh'. by rewrite Eh.
Qed.
