(* ===== verification/ProcMem.v ===== *)
(** * Processes and memory

    What a process owns: a trapframe page and a page table that maps the
    trampoline and the trapframe.  [proc_pagetable] builds the table and
    [proc_freepagetable] gives every page of it back; [alloc_process],
    [create_process] and [free_process] do the same for a whole process. *)

From S2P Require Import Prelude Riscv Memory State Spinlock Kalloc Vm VmMap Sv39 VmKernel VmDestroy Uart Printf Csr Proc ProcTable.

Section proc_mem.
Context {L : Linker} {LO : LinkerOk}.

(** ** Definitions *)

(** The trampoline is mapped, and the page [pa] at TRAPFRAME. *)
Definition user_leaf_at (pa va : Z) : option Z :=
  if decide (vbase va = TRAPFRAME) then Some (leaf_entry pa (PTE_R .| PTE_W))
  else if decide (vbase va = TRAMPOLINE) then Some (leaf_entry sym_trampoline (PTE_R .| PTE_X))
  else None.

(** The mappings of a new process. *)
Definition user_leaf : Z -> option Z := user_leaf_at PGSIZE.

(** RAM, free list, device log, [nextpid] and process table replaced. *)
Definition patch (m : memory) (fl : Z) (n : nat) (bs : list Z) (np : Z)
    (F : list proc -> list proc) (s : kstate) : kstate :=
  set_mem m (set_freelist fl (set_nextpid np (io_step n ((fun b => (UART0 + THR, b)) <$> bs) (table F s)))).

(** The context a new process starts from: return to [forkret] on its stack. *)
Definition start_context (kstack fn : Z) : context :=
  Context sym_forkret (u64 (kstack + PGSIZE)) fn 0 0 0 0 0 0 0 0 0 0 0.

(** A slot after [alloc_process]. *)
Definition born (pid tf pt : Z) (p : proc) : proc :=
  set_p_context (start_context (p_kstack p) 0)
    (set_p_pagetable pt (set_p_trapframe tf (set_p_state USED (set_p_pid pid p)))).

(** A slot after [create_process]. *)
Definition created (pid tf pt fn : Z) (parent : option nat) (p : proc) : proc :=
  set_p_state RUNNABLE (set_p_context (start_context (p_kstack p) fn)
    (match parent with Some _ => set_p_parent parent | None => fun p => p end (born pid tf pt p))).

(** A slot after [free_process]. *)
Definition emptied (p : proc) : proc :=
  set_p_state UNUSED (set_p_xstate 0 (set_p_killed 0 (set_p_chan PNull
    (set_p_name (<[0%nat := 0]> (p_name p)) (set_p_parent None (set_p_pid 0 (set_p_sz 0
      (set_p_pagetable 0 (set_p_trapframe 0 p))))))))).

Definition new_message (pid : Z) : list Z :=
  str "alloc_process: allocated process " ++ render 10 true pid ++ nl.

(** RAM differs at most in the pages [K] and the pages of [tbl]. *)
Definition only_owned (K : list Z) (tbl : gmap (list Z) Z) (s s' : kstate) : Prop :=
  forall a, (forall p, p ∈ K \/ (exists path, tbl !! path = Some p) -> ~ (p <= a < p + PGSIZE)) ->
  ldb (mem s') a = ldb (mem s) a.

(** A process table of its own: built with the pages of [tbl]. *)
Record user_space (s : kstate) (pt : Z) (tbl : gmap (list Z) Z) (free : list Z) : Prop := {
  us_inv : vm_inv s pt tbl free;
  us_leaf : forall va, leaf_pte (mem s) tbl va = user_leaf va;
}.

(** ** Instances *)

#[export] Instance ln_born pid tf pt : LockNeutral (born pid tf pt).
Proof. by split. Qed.

#[export] Instance ln_created pid tf pt fn parent : LockNeutral (created pid tf pt fn parent).
Proof. split; intros; by destruct parent. Qed.

#[export] Instance ln_emptied : LockNeutral emptied.
Proof. by split. Qed.

#[export] Instance independent_patch l m fl n bs np F `{!TableNeutral F} :
  Independent l (patch m fl n bs np F).
Proof. unfold patch. apply _. Qed.

(** ** Frames inside critical sections *)

Lemma frame_mem s s' : frame s s' -> noff s <> 0 -> s' = set_mem (mem s') (set_freelist (freelist s') s).
Proof.
  intros [H1 H2] Hn. specialize (H2 Hn). destruct s as [m ? ? [] ? ? f], s' as [m' ? ? [] ? ? f'].
  unfold erase, intena, set_intena in *. ksimpl. by simplify_eq.
Qed.

Lemma touch_patch m fl n bs np F s : touch (patch m fl n bs np F s) = patch m fl n bs np F (touch s).
Proof. done. Qed.

Lemma pool_same s s' free :
  pool s free -> mem s' = mem s -> freelist s' = freelist s -> csr s' = csr s -> cpu0 s' = cpu0 s ->
  kmem_lock s' = kmem_lock s -> pool s' free.
Proof.
  intros [P1 P2 P3 P4] Hm Hf Hc H0 Hk. split.
  - by rewrite Hm, Hf.
  - done.
  - by apply (hart_ok_same s).
  - unfold lock_free, get_lock. by rewrite Hk.
Qed.

(** The same with the hart and the locks in another sound state. *)
Lemma vm_inv_move s s' root tbl free :
  vm_inv s root tbl free -> mem s' = mem s -> freelist s' = freelist s -> hart_ok s' ->
  lock_free L_kmem s' -> vm_inv s' root tbl free.
Proof.
  intros [[P1 P2 _ _] W D] Hm Hf Hh Hk. split; [split; [by rewrite Hm, Hf|done|done|done]|by rewrite Hm|done].
Qed.

Lemma pool_table F s free : pool s free -> pool (table F s) free.
Proof. intros H. by apply (pool_same s). Qed.

Lemma mem_table F s : mem (table F s) = mem s.
Proof. done. Qed.

Lemma vm_inv_same s s' root tbl free :
  vm_inv s root tbl free -> mem s' = mem s -> freelist s' = freelist s -> csr s' = csr s ->
  cpu0 s' = cpu0 s -> kmem_lock s' = kmem_lock s -> vm_inv s' root tbl free.
Proof.
  intros [P W D] Hm Hf Hc H0 Hk. split; [by apply (pool_same s)|by rewrite Hm|done].
Qed.

Lemma vm_inv_table F s root tbl free : vm_inv s root tbl free -> vm_inv (table F s) root tbl free.
Proof. intros H. by apply (vm_inv_same s). Qed.

Lemma pool_locked l s free :
  pool s free -> l <> L_kmem -> noff s + 1 < 2 ^ 30 -> pool (locked_state l s) free.
Proof.
  intros [P1 P2 P3 P4] Hl Hn. split.
  - by destruct l.
  - done.
  - by apply hart_ok_locked_state.
  - by apply lock_free_locked.
Qed.

(** ** The page table of a process *)

Lemma table_page (tbl : gmap (list Z) Z) l path q :
  (map_to_list tbl).*2 ≡ₚ l -> tbl !! path = Some q -> q ∈ l.
Proof.
  intros <- Hq. apply list_elem_of_fmap. exists (path, q). split; [done|]. by apply elem_of_map_to_list.
Qed.

Lemma trampoline_bounds :
  sym_trampoline mod PGSIZE = 0 /\ 0 <= sym_trampoline < 2 ^ 56.
Proof.
  rewrite trampoline_page. pose proof etext_aligned. pose proof etext_above. pose proof end_above.
  pose proof end_below. unfold PGSIZE, PHYSTOP, KERNBASE in *. dmlia.
Qed.

Lemma user_leaf_split pa va e :
  (if decide (same_vpn TRAPFRAME va) then Some (leaf_entry pa (PTE_R .| PTE_W))
   else if decide (same_vpn TRAMPOLINE va) then Some e else None)
  = (if decide (vbase va = TRAPFRAME) then Some (leaf_entry pa (PTE_R .| PTE_W))
     else if decide (vbase va = TRAMPOLINE) then Some e else None).
Proof.
  assert (H : forall a, vbase a = a -> same_vpn a va <-> vbase va = a).
  { intros a Ha. rewrite same_vpn_vbase, Ha. done. }
  rewrite (decide_iff_eq _ _ _ _ (H TRAPFRAME eq_refl)).
  by rewrite (decide_iff_eq (same_vpn TRAMPOLINE va) _ _ _ (H TRAMPOLINE eq_refl)).
Qed.

Lemma create_pagetable_only s c :
  let s' := set_mem (memset (mem (alloced c s)) c 0 PGSIZE) (alloced c s) in
  frame s s' /\ only_pages [c] s s'.
Proof.
  split; [apply frame_set_mem, frame_alloced|].
  intros a Ha. specialize (Ha c ltac:(set_solver)). rewrite set_mem_mem.
  rewrite ldb_memset, decide_False by (done || unfold PGSIZE; lia). by apply only_page_alloced.
Qed.

(** A new table with those two mappings. *)
Lemma two_mappings_ok s pt t1 t2 free pa :
  pool s (pt :: t1 :: t2 :: free) -> 0 <= pa < 2 ^ 56 -> pa mod PGSIZE = 0 ->
  exists s0 s1 s2 tbl, create_pagetable s = Done pt s0
    /\ map_page pt TRAMPOLINE sym_trampoline (PTE_R .| PTE_X) s0 = Done 0 s1
    /\ map_page pt TRAPFRAME pa (PTE_R .| PTE_W) s1 = Done 0 s2
    /\ vm_inv s2 pt tbl free /\ (forall va, leaf_pte (mem s2) tbl va = user_leaf_at pa va)
    /\ frame s s2 /\ only_owned [] tbl s s2 /\ (map_to_list tbl).*2 ≡ₚ [pt; t1; t2].
Proof.
  intros Hpool Hpa Hal. destruct (create_pagetable_ok s pt _ Hpool) as [E0 I0].
  destruct (create_pagetable_only s pt) as [F0 O0]. set (s0 := set_mem _ _) in *. clearbody s0.
  destruct trampoline_bounds as [Ht1 Ht2].
  pose proof (map_page_ok s0 pt {[ [] := pt ]} (t1 :: t2 :: free) TRAMPOLINE sym_trampoline
    (PTE_R .| PTE_X) I0 eq_refl Ht1 ltac:(lia)) as H1. rewrite missing_new in H1.
  destruct H1 as (s1 & tbl1 & E1 & [I1 S1 L1 F1 O1 C1 P1]);
    [by vm_compute; split|apply leaf_pte_new|cbn; lia|]. cbn [drop] in *.
  pose proof (vm_wf _ _ _ _ I1) as Hwf1.
  assert (Hm : missing tbl1 TRAPFRAME = 0%nat).
  { destruct P1 as [c Hc]. destruct (wf_path2 _ _ _ _ _ Hwf1 Hc) as [c2 Hc2]. unfold missing.
    change (path2 TRAPFRAME) with (path2 TRAMPOLINE). change (path1 TRAPFRAME) with (path1 TRAMPOLINE).
    by rewrite Hc2, Hc. }
  pose proof (map_page_ok s1 pt tbl1 free TRAPFRAME pa (PTE_R .| PTE_W) I1 eq_refl Hal) as H2.
  rewrite Hm in H2.
  destruct H2 as (s2 & tbl2 & E2 & [I2 S2 L2 F2 O2 C2 P2]);
    [lia|by vm_compute; split| |lia|].
  { rewrite L1, decide_False; [apply leaf_pte_new|]. by intros (_ & _ & ?). }
  rewrite drop_0 in *. exists s0, s1, s2, tbl2. split_and!; try done.
  - intros va. rewrite L2, L1, leaf_pte_new. apply user_leaf_split.
  - etrans; [exact F0|]. by etrans.
  - intros a Ha. rewrite O2 by (intros path q Hq; apply Ha; eauto).
    rewrite O1. 2:{ intros path q Hq. apply Ha. right. exists path. by eapply lookup_weaken. }
    apply O0. intros q Hq. apply list_elem_of_singleton in Hq as ->. apply Ha. right. exists [].
    apply (wf_root _ _ _ (vm_wf _ _ _ _ I2)).
  - unfold pages_kept in *. rewrite map_to_list_singleton in C1. cbn in C1.
    apply (Permutation_app_inv_r free). rewrite C2, C1. done.
Qed.

Lemma proc_pagetable_ok s p pt t1 t2 free :
  pool s (pt :: t1 :: t2 :: free) ->
  exists s' tbl, proc_pagetable p s = Done pt s' /\ user_space s' pt tbl free
    /\ frame s s' /\ only_owned [] tbl s s' /\ (map_to_list tbl).*2 ≡ₚ [pt; t1; t2].
Proof.
  intros Hpool. destruct (two_mappings_ok s pt t1 t2 free PGSIZE Hpool)
    as (s0 & s1 & s2 & tbl & E0 & E1 & E2 & I & Hl & Hr); [by vm_compute; split|done|].
  assert (Hpt : 0 < pt < 2 ^ 40).
  { apply page_ok_pos, (wf_page _ _ _ (vm_wf _ _ _ _ I) [] pt), (wf_root _ _ _ (vm_wf _ _ _ _ I)). }
  exists s2, tbl. split; [|split; [by split|exact Hr]].
  unfold proc_pagetable. mstep; [exact E0|]. rewrite (proj2 (Z.eqb_neq _ _)) by lia.
  mstep; [exact E1|]. cbn [Z.ltb Z.compare]. mstep; [exact E2|]. done.
Qed.

Lemma proc_freepagetable_ok s pt sz tbl free :
  user_space s pt tbl free ->
  exists s' free', proc_freepagetable pt sz s = Done tt s' /\ pool s' free'
    /\ free' ≡ₚ (map_to_list tbl).*2 ++ free /\ frame s s' /\ only_owned [] tbl s s'.
Proof.
  intros [I0 L0].
  destruct (unmap_page_ok s pt tbl free TRAMPOLINE (leaf_entry sym_trampoline (PTE_R .| PTE_X)) I0)
    as (s1 & E1 & I1 & F1 & O1 & L1); [by rewrite L0|].
  destruct (unmap_page_ok s1 pt tbl free TRAPFRAME (leaf_entry PGSIZE (PTE_R .| PTE_W)) I1)
    as (s2 & E2 & I2 & F2 & O2 & L2).
  { rewrite L1, L0, decide_False; [done|]. by intros (_ & _ & ?). }
  assert (Hnone : forall va, leaf_pte (mem s2) tbl va = None).
  { intros va. rewrite L2, L1, L0. unfold user_leaf, user_leaf_at.
    pose proof (user_leaf_split PGSIZE va (leaf_entry sym_trampoline (PTE_R .| PTE_X))) as Hs.
    repeat case_decide; try done. }
  destruct (destroy_empty_table s2 pt tbl free I2 Hnone) as (s3 & E3 & P3 & F3 & O3).
  pose proof (vm_wf _ _ _ _ I2) as Hwf.
  exists s3, (reverse (table_pages tbl pt) ++ free). split_and!.
  - unfold proc_freepagetable. mstep; [exact E1|]. mstep; [exact E2|]. exact E3.
  - done.
  - rewrite reverse_Permutation. f_equiv. by apply (table_pages_perm tbl (mem s2) pt).
  - etrans; [exact F1|]. by etrans.
  - intros a Ha. rewrite O3, O2, O1; [done| | |].
    + intros path q Hq. apply Ha. eauto.
    + intros path q Hq. apply Ha. eauto.
    + intros q Hq. apply Ha. right. by apply (elem_of_table_pages tbl (mem s2) pt).
Qed.

(** ** alloc_process *)

Lemma printf_new pid s :
  hart_ok s -> lock_free L_print s -> uart_live s -> - 2 ^ 31 <= pid < 2 ^ 31 ->
  exists n, printf (str "alloc_process: allocated process %d" ++ nl) [VInt pid] s
    = Done 0 (io_step n ((fun b => (UART0 + THR, b)) <$> new_message pid) (touch s)).
Proof.
  intros Hh Hlk Hl Hp.
  destruct (printf_ok (str "alloc_process: allocated process %d" ++ nl) [VInt pid]
    (new_message pid) s) as (s' & E & n & ->); try done.
  - by apply (bool_decide_unpack _).
  - unfold new_message. rewrite <- (i32_small pid) at 2 by done.
    apply (formatted_int1 (str "alloc_process: allocated process ") nl); by apply (bool_decide_unpack _).
  - by exists n.
Qed.

(** What has to hold for a process to be created. *)
Record can_alloc (s : kstate) (free : list Z) (k : nat) : Prop := {
  ca_hart : hart_ok s;
  ca_depth : noff s + 2 < 2 ^ 30;
  ca_locks : plocks_free (fun _ => False) s;
  ca_pid : lock_free L_pid s;
  ca_print : lock_free L_print s;
  ca_uart : uart_live s;
  ca_nextpid : - 2 ^ 31 <= nextpid s < 2 ^ 31;
  ca_pool : pool s free;
  ca_slot : first_unused (procs s) = Some k;
}.

Lemma table_compose3 f g i s :
  table (alter f i) (table (alter g i) s) = table (alter (fun p => f (g p)) i) s.
Proof. unfold table. ksimpl. by rewrite list_alter_alter_eq. Qed.

(** The updates of one slot and of the rest of the state, in their order. *)
Lemma body_patch t k tf pt m fl m' fl' n bs pid np :
  table (alter (fun p => set_p_context (start_context (p_kstack p) 0) (set_p_pagetable pt p)) k)
    (set_mem m (set_freelist fl (table (alter (set_p_trapframe tf) k)
      (set_mem m' (set_freelist fl'
        (io_step n ((fun b => (UART0 + THR, b)) <$> bs)
          (table (alter (fun p => set_p_state USED (set_p_pid pid p)) k)
            (set_nextpid np t))))))))
  = patch m fl n bs np (alter (born pid tf pt) k) t.
Proof.
  unfold patch, table, io_step. ksimpl. rewrite !list_alter_alter_eq. reflexivity.
Qed.

(** Inside the critical section of slot [k], from the state [t]. *)
Lemma alloc_process_body t k p tf pt t1 t2 free :
  hart_ok t -> 0 < noff t -> noff t + 1 < 2 ^ 30 -> procs t !! k = Some p ->
  lock_free L_pid t -> lock_free L_print t -> uart_live t -> - 2 ^ 31 <= nextpid t < 2 ^ 31 ->
  pool t (tf :: pt :: t1 :: t2 :: free) ->
  exists s' n tbl,
    ((pid ← allocpid;
     upd (set_p_pid pid) k ;;
     upd (set_p_state USED) k ;;
     pr ← get_proc k;
     printf (str "alloc_process: allocated process %d" ++ nl) [VInt (p_pid pr)] ;;
     tf ← alloc_page;
     upd (set_p_trapframe tf) k ;;
     if tf =? 0 then free_process k ;; release (L_proc k) ;; mret None else
     pt ← proc_pagetable k;
     upd (set_p_pagetable pt) k ;;
     if pt =? 0 then free_process k ;; release (L_proc k) ;; mret None else
     upd (set_p_context zero_context) k ;;
     upd (fun pr => set_p_context (set_ra sym_forkret (p_context pr)) pr) k ;;
     upd (fun pr => set_p_context (set_sp (u64 (p_kstack pr + PGSIZE)) (p_context pr)) pr) k ;;
     mret (Some k)) t) = Done (Some k) s'
    /\ s' = patch (mem s') (freelist s') n (new_message (nextpid t)) (i32 (nextpid t + 1))
              (alter (born (nextpid t) tf pt) k) t
    /\ user_space s' pt tbl free /\ page_ok tf /\ (tf ∉ free)
    /\ (forall path q, tbl !! path = Some q -> q <> tf)
    /\ only_owned [tf] tbl t s' /\ (map_to_list tbl).*2 ≡ₚ [pt; t1; t2].
Proof.
  intros Hh Hn0 Hn1 Hp Hlpid Hlpr Hl Hpid Hpool.
  assert (Ht : touch t = t) by (apply touch_deep; lia).
  set (t_1 := set_nextpid (i32 (nextpid t + 1)) t).
  set (t_2 := table (alter (fun p => set_p_state USED (set_p_pid (nextpid t) p)) k) t_1).
  assert (Hh2 : hart_ok t_2) by by apply (hart_ok_same t).
  destruct (printf_new (nextpid t) t_2) as [n En]; try done.
  assert (Ht2 : touch t_2 = t_2) by (apply touch_deep; change (noff t_2) with (noff t); lia).
  rewrite Ht2 in En. set (t_3 := io_step n _ t_2) in En.
  assert (P3 : pool t_3 (tf :: pt :: t1 :: t2 :: free)) by by apply (pool_same t).
  assert (Htf : page_ok tf) by (eapply pool_page_ok; [exact Hpool|]; by left).
  pose proof (page_ok_pos tf Htf) as Htfp.
  pose proof (pool_nodup _ _ Hpool) as Hnd.
  pose proof (pool_alloced _ _ _ P3) as P4.
  set (t_5 := table (alter (set_p_trapframe tf) k) (alloced tf t_3)).
  assert (P5 : pool t_5 (pt :: t1 :: t2 :: free)) by by apply pool_table.
  destruct (proc_pagetable_ok t_5 k pt t1 t2 free P5) as (s6 & tbl & E6 & U6 & F6 & O6 & C6).
  assert (Hpt : page_ok pt) by (eapply pool_page_ok; [exact P5|]; by left).
  pose proof (page_ok_pos pt Hpt) as Hptp.
  assert (Hntf : (tf ∉ [pt; t1; t2]) /\ (tf ∉ free)).
  { apply NoDup_cons in Hnd as [Hx _]. split; intros Hy; apply Hx; set_solver. }
  assert (N5 : noff t_5 <> 0).
  { unfold t_5. change (noff (table _ (alloced tf t_3))) with (noff (touch t_3)).
    rewrite noff_touch. change (noff t_3) with (noff t). lia. }
  pose proof (frame_mem _ _ F6 N5) as Es6.
  eexists (table (alter (fun p => set_p_context (start_context (p_kstack p) 0) (set_p_pagetable pt p)) k) s6),
    n, tbl. split_and!; try tauto.
  - mstep; [by apply allocpid_ok|]. rewrite Ht. fold t_1.
    mstep; [apply upd_ok|]. mstep; [apply upd_ok|]. rewrite table_compose3. fold t_2.
    mstep. { apply (get_proc_ok k (set_p_state USED (set_p_pid (nextpid t) p))).
      unfold t_2. cbn. rewrite list_lookup_alter_eq. unfold t_1. cbn. by rewrite Hp. }
    cbn [p_pid set_p_state set_p_pid].
    mstep; [exact En|]. mstep; [by eapply alloc_page_pop|]. mstep; [apply upd_ok|].
    rewrite (proj2 (Z.eqb_neq tf 0)) by lia. fold t_5. mstep; [exact E6|]. mstep; [apply upd_ok|].
    rewrite (proj2 (Z.eqb_neq pt 0)) by lia.
    do 3 (mstep; [apply upd_ok|]). rewrite !table_compose3. reflexivity.
  - change (mem (table ?F s6)) with (mem s6). change (freelist (table ?F s6)) with (freelist s6).
    rewrite Es6 at 1. unfold t_5, alloced. rewrite (touch_deep t_3) by (change (noff t_3) with (noff t); lia).
    apply body_patch.
  - destruct U6 as [I6 L6]. split; [|exact L6]. by apply (vm_inv_same s6).
  - intros path q Hq ->. apply (proj1 Hntf). by eapply table_page.
  - intros a Ha. change (mem (table ?F s6)) with (mem s6). rewrite O6.
    + unfold t_5. rewrite mem_table. rewrite (only_page_alloced tf t_3); [done|].
      apply Ha. left. set_solver.
    + intros q Hq. apply Ha. set_solver.
Qed.

Lemma mem_locked l s : mem (locked_state l s) = mem s.
Proof. by destruct l. Qed.

Lemma nextpid_locked l s : nextpid (locked_state l s) = nextpid s.
Proof. by destruct l. Qed.

Lemma io_locked l s : io (locked_state l s) = io s.
Proof. by destruct l. Qed.

Lemma c_proc_locked l s : c_proc (cpu0 (locked_state l s)) = c_proc (cpu0 s).
Proof. by destruct l. Qed.

Lemma only_owned_locked K tbl l s s' :
  only_owned K tbl (locked_state l s) s' -> only_owned K tbl s s'.
Proof. intros H a Ha. rewrite H by done. by rewrite mem_locked. Qed.

Lemma slot_bound s k : plocks_free (fun _ => False) s -> first_unused (procs s) = Some k ->
  (k < NPROC)%nat.
Proof.
  intros [Hl _] (p & Hp & _)%first_unused_Some. rewrite <- Hl. by eapply lookup_lt_Some.
Qed.

Lemma alloc_process_ok s k tf pt t1 t2 free :
  can_alloc s (tf :: pt :: t1 :: t2 :: free) k ->
  exists s' n tbl, alloc_process s = Done (Some k) s'
    /\ s' = patch (mem s') (freelist s') n (new_message (nextpid s)) (i32 (nextpid s + 1))
              (alter (born (nextpid s) tf pt) k) (locked_state (L_proc k) s)
    /\ user_space s' pt tbl free /\ page_ok tf /\ (tf ∉ free)
    /\ (forall path q, tbl !! path = Some q -> q <> tf)
    /\ only_owned [tf] tbl s s' /\ (map_to_list tbl).*2 ≡ₚ [pt; t1; t2].
Proof.
  intros [Hh Hd Hpl Hpid Hpr Hl Hn Hpool Hk].
  pose proof (slot_bound s k Hpl Hk) as Hkb.
  destruct (first_unused_Some _ _ Hk) as (p & Hp & _ & _).
  destruct (alloc_process_body (locked_state (L_proc k) s) k
    (set_p_lock (Spinlock 1 (lk_name (p_lock p)) (Some 0%nat)) p) tf pt t1 t2 free)
    as (s' & n & tbl & E & Es & U & H1 & H2 & H3 & H4 & H5).
  - by apply hart_ok_locked_state; [|lia].
  - rewrite noff_locked. destruct Hh. lia.
  - rewrite noff_locked. lia.
  - by apply lookup_locked_self.
  - by apply lock_free_locked.
  - by apply lock_free_locked.
  - intros t. rewrite io_locked. apply Hl.
  - by rewrite nextpid_locked.
  - by apply pool_locked; [| |lia].
  - rewrite nextpid_locked in Es. exists s', n, tbl. split_and!; try done.
    unfold alloc_process. mstep; [by rewrite find_unused_ok, Hk by done|]. exact E.
Qed.

(** Too few pages: the process is not created. *)
Lemma proc_pagetable_oom s p free :
  pool s free -> (length free < 3)%nat -> exists s', proc_pagetable p s = Panic "alloc_page" s'.
Proof.
  intros Hpool Hlen. unfold proc_pagetable. destruct free as [|pt free].
  { eexists. apply bind_Panic. unfold create_pagetable. apply bind_Panic. by apply alloc_page_empty. }
  destruct (create_pagetable_ok s pt free Hpool) as [E0 I0]. set (s0 := set_mem _ _) in *. clearbody s0.
  assert (Hpt : page_ok pt) by (eapply pool_page_ok; [exact Hpool|]; by left).
  pose proof (page_ok_pos pt Hpt). destruct trampoline_bounds as [Ht1 Ht2].
  destruct (walk_create_oom s0 pt {[ [] := pt ]} free TRAMPOLINE I0) as [s' E'].
  { rewrite missing_new. cbn in Hlen. lia. }
  exists s'. mstep; [exact E0|]. rewrite (proj2 (Z.eqb_neq _ _)) by lia. apply bind_Panic.
  unfold map_page. rewrite aligned_test by done. by apply bind_Panic.
Qed.

Lemma alloc_process_oom s free k :
  can_alloc s free k -> (length free < 4)%nat -> exists s', alloc_process s = Panic "alloc_page" s'.
Proof.
  intros [Hh Hd Hpl Hpid Hpr Hl Hn Hpool Hk] Hlen. pose proof (slot_bound s k Hpl Hk) as Hkb.
  destruct (first_unused_Some _ _ Hk) as (p & Hp & _ & _).
  set (t := locked_state (L_proc k) s).
  assert (Ht : hart_ok t) by (apply hart_ok_locked_state; [done|lia]).
  assert (Nt : noff t = noff s + 1) by apply noff_locked. pose proof (hart_noff s Hh).
  assert (Tt : touch t = t) by (apply touch_deep; lia).
  assert (Hp' : procs t !! k = Some (set_p_lock (Spinlock 1 (lk_name (p_lock p)) (Some 0%nat)) p))
    by by apply lookup_locked_self.
  set (p' := set_p_lock _ p) in Hp'.
  set (t_2 := table (alter (fun p => set_p_state USED (set_p_pid (nextpid t) p)) k)
    (set_nextpid (i32 (nextpid t + 1)) t)).
  destruct (printf_new (nextpid t) t_2) as [n En].
  { by apply (hart_ok_same t). }
  { by apply (lock_free_locked (L_proc k) L_print). }
  { intros u. unfold t_2, t. apply Hl. }
  { unfold t. by rewrite nextpid_locked. }
  assert (T2 : touch t_2 = t_2) by (apply touch_deep; change (noff t_2) with (noff t); lia).
  rewrite T2 in En. set (t_3 := io_step n _ t_2) in En.
  assert (P3 : pool t_3 free) by (apply (pool_same t); try done; by apply pool_locked; [| |lia]).
  assert (Hpre : forall (K : Z -> M (option nat)) s', (tf ← alloc_page; K tf) t_3 = Panic "alloc_page" s' ->
    (pid ← allocpid; upd (set_p_pid pid) k ;; upd (set_p_state USED) k ;; pr ← get_proc k;
     printf (str "alloc_process: allocated process %d" ++ nl) [VInt (p_pid pr)] ;;
     tf ← alloc_page; K tf) t = Panic "alloc_page" s').
  { intros K s' HK. mstep; [apply allocpid_ok; [done|by apply lock_free_locked]|]. rewrite Tt.
    mstep; [apply upd_ok|]. mstep; [apply upd_ok|]. rewrite table_compose3. fold t_2.
    mstep. { apply (get_proc_ok k (set_p_state USED (set_p_pid (nextpid t) p'))).
      exact (lookup_alter_slot (set_nextpid (i32 (nextpid t + 1)) t) k p' _ Hp'). }
    cbn [p_pid set_p_state set_p_pid]. mstep; [exact En|]. exact HK. }
  destruct free as [|tf free].
  - eexists. unfold alloc_process. mstep; [by rewrite find_unused_ok, Hk by done|].
    apply Hpre. apply bind_Panic. by apply alloc_page_empty.
  - assert (Htf : page_ok tf) by (eapply pool_page_ok; [exact Hpool|]; by left).
    pose proof (page_ok_pos tf Htf).
    destruct (proc_pagetable_oom (table (alter (set_p_trapframe tf) k) (alloced tf t_3)) k free)
      as [s' Es']; [by apply pool_table, pool_alloced|cbn in Hlen; lia|].
    exists s'. unfold alloc_process. mstep; [by rewrite find_unused_ok, Hk by done|].
    apply Hpre. mstep; [by eapply alloc_page_pop|]. mstep; [apply upd_ok|].
    rewrite (proj2 (Z.eqb_neq tf 0)) by lia. by apply bind_Panic.
Qed.

(** With every slot in use, nothing happens. *)
Lemma alloc_process_full s :
  hart_ok s -> plocks_free (fun _ => False) s -> first_unused (procs s) = None ->
  alloc_process s = Done None (touch s).
Proof.
  intros Hh Hpl Hk. unfold alloc_process. mstep; [by rewrite find_unused_ok, Hk by done|]. done.
Qed.

(** ** create_process *)

Lemma lock_free_patch l m fl n bs np F s `{!TableNeutral F} :
  lock_free l s -> lock_free l (patch m fl n bs np F s).
Proof. intros H. unfold lock_free. by rewrite (ind_get (l := l) (u := patch m fl n bs np F)). Qed.

Lemma release_patch l m fl n bs np F s `{!TableNeutral F} :
  hart_ok s -> lock_exists l s -> lock_free l s ->
  release l (patch m fl n bs np F (locked_state l s)) = Done tt (patch m fl n bs np F (touch s)).
Proof. intros. by apply (release_section l (patch m fl n bs np F)). Qed.

Lemma table_patch m fl n bs np F G s :
  table G (patch m fl n bs np F s) = patch m fl n bs np (fun ps => G (F ps)) s.
Proof. done. Qed.

Lemma patch_ext m fl n bs np F G s :
  F (procs s) = G (procs s) -> patch m fl n bs np F s = patch m fl n bs np G s.
Proof. intros H. unfold patch, table. by rewrite H. Qed.

(** The end of [create_process] and [userinit]: from the state in which
    [alloc_process] returned slot [k]. *)
Lemma create_finish t m fl n bs np k pid tf pt fn :
  hart_ok t -> noff t + 2 < 2 ^ 30 -> lock_exists (L_proc k) t -> lock_free (L_proc k) t ->
  lock_free L_wait t ->
  let s1 := patch m fl n bs np (alter (born pid tf pt) k) (locked_state (L_proc k) t) in
  (curr_p ← myproc;
   when (negb (is_null curr_p)) (acquire L_wait ;; upd (set_p_parent curr_p) k ;; release L_wait) ;;
   upd (fun pr => set_p_context (set_s0 fn (p_context pr)) pr) k ;;
   upd (set_p_state RUNNABLE) k ;;
   release (L_proc k)) s1
  = Done tt (patch m fl n bs np (alter (created pid tf pt fn (c_proc (cpu0 t))) k) (touch t)).
Proof.
  intros Hh Hd Hex Hf Hw s1. set (par := c_proc (cpu0 t)).
  assert (Hh1 : hart_ok s1).
  { apply (hart_ok_same (locked_state (L_proc k) t)); [done|done|].
    apply hart_ok_locked_state; [done|lia]. }
  assert (N1 : noff s1 = noff t + 1) by apply (noff_locked (L_proc k) t).
  assert (T1 : touch s1 = s1) by (apply touch_deep; rewrite N1; destruct Hh; lia).
  set (s2 := match par with Some _ => table (alter (set_p_parent par) k) s1 | None => s1 end).
  mstep; [by apply myproc_ok|]. change (c_proc (cpu0 s1)) with par. rewrite T1.
  mstep. { instantiate (1 := s2). instantiate (1 := tt). unfold s2.
    destruct par as [c|] eqn:Ec; cbn [is_null negb when]; [|done].
    assert (Hw1 : lock_free L_wait s1) by (apply lock_free_patch; [apply _|by apply lock_free_locked]).
    mstep; [by apply acquire_ok; [|apply lock_exists_global|apply Hw1]|]. mstep; [apply upd_ok|].
    rewrite (release_section L_wait (table (alter (set_p_parent (Some c)) k)));
      [by rewrite T1|done|by apply lock_exists_global|done]. }
  do 2 (mstep; [apply upd_ok|]).
  assert (Es : table (alter (set_p_state RUNNABLE) k)
      (table (alter (fun pr => set_p_context (set_s0 fn (p_context pr)) pr) k) s2)
    = patch m fl n bs np (alter (created pid tf pt fn par) k) (locked_state (L_proc k) t)).
  { unfold s2, s1. destruct par as [c|]; rewrite !table_patch; apply patch_ext;
      by rewrite !list_alter_alter_eq. }
  rewrite Es. apply release_patch; try done; apply _.
Qed.

Lemma create_process_ok s k tf pt t1 t2 free fn :
  can_alloc s (tf :: pt :: t1 :: t2 :: free) k -> lock_free L_wait s ->
  exists s' n tbl, create_process fn s = Done (nextpid s) s'
    /\ s' = patch (mem s') (freelist s') n (new_message (nextpid s)) (i32 (nextpid s + 1))
              (alter (created (nextpid s) tf pt fn (c_proc (cpu0 s))) k) (touch s)
    /\ user_space s' pt tbl free /\ page_ok tf /\ (tf ∉ free)
    /\ (forall path q, tbl !! path = Some q -> q <> tf)
    /\ only_owned [tf] tbl s s' /\ (map_to_list tbl).*2 ≡ₚ [pt; t1; t2].
Proof.
  intros Hc Hw. destruct (alloc_process_ok s k tf pt t1 t2 free Hc)
    as (s1 & n & tbl & E & Es & U & H1 & H2 & H3 & H4 & H5).
  destruct Hc as [Hh Hd Hpl Hpid Hpr Hl Hn Hpool Hk].
  pose proof (slot_bound s k Hpl Hk) as Hkb.
  destruct (first_unused_Some _ _ Hk) as (p & Hp & _ & _).
  remember (mem s1) as m1 eqn:Em. remember (freelist s1) as f1 eqn:Ef.
  assert (Hex : lock_exists (L_proc k) s) by (apply lock_exists_proc; [apply Hpl|done]).
  assert (Hfk : lock_free (L_proc k) s) by (apply Hpl; [done|tauto]).
  pose proof (create_finish s m1 f1 n (new_message (nextpid s)) (i32 (nextpid s + 1)) k (nextpid s) tf pt fn
    Hh Hd Hex Hfk Hw) as Ef2. cbv zeta in Ef2. rewrite <- Es in Ef2.
  set (s2 := patch m1 f1 n _ _ (alter (created _ _ _ _ _) k) (touch s)) in Ef2.
  exists s2, n, tbl. split_and!; try done.
  - unfold create_process. mstep; [exact E|].
    assert (Eb : (curr_p ← myproc;
       when (negb (is_null curr_p)) (acquire L_wait ;; upd (set_p_parent curr_p) k ;; release L_wait) ;;
       upd (fun pr => set_p_context (set_s0 fn (p_context pr)) pr) k ;;
       upd (set_p_state RUNNABLE) k ;;
       release (L_proc k) ;; pr ← get_proc k; mret (p_pid pr)) s1
      = (_ ← (curr_p ← myproc;
       when (negb (is_null curr_p)) (acquire L_wait ;; upd (set_p_parent curr_p) k ;; release L_wait) ;;
       upd (fun pr => set_p_context (set_s0 fn (p_context pr)) pr) k ;;
       upd (set_p_state RUNNABLE) k ;;
       release (L_proc k)); pr ← get_proc k; mret (p_pid pr)) s1).
    { rewrite bind_assoc. apply bind_ext. intros c r. rewrite !bind_assoc. apply bind_ext. intros _ r'.
      rewrite !bind_assoc. apply bind_ext. intros _ r2. by rewrite !bind_assoc. }
    refine (eq_trans Eb _). mstep; [exact Ef2|].
    mstep. { apply get_proc_ok. apply (lookup_alter_slot s k p). exact Hp. }
    by destruct (c_proc (cpu0 s)).
  - destruct U as [I6 L6]. split.
    + apply (vm_inv_move s1); [exact I6|exact Em|exact Ef| |].
      * apply (hart_ok_same (touch s)); [done|done|by apply hart_ok_touch].
      * by apply (pool_lock s (tf :: pt :: t1 :: t2 :: free)).
    + intros va. rewrite <- L6, <- Em. done.
  - intros a Ha. rewrite <- H4 by done. by rewrite <- Em.
Qed.

(** ** free_process *)

(** What slot [k], with table pages [tbl], owns in [s]. *)
Record slot_owns (s : kstate) (k : nat) (p : proc) (tbl : gmap (list Z) Z) (free : list Z) : Prop := {
  so_slot : procs s !! k = Some p;
  so_tf : page_ok (p_trapframe p);
  so_space : user_space s (p_pagetable p) tbl free;
  so_tf_free : p_trapframe p ∉ free;
  so_tf_table : forall path q, tbl !! path = Some q -> q <> p_trapframe p;
}.

Lemma user_space_freed s pt tbl free tf :
  user_space s pt tbl free -> page_ok tf -> tf ∉ free ->
  (forall path q, tbl !! path = Some q -> q <> tf) -> user_space (freed tf s) pt tbl (tf :: free).
Proof.
  intros [[P W D] Hl] Htf Hnf Hnt.
  assert (Hx : forall path p a, tbl !! path = Some p -> p <= a < p + PGSIZE ->
    ldb (mem (freed tf s)) a = ldb (mem s) a).
  { intros path p a Hp Ha. apply (only_page_freed tf s).
    assert (Hne : p <> tf) by by eapply Hnt.
    destruct (wf_page _ _ _ W _ _ Hp) as [Hp1 _], Htf as [Ht1 _].
    destruct (pages_disjoint p tf Hp1 Ht1 Hne); lia. }
  destruct (pt_wf_ext _ _ _ _ W Hx) as [W' L']. split; [split|].
  - by apply pool_freed.
  - exact W'.
  - intros path p Hp [->|Hin]%elem_of_cons; [by eapply Hnt|by eapply D].
  - intros va. by rewrite L'.
Qed.

Lemma frame_patch0 s s' F :
  frame s s' -> noff s <> 0 ->
  table F s' = set_mem (mem s') (set_freelist (freelist s') (table F s)).
Proof. intros Hf Hn. by rewrite (frame_mem _ _ Hf Hn) at 1. Qed.

Lemma frame_table F s s' : frame s s' -> frame (table F s) (table F s').
Proof.
  intros [H1 H2]. split; [|done].
  assert (Hp : procs s' = procs s).
  { assert (E : procs (erase s') = procs (erase s)) by by rewrite H1. exact E. }
  change (set_procs (F (procs s')) (erase s') = set_procs (F (procs s)) (erase s)).
  by rewrite H1, Hp.
Qed.

Lemma free_process_ok s k p tbl free :
  slot_owns s k p tbl free -> noff s <> 0 ->
  exists s' free', free_process k s = Done tt s'
    /\ s' = set_mem (mem s') (set_freelist (freelist s') (table (alter emptied k) s))
    /\ pool s' free' /\ free' ≡ₚ p_trapframe p :: (map_to_list tbl).*2 ++ free
    /\ only_owned [p_trapframe p] tbl s s'.
Proof.
  intros [Hk Htf Hsp Hnf Hnt] Hn. pose proof (page_ok_pos _ Htf) as Htfp.
  destruct p as [plk pst pch pki pxs ppid ppar pks psz ppt ptf pctx pof pcwd pnm].
  cbn [p_trapframe p_pagetable] in *.
  set (p := Proc plk pst pch pki pxs ppid ppar pks psz ppt ptf pctx pof pcwd pnm) in *.
  pose proof (vm_wf _ _ _ _ (us_inv _ _ _ _ Hsp)) as Hwf.
  assert (Hpt : page_ok ppt) by apply (wf_page _ _ _ Hwf _ _ (wf_root _ _ _ Hwf)).
  pose proof (page_ok_pos _ Hpt) as Hptp.
  pose proof (vm_pool _ _ _ _ (us_inv _ _ _ _ Hsp)) as Hpool.
  assert (Hts : touch s = s) by by apply touch_deep.
  pose proof (user_space_freed s ppt tbl free ptf Hsp Htf Hnf Hnt) as Hsp1.
  set (s1 := freed ptf s) in *.
  assert (F1 : frame s s1) by apply frame_freed.
  assert (Hsp2 : user_space (table (alter (set_p_trapframe 0) k) s1) ppt tbl (ptf :: free)).
  { destruct Hsp1 as [I L1]. split; [by apply vm_inv_table|exact L1]. }
  destruct (proc_freepagetable_ok (table (alter (set_p_trapframe 0) k) s1) ppt psz tbl (ptf :: free) Hsp2)
    as (s3 & free' & E3 & P3 & C3 & F3 & O3).
  assert (Hprocs : procs s1 = procs s).
  { unfold s1, freed. ksimpl. done. }
  pose proof (free_page_push s free ptf Hpool Htf) as Efp. fold s1 in Efp.
  assert (On1 : only_page ptf s s1) by apply only_page_freed. clearbody s1.
  assert (F : frame (table (alter (set_p_trapframe 0) k) s) s3).
  { etrans; [apply frame_table; exact F1|exact F3]. }
  eexists (table (alter (fun p => set_p_state UNUSED (set_p_xstate 0 (set_p_killed 0 (set_p_chan PNull
    (set_p_name (<[0%nat := 0]> (p_name p)) (set_p_parent None (set_p_pid 0 (set_p_sz 0
      (set_p_pagetable 0 p))))))))) k) s3), free'. split_and!.
  - unfold free_process. mstep; [by apply get_proc_ok|]. cbn [p_trapframe p].
    rewrite (proj2 (Z.eqb_neq ptf 0)) by lia. cbn [negb when]. mstep; [exact Efp|].
    mstep; [apply upd_ok|].
    mstep. { apply (get_proc_ok k (set_p_trapframe 0 p)). unfold table. ksimpl. rewrite Hprocs.
      by apply lookup_alter_slot. }
    cbn [p_pagetable p_sz set_p_trapframe p]. rewrite (proj2 (Z.eqb_neq ppt 0)) by lia. cbn [negb when].
    mstep; [exact E3|]. do 8 (mstep; [apply upd_ok|]). rewrite upd_ok, !table_compose3. reflexivity.
  - rewrite (frame_patch0 _ _ _ F) by done. rewrite table_compose3. reflexivity.
  - by apply pool_table.
  - rewrite C3. by rewrite <- Permutation_middle.
  - intros a Ha. rewrite mem_table, O3 by (intros q Hq; apply Ha; set_solver).
    rewrite mem_table. apply On1. apply Ha. left. set_solver.
Qed.

(** ** wait_process *)

Definition zombie_of (p : option nat) (q : proc) : Prop := p_parent q = p /\ p_state q = ZOMBIE.

#[global] Instance zombie_of_dec p q : Decision (zombie_of p q).
Proof. unfold zombie_of. apply _. Defined.

Definition first_zombie (p : option nat) (ps : list proc) : option (nat * proc) :=
  list_find (zombie_of p) ps.

Definition has_kids (p : option nat) (ps : list proc) : bool :=
  existsb (fun q => bool_decide (p_parent q = p)) ps.

(** A slot that is no zombie child is passed over. *)
Lemma wait_scan_miss s p n i h q :
  hart_ok s -> noff s <> 0 -> plocks_free (fun _ => False) s -> (i < NPROC)%nat -> procs s !! i = Some q ->
  ~ zombie_of p q -> wait_scan (S n) i p h s = wait_scan n (S i) p (h || bool_decide (p_parent q = p)) s.
Proof.
  intros Hh Hn [Hlen Hfree] Hi Hq Hnz. cbn [wait_scan].
  rewrite (bind_Done _ _ _ _ _ _ (get_proc_ok i q s Hq) eq_refl).
  destruct (decide (p_parent q = p)) as [Hp|Hp].
  - rewrite !bool_decide_eq_true_2, orb_true_r by done.
    assert (Hex : lock_exists (L_proc i) s) by (apply lock_exists_proc; done || lia).
    assert (Hf : lock_free (L_proc i) s) by (apply Hfree; [lia|tauto]).
    rewrite (bind_Done _ _ _ _ _ _ (acquire_ok (L_proc i) s Hh Hex (proj1 Hf)) eq_refl).
    rewrite (bind_Done _ _ _ _ _ _ (get_proc_ok i _ _ (lookup_locked_self i q s Hq)) eq_refl).
    cbn [p_state set_p_lock]. rewrite bool_decide_eq_false_2 by (intros Hs; by apply Hnz).
    assert (E : release (L_proc i) (locked_state (L_proc i) s) = Done tt (touch s))
      by (by apply (release_section (L_proc i) (fun s => s))).
    by rewrite (bind_Done _ _ _ _ _ _ E eq_refl), touch_deep.
  - by rewrite !bool_decide_eq_false_2, orb_false_r.
Qed.

(** Scanning slots that are no zombie children changes nothing. *)
Lemma wait_scan_skip s p n i h :
  hart_ok s -> noff s <> 0 -> plocks_free (fun _ => False) s -> (i + n = NPROC)%nat ->
  first_zombie p (drop i (procs s)) = None ->
  wait_scan n i p h s = Done (None, h || has_kids p (drop i (procs s))) s.
Proof.
  intros Hh Hn Hpl. pose proof (proj1 Hpl) as Hlen.
  revert i h; induction n as [|n IH]; intros i h Hin Hz.
  { rewrite drop_ge by lia. cbn. by rewrite orb_false_r. }
  destruct (lookup_lt_is_Some_2 (procs s) i) as [q Hq]; [lia|].
  rewrite (drop_S _ q) in Hz |- * by done. unfold first_zombie in Hz. cbn [list_find has_kids existsb] in *.
  destruct (decide (zombie_of p q)) as [|Hnz]; [done|]. apply fmap_None in Hz.
  rewrite (wait_scan_miss s p n i h q) by (done || lia). rewrite IH by (done || lia).
  by rewrite <- orb_assoc.
Qed.

(** The zombie found is freed. *)
Lemma wait_scan_hit s p n i h q tbl free :
  hart_ok s -> 0 < noff s -> noff s + 1 < 2 ^ 30 -> plocks_free (fun _ => False) s ->
  (i < NPROC)%nat -> procs s !! i = Some q -> zombie_of p q -> slot_owns s i q tbl free ->
  exists s' free', wait_scan (S n) i p h s = Done (Some (p_pid q, p_xstate q), true) s'
    /\ s' = set_mem (mem s') (set_freelist (freelist s') (table (alter emptied i) s))
    /\ pool s' free' /\ free' ≡ₚ p_trapframe q :: (map_to_list tbl).*2 ++ free
    /\ only_owned [p_trapframe q] tbl s s'.
Proof.
  intros Hh Hn Hd [Hlen Hfree] Hi Hq [Hp Hs] Hown.
  assert (Hex : lock_exists (L_proc i) s) by (apply lock_exists_proc; done || lia).
  assert (Hf : lock_free (L_proc i) s) by (apply Hfree; [lia|tauto]).
  set (q' := set_p_lock (Spinlock 1 (lk_name (p_lock q)) (Some 0%nat)) q).
  assert (Hown' : slot_owns (locked_state (L_proc i) s) i q' tbl free).
  { destruct Hown as [_ Otf [Osp Ol] Onf Ont]. split; try done.
    - by apply lookup_locked_self.
    - split; [|intros va; rewrite mem_locked; apply Ol].
      apply (vm_inv_move s); [exact Osp|apply mem_locked|by destruct (L_proc i)| |].
      + by apply hart_ok_locked_state; [|lia].
      + apply lock_free_locked; [done|]. apply (pool_lock s free), Osp. }
  destruct (free_process_ok _ i q' tbl free Hown') as (s1 & free' & E1 & Es1 & P1 & C1 & O1).
  { rewrite noff_locked. lia. }
  set (u := fun r => set_mem (mem s1) (set_freelist (freelist s1) (table (alter emptied i) r))).
  assert (Iu : Independent (L_proc i) u) by (unfold u; apply _).
  change (s1 = u (locked_state (L_proc i) s)) in Es1.
  exists (u s), free'. split_and!.
  - cbn [wait_scan]. mstep; [by apply get_proc_ok|]. rewrite bool_decide_eq_true_2 by done.
    mstep; [by apply acquire_ok; [| |apply Hf]|].
    mstep; [by apply get_proc_ok, (lookup_locked_self i q)|]. fold q'.
    rewrite bool_decide_eq_true_2 by done. mstep; [exact E1|].
    mstep. { rewrite Es1. by apply release_section. }
    by rewrite touch_deep by lia.
  - done.
  - destruct P1 as [A1 A2 _ _]. destruct (vm_pool _ _ _ _ (us_inv _ _ _ _ (so_space _ _ _ _ _ Hown)))
      as [_ _ A3 A4]. split; [exact A1|exact A2|by apply (hart_ok_same s)|exact A4].
  - exact C1.
  - intros a Ha. change (mem (u s)) with (mem s1). rewrite O1 by exact Ha. by rewrite mem_locked.
Qed.

(** The scan reaps the first zombie child. *)
Lemma wait_scan_reap s p n i h k q tbl free :
  hart_ok s -> 0 < noff s -> noff s + 1 < 2 ^ 30 -> plocks_free (fun _ => False) s ->
  (i + n = NPROC)%nat -> first_zombie p (drop i (procs s)) = Some (k, q) ->
  slot_owns s (i + k) q tbl free ->
  exists s' free', wait_scan n i p h s = Done (Some (p_pid q, p_xstate q), true) s'
    /\ s' = set_mem (mem s') (set_freelist (freelist s') (table (alter emptied (i + k)%nat) s))
    /\ pool s' free' /\ free' ≡ₚ p_trapframe q :: (map_to_list tbl).*2 ++ free
    /\ only_owned [p_trapframe q] tbl s s'.
Proof.
  intros Hh Hn Hd Hpl. pose proof (proj1 Hpl) as Hlen.
  revert i h k; induction n as [|n IH]; intros i h k Hin Hz Hown.
  { rewrite drop_ge in Hz by lia. done. }
  destruct (lookup_lt_is_Some_2 (procs s) i) as [r Hr]; [lia|].
  rewrite (drop_S _ r) in Hz by done. unfold first_zombie in Hz. cbn [list_find] in Hz.
  destruct (decide (zombie_of p r)) as [Hzr|Hnz].
  - injection Hz as <- <-. rewrite Nat.add_0_r in *. by apply wait_scan_hit; try lia.
  - apply fmap_Some in Hz as ([k' q'] & Hz & [= -> ->]). cbn [fst snd] in *.
    rewrite <- Nat.add_succ_comm in Hown |- *. rewrite (wait_scan_miss s p n i h r) by (done || lia).
    by apply IH; [lia|..].
Qed.

End proc_mem.
