(* ===== verification/ProcExit.v ===== *)
(** * Processes: exit, wait, sleep and wake-up

    The state changes of the blocking operations of kernel/proc.c, each from the
    call to the switch: [reparent] and [exit_process], [sleep_enter],
    [yield_enter], and the rounds of [wait_process]. *)

From S2P Require Import Prelude Riscv Memory State Spinlock Kalloc Vm VmMap VmDestroy Uart Printf Csr Proc ProcTable ProcMem.

(** ** Definitions *)

(** What [reparent] does to a slot. *)
Definition adopt1 (ip p : option nat) (q : proc) : proc :=
  if bool_decide (p_parent q = p) then set_p_parent ip q else q.

Definition adopt_upto (n : nat) (ip p : option nat) (ps : list proc) : list proc :=
  imap (fun j q => if (j <? n)%nat then adopt1 ip p q else q) ps.

(** Whether a child that has exited is handed over, so that init must be woken. *)
Definition zombies_upto (n : nat) (p : option nat) (ps : list proc) : bool :=
  existsb (fun q => bool_decide (zombie_of p q)) (take n ps).

Definition wake_init (b : bool) (ip cur : option nat) (ps : list proc) : list proc :=
  match ip with
  | Some i => if b then woken (PProc i) cur ps else ps
  | None => ps
  end.

Definition reparented (n : nat) (ip p cur : option nat) (ps : list proc) : list proc :=
  wake_init (zombies_upto n p ps) ip cur (adopt_upto n ip p ps).

(** ** Waking and adopting *)

#[export] Instance ln_adopt1 ip p : LockNeutral (adopt1 ip p).
Proof. split; intros; unfold adopt1; cbn [p_parent set_p_lock]; case_bool_decide; done. Qed.

#[export] Instance tn_imap (g : nat -> proc -> proc) `{!forall j, LockNeutral (g j)} :
  TableNeutral (imap g).
Proof.
  split.
  - intros ps. apply length_imap.
  - intros i ps. rewrite list_lookup_imap. destruct (ps !! i); [|done].
    cbn [fmap option_fmap option_map]. f_equal. apply ln_lock.
  - intros v i ps. apply list_eq. intros k. rewrite alter_lookup, !list_lookup_imap, alter_lookup.
    case_decide; [|done]. destruct (ps !! k); [|done].
    cbn [fmap option_fmap option_map]. f_equal. by rewrite (ln_comm (f := g k)).
Qed.

#[export] Instance tn_adopt n ip p : TableNeutral (adopt_upto n ip p).
Proof.
  unfold adopt_upto. apply tn_imap. intros j. destruct (j <? n)%nat; apply _.
Qed.

#[export] Instance tn_wake_init b ip cur : TableNeutral (wake_init b ip cur).
Proof. unfold wake_init. destruct ip; [|apply _]. destruct b; [|apply _]. apply tn_woken. Qed.

Lemma wake1_wake1 chan q : wake1 chan (wake1 chan q) = wake1 chan q.
Proof.
  unfold wake1. destruct (bool_decide (p_state q = SLEEPING)) eqn:E1,
    (bool_decide (p_chan q = chan)) eqn:E2; cbn; rewrite ?E1, ?E2; done.
Qed.

Lemma wake1_adopt1 chan ip p q : wake1 chan (adopt1 ip p q) = adopt1 ip p (wake1 chan q).
Proof.
  unfold wake1, adopt1. destruct (bool_decide (p_state q = SLEEPING)) eqn:E1,
    (bool_decide (p_chan q = chan)) eqn:E2, (bool_decide (p_parent q = p)) eqn:E3;
    cbn; rewrite ?E1, ?E2, ?E3; done.
Qed.

Lemma wake1_parent chan q : p_parent (wake1 chan q) = p_parent q.
Proof. unfold wake1. by case_match. Qed.

Lemma wake1_zombie chan q : p_state (wake1 chan q) = ZOMBIE <-> p_state q = ZOMBIE.
Proof.
  unfold wake1. destruct (bool_decide (p_state q = SLEEPING)) eqn:E; [|done].
  apply bool_decide_eq_true in E. case_match; cbn; [|done]. split; intros; congruence.
Qed.

Lemma woken_lookup chan cur ps j q :
  ps !! j = Some q -> (j < NPROC)%nat ->
  woken chan cur ps !! j = Some (if bool_decide (Some j = cur) then q else wake1 chan q).
Proof.
  intros Hq Hj. unfold woken, woken_upto. rewrite list_lookup_imap, Hq.
  cbn [fmap option_fmap option_map]. f_equal.
  rewrite (proj2 (Nat.ltb_lt j NPROC)) by done. cbn [andb]. by case_bool_decide.
Qed.

Lemma woken_length chan cur ps : length (woken chan cur ps) = length ps.
Proof. apply length_imap. Qed.

Lemma woken_woken chan cur ps :
  length ps = NPROC -> woken chan cur (woken chan cur ps) = woken chan cur ps.
Proof.
  intros Hl. apply list_eq. intros j. destruct (ps !! j) as [q|] eqn:Hq.
  - pose proof (lookup_lt_Some _ _ _ Hq) as Hj.
    rewrite !(woken_lookup _ _ _ _ _ (woken_lookup chan cur ps j q Hq ltac:(lia))) by lia.
    rewrite (woken_lookup chan cur ps j q) by (done || lia). case_bool_decide; [done|].
    by rewrite wake1_wake1.
  - rewrite !lookup_ge_None_2; [done| |]; rewrite ?woken_length; by apply lookup_ge_None_1.
Qed.

Lemma wake_init_lookup b ip cur ps j q :
  ps !! j = Some q -> (j < NPROC)%nat ->
  exists q', wake_init b ip cur ps !! j = Some q' /\ p_parent q' = p_parent q
    /\ (p_state q' = ZOMBIE <-> p_state q = ZOMBIE).
Proof.
  intros Hq Hj. unfold wake_init. destruct ip as [i|]; [|by exists q].
  destruct b; [|by exists q]. rewrite (woken_lookup _ _ _ _ q) by done. eexists. split; [done|].
  case_bool_decide; [done|]. split; [apply wake1_parent|apply wake1_zombie].
Qed.

(** One slot of the adoption, before or after the wake-up. *)
Lemma wake_init_alter b ip cur p n ps :
  length ps = NPROC ->
  alter (adopt1 ip p) n (wake_init b ip cur ps) = wake_init b ip cur (alter (adopt1 ip p) n ps).
Proof.
  intros Hl. unfold wake_init. destruct ip as [i|]; [|done]. destruct b; [|done].
  apply list_eq. intros j. destruct (ps !! j) as [q|] eqn:Hq.
  - pose proof (lookup_lt_Some _ _ _ Hq) as Hj. rewrite alter_lookup.
    rewrite (woken_lookup (PProc i) cur ps j q) by (done || lia).
    destruct (decide (n = j)) as [->|Hne].
    + rewrite (woken_lookup _ _ _ j (adopt1 (Some i) p q)); [|by rewrite list_lookup_alter_eq, Hq|lia].
      cbn. f_equal. case_bool_decide; [done|]. by rewrite wake1_adopt1.
    + rewrite (woken_lookup _ _ _ j q); [done|by rewrite list_lookup_alter_ne|lia].
  - rewrite !lookup_ge_None_2; [done| |];
      rewrite ?woken_length, ?length_alter, ?woken_length; by apply lookup_ge_None_1.
Qed.

Lemma adopt_step n ip p ps : adopt_upto (S n) ip p ps = alter (adopt1 ip p) n (adopt_upto n ip p ps).
Proof.
  unfold adopt_upto. apply list_eq. intros j. rewrite alter_lookup, !list_lookup_imap.
  case_decide as Hj.
  - subst j. destruct (ps !! n); [|done]. cbn [fmap option_fmap option_map]. f_equal.
    by rewrite Nat.ltb_irrefl, (proj2 (Nat.ltb_lt n (S n))) by lia.
  - destruct (ps !! j); [|done]. cbn [fmap option_fmap option_map]. f_equal.
    replace (j <? S n)%nat with (j <? n)%nat; [done|].
    destruct (Nat.ltb_spec j n), (Nat.ltb_spec j (S n)); lia || done.
Qed.

Lemma adopt_0 ip p ps : adopt_upto 0 ip p ps = ps.
Proof.
  unfold adopt_upto. apply list_eq. intros j. rewrite list_lookup_imap. by destruct (ps !! j).
Qed.

Lemma adopt_lookup_ge n ip p ps j : (n <= j)%nat -> adopt_upto n ip p ps !! j = ps !! j.
Proof.
  intros Hj. unfold adopt_upto. rewrite list_lookup_imap, (proj2 (Nat.ltb_ge j n)) by done.
  by destruct (ps !! j).
Qed.

Lemma adopt_length n ip p ps : length (adopt_upto n ip p ps) = length ps.
Proof. apply length_imap. Qed.

Lemma zombies_step n p ps q :
  ps !! n = Some q -> zombies_upto (S n) p ps = zombies_upto n p ps || bool_decide (zombie_of p q).
Proof.
  intros Hq. unfold zombies_upto. rewrite (take_S_r _ _ q) by done.
  rewrite existsb_app. cbn. by rewrite orb_false_r.
Qed.

Lemma adopt1_same ip p q : p_parent q <> p -> adopt1 ip p q = q.
Proof. intros H. unfold adopt1. by rewrite bool_decide_eq_false_2. Qed.

(** ** reparent *)

Lemma table_id (F : list proc -> list proc) s : F (procs s) = procs s -> table F s = s.
Proof. intros H. unfold table. rewrite H. by destruct s. Qed.

Lemma reparent_body_ok s n p q :
  hart_ok s -> noff s <> 0 -> length (procs s) = NPROC -> (n < NPROC)%nat ->
  (forall j, (j < NPROC)%nat -> c_proc (cpu0 s) <> Some j -> lock_free (L_proc j) s) ->
  procs s !! n = Some q ->
  let cur := c_proc (cpu0 s) in
  let ip := initproc s in
  (pr ← get_proc n;
   when (bool_decide (p_parent pr = p))
    (ip ← gets initproc;
     upd (set_p_parent ip) n ;;
     pr ← get_proc n;
     match ip with
     | Some i => when (bool_decide (p_state pr = ZOMBIE)) (wakeup (PProc i))
     | None => mret tt
     end)) s
  = Done tt (table (fun ps => wake_init (bool_decide (zombie_of p q)) ip cur (alter (adopt1 ip p) n ps)) s).
Proof.
  intros Hh Hn Hl Hnb Hf Hq cur ip. assert (Ht : touch s = s) by by apply touch_deep.
  mstep; [by apply get_proc_ok|]. destruct (decide (p_parent q = p)) as [Hp|Hp].
  - rewrite bool_decide_eq_true_2 by done. cbn [when]. mrun. fold ip.
    assert (Ea : table (alter (set_p_parent ip) n) s = table (alter (adopt1 ip p) n) s).
    { unfold table. f_equal. apply list_eq. intros j. rewrite !alter_lookup.
      destruct (decide (n = j)) as [<-|]; [|done]. rewrite Hq. cbn. unfold adopt1.
      by rewrite bool_decide_eq_true_2. }
    mstep; [apply upd_ok|]. rewrite Ea.
    set (s1 := table (alter (adopt1 ip p) n) s).
    mstep. { apply (get_proc_ok n (adopt1 ip p q)). by apply lookup_alter_slot. }
    assert (Hst : p_state (adopt1 ip p q) = p_state q) by (unfold adopt1; by case_match).
    rewrite Hst. destruct ip as [i|] eqn:Eip; [|done].
    assert (Hb : bool_decide (zombie_of p q) = bool_decide (p_state q = ZOMBIE))
      by (apply bool_decide_ext; unfold zombie_of; tauto).
    rewrite Hb. destruct (bool_decide (p_state q = ZOMBIE)); cbn [when]; [|done].
    rewrite wakeup_ok; [|by apply hart_ok_table|by unfold s1, table; ksimpl; rewrite length_alter|].
    + unfold s1. by rewrite touch_table, Ht.
    + intros j Hj Hc. unfold lock_free, s1. rewrite (ind_get (l := L_proc j)). by apply Hf.
  - rewrite bool_decide_eq_false_2 by done. cbn [when]. mrun.
    rewrite table_id; [done|]. rewrite bool_decide_eq_false_2 by (intros [? _]; done).
    replace (alter (adopt1 ip p) n (procs s)) with (procs s).
    + unfold wake_init. by destruct ip.
    + symmetry. apply list_alter_same. intros x Hx. simplify_eq. by apply adopt1_same.
Qed.

Lemma reparent_loop s p n i :
  hart_ok s -> noff s <> 0 -> length (procs s) = NPROC -> (i + n = NPROC)%nat ->
  (forall j, (j < NPROC)%nat -> c_proc (cpu0 s) <> Some j -> lock_free (L_proc j) s) ->
  let cur := c_proc (cpu0 s) in
  let ip := initproc s in
  for_procs n i (fun pp =>
    pr ← get_proc pp;
    when (bool_decide (p_parent pr = p))
      (ip ← gets initproc;
       upd (set_p_parent ip) pp ;;
       pr ← get_proc pp;
       match ip with
       | Some i => when (bool_decide (p_state pr = ZOMBIE)) (wakeup (PProc i))
       | None => mret tt
       end)) (table (reparented i ip p cur) s)
  = Done tt (table (reparented NPROC ip p cur) s).
Proof.
  intros Hh Hn Hl Hin Hf cur ip. revert i Hin; induction n as [|n IH]; intros i Hin.
  { cbn. by replace i with NPROC by lia. }
  destruct (lookup_lt_is_Some_2 (procs s) i) as [q Hq]; [lia|].
  set (ps := procs s) in *.
  assert (Ha : adopt_upto i ip p ps !! i = Some q) by by rewrite adopt_lookup_ge.
  destruct (wake_init_lookup (zombies_upto i p ps) ip cur _ i q Ha ltac:(lia)) as (q' & Hq' & Hpar & Hz).
  assert (HL : length (wake_init (zombies_upto i p ps) ip cur (adopt_upto i ip p ps)) = NPROC).
  { unfold wake_init. repeat case_match; rewrite ?woken_length, adopt_length; done. }
  eapply for_procs_step; [|apply IH; lia].
  rewrite (reparent_body_ok _ i p q'); [|by apply hart_ok_table|done|exact HL|lia| |exact Hq'].
  - change (initproc (table _ s)) with ip. change (c_proc (cpu0 (table _ s))) with cur.
    rewrite table_table. f_equal. unfold table. f_equal. fold ps. unfold reparented.
    assert (Hb : bool_decide (zombie_of p q') = bool_decide (zombie_of p q)).
    { apply bool_decide_ext. unfold zombie_of. rewrite Hpar. tauto. }
    rewrite Hb, (zombies_step i p ps q) by done. rewrite wake_init_alter by by rewrite adopt_length.
    rewrite <- adopt_step. unfold wake_init. destruct ip as [k|]; [|done].
    destruct (zombies_upto i p ps), (bool_decide (zombie_of p q)); cbn [orb]; try done.
    apply woken_woken. by rewrite adopt_length.
  - intros j Hj Hc. unfold lock_free.
    change (table (reparented i ip p cur) s) with
      (table (fun ps' => wake_init (zombies_upto i p ps) ip cur (adopt_upto i ip p ps')) s).
    rewrite (ind_get (l := L_proc j)
      (u := table (fun ps' => wake_init (zombies_upto i p ps) ip cur (adopt_upto i ip p ps')))).
    by apply Hf.
Qed.

(** ** Crossed critical sections *)

Definition is_global (l : lock_id) : Prop := forall j, l <> L_proc j.

Lemma land_twice x m : (x .& m) .& m = x .& m.
Proof. by rewrite <- Z.land_assoc, Z.land_diag. Qed.

Lemma tp_locked l s : tp (csr (locked_state l s)) = tp (csr s).
Proof. unfold locked_state. by rewrite csr_set_lock. Qed.

(** A global lock is released while a slot's lock taken after it stays held, as
    [sleep] and [exit_process] do: the state is that of the slot's critical
    section alone. *)
Lemma unlocked_crossed W i F G s :
  is_global W -> hart_ok s -> lock_free W s ->
  unlocked_state W (table G (locked_state (L_proc i) (table F (locked_state W s))))
  = table G (locked_state (L_proc i) (table F (touch s))).
Proof.
  intros HW Hh [H1 H2]. pose proof (hart_noff s Hh) as [Hn _].
  set (z := sie_off (touch s)). set (n := noff s) in *.
  set (y := table F (locked_state W s)).
  assert (Ny : noff y = n + 1) by apply (noff_locked W s).
  assert (Iy : intr_get y = false).
  { change (intr_get y) with (intr_get (locked_state W s)). unfold locked_state.
    rewrite intr_get_set_lock. apply intr_get_pushed. }
  assert (Py : pushed y = set_noff (n + 2) y).
  { unfold pushed. rewrite touch_deep, sie_off_id, Ny by (done || lia). f_equal. lia. }
  assert (Pz : pushed (table F (touch s)) = set_noff (n + 1) (table F z)).
  { unfold pushed. by rewrite touch_table, touch_touch. }
  assert (Lp : lk_name (get_lock (L_proc i) y) = lk_name (get_lock (L_proc i) (table F (touch s)))).
  { by destruct W as [| | | | |j]; [| | | | |destruct (HW j)]. }
  assert (Lw : Spinlock 0 (lk_name (get_lock W z)) None = get_lock W z).
  { change (get_lock W z) with (get_lock W (pushed s)). rewrite get_lock_pushed.
    destruct (get_lock W s). cbn in *. by subst. }
  unfold unlocked_state. unfold locked_state at 1 2 3. rewrite Py, Pz, Lp.
  set (P := Spinlock 1 _ _). unfold y, locked_state. fold z.
  assert (Gz : get_lock W s = get_lock W z).
  { change (get_lock W z) with (get_lock W (pushed s)). by rewrite get_lock_pushed. }
  rewrite Gz. change (pushed s) with (set_noff (n + 1) z). clearbody z P. clear - HW Hn Lw.
  unfold popped. cbv zeta.
  assert (E : forall q, noff (set_lock W q (table G (set_lock (L_proc i) P (set_noff (n + 2)
      (table F (set_lock W (Spinlock 1 (lk_name (get_lock W z)) (Some 0%nat)) (set_noff (n + 1) z))))))) = n + 2).
  { intros q. by destruct W. }
  rewrite E. replace (n + 2 - 1) with (n + 1) by lia.
  match goal with |- context [noff (set_noff (n + 1) ?x)] =>
    change (noff (set_noff (n + 1) x)) with (n + 1) end.
  rewrite (proj2 (Z.eqb_neq (n + 1) 0)) by lia. cbn [andb].
  destruct W as [| | | | |j]; [| | | | |by destruct (HW j)];
    destruct z as [m c d u r [] fl [] [] [] [] kp ps ini np tk ff]; cbn in Lw;
    injection Lw as <- <-; reflexivity.
Qed.

Lemma release_crossed W i F G s `{!TableNeutral F} `{!TableNeutral G} :
  is_global W -> hart_ok s -> noff s + 2 <= 2 ^ 30 -> lock_free W s ->
  release W (table G (locked_state (L_proc i) (table F (locked_state W s))))
  = Done tt (table G (locked_state (L_proc i) (table F (touch s)))).
Proof.
  intros HW Hh Hd Hf. rewrite <- (unlocked_crossed W) by done.
  set (y := table F (locked_state W s)).
  assert (Ny : noff y = noff s + 1) by apply (noff_locked W s).
  pose proof (hart_noff s Hh). apply release_ok.
  - change (csr (table G (locked_state (L_proc i) y))) with (csr (locked_state (L_proc i) y)).
    rewrite tp_locked. change (csr y) with (csr (locked_state W s)). rewrite tp_locked. apply Hh.
  - change (intr_get (table G (locked_state (L_proc i) y))) with (intr_get (locked_state (L_proc i) y)).
    unfold locked_state. rewrite intr_get_set_lock. apply intr_get_pushed.
  - change (noff (table G (locked_state (L_proc i) y))) with (noff (locked_state (L_proc i) y)).
    rewrite noff_locked. lia.
  - by apply lock_exists_global.
  - unfold lock_held. rewrite (ind_get (l := W) (u := table G)). unfold locked_state.
    rewrite get_set_lock_ne by (intros E; by apply (HW i)). rewrite get_lock_pushed. unfold y.
    rewrite (ind_get (l := W) (u := table F)). by apply locked_state_held, lock_exists_global.
Qed.

(** ** Giving up the CPU *)

(** Thread [me] has updated its slot by [f] under its lock and switched away. *)
Definition parked (me : nat) (f : proc -> proc) (s : kstate) : kstate :=
  switched me (table (alter f me) (locked_state (L_proc me) s)).

Definition asleep (chan : ptr) (q : proc) : proc := set_p_state SLEEPING (set_p_chan chan q).

Definition exited (status : Z) (q : proc) : proc := set_p_state ZOMBIE (set_p_xstate (i32 status) q).

#[export] Instance ln_asleep chan : LockNeutral (asleep chan). Proof. by split. Qed.
#[export] Instance ln_exited status : LockNeutral (exited status). Proof. by split. Qed.

(** A thread [me] runs, outside all critical sections. *)
Record running (s : kstate) (me : nat) (q : proc) : Prop := {
  ru_hart : hart_ok s;
  ru_depth : noff s = 0;
  ru_cur : c_proc (cpu0 s) = Some me;
  ru_slot : procs s !! me = Some q;
  ru_locks : plocks_free (fun _ => False) s;
}.

Lemma running_bound s me q : running s me q -> (me < NPROC)%nat.
Proof. intros [_ _ _ H [Hl _]]. rewrite <- Hl. by eapply lookup_lt_Some. Qed.

Lemma running_lock s me q l : running s me q -> (exists i, l = L_proc i /\ (i < NPROC)%nat) -> 
  lock_free l s /\ lock_exists l s.
Proof.
  intros [_ _ _ _ [Hl Hf]] (i & -> & Hi). split; [apply Hf; [done|tauto]|by apply lock_exists_proc].
Qed.

Lemma intena_locked l s : noff s = 0 -> intena (locked_state l s) = c_bool (intr_get s).
Proof. intros H. unfold locked_state. destruct l; cbn; by rewrite H. Qed.

(** [sched] from inside the slot's critical section. *)
Lemma sched_parked s me q f `{!LockNeutral f} :
  hart_ok s -> noff s = 0 -> c_proc (cpu0 s) = Some me -> procs s !! me = Some q ->
  lock_exists (L_proc me) s -> p_state (f (set_p_lock (Spinlock 1 (lk_name (p_lock q)) (Some 0%nat)) q)) <> RUNNING ->
  sched_enter (table (alter f me) (locked_state (L_proc me) s))
  = Done (c_bool (intr_get s)) (parked me f s).
Proof.
  intros Hh Hn Hc Hq Hex Hst.
  rewrite (sched_enter_ok _ me (f (set_p_lock (Spinlock 1 (lk_name (p_lock q)) (Some 0%nat)) q))).
  - change (intena (table ?F ?x)) with (intena x). by rewrite intena_locked.
  - apply hart_ok_table. apply hart_ok_locked_state; [done|lia].
  - exact Hc.
  - apply lookup_alter_slot. by apply lookup_locked_self.
  - unfold lock_held. rewrite (ind_get (l := L_proc me) (u := table (alter f me))).
    by apply locked_state_held.
  - change (noff (table ?F ?x)) with (noff x). rewrite noff_locked. lia.
  - exact Hst.
Qed.

Lemma yield_enter_ok s me q :
  running s me q ->
  yield_enter s = Done (me, c_bool (intr_get s)) (parked me (set_p_state RUNNABLE) s).
Proof.
  intros R. pose proof (running_bound _ _ _ R) as Hb.
  destruct (running_lock s me q (L_proc me) R) as [Hf Hex]; [by exists me|].
  destruct R as [Hh Hn Hc Hq Hpl]. unfold yield_enter.
  mstep; [by apply myproc_ok|]. rewrite Hc. cbn [deref]. mrun.
  mstep. { apply acquire_ok; [by apply hart_ok_touch|exact Hex|]. rewrite get_lock_touch. apply Hf. }
  rewrite locked_state_touch. mstep; [apply upd_ok|].
  mstep; [by eapply sched_parked|]. done.
Qed.

(** [sleep], called with the global lock [W] held: releasing [W] and going to
    sleep are one step for everyone who respects the slot's lock. *)
Lemma sleep_enter_ok s me q W chan F `{!TableNeutral F} :
  running s me q -> is_global W -> lock_free W s -> F (procs s) !! me = Some q ->
  sleep_enter chan (Some W) (table F (locked_state W s))
  = Done (me, c_bool (intr_get s)) (parked me (asleep chan) (table F (touch s))).
Proof.
  intros R HW Hw Hq. pose proof (running_bound _ _ _ R) as Hb.
  destruct (running_lock s me q (L_proc me) R) as [Hf Hex]; [by exists me|].
  destruct R as [Hh Hn Hc Hq0 [Hlen Hpl]].
  assert (Nt : noff (table F (locked_state W s)) = 1).
  { change (noff (table F ?x)) with (noff x). rewrite noff_locked. lia. }
  assert (Ht : hart_ok (table F (locked_state W s)))
    by (apply hart_ok_table, hart_ok_locked_state; [done|lia]).
  assert (Hc' : c_proc (cpu0 (table F (locked_state W s))) = Some me) by (by destruct W).
  unfold sleep_enter. mstep; [by apply myproc_ok|]. rewrite Hc', touch_deep by lia.
  rewrite bool_decide_eq_false_2 by apply HW. cbn [negb when]. rewrite bind_assoc.
  mstep.
  { apply acquire_ok; [done| |].
    - apply lock_exists_proc; [|done]. cbn. rewrite (tn_length (F := F)). by rewrite length_procs_locked.
    - rewrite (ind_get (l := L_proc me) (u := table F)). unfold locked_state.
      rewrite get_set_lock_ne, get_lock_pushed by apply HW. apply Hf. }
  mstep. { apply (release_crossed W me F (fun ps => ps)); done || lia. }
  rewrite (table_id (fun ps => ps)) by done.
  do 2 (mstep; [apply upd_ok|]). rewrite table_compose3.
  mstep.
  { apply (sched_parked (table F (touch s)) me q (asleep chan)).
    - by apply hart_ok_table, hart_ok_touch.
    - done.
    - done.
    - exact Hq.
    - apply lock_exists_proc; [|done]. cbn. by rewrite (tn_length (F := F)).
    - done. }
  change (intr_get (table F (touch s))) with (intr_get (touch s)). by rewrite intr_get_touch.
Qed.

(** ** exit_process *)

(** The table when process [me], whose parent is [par], exits. *)
Definition exit_table (me : nat) (par ip : option nat) (b : bool) (ps : list proc) : list proc :=
  match par with
  | Some i => woken (PProc i) (Some me)
  | None => fun ps => ps
  end (wake_init b ip (Some me) (adopt_upto NPROC ip (Some me) ps)).

#[export] Instance tn_exit_table me par ip b : TableNeutral (exit_table me par ip b).
Proof. unfold exit_table. destruct par; apply _. Qed.

Lemma woken_self chan me ps : woken chan (Some me) ps !! me = ps !! me.
Proof.
  unfold woken, woken_upto. rewrite list_lookup_imap. destruct (ps !! me); [|done].
  cbn [fmap option_fmap option_map]. f_equal. rewrite bool_decide_eq_true_2 by done.
  cbn [negb]. by rewrite andb_false_r.
Qed.

Lemma exit_table_self me par ip b ps q :
  ps !! me = Some q -> p_parent q <> Some me -> exit_table me par ip b ps !! me = Some q.
Proof.
  intros Hq Hp.
  assert (H : wake_init b ip (Some me) (adopt_upto NPROC ip (Some me) ps) !! me = Some q).
  { assert (Ha : adopt_upto NPROC ip (Some me) ps !! me = Some q).
    { unfold adopt_upto. rewrite list_lookup_imap, Hq. cbn [fmap option_fmap option_map]. f_equal.
      case_match; [by apply adopt1_same|done]. }
    unfold wake_init. repeat case_match; rewrite ?woken_self; done. }
  unfold exit_table. destruct par; rewrite ?woken_self; exact H.
Qed.

(** The state inside the critical section of [wait_lock]. *)
Record exiting (me : nat) (t : kstate) : Prop := {
  ex_hart : hart_ok t;
  ex_depth : noff t = 1;
  ex_cur : c_proc (cpu0 t) = Some me;
  ex_locks : plocks_free (fun _ => False) t;
}.

Lemma exiting_locked s me q :
  running s me q -> lock_free L_wait s -> exiting me (locked_state L_wait s).
Proof.
  intros [Hh Hn Hc Hq [Hlen Hpl]] Hw. split.
  - apply hart_ok_locked_state; [done|lia].
  - rewrite noff_locked. lia.
  - exact Hc.
  - split; [by rewrite length_procs_locked|]. intros j Hj Hf.
    apply (lock_free_locked L_wait (L_proc j)); [done|]. by apply Hpl.
Qed.

Lemma exiting_table F me t `{!TableNeutral F} : exiting me t -> exiting me (table F t).
Proof.
  intros [H1 H2 H3 [H4 H5]]. split; [by apply hart_ok_table|done|done|]. split.
  - cbn. by rewrite (tn_length (F := F)).
  - intros j Hj Hf. unfold lock_free. rewrite (ind_get (l := L_proc j) (u := table F)). by apply H5.
Qed.

(** Children go to init, which is woken for a zombie among them. *)
Lemma exit_reparent me t :
  exiting me t ->
  reparent (Some me) t
  = Done tt (table (fun ps => wake_init (zombies_upto NPROC (Some me) (procs t)) (initproc t) (Some me)
      (adopt_upto NPROC (initproc t) (Some me) ps)) t).
Proof.
  intros [H1 H2 H3 [H4 H5]]. unfold reparent.
  rewrite <- (table_id (reparented 0 (initproc t) (Some me) (Some me)) t) at 1.
  - pose proof (reparent_loop t (Some me) NPROC 0 H1) as E. cbv zeta in E. rewrite H3 in E.
    apply E; try done; [lia|]. intros j Hj _. by apply H5; [|tauto].
  - unfold reparented, zombies_upto. cbn [take existsb]. rewrite adopt_0. unfold wake_init.
    by destruct (initproc t).
Qed.

(** The parent, if there is one, is woken. *)
Lemma exit_wake me par t :
  exiting me t ->
  match par with Some i => wakeup (PProc i) | None => mret tt end t
  = Done tt (table (match par with Some i => woken (PProc i) (Some me) | None => fun ps => ps end) t).
Proof.
  intros [H1 H2 H3 [H4 H5]]. destruct par as [i|]; [|by rewrite table_id].
  rewrite wakeup_ok; [|done|done|].
  - by rewrite touch_deep, H3 by lia.
  - intros j Hj _. by apply H5; [|tauto].
Qed.

Lemma exit_process_ok s me q status :
  running s me q -> lock_free L_wait s -> initproc s <> Some me -> p_parent q <> Some me ->
  exit_process status s
  = Done (c_bool (intr_get s))
      (parked me (exited status)
        (table (exit_table me (p_parent q) (initproc s) (zombies_upto NPROC (Some me) (procs s)))
          (touch s))).
Proof.
  intros R Hw Hini Hpar. pose proof (running_bound _ _ _ R) as Hb.
  pose proof (exiting_locked s me q R Hw) as X. destruct R as [Hh Hn Hc Hq [Hlen Hpl]].
  set (b := zombies_upto NPROC (Some me) (procs s)). set (ip := initproc s) in *.
  set (F1 := fun ps => wake_init b ip (Some me) (adopt_upto NPROC ip (Some me) ps)).
  set (F2 := exit_table me (p_parent q) ip b).
  assert (X1 : exiting me (table F1 (locked_state L_wait s))) by (apply exiting_table; [apply _|done]).
  assert (X2 : exiting me (table F2 (locked_state L_wait s))) by (apply exiting_table; [apply _|done]).
  unfold exit_process. mstep; [by apply myproc_ok|]. mrun. rewrite Hc.
  change (initproc (touch s)) with ip. rewrite bool_decide_eq_false_2 by congruence.
  mstep. { apply acquire_ok; [by apply hart_ok_touch|by apply lock_exists_global|].
    rewrite get_lock_touch. apply Hw. }
  rewrite locked_state_touch. mstep; [by apply (exit_reparent me)|].
  change (table _ (locked_state L_wait s)) with (table F1 (locked_state L_wait s)).
  cbn [deref]. mrun. mstep. { apply (get_proc_ok me q). exact (exit_table_self me None ip b _ q Hq Hpar). }
  mstep; [by apply (exit_wake me)|].
  change (table _ (table F1 (locked_state L_wait s))) with (table F2 (locked_state L_wait s)).
  destruct X2 as [Y1 Y2 Y3 [Y4 Y5]].
  mstep. { apply acquire_ok; [done|by apply lock_exists_proc|]. apply Y5; [done|tauto]. }
  do 2 (mstep; [apply upd_ok|]). rewrite table_compose3.
  mstep. { apply (release_crossed L_wait me F2 (alter (exited status) me)); first [apply _ | done | lia]. }
  assert (Hs : intr_get (table F2 (touch s)) = intr_get s) by apply intr_get_touch.
  rewrite <- Hs. apply (sched_parked _ me q (exited status)); try done.
  - by apply hart_ok_table, hart_ok_touch.
  - by apply exit_table_self.
  - apply lock_exists_proc; [|done]. cbn. by rewrite (tn_length (F := F2)).
Qed.

(** ** wait_process *)

Section wait.
Context {L : Linker} {LO : LinkerOk}.

(** A round finds no zombie child. *)
Lemma wait_round_none s me q :
  running s me q -> lock_free L_wait s -> first_zombie (Some me) (procs s) = None ->
  wait_round (Some me) (locked_state L_wait s)
  = if negb (has_kids (Some me) (procs s)) || negb (p_killed q =? 0)
    then Done WaitNone (touch s)
    else Done (WaitSleep me (c_bool (intr_get s))) (parked me (asleep (PProc me)) (touch s)).
Proof.
  intros R Hw Hz. pose proof R as [Hh Hn Hc Hq [Hlen Hpl]].
  assert (Ht : hart_ok (locked_state L_wait s)) by (apply hart_ok_locked_state; [done|lia]).
  unfold wait_round. mstep.
  { apply (wait_scan_skip (locked_state L_wait s) (Some me) NPROC 0 false Ht).
    - rewrite noff_locked. lia.
    - split; [done|]. intros i Hi _. apply lock_free_locked; [done|]. apply Hpl; [done|tauto].
    - done.
    - exact Hz. }
  cbn [orb]. rewrite drop_0. change (procs (locked_state L_wait s)) with (procs s).
  destruct (has_kids (Some me) (procs s)); cbn [negb orb deref]; mrun.
  - mstep; [by apply (get_proc_ok me q)|].
    destruct (p_killed q =? 0); cbn [negb].
    + mstep. { rewrite <- (table_id (fun ps => ps) (locked_state L_wait s)) by done.
        apply (sleep_enter_ok s me q L_wait (PProc me) (fun ps => ps)); done. }
      cbn beta. by rewrite (table_id (fun ps => ps)) by done.
    + mstep; [by apply (release_section L_wait (fun s => s)); [|apply lock_exists_global|]|]. done.
  - unfold get_proc. mrun.
    mstep; [by apply (release_section L_wait (fun s => s)); [|apply lock_exists_global|]|]. done.
Qed.

(** A round finds a zombie child and reaps it. *)
Lemma wait_round_reap s me k q tbl free :
  hart_ok s -> noff s = 0 -> plocks_free (fun _ => False) s -> lock_free L_wait s ->
  first_zombie (Some me) (procs s) = Some (k, q) -> slot_owns s k q tbl free ->
  exists s' free', wait_round (Some me) (locked_state L_wait s) = Done (WaitRet (p_pid q) (p_xstate q)) s'
    /\ s' = set_mem (mem s') (set_freelist (freelist s') (table (alter emptied k) (touch s)))
    /\ pool s' free' /\ free' ≡ₚ p_trapframe q :: (map_to_list tbl).*2 ++ free
    /\ only_owned [p_trapframe q] tbl s s'.
Proof.
  intros Hh Hn [Hlen Hpl] Hw Hz Hown.
  set (t := locked_state L_wait s).
  assert (Ht : hart_ok t) by (apply hart_ok_locked_state; [done|lia]).
  assert (Hown' : slot_owns t k q tbl free).
  { destruct Hown as [A1 A2 [A3 A4] A5 A6]. split; try done.
    split; [|done]. apply (vm_inv_move s); try done. apply lock_free_locked; [done|].
    apply (pool_lock s free), A3. }
  destruct (wait_scan_reap t (Some me) NPROC 0 false k q tbl free Ht) as (s1 & free' & E & Es & P & C & O).
  { unfold t. rewrite noff_locked. lia. }
  { unfold t. rewrite noff_locked. lia. }
  { split; [done|]. intros i Hi _. apply lock_free_locked; [done|]. apply Hpl; [done|tauto]. }
  { done. }
  { by rewrite drop_0. }
  { done. }
  set (u := fun r => set_mem (mem s1) (set_freelist (freelist s1) (table (alter emptied k) r))).
  assert (Iu : Independent L_wait u) by (unfold u; apply _).
  exists (u (touch s)), free'. split_and!.
  - unfold wait_round. mstep; [exact E|]. cbn beta match. rewrite Es.
    mstep. { apply (release_section L_wait u); [done|by apply lock_exists_global|done]. } done.
  - done.
  - destruct P as [A1 A2 _ _]. split; [exact A1|exact A2| |].
    + apply (hart_ok_same (touch s)); [done|done|by apply hart_ok_touch].
    + apply (pool_lock s free), (us_inv _ _ _ _ (so_space _ _ _ _ _ Hown)).
  - exact C.
  - intros a Ha. change (mem (u _)) with (mem s1). by apply O.
Qed.

End wait.
