(* ===== verification/ProcInit.v ===== *)
(** * Kernel stacks

    [procinit] gives every slot of the process table a kernel stack: one page,
    mapped at [KSTACK] of the slot in the kernel's page table, with an unmapped
    page below it. *)

From S2P Require Import Prelude Riscv Memory State Spinlock Kalloc Vm VmMap Sv39 VmKernel VmDestroy Uart Printf Csr Proc ProcTable ProcMem ProcExit.

Section proc_init.
Context {L : Linker} {LO : LinkerOk}.

(** ** Definitions *)

(** What [procinit] makes of slot [j]. *)
Definition init_slot (j : nat) (q : proc) : proc :=
  set_p_kstack (KSTACK (Z.of_nat j)) (set_p_state UNUSED (set_p_lock (Spinlock 0 "proc" None) q)).

Definition init_upto (n : nat) (ps : list proc) : list proc :=
  imap (fun j q => if (j <? n)%nat then init_slot j q else q) ps.

(** The stack page that [va] lies in, if any, among the first ones. *)
Definition stack_of (stacks : list Z) (va : Z) : option Z :=
  match list_find (fun j => vbase va = KSTACK (Z.of_nat j)) (seq 0 (length stacks)) with
  | Some (i, _) => stacks !! i
  | None => None
  end.

(** The leaf entries of the kernel's table with the stacks mapped. *)
Definition with_stacks (old : Z -> option Z) (stacks : list Z) (va : Z) : option Z :=
  match stack_of stacks va with
  | Some pa => Some (leaf_entry pa (PTE_R .| PTE_W))
  | None => old va
  end.

(** The state reached from [s] after the stacks of the first slots. *)
Record stacks_upto (s : kstate) (tbl : gmap (list Z) Z) (free : list Z) (stacks : list Z)
    (s' : kstate) (tbl' : gmap (list Z) Z) (free' : list Z) : Prop := {
  su_inv : vm_inv s' (kernel_pagetable s') tbl' free';
  su_leaf : forall va, leaf_pte (mem s') tbl' va = with_stacks (leaf_pte (mem s) tbl) stacks va;
  su_procs : procs s' = init_upto (length stacks) (procs s);
  su_frame : frame (set_procs (procs s') s) s';
  su_pages : (map_to_list tbl').*2 ++ free' ++ stacks ≡ₚ (map_to_list tbl).*2 ++ free;
  su_count : (length free <= length free' + length stacks + missing tbl (KSTACK 0))%nat;
  su_table : (0 < length stacks)%nat -> missing tbl' (KSTACK 0) = 0%nat;
  su_same : length stacks = 0%nat ->
    missing tbl' (KSTACK 0) = missing tbl (KSTACK 0) /\ length free' = length free;
}.

(** The kernel's table is in force and maps the stacks, whose pages are nobody
    else's. *)
Record stacked (s : kstate) (tbl : gmap (list Z) Z) (free : list Z) (stacks : list Z) : Prop := {
  st_inv : vm_inv s (kernel_pagetable s) tbl free;
  st_leaf : forall va, leaf_pte (mem s) tbl va = with_stacks kernel_leaf stacks va;
  st_satp : satp (csr s) = MAKE_SATP (kernel_pagetable s);
  st_length : length stacks = NPROC;
  st_nodup : NoDup stacks;
  st_pages : forall p, p ∈ stacks -> page_ok p /\ (p ∉ free);
}.

(** ** Addresses of the stacks *)

Lemma kstack_facts j :
  (j < NPROC)%nat ->
  vbase (KSTACK (Z.of_nat j)) = KSTACK (Z.of_nat j) /\ KSTACK (Z.of_nat j) mod PGSIZE = 0
  /\ 0 <= KSTACK (Z.of_nat j) /\ KSTACK (Z.of_nat j) + PGSIZE <= 2 ^ 38
  /\ VPN_MASK (KSTACK (Z.of_nat j)) 2 = VPN_MASK (KSTACK 0) 2
  /\ VPN_MASK (KSTACK (Z.of_nat j)) 1 = VPN_MASK (KSTACK 0) 1.
Proof.
  unfold NPROC. intros Hj. set (k := KSTACK (Z.of_nat j)).
  assert (Hk : k = 2 ^ 38 - 4096 - (Z.of_nat j + 1) * 8192).
  { unfold k, KSTACK, TRAMPOLINE, PGSIZE. change MAXVA with (2 ^ 38). lia. }
  assert (Hal : k mod PGSIZE = 0) by (unfold PGSIZE; rewrite Hk; dmlia).
  split; [apply vbase_aligned; [lia|done]|]. split; [done|]. split; [lia|].
  split; [unfold PGSIZE; lia|]. rewrite !VPN_MASK_spec by lia. clearbody k. subst k.
  change (KSTACK 0) with (2 ^ 38 - 4096 - 8192). split; f_equal; dmlia.
Qed.

Lemma kstack_missing tbl j : (j < NPROC)%nat -> missing tbl (KSTACK (Z.of_nat j)) = missing tbl (KSTACK 0).
Proof.
  intros Hj. destruct (kstack_facts j Hj) as (_ & _ & _ & _ & H2 & H1).
  unfold missing, path2, path1. by rewrite H1, H2.
Qed.

Lemma kstack_inj i j : KSTACK (Z.of_nat i) = KSTACK (Z.of_nat j) -> i = j.
Proof. unfold KSTACK, PGSIZE. lia. Qed.

Lemma stack_of_kstack stacks j pa va :
  stacks !! j = Some pa -> vbase va = KSTACK (Z.of_nat j) -> stack_of stacks va = Some pa.
Proof.
  intros Hj Hv. unfold stack_of. pose proof (lookup_lt_Some _ _ _ Hj).
  destruct (list_find _ _) as [[i k]|] eqn:E.
  - apply list_find_Some in E as (Hk & Hv' & _). apply lookup_seq in Hk as [-> _].
    cbn in Hv'. rewrite Hv in Hv'. by apply kstack_inj in Hv' as <-.
  - apply list_find_None in E. rewrite Forall_forall in E. destruct (E j); [|done].
    apply elem_of_seq. lia.
Qed.

Lemma stack_of_other stacks va :
  (forall j, (j < length stacks)%nat -> vbase va <> KSTACK (Z.of_nat j)) -> stack_of stacks va = None.
Proof.
  intros H. unfold stack_of. destruct (list_find _ _) as [[i k]|] eqn:E; [|done].
  apply list_find_Some in E as (Hk & Hv' & _). apply lookup_seq in Hk as [-> Hi].
  by destruct (H i).
Qed.

Lemma stack_of_Some stacks va q :
  stack_of stacks va = Some q -> exists j, stacks !! j = Some q /\ vbase va = KSTACK (Z.of_nat j).
Proof.
  unfold stack_of. destruct (list_find _ _) as [[i k]|] eqn:E; [|done]. intros Hq.
  apply list_find_Some in E as (Hk & Hv' & _). apply lookup_seq in Hk as [-> _]. by exists i.
Qed.

Lemma stack_of_None stacks va j q :
  stack_of stacks va = None -> stacks !! j = Some q -> vbase va <> KSTACK (Z.of_nat j).
Proof. intros Hn Hj Hv. by rewrite (stack_of_kstack stacks j q) in Hn. Qed.

Lemma stack_of_vbase stacks va va' : vbase va = vbase va' -> stack_of stacks va = stack_of stacks va'.
Proof.
  intros H. unfold stack_of. by rewrite H.
Qed.

Lemma stack_of_snoc stacks pa va :
  stack_of (stacks ++ [pa]) va
  = if decide (vbase va = KSTACK (Z.of_nat (length stacks))) then Some pa else stack_of stacks va.
Proof.
  case_decide as Hv.
  - apply (stack_of_kstack _ (length stacks)); [|done]. by rewrite list_lookup_middle.
  - destruct (stack_of stacks va) as [q|] eqn:E.
    + destruct (stack_of_Some _ _ _ E) as (j & Hj & Hv'). apply (stack_of_kstack _ j); [|done].
      rewrite lookup_app_l; [done|]. by eapply lookup_lt_Some.
    + apply stack_of_other. intros j Hj. rewrite length_app in Hj. cbn in Hj.
      destruct (decide (j = length stacks)) as [->|]; [done|].
      destruct (lookup_lt_is_Some_2 stacks j) as [q Hq]; [lia|]. by apply (stack_of_None stacks va j q).
Qed.

(** ** One slot *)

Lemma hart_ok_tp s s' :
  tp (csr s') = tp (csr s) -> sstatus (csr s') = sstatus (csr s) -> noff s' = noff s -> hart_ok s -> hart_ok s'.
Proof.
  intros Ht Hs Hn [? ? ?]. unfold intr_get in *. split; unfold intr_get; by rewrite ?Ht, ?Hs, ?Hn.
Qed.

Lemma vm_inv_alloced s root tbl p free :
  vm_inv s root tbl (p :: free) ->
  vm_inv (alloced p s) root tbl free /\ forall va, leaf_pte (mem (alloced p s)) tbl va = leaf_pte (mem s) tbl va.
Proof.
  intros [P W D]. assert (Hp : page_ok p) by (eapply pool_page_ok; [exact P|by left]).
  destruct (pt_wf_ext (mem s) (mem (alloced p s)) root tbl W) as [W' L'].
  - intros path q a Hq Ha. apply only_page_alloced.
    assert (Hne : q <> p) by (intros ->; apply (D _ _ Hq); by left).
    destruct (wf_page _ _ _ W _ _ Hq) as [H1 _], Hp as [H2 _].
    destruct (pages_disjoint q p H1 H2 Hne); lia.
  - split; [|done]. split; [by apply pool_alloced|done|]. intros path q Hq Hin.
    apply (D _ _ Hq). by right.
Qed.

Lemma frame_procs s s' : frame s s' -> procs s' = procs s.
Proof.
  intros [H _]. assert (E : procs (erase s') = procs (erase s)) by by rewrite H. exact E.
Qed.

Lemma init_step n ps :
  init_upto (S n) ps = alter (fun q => set_p_kstack (KSTACK (Z.of_nat n)) (set_p_state UNUSED
    (set_p_lock (Spinlock 0 "proc" None) q))) n (init_upto n ps).
Proof.
  unfold init_upto. apply list_eq. intros j. rewrite alter_lookup, !list_lookup_imap.
  case_decide as Hj.
  - subst j. destruct (ps !! n); [|done]. cbn [fmap option_fmap option_map]. f_equal.
    by rewrite Nat.ltb_irrefl, (proj2 (Nat.ltb_lt n (S n))) by lia.
  - destruct (ps !! j); [|done]. cbn [fmap option_fmap option_map]. f_equal.
    replace (j <? S n)%nat with (j <? n)%nat; [done|].
    destruct (Nat.ltb_spec j n), (Nat.ltb_spec j (S n)); lia || done.
Qed.

Definition init_body (p : nat) : M unit :=
  initlock (L_proc p) "proc" ;;
  upd (set_p_state UNUSED) p ;;
  pa ← alloc_page;
  if pa =? 0 then panic "kstack" else
  let va := KSTACK (Z.of_nat p) in
  k ← gets kernel_pagetable;
  kvmmap k va pa PGSIZE (PTE_R .| PTE_W) ;;
  upd (set_p_kstack va) p.

(** The table entry that [initlock] and the state assignment leave. *)
Definition reset_slot (q : proc) : proc := set_p_state UNUSED (set_p_lock (Spinlock 0 "proc" None) q).

(** Mapping one stack page. *)
Lemma map_stack s root tbl free p pa :
  vm_inv s root tbl free -> (p < NPROC)%nat -> page_ok pa ->
  (forall x, vbase x = KSTACK (Z.of_nat p) -> leaf_pte (mem s) tbl x = None) ->
  (missing tbl (KSTACK 0) <= length free)%nat ->
  exists s' tbl' k, kvmmap root (KSTACK (Z.of_nat p)) pa PGSIZE (PTE_R .| PTE_W) s = Done tt s'
    /\ (k <= missing tbl (KSTACK 0))%nat /\ vm_inv s' root tbl' (drop k free) /\ frame s s'
    /\ pages_kept tbl free tbl' (drop k free) /\ missing tbl' (KSTACK 0) = 0%nat
    /\ forall x, leaf_pte (mem s') tbl' x
        = if decide (vbase x = KSTACK (Z.of_nat p)) then Some (leaf_entry pa (PTE_R .| PTE_W))
          else leaf_pte (mem s) tbl x.
Proof.
  intros I Hp Hpa Hnone Hfree. set (va := KSTACK (Z.of_nat p)) in *.
  destruct (kstack_facts p Hp) as (Hv & Hal & H0 & Hhi & _). fold va in Hv, Hal, H0, Hhi.
  pose proof (page_ok_pos pa Hpa) as Hpap. assert (Hpal : pa mod PGSIZE = 0) by apply Hpa.
  assert (Hmiss : missing tbl va = missing tbl (KSTACK 0)) by by apply kstack_missing.
  assert (Hlast : PGROUNDDOWN (va + PGSIZE - 1) = va) by (rewrite last_page by (done || lia); lia).
  assert (Hbud : budget tbl va va = missing tbl (KSTACK 0)) by (unfold budget; rewrite !Z.sub_diag, Hmiss; cbn; lia).
  destruct (kvmmap_ok s root tbl free va pa PGSIZE (PTE_R .| PTE_W) I)
    as (sC & tblC & k & EC & Kk & [IC SC LC FC OC PC]); try done; [lia..|unfold PGSIZE; lia| |by rewrite Hlast, Hbud|].
  { intros x Hx. apply Hnone. unfold vbase, PGSIZE in *. rewrite Z.mod_small by dmlia. dmlia. }
  rewrite Hlast in LC. rewrite Hlast, Hbud in Kk. exists sC, tblC, k.
  assert (HL : forall x, leaf_pte (mem sC) tblC x
      = if decide (vbase x = va) then Some (leaf_entry pa (PTE_R .| PTE_W)) else leaf_pte (mem s) tbl x).
  { intros x. rewrite LC. destruct (decide (vbase x = va)) as [Hx|Hx].
    - rewrite decide_True by lia. do 2 f_equal. lia.
    - by rewrite decide_False by lia. }
  split_and!; try done. rewrite <- (kstack_missing tblC p Hp).
  apply (leaf_missing (mem sC) root _ _ (leaf_entry pa (PTE_R .| PTE_W))); [apply IC|].
  rewrite HL, decide_True by done. done.
Qed.

(** The run of the body, given its call of [kvmmap]. *)
Lemma init_body_run s p pa free sC :
  pool s (pa :: free) -> 0 < pa ->
  let sB := alloced pa (table (alter reset_slot p) s) in
  kvmmap (kernel_pagetable s) (KSTACK (Z.of_nat p)) pa PGSIZE (PTE_R .| PTE_W) sB = Done tt sC ->
  init_body p s = Done tt (table (alter (set_p_kstack (KSTACK (Z.of_nat p))) p) sC).
Proof.
  intros Hp Hpa sB EC. pose proof (alloc_page_pop (table (alter reset_slot p) s) pa free) as EB.
  unfold init_body, initlock. mrun. mstep; [apply upd_ok|].
  change (table (alter (set_p_state UNUSED) p) (set_lock (L_proc p) (Spinlock 0 "proc" None) s))
    with (table (alter (set_p_state UNUSED) p) (table (alter (set_p_lock (Spinlock 0 "proc" None)) p) s)).
  rewrite table_compose3. mstep; [by apply EB, pool_table|].
  rewrite (proj2 (Z.eqb_neq pa 0)) by lia. cbv zeta. mrun.
  rewrite (frame_kernel_pagetable _ _ (frame_alloced pa _)).
  change (kernel_pagetable (table _ s)) with (kernel_pagetable s). mstep; [exact EC|]. apply upd_ok.
Qed.

Lemma init_body_ok s tbl free stacks s1 tbl1 pa free1 :
  stacks_upto s tbl free stacks s1 tbl1 (pa :: free1) -> (length stacks < NPROC)%nat ->
  (forall j, (j < NPROC)%nat -> leaf_pte (mem s) tbl (KSTACK (Z.of_nat j)) = None) ->
  (missing tbl1 (KSTACK 0) <= length free1)%nat ->
  exists s2 tbl2 free2, init_body (length stacks) s1 = Done tt s2
    /\ stacks_upto s tbl free (stacks ++ [pa]) s2 tbl2 free2.
Proof.
  intros [I1 L1 P1 F1 C1 N1 M1 M1'] Hlen Hnone Hfree. set (p := length stacks) in *.
  set (va := KSTACK (Z.of_nat p)). set (sA := table (alter reset_slot p) s1).
  assert (IA : vm_inv sA (kernel_pagetable s1) tbl1 (pa :: free1)) by by apply vm_inv_table.
  assert (Hpa : page_ok pa) by (eapply pool_page_ok; [apply I1|by left]).
  pose proof (page_ok_pos pa Hpa) as Hpap.
  destruct (vm_inv_alloced sA _ tbl1 pa free1 IA) as [IB LB]. pose proof (frame_alloced pa sA) as FB.
  destruct (map_stack (alloced pa sA) (kernel_pagetable s1) tbl1 free1 p pa IB Hlen Hpa)
    as (sC & tblC & k & EC & Kk & IC & FC & PC & Hvm & LC); [|done|].
  { intros x Hx. rewrite LB. change (mem sA) with (mem s1). rewrite L1. unfold with_stacks.
    rewrite stack_of_other.
    - rewrite <- (Hnone p Hlen). apply leaf_pte_vbase. rewrite Hx. symmetry. apply (kstack_facts p Hlen).
    - intros j Hj E. rewrite Hx in E. apply kstack_inj in E. lia. }
  pose proof (init_body_run s1 p pa free1 sC (vm_pool _ _ _ _ I1) ltac:(lia) EC) as E. fold va in E, LC.
  set (s2 := table (alter (set_p_kstack va) p) sC) in *. exists s2, tblC, (drop k free1). split; [exact E|].
  assert (Hs2 : kernel_pagetable s2 = kernel_pagetable s1).
  { change (kernel_pagetable sC = kernel_pagetable sA).
    by rewrite (frame_kernel_pagetable _ _ FC), (frame_kernel_pagetable _ _ FB). }
  assert (Hp2 : procs s2 = alter (set_p_kstack va) p (alter reset_slot p (procs s1))).
  { change (alter (set_p_kstack va) p (procs sC) = alter (set_p_kstack va) p (procs sA)).
    by rewrite (frame_procs _ _ FC), (frame_procs _ _ FB). }
  split.
  - rewrite Hs2. by apply vm_inv_table.
  - intros x. change (mem s2) with (mem sC). rewrite LC. unfold with_stacks. rewrite stack_of_snoc. fold p va.
    destruct (decide (vbase x = va)) as [Hx|Hx]; [done|]. rewrite LB. change (mem sA) with (mem s1). apply L1.
  - rewrite Hp2, P1, length_app. cbn [length]. rewrite Nat.add_1_r. fold p. rewrite init_step.
    by rewrite list_alter_alter_eq.
  - rewrite Hp2. unfold s2.
    change (set_procs (alter (set_p_kstack va) p (alter reset_slot p (procs s1))) s)
      with (table (alter (set_p_kstack va) p) (table (alter reset_slot p) (set_procs (procs s1) s))).
    apply frame_table. etrans; [apply frame_table; exact F1|]. by etrans.
  - unfold pages_kept in PC. rewrite <- C1, (Permutation_app_comm stacks). cbn [app].
    rewrite (app_assoc _ (drop k free1)), PC, <- app_assoc.
    apply Permutation_app_head. by rewrite Permutation_middle.
  - rewrite length_app. cbn [length] in *. rewrite length_drop. fold p.
    destruct (decide (p = 0%nat)) as [E0|E0]; [destruct (M1' E0); cbn [length] in *; lia|].
    specialize (M1 ltac:(lia)). lia.
  - done.
  - rewrite length_app. cbn. lia.
Qed.

(** ** procinit *)

Lemma init_0 ps : init_upto 0 ps = ps.
Proof.
  unfold init_upto. apply list_eq. intros j. rewrite list_lookup_imap. by destruct (ps !! j).
Qed.

Lemma procinit_loop s tbl free n stacks s1 tbl1 free1 :
  (forall j, (j < NPROC)%nat -> leaf_pte (mem s) tbl (KSTACK (Z.of_nat j)) = None) ->
  (NPROC + missing tbl (KSTACK 0) <= length free)%nat ->
  stacks_upto s tbl free stacks s1 tbl1 free1 -> (length stacks + n = NPROC)%nat ->
  exists s2 tbl2 free2 stacks2, for_procs n (length stacks) init_body s1 = Done tt s2
    /\ length stacks2 = NPROC /\ stacks_upto s tbl free stacks2 s2 tbl2 free2.
Proof.
  intros Hnone Hfree. revert stacks s1 tbl1 free1; induction n as [|n IH]; intros stacks s1 tbl1 free1 Hs Hn.
  { exists s1, tbl1, free1, stacks. split; [done|]. split; [lia|done]. }
  pose proof (su_count _ _ _ _ _ _ _ Hs) as Hc. pose proof (su_same _ _ _ _ _ _ _ Hs) as Hm0.
  pose proof (su_table _ _ _ _ _ _ _ Hs) as Hm1.
  destruct free1 as [|pa free1]; [cbn in Hc; lia|]. cbn [length] in *.
  destruct (init_body_ok s tbl free stacks s1 tbl1 pa free1 Hs) as (s2 & tbl2 & free2 & E2 & Hs2);
    [lia|done| |].
  { destruct (decide (length stacks = 0%nat)) as [E|E]; [destruct (Hm0 E); lia|].
    rewrite Hm1 by lia. lia. }
  destruct (IH _ _ _ _ Hs2) as (s3 & tbl3 & free3 & stacks3 & E3 & Hl3 & Hs3).
  { rewrite length_app. cbn. lia. }
  exists s3, tbl3, free3, stacks3. split; [|done].
  rewrite length_app, Nat.add_1_r in E3. by eapply for_procs_step.
Qed.

Lemma procinit_ok s tbl free :
  vm_inv s (kernel_pagetable s) tbl free ->
  (forall j, (j < NPROC)%nat -> leaf_pte (mem s) tbl (KSTACK (Z.of_nat j)) = None) ->
  (NPROC + missing tbl (KSTACK 0) <= length free)%nat ->
  let s0 := set_lock L_wait (Spinlock 0 "wait_lock" None) s in
  exists s' tbl' free' stacks, procinit s = Done tt s' /\ length stacks = NPROC
    /\ stacks_upto s0 tbl free stacks s' tbl' free'.
Proof.
  intros I Hnone Hfree s0.
  destruct (procinit_loop s0 tbl free NPROC [] s0 tbl free Hnone Hfree)
    as (s' & tbl' & free' & stacks & E & Hl & Hs).
  - split.
    + by apply (vm_inv_same s).
    + intros va. unfold with_stacks. by rewrite stack_of_other by (cbn; lia).
    + by rewrite init_0.
    + change (set_procs (procs s0) s0) with s0. reflexivity.
    + by rewrite app_nil_r.
    + cbn. lia.
    + cbn. lia.
    + done.
  - done.
  - exists s', tbl', free', stacks. split; [|done]. unfold procinit, initlock. mrun. exact E.
Qed.

(** ** What the hardware sees *)

Lemma NoDup_pages s root tbl free :
  vm_inv s root tbl free -> NoDup ((map_to_list tbl).*2 ++ free).
Proof.
  intros [P W D]. apply NoDup_app. split; [|split; [|apply P]].
  - apply NoDup_fmap_2_strong; [|apply NoDup_map_to_list].
    intros [p1 x] [p2 y] H1%elem_of_map_to_list H2%elem_of_map_to_list Hxy. cbn in Hxy. subst y. f_equal.
    by apply (wf_inj _ _ _ W _ _ x).
  - intros x ([path y] & -> & H%elem_of_map_to_list)%list_elem_of_fmap. by eapply D.
Qed.

Lemma stacks_NoDup s tbl free stacks s' tbl' free' :
  stacks_upto s tbl free stacks s' tbl' free' -> NoDup ((map_to_list tbl).*2 ++ free) ->
  NoDup stacks /\ (forall p, p ∈ stacks -> p ∉ free') /\ forall p, p ∈ stacks -> p ∈ (map_to_list tbl).*2 ++ free.
Proof.
  intros Hs Hnd. pose proof (su_pages _ _ _ _ _ _ _ Hs) as Hp. rewrite <- Hp in Hnd.
  apply NoDup_app in Hnd as (_ & _ & (Hf & Hd & Hn)%NoDup_app). split; [done|]. split.
  - intros p Hp1 Hp2. by apply (Hd p).
  - intros p Hin. rewrite <- Hp, !elem_of_app. auto.
Qed.

Lemma translate_leaf s root tbl free va e :
  vm_inv s root tbl free -> 0 <= va < 2 ^ 38 -> leaf_pte (mem s) tbl va = e ->
  sv39_translate (mem s) root va
  = x ← e; if hw_leaf x then Some (pte_ppn x * 4096 + va mod 4096, x mod 2 ^ 10) else None.
Proof.
  intros I Hva He. rewrite (translate_wf _ _ tbl) by apply I.
  replace (canonical va) with true; [by rewrite He|].
  unfold canonical. symmetry. lia.
Qed.

(** The stacks are not in the kernel's identity map. *)
Lemma kernel_leaf_above va : 2 ^ 32 <= vbase va -> kernel_leaf va = None.
Proof.
  intros H. pose proof etext_above. pose proof end_above. pose proof end_below.
  unfold kernel_leaf, UART0, PHYSTOP, KERNBASE in *. cbv zeta. rewrite !decide_False by lia. done.
Qed.

Lemma vbase_offset a off : 0 <= a < 2 ^ 39 -> a mod PGSIZE = 0 -> 0 <= off < PGSIZE -> vbase (a + off) = a.
Proof.
  unfold PGSIZE, vbase. intros H1 H2 H3. change (2 ^ 39) with (4096 * 2 ^ 27) in H1.
  rewrite Z.mod_small by dmlia. dmlia.
Qed.

Lemma kstack_range j : (j < NPROC)%nat -> 2 ^ 38 - 2 ^ 20 <= KSTACK (Z.of_nat j) - PGSIZE /\ KSTACK (Z.of_nat j) < 2 ^ 38.
Proof.
  unfold NPROC, KSTACK, TRAMPOLINE, PGSIZE. intros Hj. change MAXVA with (2 ^ 38). lia.
Qed.

(** The page below a stack belongs to no stack. *)
Lemma guard_apart i j : KSTACK (Z.of_nat i) - PGSIZE <> KSTACK (Z.of_nat j).
Proof. unfold KSTACK, PGSIZE. lia. Qed.

(** A page of the kernel's table that [procinit] mapped. *)
Lemma stack_translate s' tbl' free' pa va off j :
  vm_inv s' (kernel_pagetable s') tbl' free' -> page_ok pa -> va = KSTACK (Z.of_nat j) -> (j < NPROC)%nat ->
  leaf_pte (mem s') tbl' (va + off) = Some (leaf_entry pa (PTE_R .| PTE_W)) -> 0 <= off < PGSIZE ->
  sv39_translate (mem s') (kernel_pagetable s') (va + off) = Some (pa + off, PTE_R .| PTE_W .| PTE_V).
Proof.
  intros I Hpa -> Hj Hl Hoff. destruct (kstack_facts j Hj) as (_ & Hal & H0 & Hhi0 & _). pose proof (kstack_range j Hj).
  pose proof (page_ok_pos pa Hpa). assert (Hpal : pa mod PGSIZE = 0) by apply Hpa.
  assert (Hhi : pa < 2 ^ 56).
  { destruct Hpa as (_ & _ & Hhi). unfold PHYSTOP, KERNBASE, PGSIZE in Hhi. lia. }
  rewrite (translate_leaf s' _ tbl' free' _ (Some (leaf_entry pa (PTE_R .| PTE_W))) I);
    [|unfold PGSIZE in *; lia|done].
  destruct (leaf_entry_hw pa (PTE_R .| PTE_W)) as (E1 & E2 & E3); [lia|done|by vm_compute|done|].
  cbn [mbind option_bind]. rewrite E1, E2, E3. do 2 f_equal. unfold PGSIZE in *. dmlia.
Qed.

(** The slots of an initialised table. *)
Lemma init_upto_slots s s' :
  length (procs s) = NPROC -> procs s' = init_upto NPROC (procs s) ->
  forall j q, procs s' !! j = Some q ->
    p_state q = UNUSED /\ p_kstack q = KSTACK (Z.of_nat j) /\ lock_free (L_proc j) s'.
Proof.
  intros Hlen Hps j q Hq. pose proof Hq as Hq'. rewrite Hps in Hq'. unfold init_upto in Hq'.
  rewrite list_lookup_imap in Hq'. apply fmap_Some in Hq' as (q0 & Hq0 & Eq).
  pose proof (lookup_lt_Some _ _ _ Hq0) as Hj. rewrite Hlen in Hj.
  rewrite (proj2 (Nat.ltb_lt j NPROC)) in Eq by done. subst q.
  split_and!; try done. unfold lock_free, get_lock. by rewrite Hq.
Qed.

(** What [procinit] leaves behind when the kernel's own table is the one it extends. *)
Lemma stacks_upto_stacked s tbl free stacks s' tbl' free' :
  kernel_space s tbl free -> satp (csr s) = MAKE_SATP (kernel_pagetable s) -> length stacks = NPROC ->
  stacks_upto s tbl free stacks s' tbl' free' -> stacked s' tbl' free' stacks.
Proof.
  intros [I K] Hsatp Hl Hs. destruct (stacks_NoDup _ _ _ _ _ _ _ Hs (NoDup_pages _ _ _ _ I)) as (Hnd & Hnf & Hin).
  pose proof (proj1 (su_frame _ _ _ _ _ _ _ Hs)) as Hf. split; try done.
  - apply (su_inv _ _ _ _ _ _ _ Hs).
  - intros va. rewrite (su_leaf _ _ _ _ _ _ _ Hs). unfold with_stacks. by rewrite K.
  - assert (Hcsr : csr s' = csr s) by by apply (f_equal csr) in Hf.
    assert (Hkp : kernel_pagetable s' = kernel_pagetable s) by by apply (f_equal kernel_pagetable) in Hf.
    by rewrite Hcsr, Hkp.
  - intros p Hp. split; [|by apply Hnf]. apply Hin, elem_of_app in Hp as [Hp|Hp].
    + apply list_elem_of_fmap in Hp as ([path x] & -> & Hx%elem_of_map_to_list).
      by apply (wf_page _ _ _ (vm_wf _ _ _ _ I) path).
    + eapply pool_page_ok; [apply I|done].
Qed.

Lemma kernel_space_wait s tbl free lk : kernel_space s tbl free -> kernel_space (set_lock L_wait lk s) tbl free.
Proof.
  intros [I K]. split; [|exact K].
  apply (vm_inv_move s); [exact I|done|done|apply (hart_ok_same s); [done..|apply (pool_hart s free), I]|].
  apply (pool_lock s free), I.
Qed.

(** The hardware translates by the table in force. *)
Lemma hw_translate_kernel s tbl va :
  satp (csr s) = MAKE_SATP (kernel_pagetable s) -> pt_wf (mem s) (kernel_pagetable s) tbl ->
  hw_translate s va = sv39_translate (mem s) (kernel_pagetable s) va.
Proof.
  intros Hs W. unfold hw_translate, satp_translate. rewrite Hs.
  destruct (make_satp_root (kernel_pagetable s)) as [E1 E2]; [apply (wf_page _ _ _ W []), W|].
  cbv zeta. by rewrite E1, E2.
Qed.

(** The kernel's address space: each stack page at the slot's [kstack], readable
    and writable; nothing on the guard page below it; elsewhere the identity map
    of kernel/mm/vm.c. *)
Record kernel_map (s : kstate) (stacks : list Z) : Prop := {
  km_stack : forall j pa off, stacks !! j = Some pa -> 0 <= off < PGSIZE ->
    hw_translate s (KSTACK (Z.of_nat j) + off) = Some (pa + off, PTE_R .| PTE_W .| PTE_V);
  km_guard : forall j off, (j < NPROC)%nat -> 0 <= off < PGSIZE ->
    hw_translate s (KSTACK (Z.of_nat j) - PGSIZE + off) = None;
  km_other : forall va, 0 <= va < 2 ^ 64 -> stack_of stacks va = None -> hw_translate s va = kernel_translate va;
}.

Lemma stacked_map s tbl free stacks : stacked s tbl free stacks -> kernel_map s stacks.
Proof.
  intros [I HL Hsp Hl _ Hpg].
  assert (Hhw : forall va, hw_translate s va = sv39_translate (mem s) (kernel_pagetable s) va).
  { intros va. apply (hw_translate_kernel s tbl va Hsp), I. }
  split.
  - intros j pa off Hj Hoff. pose proof (lookup_lt_Some _ _ _ Hj) as Hjb. rewrite Hl in Hjb.
    destruct (kstack_facts j Hjb) as (_ & Hal & H0 & Hhi & _). rewrite Hhw.
    apply (stack_translate s tbl free pa _ off j I); [|done|done| |done].
    + apply Hpg. by eapply list_elem_of_lookup_2.
    + rewrite HL. unfold with_stacks. rewrite (stack_of_kstack _ j pa); [done|done|].
      apply vbase_offset; [unfold PGSIZE in *; lia|done|done].
  - intros j off Hj Hoff. destruct (kstack_facts j Hj) as (_ & Hal & H0 & Hhi & _).
    pose proof (kstack_range j Hj) as Hr. rewrite Hhw.
    assert (Hv : vbase (KSTACK (Z.of_nat j) - PGSIZE + off) = KSTACK (Z.of_nat j) - PGSIZE).
    { apply vbase_offset; [unfold PGSIZE in *; lia| |done]. unfold PGSIZE in *. dmlia. }
    rewrite (translate_leaf s _ tbl free _ None I); [done|unfold PGSIZE in *; lia|].
    rewrite HL. unfold with_stacks. rewrite stack_of_other.
    + apply kernel_leaf_above. rewrite Hv. lia.
    + intros i _. rewrite Hv. apply guard_apart.
  - intros va Hva Hno. rewrite Hhw, (translate_wf _ _ tbl), HL by apply I. unfold with_stacks. rewrite Hno.
    by apply kernel_leaf_translate.
Qed.

(** [procinit] in the kernel's own address space. *)
Lemma procinit_stacked s tbl free :
  kernel_space s tbl free -> (NPROC + 2 <= length free)%nat -> satp (csr s) = MAKE_SATP (kernel_pagetable s) ->
  let s0 := set_lock L_wait (Spinlock 0 "wait_lock" None) s in
  exists s' tbl' free' stacks, procinit s = Done tt s' /\ stacked s' tbl' free' stacks
    /\ stacks_upto s0 tbl free stacks s' tbl' free'.
Proof.
  intros K Hfree Hsatp s0. pose proof (missing_le tbl (KSTACK 0)) as Hm.
  destruct (procinit_ok s tbl free (ks_inv _ _ _ K)) as (s' & tbl' & free' & stacks & E & Hl & Hs); [|lia|].
  { intros j Hj. rewrite (ks_leaf _ _ _ K). apply kernel_leaf_above. destruct (kstack_facts j Hj) as (-> & _).
    pose proof (kstack_range j Hj). unfold PGSIZE in *. lia. }
  exists s', tbl', free', stacks. split; [done|]. split; [|done].
  by apply (stacks_upto_stacked s0 tbl free); [apply kernel_space_wait|..].
Qed.

(** C38: [procinit] gives every process slot a kernel stack.  With the kernel's
    table in place, paging on and enough free pages it returns; every slot is
    unused with a free lock and has a stack page of its own, which is no longer
    free; the hardware translates the page at the slot's [kstack] to it,
    readable and writable, and faults on the guard page below it, so that a
    stack overflow hits no other memory; every other translation is as before
    ([kernel_map]). *)
Theorem procinit_maps_stacks s tbl free :
  kernel_space s tbl free -> (NPROC + 2 <= length free)%nat -> length (procs s) = NPROC ->
  satp (csr s) = MAKE_SATP (kernel_pagetable s) ->
  exists s' tbl' free' stacks, procinit s = Done tt s' /\ vm_inv s' (kernel_pagetable s') tbl' free'
    /\ length stacks = NPROC /\ NoDup stacks /\ (forall p, p ∈ stacks -> p ∉ free')
    /\ (forall j q, procs s' !! j = Some q ->
          p_state q = UNUSED /\ p_kstack q = KSTACK (Z.of_nat j) /\ lock_free (L_proc j) s')
    /\ kernel_map s' stacks.
Proof.
  intros K Hfree Hlen Hsatp.
  destruct (procinit_stacked s tbl free K Hfree Hsatp) as (s' & tbl' & free' & stacks & E & St & Hs).
  exists s', tbl', free', stacks. pose proof St as [I' _ _ Hl Hnd Hpg]. split_and!; try done.
  - intros p Hp. by apply Hpg.
  - apply (init_upto_slots s); [done|]. by rewrite (su_procs _ _ _ _ _ _ _ Hs), Hl.
  - by apply (stacked_map s' tbl' free').
Qed.

End proc_init.

(** ** Witnesses *)

#[local] Existing Instance demo_linker.
#[local] Existing Instance demo_linker_ok.

Lemma pool_with_procs l : procs (pool_with l) = procs demo_state.
Proof. induction l as [|p l IH]; [done|]. cbn [pool_with foldr]. exact IH. Qed.

(** A machine with its kernel page table in place, paging on and [n] free pages left. *)
Lemma demo_paged n :
  (n <= 900)%nat ->
  exists s tbl free, kernel_space s tbl free /\ (n <= length free)%nat /\ length (procs s) = NPROC
    /\ satp (csr s) = MAKE_SATP (kernel_pagetable s).
Proof.
  intros Hn. change (demo_pages (S n + 70)) with (page_a :: pages_from (page_a + PGSIZE) (n + 70)).
  destruct (kvminit_ok (pool_with (demo_pages (S n + 70))) page_a (pages_from (page_a + PGSIZE) (n + 70)))
    as (s & tbl & k & _ & Hk & Hk70 & K & F & _).
  - apply (demo_pages_pool (S n + 70)). lia.
  - cbn [length]. rewrite pages_from_length. unfold kvminit_pages. lia.
  - set (free := drop k _) in K.
    exists (set_csr (set_satp (MAKE_SATP (kernel_pagetable s)) (csr s)) s), tbl, free. split_and!; try done.
    + destruct K as [I Hl]. split; [|exact Hl].
      apply (vm_inv_move s); try done; [|by apply (pool_lock s free), I].
      apply (hart_ok_tp s); [done..|apply (pool_hart s free), I].
    + unfold free. rewrite length_drop. cbn [length]. rewrite pages_from_length. unfold kvminit_pages in *. lia.
    + change (procs (set_csr _ s)) with (procs s). rewrite (frame_procs _ _ F).
      change (procs (set_kernel_pagetable _ ?x)) with (procs x). by rewrite pool_with_procs.
Qed.

Lemma procinit_maps_stacks_witness :
  exists s s' tbl' free' (stacks : list Z), procinit s = Done tt s' /\ vm_inv s' (kernel_pagetable s') tbl' free'
    /\ length stacks = NPROC
    /\ (forall off, 0 <= off < PGSIZE -> hw_translate s' (KSTACK 63 - PGSIZE + off) = None).
Proof.
  destruct (demo_paged 100 ltac:(lia)) as (s & tbl & free & K & Hf & Hp & Hs).
  destruct (procinit_maps_stacks s tbl free K) as (s' & tbl' & free' & stacks & E & I & Hl & _ & _ & _ & [_ H _]);
    [unfold NPROC; lia|done|done|].
  exists s, s', tbl', free', stacks. split_and!; try done.
  intros off Hoff. apply (H 63%nat off); [unfold NPROC; lia|done].
Defined.
