(* ===== verification/Switch.v ===== *)
(** * Context switches

    What the two halves of a switch do together: [scheduler_try] starts or
    resumes a thread, [scheduler_back] takes the CPU back, and [yield_leave],
    [sleep_leave] and [forkret] are what a thread does first when it runs.  The
    slot's lock is taken by one side and released by the other. *)

From S2P Require Import Prelude Riscv Memory State Spinlock Kalloc Vm VmMap Uart Printf Csr Proc ProcTable ProcMem ProcExit.

(** ** Definitions *)

(** Registers, the current process, the scheduler's context and the process
    table replaced: what a switch writes. *)
Definition swapped (r : context) (cur : option nat) (sched : context)
    (F : list proc -> list proc) (s : kstate) : kstate :=
  set_regs r (set_cpu0 (set_c_proc cur (set_c_context sched (cpu0 s))) (table F s)).

(** The hart after leaving an outermost critical section whose saved enable bit
    is [i]. *)
Definition restored (i : Z) (s : kstate) : kstate :=
  let x := sstatus (csr s) in
  set_intena i (set_csr (set_sstatus
    (if i =? 0 then x .& Z.lnot SSTATUS_SIE else x .| SSTATUS_SIE) (csr s)) s).

(** The scheduler has the CPU back from [me], which updated its slot by [f]. *)
Definition descheduled (me : nat) (f : proc -> proc) (s : kstate) : kstate :=
  swapped (c_context (cpu0 s)) None (c_context (cpu0 s))
    (alter (fun q => set_p_context (regs s) (f q)) me) s.

(** The scheduler has switched to [k]; the slot's lock is still held. *)
Definition dispatched (k : nat) (q : proc) (s : kstate) : kstate :=
  swapped (p_context q) (Some k) (regs s) (alter (set_p_state RUNNING) k)
    (locked_state (L_proc k) s).

(** [k] runs outside its lock, with saved enable bit [i]. *)
Definition resumed (k : nat) (q : proc) (f : proc -> proc) (i : Z) (s : kstate) : kstate :=
  swapped (p_context q) (Some k) (regs s) (alter (fun q => f (set_p_state RUNNING q)) k)
    (restored i s).

(** The scheduler runs, outside all critical sections. *)
Record scheduling (s : kstate) : Prop := {
  sg_hart : hart_ok s;
  sg_depth : noff s = 0;
  sg_cur : c_proc (cpu0 s) = None;
  sg_locks : plocks_free (fun _ => False) s;
}.

(** ** Leaving a section entered on the other side of a switch *)

Lemma restored_eq i s : restored i s = set_intena i (if i =? 0 then sie_off s else sie_on s).
Proof. unfold restored. by case_match. Qed.

Lemma restored_touch s : noff s = 0 -> restored (c_bool (intr_get s)) s = touch s.
Proof.
  intros Hn. rewrite restored_eq. unfold touch. rewrite Hn. cbn [Z.eqb].
  destruct (intr_get s) eqn:Hi; cbn [c_bool Z.eqb]; [by rewrite sie_on_id|by rewrite sie_off_id].
Qed.

Lemma restored_off s : noff s = 0 -> intr_get s = false -> restored 0 s = touch s.
Proof. intros Hn Hi. rewrite <- restored_touch, Hi by done. done. Qed.

Lemma noff_restored i s : noff (restored i s) = noff s.
Proof. done. Qed.

Lemma get_lock_restored l i s : get_lock l (restored i s) = get_lock l s.
Proof. by destruct l. Qed.

Lemma tp_restored i s : tp (csr (restored i s)) = tp (csr s).
Proof. done. Qed.

Lemma hart_ok_restored i s : hart_ok s -> noff s = 0 -> hart_ok (restored i s).
Proof.
  intros [H1 H2 H3] Hn. split; rewrite ?noff_restored, ?tp_restored; lia || done.
Qed.

Lemma intr_get_restored i s : intr_get (restored i s) = negb (i =? 0).
Proof.
  rewrite restored_eq. destruct (i =? 0); cbn [negb].
  - apply (intr_get_sie_off s).
  - rewrite intr_get_spec. unfold sie_on, set_intena. ksimpl.
    rewrite Z.lor_spec, sie_testbit by lia. apply orb_true_r.
Qed.

(** Taking and giving back a lock around [swapped]. *)
Lemma unlock_swapped i l r cur sc F s `{!TableNeutral F} :
  noff s = 0 ->
  set_lock l (get_lock l s) (set_intena i (swapped r cur sc F (locked_state l s)))
  = set_noff 1 (set_intena i (swapped r cur sc F (sie_off s))).
Proof.
  intros Hn. pose proof (set_get_lock l s) as Hg.
  destruct l as [| | | | |j]; cbn [set_lock get_lock] in *;
    unfold locked_state, swapped, pushed, touch, sie_off, set_noff, set_intena, noff, set_lock in *;
    rewrite Hn in *; [by destruct s, cpu0..|].
  unfold table. ksimpl. rewrite (tn_comm (F := F)), list_alter_alter_eq.
  match goal with |- context [F (alter ?f j (procs s))] =>
    replace (alter f j (procs s)) with (procs s) end.
  - by destruct s as [? ? ? [] ? ? ? ? ? ? ? ? ? ? ? ? ?].
  - apply (f_equal procs) in Hg. cbn in Hg. symmetry. refine (eq_trans _ Hg).
    apply list_eq. intros k. rewrite !alter_lookup. by case_decide.
Qed.

Lemma sie_on_sie_off s : sie_on (sie_off s) = sie_on s.
Proof.
  assert (H : forall x, x .& Z.lnot SSTATUS_SIE .| SSTATUS_SIE = x .| SSTATUS_SIE).
  { intros x. zbits. rewrite sie_testbit by lia. by destruct (i =? 1), (Z.testbit x i). }
  destruct s as [? [] ? ? ? ? ? ? ? ? ? ? ? ? ? ? ?]. unfold sie_on, sie_off. ksimpl. by rewrite H.
Qed.

Lemma popped_swapped i r cur sc F s :
  noff s = 0 ->
  popped (set_noff 1 (set_intena i (swapped r cur sc F (sie_off s)))) = swapped r cur sc F (restored i s).
Proof.
  intros Hn. rewrite restored_eq. unfold popped. cbn [intena set_intena]. unfold noff in Hn.
  change (intena (set_noff _ (set_noff 1 (set_intena i (swapped r cur sc F (sie_off s)))))) with i.
  change (noff (set_noff 1 (set_intena i (swapped r cur sc F (sie_off s)))) - 1) with 0.
  change (noff (set_noff 0 (set_noff 1 (set_intena i (swapped r cur sc F (sie_off s)))))) with 0.
  cbn [Z.eqb andb].
  destruct (i =? 0) eqn:E; cbn [negb].
  - destruct s as [? [] ? [] ? ? ? ? ? ? ? ? ? ? ? ? ?]. cbn in Hn. by subst.
  - rewrite <- (sie_on_sie_off s). destruct s as [? [] ? [] ? ? ? ? ? ? ? ? ? ? ? ? ?]. cbn in Hn. by subst.
Qed.

Lemma hart_ok_noff s s' : csr s' = csr s -> noff s' = noff s -> hart_ok s -> hart_ok s'.
Proof.
  intros Hc Hn [? ? ?]. unfold intr_get in *. split; unfold intr_get; by rewrite ?Hc, ?Hn.
Qed.

(** The release on the other side: the saved bit is the thread's own. *)
Lemma release_swapped i l r cur sc F s `{!TableNeutral F} :
  hart_ok s -> noff s = 0 -> lock_exists l s -> lock_free l s ->
  release l (set_intena i (swapped r cur sc F (locked_state l s)))
  = Done tt (swapped r cur sc F (restored i s)).
Proof.
  intros Hh Hn Hex [Hf1 Hf2].
  set (x := set_intena i (swapped r cur sc F (locked_state l s))).
  assert (Gx : get_lock l x = get_lock l (locked_state l s)).
  { change (get_lock l x) with (get_lock l (table F (locked_state l s))).
    by rewrite (ind_get (l := l) (u := table F)). }
  assert (Nx : noff x = 1).
  { change (noff x) with (noff (locked_state l s)). rewrite noff_locked. lia. }
  assert (Lw : Spinlock 0 (lk_name (get_lock l s)) None = get_lock l s).
  { destruct (get_lock l s). cbn in *. by subst. }
  rewrite release_ok.
  - f_equal. unfold unlocked_state. rewrite Gx. unfold locked_state at 1.
    rewrite get_set_lock by by apply lock_exists_pushed. cbn [lk_name]. rewrite Lw.
    unfold x. rewrite unlock_swapped by done. by apply popped_swapped.
  - change (csr x) with (csr (locked_state l s)). rewrite tp_locked. apply Hh.
  - change (intr_get x) with (intr_get (locked_state l s)). unfold locked_state.
    rewrite intr_get_set_lock. apply intr_get_pushed.
  - lia.
  - intros j ->. change (procs x) with (F (procs (locked_state (L_proc j) s))).
    rewrite (tn_length (F := F)), length_procs_locked. by apply Hex.
  - unfold lock_held. rewrite Gx. by apply locked_state_held.
Qed.

Lemma release_swapped_same l r cur sc F s `{!TableNeutral F} :
  hart_ok s -> noff s = 0 -> lock_exists l s -> lock_free l s ->
  release l (swapped r cur sc F (locked_state l s)) = Done tt (swapped r cur sc F (touch s)).
Proof.
  intros Hh Hn Hex Hf. rewrite <- restored_touch by done.
  rewrite <- (release_swapped _ l) by done. f_equal.
  assert (Hi : intena (locked_state l s) = c_bool (intr_get s)) by by apply intena_locked.
  unfold swapped, set_intena, intena, locked_state in *.
  set (y := set_lock _ _ _) in *. clearbody y. rewrite <- Hi.
  by destruct y as [? ? ? [] ? ? ? ? ? ? ? ? ? ? ? ? ?].
Qed.

(** ** The scheduler's halves *)

Lemma scheduler_back_parked me f s `{!LockNeutral f} :
  hart_ok s -> noff s = 0 -> lock_exists (L_proc me) s -> lock_free (L_proc me) s ->
  scheduler_back me (parked me f s) = Done tt (descheduled me f (touch s)).
Proof.
  intros Hh Hn Hex Hf. unfold scheduler_back. mrun.
  assert (E : set_cpu0 (set_c_proc None (cpu0 (parked me f s))) (parked me f s)
    = swapped (c_context (cpu0 s)) None (c_context (cpu0 s))
        (alter (fun q => set_p_context (regs s) (f q)) me) (locked_state (L_proc me) s)).
  { unfold parked, switched. rewrite table_compose3. done. }
  rewrite E. by apply (release_swapped_same (L_proc me)); first [apply _|done].
Qed.

Lemma scheduler_try_ok k q s :
  hart_ok s -> plocks_free (fun _ => False) s -> procs s !! k = Some q ->
  scheduler_try k s =
  if bool_decide (p_state q = RUNNABLE) then Done true (dispatched k q s) else Done false (touch s).
Proof.
  intros Hh [Hlen Hf] Hq. pose proof (lookup_lt_Some _ _ _ Hq) as Hb. rewrite Hlen in Hb.
  assert (Hex : lock_exists (L_proc k) s) by by apply lock_exists_proc.
  assert (Hfk : lock_free (L_proc k) s) by (apply Hf; [done|tauto]).
  unfold scheduler_try. mstep; [by apply acquire_ok; [| |apply Hfk]|].
  mstep; [by apply get_proc_ok, (lookup_locked_self k q)|]. cbn [p_state set_p_lock].
  case_bool_decide as Hst.
  - mstep; [apply upd_ok|]. mrun.
    mstep; [|reflexivity]. unfold swtch_to_proc. mrun.
    mstep. { apply (get_proc_ok k). apply (lookup_alter_slot (locked_state (L_proc k) s)).
      by apply lookup_locked_self. }
    unfold mret, M_ret, modify. f_equal.
  - mstep; [by apply (release_section (L_proc k) (fun s => s))|]. done.
Qed.

(** ** The thread's halves *)

Lemma set_intena_compose_upd i k f s :
  table (alter f k) (set_intena i s) = set_intena i (table (alter f k) s).
Proof. done. Qed.

Lemma yield_leave_ok k q i s :
  hart_ok s -> noff s = 0 -> plocks_free (fun _ => False) s -> procs s !! k = Some q ->
  yield_leave k i (dispatched k q s) = Done tt (resumed k q (fun q => q) i s).
Proof.
  intros Hh Hn [Hlen Hf] Hq. pose proof (lookup_lt_Some _ _ _ Hq) as Hb. rewrite Hlen in Hb.
  unfold yield_leave, sched_leave.
  rewrite bind_assoc, bind_mycpu by (change (csr (dispatched k q s)) with (csr (locked_state (L_proc k) s));
    rewrite tp_locked; apply Hh).
  mrun. apply release_swapped; [apply _|done|done|by apply lock_exists_proc|apply Hf; [done|tauto]].
Qed.

Lemma sleep_leave_ok k q i lk s :
  hart_ok s -> noff s = 0 -> plocks_free (fun _ => False) s -> procs s !! k = Some q ->
  is_global lk -> lock_free lk s ->
  sleep_leave k i lk (dispatched k q s)
  = Done tt (locked_state lk (resumed k q (set_p_chan PNull) i s)).
Proof.
  intros Hh Hn [Hlen Hf] Hq Hg Hlk. pose proof (lookup_lt_Some _ _ _ Hq) as Hb. rewrite Hlen in Hb.
  unfold sleep_leave, sched_leave.
  rewrite bind_assoc, bind_mycpu by (change (csr (dispatched k q s)) with (csr (locked_state (L_proc k) s));
    rewrite tp_locked; apply Hh).
  mrun. mstep; [apply upd_ok|]. rewrite bool_decide_eq_false_2 by apply Hg. cbn [negb when].
  mstep.
  { change (table (alter (set_p_chan PNull) k) (set_intena i (dispatched k q s))) with
      (set_intena i (swapped (p_context q) (Some k) (regs s)
        (fun ps => alter (set_p_chan PNull) k (alter (set_p_state RUNNING) k ps))
        (locked_state (L_proc k) s))).
    apply release_swapped; [apply _|done|done|by apply lock_exists_proc|apply Hf; [done|tauto]]. }
  assert (E : swapped (p_context q) (Some k) (regs s)
      (fun ps => alter (set_p_chan PNull) k (alter (set_p_state RUNNING) k ps)) (restored i s)
    = resumed k q (set_p_chan PNull) i s).
  { unfold resumed, swapped, table. by rewrite list_alter_alter_eq. }
  rewrite E. apply acquire_ok.
  - apply (hart_ok_noff (restored i s)); [done|done|by apply hart_ok_restored].
  - by apply lock_exists_global.
  - change (get_lock lk (resumed k q (set_p_chan PNull) i s)) with (get_lock lk (table (alter (fun q => set_p_chan PNull (set_p_state RUNNING q)) k) (restored i s))).
    rewrite (ind_get (l := lk) (u := table _)), get_lock_restored. apply Hlk.
Qed.

(** ** forkret *)

Definition first_message (first : Z) : list Z :=
  if first =? 0 then [] else str "init: first process started" ++ nl.

(** A thread's first step: it leaves the scheduler's critical section and, for
    the first thread of all, reports. *)
Definition started (k : nat) (q : proc) (n : nat) (s : kstate) : kstate :=
  set_forkret_first 0 (io_step n ((fun b => (UART0 + THR, b)) <$> first_message (forkret_first s))
    (resumed k q (fun q => q) (c_bool (intr_get s)) s)).

Lemma set_forkret_first_id s : forkret_first s = 0 -> set_forkret_first 0 s = s.
Proof. intros H. destruct s. cbn in H. by subst. Qed.

Lemma touch_resumed k q f b s :
  noff s = 0 -> touch (resumed k q f (c_bool b) s) = resumed k q f (c_bool b) s.
Proof.
  intros Hn. pose proof (intr_get_restored (c_bool b) s) as Hi. unfold touch.
  replace (noff (resumed k q f (c_bool b) s)) with 0 by (rewrite <- Hn; symmetry; apply (noff_restored (c_bool b) s)).
  change (intr_get (resumed k q f (c_bool b) s)) with (intr_get (restored (c_bool b) s)). rewrite Hi. cbn [Z.eqb].
  by destruct b.
Qed.

Lemma hart_ok_resumed k q f i s : hart_ok s -> noff s = 0 -> hart_ok (resumed k q f i s).
Proof.
  intros Hh Hn. apply (hart_ok_noff (restored i s)); [done|done|by apply hart_ok_restored].
Qed.

Lemma lock_free_resumed k q f i l s `{!LockNeutral f} :
  lock_free l s -> lock_free l (resumed k q f i s).
Proof.
  intros Hl. unfold lock_free.
  change (get_lock l (resumed k q f i s))
    with (get_lock l (table (alter (fun q => f (set_p_state RUNNING q)) k) (restored i s))).
  rewrite (ind_get (l := l) (u := table _)), get_lock_restored. exact Hl.
Qed.

Lemma dispatched_release k q s :
  scheduling s -> procs s !! k = Some q ->
  release (L_proc k) (dispatched k q s) = Done tt (resumed k q (fun q => q) (c_bool (intr_get s)) s).
Proof.
  intros [Hh Hn _ [Hlen Hf]] Hq. pose proof (lookup_lt_Some _ _ _ Hq) as Hb. rewrite Hlen in Hb.
  unfold resumed. rewrite restored_touch by done.
  apply release_swapped_same; [apply _|done|done|by apply lock_exists_proc|apply Hf; [done|tauto]].
Qed.

(** The report of the first thread. *)
Lemma forkret_report k q s :
  scheduling s -> lock_free L_print s -> uart_live s ->
  let r := resumed k q (fun q => q) (c_bool (intr_get s)) s in
  exists n, when (negb (forkret_first r =? 0))
     (modify (set_forkret_first 0) ;;
      printf (str "init: first process started" ++ nl) [] ;; mret tt) r = Done tt (started k q n s).
Proof.
  intros [Hh Hn Hc Hpl] Hpr Hl r.
  assert (Htr : touch r = r) by by apply touch_resumed.
  change (forkret_first r) with (forkret_first s). unfold started, first_message. fold r.
  destruct (Z.eqb_spec (forkret_first s) 0) as [E|E]; cbn [negb when].
  - exists 0%nat. rewrite set_forkret_first_id by done. cbn [fmap list_fmap]. by rewrite io_step_0.
  - mrun. destruct (printf_ok (str "init: first process started" ++ nl) []
      (str "init: first process started" ++ nl) (set_forkret_first 0 r)) as (s' & Ep & n & ->).
    + by apply (hart_ok_noff r); [done..|]; apply hart_ok_resumed.
    + by apply (lock_free_resumed k q (fun q => q) (c_bool (intr_get s)) L_print s).
    + exact Hl.
    + by apply (bool_decide_unpack _).
    + by vm_compute.
    + exists n. mstep; [exact Ep|]. rewrite <- Htr at 2. done.
Qed.

Lemma forkret_ok k q s :
  scheduling s -> lock_free L_print s -> uart_live s -> procs s !! k = Some q ->
  exists n, s0 (p_context q) <> 0 /\ forkret (dispatched k q s) = Done (s0 (p_context q)) (started k q n s)
    \/ s0 (p_context q) = 0 /\ exists s', forkret (dispatched k q s) = Panic "forkret" s'.
Proof.
  intros Hs Hpr Hl Hq. pose proof Hs as [Hh Hn Hc Hpl].
  assert (Hd : hart_ok (dispatched k q s)).
  { apply (hart_ok_noff (locked_state (L_proc k) s)); [done|done|].
    apply hart_ok_locked_state; [done|lia]. }
  assert (Nd : noff (dispatched k q s) <> 0).
  { change (noff (dispatched k q s)) with (noff (locked_state (L_proc k) s)). rewrite noff_locked. lia. }
  destruct (forkret_report k q s Hs Hpr Hl) as [n Ef].
  exists n. unfold forkret.
  rewrite (bind_Done _ _ _ _ _ _ (myproc_ok _ Hd) eq_refl), touch_deep by done.
  change (c_proc (cpu0 (dispatched k q s))) with (Some k). cbn [deref]. mrun.
  rewrite (bind_Done _ _ _ _ _ _ (dispatched_release k q s Hs Hq) eq_refl). mrun.
  rewrite (bind_Done _ _ _ _ _ _ Ef eq_refl).
  rewrite (bind_Done _ _ _ _ _ _ (get_proc_ok k (set_p_state RUNNING q) (started k q n s)
    (lookup_alter_slot s k q _ Hq)) eq_refl).
  cbn [p_context set_p_state]. destruct (Z.eqb_spec (s0 (p_context q)) 0) as [E0|E0]; cbn [negb]; [right|by left].
  split; [done|].
  destruct (printf_ok (str "forkret: no kernel task and userret not implemented" ++ nl) []
    (str "forkret: no kernel task and userret not implemented" ++ nl) (started k q n s)) as (s' & Ep & _).
  - apply (hart_ok_noff (resumed k q (fun q => q) (c_bool (intr_get s)) s)); [done..|]. by apply hart_ok_resumed.
  - by apply (lock_free_resumed k q (fun q => q) (c_bool (intr_get s)) L_print s).
  - exact Hl.
  - by apply (bool_decide_unpack _).
  - by vm_compute.
  - exists s'. by mstep; [exact Ep|].
Qed.
