(* ===== verification/Trap.v ===== *)
(** * Traps

    kernel/trap.c: the timer tick, the dispatch on the cause of an interrupt,
    and [kerneltrap].  [trap_entry] and [sret] are what the hart does around it:
    on a trap to supervisor mode it saves the pc, the cause and the interrupt
    enable bit and masks interrupts, and [sret] undoes the latter.  (kernelvec.S
    saves and restores the registers around the call; see Asm.v.)

    [kerneltrap] may give up the CPU in the middle: [kerneltrap_enter] is the
    part up to [yield]'s switch, or all of the handler's work if it does not
    yield, and [kerneltrap_leave] the rest. *)

From S2P Require Import Prelude Riscv Memory State Spinlock Kalloc Vm VmMap Sv39 Uart Printf Csr Proc ProcTable ProcMem ProcExit Switch.

(** ** The hart *)

Definition SSTATUS_SPIE : Z := Z.shiftl 1 5.

(** [sstatus] on a trap from supervisor mode: SPP is set, SPIE becomes SIE, SIE
    is cleared. *)
Definition trap_sstatus (x : Z) : Z :=
  (x .& Z.lnot (SSTATUS_SIE .| SSTATUS_SPIE .| SSTATUS_SPP)) .| SSTATUS_SPP
  .| (if Z.testbit x 1 then SSTATUS_SPIE else 0).

(** [sstatus] on [sret]: SIE becomes SPIE, SPIE is set, SPP is cleared. *)
Definition sret_sstatus (x : Z) : Z :=
  (x .& Z.lnot (SSTATUS_SIE .| SSTATUS_SPIE .| SSTATUS_SPP)) .| SSTATUS_SPIE
  .| (if Z.testbit x 5 then SSTATUS_SIE else 0).

(** A trap with cause [cause] and value [tval] at the instruction [pc]. *)
Definition trap_entry (cause pc tval : Z) (s : kstate) : kstate :=
  set_csr (set_sstatus (trap_sstatus (sstatus (csr s)))
    (set_sepc pc (set_scause cause (set_stval tval (csr s))))) s.

Definition sret (s : kstate) : kstate :=
  set_csr (set_sstatus (sret_sstatus (sstatus (csr s))) (csr s)) s.

(** ** trap.c *)

Section trap.
Context `{L : Linker}.

Definition timer_interrupt : M unit :=
  modify (fun s => set_ticks (u32 (ticks s + 1)) s) ;;
  acquire L_ticks ;;
  wakeup PTicks ;;
  release L_ticks ;;
  t ← gets ticks;
  printf (str "tick %d" ++ nl) [VInt t] ;;
  t ← r_time;
  w_stimecmp (u64 (t + 10000000)).

Definition SCAUSE_EXTERNAL : Z := 0x8000000000000009.

Definition SCAUSE_TIMER : Z := 0x8000000000000005.

Definition devintr : M Z :=
  scause ← r_scause;
  if scause =? SCAUSE_EXTERNAL then
    irq ← plic_claim;
    (if irq =? UART0_IRQ then uart_intr
     else if irq =? VIRTIO0_IRQ then panic "virtio_disk_intr not implemented in lab 4"
     else when (negb (irq =? 0))
       (printf (str "unexpected interrupt irq=%d" ++ nl) [VInt irq] ;; mret tt)) ;;
    when (negb (irq =? 0)) (plic_complete irq) ;;
    mret 1
  else if scause =? SCAUSE_TIMER then
    timer_interrupt ;;
    mret 2
  else mret 0.

(** The report of a trap the kernel does not handle. *)
Definition trap_report (scause : Z) : M unit :=
  sepc ← r_sepc;
  stval ← r_stval;
  printf (str "scause=0x%lx sepc=0x%lx stval=0x%lx" ++ nl) [VInt scause; VInt sepc; VInt stval] ;;
  mret tt.

(** [kerneltrap] up to the switch in [yield], if it yields: the saved [sepc] and
    [sstatus], and the process and saved bit of [yield]. *)
Definition kerneltrap_enter : M (Z * Z * option (nat * Z)) :=
  sepc ← r_sepc;
  sstatus ← r_sstatus;
  scause ← r_scause;
  if sstatus .& SSTATUS_SPP =? 0 then panic "kerneltrap: not from supervisor mode" else
  on ← gets intr_get;
  if (on : bool) then panic "kerneltrap: interrupts enabled" else
  which_dev ←
    (if negb (scause .& 0x8000000000000000 =? 0) then
       d ← devintr;
       if d =? 0 then trap_report scause ;; panic "kerneltrap: unexpected interrupt" else mret d
     else if scause =? 8 then panic "kerneltrap: system call from kernel"
     else if scause =? 13 then panic "kerneltrap: load page fault"
     else if scause =? 15 then panic "kerneltrap: store/AMO page fault"
     else trap_report scause ;; panic "kerneltrap:exception");
  y ← (if which_dev =? 2 then p ← myproc; mret (negb (is_null p)) else mret false);
  if (y : bool) then
    r ← yield_enter;
    mret (sepc, sstatus, Some r)
  else mret (sepc, sstatus, None).

Definition kerneltrap_leave (sepc sstatus : Z) (y : option (nat * Z)) : M unit :=
  match y with
  | Some (p, i) => yield_leave p i
  | None => mret tt
  end ;;
  w_sepc sepc ;;
  w_sstatus sstatus.

End trap.

(** ** The state after a tick *)

Definition tick_message (t : Z) : list Z := str "tick " ++ render 10 true (i32 t) ++ nl.

(** The timer armed for 10000000 time units from now. *)
Definition rearmed (s : kstate) : kstate :=
  set_csr (set_stimecmp (u64 (io_time (io s) (io_now (io s)) + 10000000)) (csr s))
    (set_io (set_io_now (S (io_now (io s))) (io s)) s).

Definition ticked (n : nat) (s : kstate) : kstate :=
  let t := u32 (ticks s + 1) in
  rearmed (io_step n ((fun b => (UART0 + THR, b)) <$> tick_message t)
    (table (woken PTicks (c_proc (cpu0 s))) (touch (set_ticks t s)))).

(** ** Bits of [sstatus] *)

Lemma sstatus_testbits i :
  Z.testbit SSTATUS_SIE i = (i =? 1) /\ Z.testbit SSTATUS_SPIE i = (i =? 5)
  /\ Z.testbit SSTATUS_SPP i = (i =? 8).
Proof.
  change SSTATUS_SIE with (2 ^ 1). change SSTATUS_SPIE with (2 ^ 5). change SSTATUS_SPP with (2 ^ 8).
  by rewrite !testbit_pow2 by lia.
Qed.

Lemma trap_sstatus_testbit x i :
  0 <= i -> Z.testbit (trap_sstatus x) i
  = if i =? 1 then false else if i =? 5 then Z.testbit x 1 else if i =? 8 then true else Z.testbit x i.
Proof.
  intros Hi. unfold trap_sstatus. destruct (sstatus_testbits i) as (E1 & E2 & E3).
  autorewrite with zbits. rewrite !E1, !E2, !E3.
  destruct (Z.testbit x 1); autorewrite with zbits; rewrite ?E2;
    destruct (Z.eqb_spec i 1), (Z.eqb_spec i 5), (Z.eqb_spec i 8); subst; try lia;
    by destruct (Z.testbit x i).
Qed.

Lemma sret_sstatus_testbit x i :
  0 <= i -> Z.testbit (sret_sstatus x) i
  = if i =? 1 then Z.testbit x 5 else if i =? 5 then true else if i =? 8 then false else Z.testbit x i.
Proof.
  intros Hi. unfold sret_sstatus. destruct (sstatus_testbits i) as (E1 & E2 & E3).
  autorewrite with zbits. rewrite !E1, !E2, !E3.
  destruct (Z.testbit x 5); autorewrite with zbits; rewrite ?E1;
    destruct (Z.eqb_spec i 1), (Z.eqb_spec i 5), (Z.eqb_spec i 8); subst; try lia;
    by destruct (Z.testbit x i).
Qed.

Lemma intr_get_trap cause pc tval s : intr_get (trap_entry cause pc tval s) = false.
Proof. rewrite intr_get_spec. apply (trap_sstatus_testbit (sstatus (csr s)) 1). lia. Qed.

Lemma trap_from_supervisor x : (trap_sstatus x .& SSTATUS_SPP =? 0) = false.
Proof.
  change SSTATUS_SPP with (2 ^ 8). rewrite land_pow2_testbit by lia.
  by rewrite trap_sstatus_testbit by lia.
Qed.

Section trap_facts.
Context {L : Linker}.

(** ** Ticks *)

(** What handlers need of the hart: interrupts came from outside all critical
    sections, nobody else holds a lock, and the UART answers.  The current
    process's own slot lock may be anything: [wakeup] skips it. *)
Record interruptible (s : kstate) : Prop := {
  ib_hart : hart_ok s;
  ib_depth : noff s = 0;
  ib_length : length (procs s) = NPROC;
  ib_procs : forall j, (j < NPROC)%nat -> c_proc (cpu0 s) <> Some j -> lock_free (L_proc j) s;
  ib_ticks : lock_free L_ticks s;
  ib_print : lock_free L_print s;
  ib_uart : uart_live s;
}.

Lemma interruptible_trap cause pc tval s : interruptible s -> interruptible (trap_entry cause pc tval s).
Proof.
  intros [[H1 H2 H3] H4 H5 H6 H7 H8 H9]. split; try done. split; [done|done|].
  change (noff (trap_entry cause pc tval s)) with (noff s). lia.
Qed.

Lemma timer_interrupt_ok s :
  interruptible s -> exists n, timer_interrupt s = Done tt (ticked n s).
Proof.
  intros [Hh Hn Hl Hp Ht Hpr Hu]. set (t := u32 (ticks s + 1)). set (s0 := set_ticks t s).
  assert (Hh0 : hart_ok s0) by by apply (hart_ok_same s).
  set (s1 := table (woken PTicks (c_proc (cpu0 s))) (touch s0)).
  assert (Ets : touch s1 = s1) by (unfold s1; by rewrite touch_table, touch_touch).
  destruct (printf_ok (str "tick %d" ++ nl) [VInt t] (tick_message t) s1) as (s2 & Ep & n & Es2).
  { by apply hart_ok_table, hart_ok_touch. }
  { exact Hpr. }
  { exact Hu. }
  { by apply (bool_decide_unpack _). }
  { apply (formatted_int1 (str "tick ") nl); by apply (bool_decide_unpack _). }
  rewrite Ets in Es2. subst s2.
  exists n. unfold timer_interrupt. mrun.
  mstep; [by apply acquire_ok; [|apply lock_exists_global|apply Ht]|].
  mstep.
  { apply wakeup_ok.
    - apply hart_ok_locked_state; [done|]. by replace (noff _) with 0 by (symmetry; exact Hn).
    - rewrite length_procs_locked. exact Hl.
    - intros j Hj Hc. apply lock_free_locked; [done|]. by apply Hp. }
  rewrite touch_locked by done.
  mstep. { apply (release_section L_ticks (table (woken PTicks (c_proc (cpu0 s))))); [done|by apply lock_exists_global|done]. }
  fold s1. mrun. mstep; [exact Ep|]. mstep; [reflexivity|]. reflexivity.
Qed.

(** ** External interrupts *)

Lemma uart_intr_loop_inv fuel s s' :
  uart_intr_loop fuel s = Done tt s' -> exists n, s' = io_step n [] s.
Proof.
  revert s; induction fuel as [|fuel IH]; intros s; [done|]. cbn [uart_intr_loop].
  assert (H : exists c n, uartgetc s = Done c (io_step n [] s)).
  { destruct (Z.testbit (io_in (io s) (io_now (io s)) (UART0 + LSR)) 0) eqn:E.
    - rewrite uartgetc_ready by done. eauto.
    - rewrite uartgetc_empty by done. eauto. }
  destruct H as (c & n & H). rewrite (bind_Done _ _ _ _ _ _ H eq_refl).
  destruct (c =? -1); [intros [= <-]; eauto|]. unfold consoleintr. rewrite bind_ret.
  intros (m & ->)%IH. rewrite io_step_step. eauto.
Qed.

Lemma uart_intr_inv s s' : uart_intr s = Done tt s' -> exists n, s' = io_step n [] s.
Proof.
  unfold uart_intr. rewrite (bind_Done _ _ _ _ _ _ (ReadReg_ok ISR s) eq_refl). rewrite bind_gets.
  intros (n & ->)%uart_intr_loop_inv. rewrite io_step_step. eauto.
Qed.

(** ** What a handler changes *)

(** From [s] to [s']: device state, the timer's next deadline, the tick count,
    the saved enable bit and threads waiting for a tick; nothing else. *)
Record handled (s s' : kstate) : Prop := {
  hd_rest : set_io (io s) (set_csr (csr s)
      (set_intena (intena s) (set_ticks (ticks s) (set_procs (procs s) s')))) = s;
  hd_csr : set_stimecmp (stimecmp (csr s)) (csr s') = csr s;
  hd_procs : procs s' = procs s \/ procs s' = woken PTicks (c_proc (cpu0 s)) (procs s);
  hd_in : io_in (io s') = io_in (io s);
  hd_wait : io_wait (io s') = io_wait (io s);
}.

Lemma handled_ticked n s : handled s (ticked n s).
Proof.
  split; [|by destruct s as [? [] ? ? ? ? ? ? ? ? ? ? ? ? ? ? ?]|by right|done..].
  destruct s as [? [] ? [] ? ? ? ? ? ? ? ? ? ? ? ? ?]. unfold ticked, rearmed, touch.
  change (noff (set_ticks _ ?x)) with (noff x). by case_match.
Qed.

Lemma handled_io_step n w s : handled s (io_step n w s).
Proof. split; try done; [|by destruct s as [? []]|by left]. by destruct s as [? [] ? [] ? ? ? ? ? ? ? ? ? ? ? ? ?]. Qed.

Lemma handled_says bs s s' : says bs s s' -> handled s s'.
Proof.
  intros [n ->]. split; try done; [|by destruct s as [? []]|by left].
  destruct s as [? [] ? [] ? ? ? ? ? ? ? ? ? ? ? ? ?]. unfold touch. by case_match.
Qed.

Lemma handled_io s s' io1 : handled s s' -> io_in io1 = io_in (io s) -> io_wait io1 = io_wait (io s) ->
  handled s (set_io io1 s').
Proof. intros [H1 H2 H3 H4 H5] E1 E2. by split. Qed.

Lemma interruptible_io io1 s :
  interruptible s -> io_in io1 = io_in (io s) -> io_wait io1 = io_wait (io s) -> interruptible (set_io io1 s).
Proof.
  intros [H1 H2 H3 H4 H5 H6 H7] E1 E2. split; try done; [by apply (hart_ok_same s)|].
  intros t. cbn. rewrite E1, E2. apply H7.
Qed.

Lemma handled_from_io io1 s s' :
  handled (set_io io1 s) s' -> io_in io1 = io_in (io s) -> io_wait io1 = io_wait (io s) -> handled s s'.
Proof.
  intros [H1 H2 H3 H4 H5] E1 E2. split; try done; [|by rewrite H4|by rewrite H5].
  apply (f_equal (set_io (io s))) in H1. cbn in H1. destruct s. exact H1.
Qed.

(** Every interrupt [devintr] serves. *)
Lemma devintr_inv s d s' :
  interruptible s -> devintr s = Done d s' -> d <> 0 ->
  handled s s' /\ (d = 2 -> scause (csr s) = SCAUSE_TIMER).
Proof.
  intros Hi E Hd. unfold devintr, r_scause in E. rewrite bind_gets in E.
  destruct (Z.eqb_spec (scause (csr s)) SCAUSE_EXTERNAL) as [_|_].
  - unfold plic_claim in E. rewrite bind_assoc in E. apply bind_inv_Done in E as (v & s0 & E0 & E).
    apply load_reg_inv in E0 as (pa & fl & _ & _ & ->). set (io1 := set_io_now (S (io_now (io s))) (io s)) in E.
    rewrite bind_ret in E. set (irq := i32 _) in E.
    apply bind_inv_Done in E as ([] & s1 & E1 & E). apply bind_inv_Done in E as ([] & s2 & E2 & E).
    injection E as <- <-. split; [|done].
    assert (H1 : handled s s1).
    { apply (handled_from_io io1); [|done..]. destruct (irq =? UART0_IRQ).
      - apply uart_intr_inv in E1 as [n ->]. apply handled_io_step.
      - destruct (irq =? VIRTIO0_IRQ); [done|]. destruct (irq =? 0); cbn [negb when] in E1.
        + injection E1 as <-. rewrite <- io_step_0. apply handled_io_step.
        + assert (Hi1 : interruptible (set_io io1 s)) by by apply interruptible_io.
          destruct (printf_ok (str "unexpected interrupt irq=%d" ++ nl) [VInt irq]
            (str "unexpected interrupt irq=" ++ render 10 true (i32 irq) ++ nl) (set_io io1 s)) as (s3 & Ep & S3);
            [apply Hi1..| | |].
          { by apply (bool_decide_unpack _). }
          { apply (formatted_int1 (str "unexpected interrupt irq=") nl); by apply (bool_decide_unpack _). }
          rewrite (bind_Done _ _ _ _ _ _ Ep eq_refl) in E1. injection E1 as <-. by eapply handled_says. }
    destruct (negb (irq =? 0)); cbn [when] in E2; [|by injection E2 as <-].
    apply store_reg_inv in E2 as [pa' [= <-]].
    apply handled_io; [done|apply H1|apply H1].
  - destruct (Z.eqb_spec (scause (csr s)) SCAUSE_TIMER) as [Ht|_]; [|by injection E as <- _].
    destruct (timer_interrupt_ok s Hi) as [n Et]. rewrite (bind_Done _ _ _ _ _ _ Et eq_refl) in E.
    injection E as <- <-. split; [apply handled_ticked|done].
Qed.

Lemma handled_touch s s' : handled s s' -> handled s (touch s').
Proof.
  intros [H1 H2 H3 H4 H5]. unfold touch. destruct (noff s' =? 0); [|by split]. split; try done.
Qed.

Lemma handled_hart s s' : handled s s' -> hart_ok s -> hart_ok s'.
Proof.
  intros [H1 H2 _ _ _] [A1 A2 A3].
  assert (Et : tp (csr s') = tp (csr s)) by by rewrite <- H2.
  assert (Es : sstatus (csr s') = sstatus (csr s)) by by rewrite <- H2.
  assert (En : noff s' = noff s) by by rewrite <- H1.
  unfold intr_get in *. split; unfold intr_get; rewrite ?Et, ?Es, ?En; done.
Qed.

Lemma handled_cur s s' : handled s s' -> c_proc (cpu0 s') = c_proc (cpu0 s).
Proof. intros [H1 _ _ _ _]. by rewrite <- H1. Qed.

Lemma ticked_facts n s :
  ticks (ticked n s) = u32 (ticks s + 1)
  /\ io_log (io (ticked n s)) = io_log (io s) ++ ((fun b => (UART0 + THR, b)) <$> tick_message (u32 (ticks s + 1)))
  /\ stimecmp (csr (ticked n s)) = u64 (io_time (io s) (io_now (io s) + n) + 10000000)
  /\ procs (ticked n s) = woken PTicks (c_proc (cpu0 s)) (procs s).
Proof. unfold ticked, rearmed, touch. change (noff (set_ticks _ s)) with (noff s). by case_match. Qed.

(** ** kerneltrap *)

Lemma touch_rearmed s : touch (rearmed s) = rearmed (touch s).
Proof.
  unfold touch. change (noff (rearmed s)) with (noff s). change (intr_get (rearmed s)) with (intr_get s).
  by case_match.
Qed.

Lemma touch_ticked n s : touch (ticked n s) = ticked n s.
Proof. unfold ticked. by rewrite touch_rearmed, touch_io_step, touch_table, touch_touch. Qed.

Lemma kerneltrap_timer s :
  interruptible s -> (sstatus (csr s) .& SSTATUS_SPP =? 0) = false -> intr_get s = false ->
  scause (csr s) = SCAUSE_TIMER ->
  exists n, kerneltrap_enter s =
    match c_proc (cpu0 s) with
    | None => Done (sepc (csr s), sstatus (csr s), None) (ticked n s)
    | Some _ => (r ← yield_enter; mret (sepc (csr s), sstatus (csr s), Some r)) (ticked n s)
    end.
Proof.
  intros Hi H1 H2 Hc. destruct (timer_interrupt_ok s Hi) as [n Et]. exists n.
  assert (Ed : devintr s = Done 2 (ticked n s)).
  { unfold devintr, r_scause. rewrite bind_gets, Hc. cbn [Z.eqb]. by mstep; [exact Et|]. }
  assert (Em : myproc (ticked n s) = Done (c_proc (cpu0 s)) (ticked n s)).
  { rewrite myproc_ok by (apply (handled_hart s); [apply handled_ticked|apply Hi]).
    by rewrite (handled_cur _ _ (handled_ticked n s)), touch_ticked. }
  unfold kerneltrap_enter, r_sepc, r_sstatus, r_scause. rewrite !bind_gets, H1, bind_gets, H2, Hc.
  change (negb (SCAUSE_TIMER .& 0x8000000000000000 =? 0)) with true. cbv beta match.
  mstep. { mstep; [exact Ed|]. reflexivity. }
  cbn [Z.eqb Pos.eqb]. mstep. { mstep; [exact Em|]. reflexivity. }
  by destruct (c_proc (cpu0 s)).
Qed.

Lemma kerneltrap_enter_inv s a b y s' :
  interruptible s -> c_proc (cpu0 s) = None -> kerneltrap_enter s = Done (a, b, y) s' ->
  a = sepc (csr s) /\ b = sstatus (csr s) /\ y = None /\ handled s s'.
Proof.
  intros Hi Hc E. pose proof E as E0. unfold kerneltrap_enter, r_sepc, r_sstatus, r_scause in E.
  rewrite !bind_gets in E. destruct (sstatus (csr s) .& SSTATUS_SPP =? 0) eqn:H1; [done|].
  rewrite bind_gets in E. destruct (intr_get s) eqn:H2; [done|].
  destruct (Z.eqb_spec (scause (csr s)) SCAUSE_TIMER) as [Ht|Ht].
  { destruct (kerneltrap_timer s Hi H1 H2 Ht) as [n Et]. rewrite Hc in Et. rewrite Et in E0.
    injection E0 as <- <- <- <-. split_and!; try done. apply handled_ticked. }
  apply bind_inv_Done in E as (d & s1 & E1 & E).
  assert (Hd : handled s s1 /\ d <> 2).
  { destruct (negb _).
    - apply bind_inv_Done in E1 as (d' & s2 & E1 & E2). destruct (Z.eqb_spec d' 0) as [|Hd'].
      + apply bind_inv_Done in E2 as (? & ? & _ & E2). done.
      + injection E2 as <- <-. destruct (devintr_inv s d' s2 Hi E1 Hd') as [Hh H3]. auto.
    - do 3 (destruct (scause (csr s) =? _); [done|]).
      apply bind_inv_Done in E1 as (? & ? & _ & E1). done. }
  destruct Hd as [Hh Hd]. rewrite (proj2 (Z.eqb_neq d 2) Hd) in E. rewrite bind_ret in E.
  injection E as <- <- <- <-. done.
Qed.

(** The hart resumes where it was, in the interrupt state it was in. *)
Lemma trap_return s s' pc cause tval :
  handled (trap_entry cause pc tval s) s' ->
  exists s2, kerneltrap_leave pc (trap_sstatus (sstatus (csr s))) None s' = Done tt s2
    /\ sepc (csr (sret s2)) = pc /\ intr_get (sret s2) = intr_get s
    /\ tp (csr (sret s2)) = tp (csr s)
    /\ stimecmp (csr (sret s2)) = stimecmp (csr s') /\ set_csr (csr s') (sret s2) = s'
    /\ (forall i, 0 <= i -> i <> 5 -> i <> 8 ->
         Z.testbit (sstatus (csr (sret s2))) i = Z.testbit (sstatus (csr s)) i)
    /\ satp (csr (sret s2)) = satp (csr s).
Proof.
  intros [_ H2 _ _ _]. eexists. split; [reflexivity|].
  assert (Hb : forall i, 0 <= i -> i <> 5 -> i <> 8 ->
    Z.testbit (sret_sstatus (trap_sstatus (sstatus (csr s)))) i = Z.testbit (sstatus (csr s)) i).
  { intros i Hi H5 H8. rewrite sret_sstatus_testbit, !trap_sstatus_testbit by lia. cbn [Z.eqb Pos.eqb].
    by destruct (Z.eqb_spec i 1), (Z.eqb_spec i 5), (Z.eqb_spec i 8); subst. }
  split_and!; [done| | |done| |exact Hb|by apply (f_equal satp) in H2].
  - rewrite !intr_get_spec. apply Hb; lia.
  - apply (f_equal tp) in H2. exact H2.
  - by destruct s' as [? [] ? ? ? ? ? ? ? ? ? ? ? ? ? ? ?].
Qed.

(** ** Theorems *)

(** The machine after a timer interrupt of the scheduler: what the tick changes
    ([n] device reads go into printing it), and the trap registers. *)
Definition after_tick (n : nat) (pc tval : Z) (s : kstate) : kstate :=
  let t := u32 (ticks s + 1) in
  set_csr (set_sstatus (sret_sstatus (trap_sstatus (sstatus (csr s))))
      (set_sepc pc (set_scause SCAUSE_TIMER (set_stval tval
        (set_stimecmp (u64 (io_time (io s) (io_now (io s) + n) + 10000000)) (csr s))))))
    (set_io (Mmio (io_in (io s)) (io_time (io s)) (io_wait (io s)) (S (io_now (io s) + n))
        (io_log (io s) ++ ((fun b => (UART0 + THR, b)) <$> tick_message t)))
      (set_intena 0 (set_ticks t (set_procs (woken PTicks None (procs s)) s)))).

Lemma sret_ticked n pc tval s :
  noff s = 0 -> c_proc (cpu0 s) = None ->
  sret (set_csr (set_sstatus (trap_sstatus (sstatus (csr s)))
    (set_sepc pc (csr (ticked n (trap_entry SCAUSE_TIMER pc tval s)))))
    (ticked n (trap_entry SCAUSE_TIMER pc tval s)))
  = after_tick n pc tval s.
Proof.
  intros Hn Hc. unfold ticked, touch.
  change (noff (set_ticks _ (trap_entry SCAUSE_TIMER pc tval s))) with (noff s).
  change (intr_get (set_ticks _ (trap_entry SCAUSE_TIMER pc tval s))) with (intr_get (trap_entry SCAUSE_TIMER pc tval s)).
  change (c_proc (cpu0 (trap_entry SCAUSE_TIMER pc tval s))) with (c_proc (cpu0 s)).
  rewrite Hn, Hc, intr_get_trap. destruct s as [? [] ? [] ? ? ? ? ? ? ? ? ? ? ? ? ?]. reflexivity.
Qed.

(** C31: a timer interrupt of the scheduler is transparent.  The handler counts
    the tick, prints it, wakes exactly the threads that sleep on the tick
    counter and arms the timer again, all without yielding; the hart then
    resumes at the interrupted instruction with interrupts enabled as before.
    The machine it leaves is [after_tick]: besides these effects only the trap
    registers sepc, scause and stval, the bits SPIE and SPP of sstatus, the saved
    enable bit of the hart and the device clock have changed; every other control
    register, RAM, all locks and all processes are as they were. *)
Theorem timer_trap_transparent s pc tval :
  interruptible s -> intr_get s = true -> c_proc (cpu0 s) = None ->
  let b := trap_sstatus (sstatus (csr s)) in
  exists n s1 s2, kerneltrap_enter (trap_entry SCAUSE_TIMER pc tval s) = Done (pc, b, None) s1
    /\ kerneltrap_leave pc b None s1 = Done tt s2
    /\ sret s2 = after_tick n pc tval s
    /\ intr_get (sret s2) = true
    /\ (forall i, 0 <= i -> i <> 5 -> i <> 8 ->
          Z.testbit (sstatus (csr (sret s2))) i = Z.testbit (sstatus (csr s)) i)
    /\ line (io_log (io (sret s2))) = line (io_log (io s)) ++ tick_message (u32 (ticks s + 1)).
Proof.
  intros Hi Hon Hc b. set (a := trap_entry SCAUSE_TIMER pc tval s).
  assert (Ha : interruptible a) by by apply interruptible_trap.
  destruct (kerneltrap_timer a Ha) as [n E]; [apply trap_from_supervisor|apply intr_get_trap|done|].
  change (c_proc (cpu0 a)) with (c_proc (cpu0 s)) in E. rewrite Hc in E.
  destruct (trap_return s (ticked n a) pc _ tval (handled_ticked n a))
    as (s2 & E2 & R1 & R2 & _ & _ & _ & R5 & _).
  exists n, (ticked n a), s2. split; [exact E|]. split; [exact E2|].
  assert (Es : sret s2 = after_tick n pc tval s).
  { apply Done_inj in E2 as [_ <-]. by apply sret_ticked; [apply Hi|]. }
  split; [exact Es|]. split; [by rewrite R2|]. split; [exact R5|].
  rewrite Es.
  assert (Hs : sent (tick_message (u32 (ticks s + 1))) s (io_step n ((fun b => (UART0 + THR, b)) <$> tick_message (u32 (ticks s + 1))) s)) by by exists n.
  apply sent_log in Hs. exact Hs.
Qed.

(** C32: a timer interrupt preempts the thread it hits, if interrupts are on.  The
    handler switches to the scheduler from [yield], with the slot runnable; when
    the scheduler switches back, in whatever state that is, the thread leaves
    the handler, at the instruction where it was interrupted and with interrupts
    on. *)
Theorem timer_trap_preempts s me pc tval :
  interruptible s -> intr_get s = true -> c_proc (cpu0 s) = Some me -> (me < NPROC)%nat ->
  lock_free (L_proc me) s ->
  let b := trap_sstatus (sstatus (csr s)) in
  (exists n, kerneltrap_enter (trap_entry SCAUSE_TIMER pc tval s)
     = Done (pc, b, Some (me, 0))
         (parked me (set_p_state RUNNABLE) (ticked n (trap_entry SCAUSE_TIMER pc tval s))))
  /\ (forall r q, scheduling r -> procs r !! me = Some q ->
       exists r', kerneltrap_leave pc b (Some (me, 0)) (dispatched me q r) = Done tt r'
         /\ sepc (csr (sret r')) = pc /\ intr_get (sret r') = true
         /\ regs (sret r') = p_context q /\ procs (sret r') = alter (set_p_state RUNNING) me (procs r)).
Proof.
  intros Hi Hon Hc Hme Hf b. set (a := trap_entry SCAUSE_TIMER pc tval s). split.
  - assert (Ha : interruptible a) by by apply interruptible_trap.
    destruct (kerneltrap_timer a Ha) as [n E]; [apply trap_from_supervisor|apply intr_get_trap|done|].
    change (c_proc (cpu0 a)) with (c_proc (cpu0 s)) in E. rewrite Hc in E. exists n. rewrite E. clear E.
    pose proof (ib_length _ Hi) as Hl. pose proof (handled_ticked n a) as H.
    pose proof (hd_rest _ _ H) as Hr.
    assert (Hlk : forall l, lock_free l s -> lock_free l (ticked n a)).
    { intros l. unfold lock_free.
      replace (get_lock l (ticked n a)) with (get_lock l s); [done|].
      transitivity (get_lock l (table (woken PTicks (c_proc (cpu0 a))) (touch (set_ticks (u32 (ticks a + 1)) a)))).
      - rewrite (ind_get (l := l) (u := table _)), get_lock_touch. by destruct l.
      - by destruct l. }
    assert (Hlen : length (procs (ticked n a)) = NPROC).
    { destruct (ticked_facts n a) as (_ & _ & _ & ->). rewrite woken_length. exact Hl. }
    destruct (lookup_lt_is_Some_2 (procs (ticked n a)) me) as [q Hq]; [lia|].
    assert (R : running (ticked n a) me q).
    { split; [by apply (handled_hart a); [|apply Ha]| |by rewrite (handled_cur _ _ H)|done|].
      - rewrite <- (ib_depth _ Hi). change (noff s) with (noff a). by rewrite <- Hr.
      - split; [done|]. intros j Hj _. apply Hlk. destruct (decide (j = me)) as [->|]; [done|].
        apply Hi; [done|congruence]. }
    mstep; [by eapply yield_enter_ok|].
    assert (Ho : intr_get (ticked n a) = false).
    { rewrite intr_get_spec. replace (sstatus (csr (ticked n a))) with (sstatus (csr a)) by by rewrite <- (hd_csr _ _ H).
      rewrite <- intr_get_spec. apply intr_get_trap. }
    by rewrite Ho.
  - intros r q Hs Hq. pose proof Hs as [Hh Hn _ Hpl].
    eexists. split; [unfold kerneltrap_leave; mstep; [by apply yield_leave_ok|]; reflexivity|].
    split_and!; try done. rewrite intr_get_spec. change (sstatus (csr (sret ?x))) with (sret_sstatus (sstatus (csr x))).
    rewrite sret_sstatus_testbit by lia. cbn [Z.eqb Pos.eqb].
    change (sstatus (csr _)) with b. unfold b. rewrite trap_sstatus_testbit by lia. cbn [Z.eqb Pos.eqb].
    by rewrite intr_get_spec in Hon.
Qed.

(** What [trap_report] prints. *)
Definition report_text (scause sepc stval : Z) : list Z :=
  str "scause=0x" ++ render 16 false (i64 scause) ++ str " sepc=0x" ++ render 16 false (i64 sepc)
  ++ str " stval=0x" ++ render 16 false (i64 stval) ++ nl.

Lemma trap_report_ok s :
  interruptible s ->
  exists s', trap_report (scause (csr s)) s = Done tt s'
    /\ says (report_text (scause (csr s)) (sepc (csr s)) (stval (csr s))) s s'.
Proof.
  intros Hi. destruct (printf_ok (str "scause=0x%lx sepc=0x%lx stval=0x%lx" ++ nl)
    [VInt (scause (csr s)); VInt (sepc (csr s)); VInt (stval (csr s))]
    (report_text (scause (csr s)) (sepc (csr s)) (stval (csr s))) s) as (s' & E & S); try apply Hi.
  - by apply (bool_decide_unpack _).
  - reflexivity.
  - exists s'. split; [|done]. unfold trap_report, r_sepc, r_stval. rewrite !bind_gets.
    by mstep; [exact E|].
Qed.

(** C33: traps the kernel cannot handle never return.  A trap from user mode, or
    with interrupts enabled, an exception (the ones with a message of their own
    and all others) and an interrupt other than the timer's and the controller's
    each end in their panic; the generic ones report the trap registers first. *)
Theorem kerneltrap_rejects s :
  interruptible s -> 0 <= scause (csr s) < 2 ^ 64 ->
  let c := scause (csr s) in
  let stops msg := exists s', kerneltrap_enter s = Panic msg s' in
  let reports msg := exists s', kerneltrap_enter s = Panic msg s'
    /\ says (report_text c (sepc (csr s)) (stval (csr s))) s s' in
  (Z.testbit (sstatus (csr s)) 8 = false -> stops "kerneltrap: not from supervisor mode")
  /\ (Z.testbit (sstatus (csr s)) 8 = true ->
      (intr_get s = true -> stops "kerneltrap: interrupts enabled")
      /\ (intr_get s = false ->
          (c = 8 -> stops "kerneltrap: system call from kernel")
          /\ (c = 13 -> stops "kerneltrap: load page fault")
          /\ (c = 15 -> stops "kerneltrap: store/AMO page fault")
          /\ (c < 2 ^ 63 -> c <> 8 -> c <> 13 -> c <> 15 -> reports "kerneltrap:exception")
          /\ (2 ^ 63 <= c -> c <> SCAUSE_EXTERNAL -> c <> SCAUSE_TIMER ->
              reports "kerneltrap: unexpected interrupt"))).
Proof.
  intros Hi Hc c stops reports. unfold stops, reports, kerneltrap_enter, r_sepc, r_sstatus, r_scause.
  rewrite !bind_gets. fold c. change SSTATUS_SPP with (2 ^ 8). rewrite land_pow2_testbit by lia.
  split; intros Hspp; rewrite Hspp; cbn [negb]; [by eexists|]. rewrite !bind_gets.
  split; intros Hon; rewrite Hon; [by eexists|].
  change 0x8000000000000000 with (2 ^ 63). rewrite land_pow2_testbit, negb_involutive by lia.
  assert (Hbit : Z.testbit c 63 = (2 ^ 63 <=? c)).
  { rewrite Z.testbit_eqb by lia. destruct (Z.leb_spec (2 ^ 63) c).
    - replace (c / 2 ^ 63) with 1 by (apply (Z.div_unique _ _ _ (c - 2 ^ 63)); lia). done.
    - rewrite Z.div_small by lia. done. }
  rewrite Hbit. destruct (trap_report_ok s Hi) as (s' & E & S). fold c in E, S.
  split_and!.
  - intros ->. by eexists.
  - intros ->. by eexists.
  - intros ->. by eexists.
  - intros H1 H2 H3 H4. rewrite (proj2 (Z.leb_gt _ _)) by done.
    rewrite !(proj2 (Z.eqb_neq c _)) by done. exists s'. split; [|done].
    apply bind_Panic. by mstep; [exact E|].
  - intros H1 H2 H3. rewrite (proj2 (Z.leb_le _ _)) by done. exists s'. split; [|done].
    apply bind_Panic. mstep.
    { unfold devintr, r_scause. rewrite bind_gets. fold c. rewrite !(proj2 (Z.eqb_neq c _)) by done. done. }
    cbn [Z.eqb]. by mstep; [exact E|].
Qed.

(** Once paging is on, external interrupts are fatal: the kernel's page table does
    not map the controller, so the handler's claim faults. *)
Theorem external_trap_faults s pc tval :
  hw_translate s (PLIC_SCLAIM 0) = None ->
  kerneltrap_enter (trap_entry SCAUSE_EXTERNAL pc tval s) = Fault (trap_entry SCAUSE_EXTERNAL pc tval s).
Proof.
  intros H. set (a := trap_entry SCAUSE_EXTERNAL pc tval s).
  assert (Ed : devintr a = Fault a).
  { unfold devintr, r_scause. rewrite bind_gets. change (scause (csr a)) with SCAUSE_EXTERNAL. cbn [Z.eqb Pos.eqb].
    by apply bind_Fault, plic_claim_faults. }
  unfold kerneltrap_enter, r_sepc, r_sstatus, r_scause. rewrite !bind_gets.
  change (sstatus (csr a)) with (trap_sstatus (sstatus (csr s))). rewrite trap_from_supervisor, bind_gets.
  unfold a at 1. rewrite intr_get_trap. fold a. change (scause (csr a)) with SCAUSE_EXTERNAL.
  change (negb (SCAUSE_EXTERNAL .& 0x8000000000000000 =? 0)) with true. cbv beta match.
  by do 2 apply bind_Fault.
Qed.

(** Before that, a receive interrupt is served completely.  With [k] bytes waiting in the
    UART, the handler claims the interrupt, reads all of them, completes the
    claim at the controller, and returns without yielding; the only device write
    is the completion. *)
Theorem uart_trap_drains s pc tval k :
  interruptible s -> satp (csr s) = 0 -> (k <= io_wait (io s))%nat ->
  let t := io_now (io s) in
  io_in (io s) t (PLIC + 0x201004) = UART0_IRQ ->
  (forall j, (j < k)%nat -> Z.testbit (io_in (io s) (t + 2 + 2 * j) (UART0 + LSR)) 0 = true) ->
  Z.testbit (io_in (io s) (t + 2 + 2 * k) (UART0 + LSR)) 0 = false ->
  let a := trap_entry SCAUSE_EXTERNAL pc tval s in
  kerneltrap_enter a = Done (pc, trap_sstatus (sstatus (csr s)), None)
    (io_step (2 + (2 * k + 1)) [(PLIC + 0x201004, UART0_IRQ)] a).
Proof.
  intros Hi Hsatp Hk t Hirq Hr He a.
  assert (Ed : devintr a = Done 1 (io_step (2 + (2 * k + 1)) [(PLIC + 0x201004, UART0_IRQ)] a)).
  { unfold devintr, r_scause. rewrite bind_gets. change (scause (csr a)) with SCAUSE_EXTERNAL. cbn [Z.eqb Pos.eqb].
    mstep; [by apply (plic_claim_ok a UART0_IRQ)|]. rewrite Z.eqb_refl.
    set (a1 := set_io _ a).
    assert (E1 : a1 = io_step 1 [] a).
    { unfold a1, io_step. rewrite app_nil_r, Nat.add_1_r. by destruct (io a). }
    rewrite E1. mstep.
    { unfold uart_intr. mstep; [apply ReadReg_ok|]. rewrite bind_gets, io_step_step.
      apply (uart_intr_loop_ok k); [cbn; lia| |].
      - intros j Hj. cbn. replace (io_now (io s) + 2 + (j + (j + 0)))%nat with (t + 2 + 2 * j)%nat by (unfold t; lia).
        by apply Hr.
      - cbn. by replace (io_now (io s) + 2 + (k + (k + 0)))%nat with (t + 2 + 2 * k)%nat by (unfold t; lia). }
    rewrite io_step_step. cbn [negb Z.eqb UART0_IRQ when].
    unfold plic_complete. mstep; [by rewrite store_reg_bare by exact Hsatp|].
    unfold mret, M_ret. f_equal. unfold io_step. cbn [io set_io io_in io_time io_wait io_now io_log set_io_log].
    by rewrite app_nil_r. }
  unfold kerneltrap_enter, r_sepc, r_sstatus, r_scause. rewrite !bind_gets.
  change (sstatus (csr a)) with (trap_sstatus (sstatus (csr s))). rewrite trap_from_supervisor, bind_gets.
  unfold a at 1. rewrite intr_get_trap. fold a.
  mstep; [mstep; [exact Ed|reflexivity]|]. done.
Qed.

End trap_facts.

(** ** Witnesses *)

#[local] Existing Instance demo_linker.

(** Interrupts are on, and no process runs or process [0] does. *)
Definition demo_idle : kstate := set_csr (set_sstatus 2 (csr demo_state)) demo_state.

Definition demo_busy : kstate := set_cpu0 (set_c_proc (Some 0%nat) (cpu0 demo_idle)) demo_idle.

(** The controller reports the UART, whose receiver is empty. *)
Definition demo_irq : kstate :=
  set_io (Mmio (fun _ a => if a =? PLIC + 0x201004 then 10 else 0x20) (fun _ => 0) 3 0 []) demo_idle.

Lemma demo_locks j : (j < NPROC)%nat -> lock_free (L_proc j) demo_state.
Proof. intros Hj. do 64 (destruct j as [|j]; [done|]). unfold NPROC in Hj. lia. Qed.

Lemma demo_interruptible : interruptible demo_idle.
Proof.
  split; try done.
  - intros j Hj _. by apply demo_locks.
  - intros t. exists 0%nat. split; [lia|done].
Qed.

Lemma demo_busy_interruptible : interruptible demo_busy.
Proof.
  destruct demo_interruptible as [H1 H2 H3 H4 H5 H6 H7]. split; try done.
  - intros j Hj _. by apply demo_locks.
Qed.

Lemma demo_irq_interruptible : interruptible demo_irq.
Proof.
  destruct demo_interruptible as [H1 H2 H3 H4 H5 H6 H7]. split; try done.
  - intros t. exists 0%nat. split; [lia|done].
Qed.

Lemma timer_trap_transparent_witness :
  exists n s1 s2, kerneltrap_enter (trap_entry SCAUSE_TIMER 0x80001000 0 demo_idle)
      = Done (0x80001000, 0x120, None) s1
    /\ kerneltrap_leave 0x80001000 0x120 None s1 = Done tt s2 /\ sret s2 = after_tick n 0x80001000 0 demo_idle.
Proof.
  destruct (timer_trap_transparent demo_idle 0x80001000 0 demo_interruptible eq_refl eq_refl)
    as (n & s1 & s2 & E1 & E2 & T & _).
  exists n, s1, s2. split; [exact E1|]. split; [exact E2|exact T].
Defined.

Lemma timer_trap_preempts_witness :
  exists s1, kerneltrap_enter (trap_entry SCAUSE_TIMER 0x80001000 0 demo_busy)
    = Done (0x80001000, 0x120, Some (0%nat, 0)) s1.
Proof.
  destruct (timer_trap_preempts demo_busy 0 0x80001000 0 demo_busy_interruptible eq_refl eq_refl
    ltac:(unfold NPROC; lia) (demo_locks 0 ltac:(unfold NPROC; lia))) as [[n E] _].
  eexists. exact E.
Defined.

Lemma kerneltrap_rejects_witness :
  exists s', kerneltrap_enter (trap_entry 13 0x80001000 0 demo_idle) = Panic "kerneltrap: load page fault" s'.
Proof.
  apply (kerneltrap_rejects (trap_entry 13 0x80001000 0 demo_idle)
    (interruptible_trap _ _ _ _ demo_interruptible)); [split; done|done..].
Defined.

Lemma uart_trap_drains_witness :
  kerneltrap_enter (trap_entry SCAUSE_EXTERNAL 0x80001000 0 demo_irq)
  = Done (0x80001000, 0x120, None)
      (io_step 3 [(PLIC + 0x201004, UART0_IRQ)] (trap_entry SCAUSE_EXTERNAL 0x80001000 0 demo_irq)).
Proof.
  apply (uart_trap_drains demo_irq 0x80001000 0 0 demo_irq_interruptible); [done|cbn; lia|done|lia|done].
Defined.
