(* ===== verification/ProcModel.v ===== *)
(** * Processes as their users see them

    An abstract model of what the process operations of kernel/proc.c mean: a
    finite map from pids to processes, and the events that change it.  It knows
    nothing of the process table, of locks, contexts, stacks or memory.  [perform]
    says which events are possible and what they do; it is executable, so that
    [run] replays a list of events.  Refine.v shows that every run of the kernel
    is a run of this model.

    The theorem of this file is about all its runs: a status that a parent
    reaps is the one its child exited with, it is reaped once, and nobody acts
    under the pid of a process that has exited. *)

From S2P Require Import Prelude Riscv.

(** ** Processes and events *)

(** What a process can do: run, when it gets the CPU; nothing until a child exits;
    or nothing any more. *)
Inductive pstatus := Able | Waiting | Exited (x : Z).

#[export] Instance pstatus_eq_dec : EqDecision pstatus. Proof. solve_decision. Defined.

Record process := Process { parent : option Z; stat : pstatus }.

#[export] Instance process_eq_dec : EqDecision process. Proof. solve_decision. Defined.

Record kernel := Kernel {
  processes : gmap Z process;
  current : option Z;
  next_pid : Z;
  init_pid : Z;
}.

(** The first argument is the pid of the process that acts, or gets the CPU. *)
Inductive event :=
  | Dispatch (p : Z)
  | Yield (p : Z)
  | Create (p c : Z)
  | Exit (p x : Z)
  | Reap (p c x : Z)
  | NoChild (p : Z)
  | Block (p : Z).

Definition actor (e : event) : Z :=
  match e with
  | Dispatch p | Yield p | Create p _ | Exit p _ | Reap p _ _ | NoChild p | Block p => p
  end.

(** ** What an event does *)

Definition is_exited (P : process) : bool := match stat P with Exited _ => true | _ => false end.

Definition has_child (p : Z) (m : gmap Z process) : Prop := map_Exists (fun _ P => parent P = Some p) m.

Definition dead_child (p : Z) (m : gmap Z process) : Prop :=
  map_Exists (fun _ P => parent P = Some p /\ is_exited P = true) m.

#[export] Instance has_child_dec p m : Decision (has_child p m). Proof. unfold has_child. apply _. Defined.
#[export] Instance dead_child_dec p m : Decision (dead_child p m). Proof. unfold dead_child. apply _. Defined.

(** What the exit of [p], a child of [par], does to another process [c]: a child
    of [p] becomes a child of [init]; the parent wakes up, and so does init if it
    inherits a child that has exited ([d]). *)
Definition bereave (p : Z) (par : option Z) (init : Z) (d : bool) (c : Z) (P : process) : process :=
  Process (if decide (parent P = Some p) then Some init else parent P)
    (if decide (stat P = Waiting /\ (par = Some c \/ c = init /\ d = true)) then Able else stat P).

Definition with_processes (m : gmap Z process) (cur : option Z) (k : kernel) : kernel :=
  Kernel m cur (next_pid k) (init_pid k).

Definition exit_processes (p : Z) (P : process) (x : Z) (init : Z) (m : gmap Z process) : gmap Z process :=
  <[p := Process (parent P) (Exited x)]>
    (map_imap (fun c Q => Some (bereave p (parent P) init (bool_decide (dead_child p m)) c Q)) m).

Definition perform (e : event) (k : kernel) : option kernel :=
  let m := processes k in
  match e, current k with
  | Dispatch p, None =>
      if decide (stat <$> m !! p = Some Able) then Some (with_processes m (Some p) k) else None
  | Yield p, Some q =>
      if decide (p = q) then Some (with_processes m None k) else None
  | Create p c, Some q =>
      if decide (p = q /\ c = next_pid k /\ (size m < NPROC)%nat)
      then Some (Kernel (<[c := Process (Some p) Able]> m) (Some p) (c + 1) (init_pid k)) else None
  | Exit p x, Some q =>
      if decide (p = q /\ p <> init_pid k) then
        P ← m !! p; Some (with_processes (exit_processes p P x (init_pid k) m) None k)
      else None
  | Reap p c x, Some q =>
      if decide (p = q /\ m !! c = Some (Process (Some p) (Exited x)))
      then Some (with_processes (delete c m) (Some p) k) else None
  | NoChild p, Some q =>
      if decide (p = q /\ ~ has_child p m) then Some k else None
  | Block p, Some q =>
      if decide (p = q /\ has_child p m /\ ~ dead_child p m)
      then P ← m !! p; Some (with_processes (<[p := Process (parent P) Waiting]> m) None k) else None
  | _, _ => None
  end.

Fixpoint run (es : list event) (k : kernel) : option kernel :=
  match es with
  | [] => Some k
  | e :: es => k' ← perform e k; run es k'
  end.

Lemma run_events_app es es' k : run (es ++ es') k = (k' ← run es k; run es' k').
Proof. revert k. induction es as [|e es IH]; intros k; [done|]. cbn. by destruct (perform e k); cbn. Qed.

Lemma run_app_Some es es' k k' :
  run (es ++ es') k = Some k' -> exists k1, run es k = Some k1 /\ run es' k1 = Some k'.
Proof. rewrite run_events_app. destruct (run es k) as [k1|]; [|done]. by exists k1. Qed.

(** ** Invariant of the model *)

(** Pids in use are below the next one, and the process with the CPU is able. *)
Record kernel_ok (k : kernel) : Prop := {
  ko_pids : forall c, is_Some (processes k !! c) -> c < next_pid k;
  ko_current : forall p, current k = Some p -> stat <$> processes k !! p = Some Able;
}.

Lemma exit_processes_self p P x i m :
  exit_processes p P x i m !! p = Some (Process (parent P) (Exited x)).
Proof. apply lookup_insert_eq. Qed.

Lemma exit_processes_other p P x i m c :
  c <> p -> exit_processes p P x i m !! c
    = bereave p (parent P) i (bool_decide (dead_child p m)) c <$> m !! c.
Proof.
  intros Hc. unfold exit_processes. rewrite lookup_insert_ne by done. rewrite map_lookup_imap.
  by destruct (m !! c).
Qed.

Lemma bereave_stat p par i d c P :
  stat (bereave p par i d c P) = stat P \/ stat P = Waiting /\ stat (bereave p par i d c P) = Able.
Proof. unfold bereave. cbn. case_decide as H; [right|left]; tauto. Qed.

(** The exit of [p] does not change who else has exited. *)
Lemma exit_processes_exited p P x i m c y :
  c <> p -> stat <$> exit_processes p P x i m !! c = Some (Exited y) <-> stat <$> m !! c = Some (Exited y).
Proof.
  intros Hc. rewrite exit_processes_other by done. destruct (m !! c) as [Q|]; [|done].
  cbn [fmap option_fmap option_map].
  destruct (bereave_stat p (parent P) i (bool_decide (dead_child p m)) c Q) as [->|[-> ->]]; done.
Qed.

(** Opens [perform e k = Some k'], one goal for each kind of event: [p] acts, on
    the child [c], with the status [x], and [P] is its entry. *)
Ltac perform_cases E :=
  match type of E with
  | perform ?e ?k = Some ?k' =>
      let p := fresh "p" in let c := fresh "c" in let x := fresh "x" in let cur := fresh "cur" in
      let P := fresh "P" in let HP := fresh "HP" in let Hd := fresh "Hd" in let Hcur := fresh "Hcur" in
      unfold perform in E; destruct e as [p|p|p c|p x|p c x|p|p], (current k) as [cur|] eqn:Hcur;
      try discriminate E; case_decide as Hd; try discriminate E;
      try match type of Hd with _ /\ _ => destruct Hd as [<- Hd] | _ = cur => subst cur end;
      try match type of E with (processes k !! ?q ≫= _) = _ =>
        destruct (processes k !! q) as [P|] eqn:HP; cbn in E; [|discriminate E] end;
      injection E as <-; cbn [actor processes current next_pid with_processes] in *
  end.

Lemma actor_able e k k' :
  kernel_ok k -> perform e k = Some k' -> stat <$> processes k !! actor e = Some Able.
Proof. intros [_ K] E. perform_cases E; by auto. Qed.

Lemma perform_ok e k k' : kernel_ok k -> perform e k = Some k' -> kernel_ok k'.
Proof.
  intros K E. pose proof (actor_able e k k' K E) as Ha. destruct K as [K1 K2].
  perform_cases E; (split; cbn [processes current next_pid with_processes]; [|try by intros q [= <-]]); try done; try by rewrite Hcur.
  - intros q [<-|[_ Hq]]%lookup_insert_is_Some; [lia|]. specialize (K1 _ Hq). lia.
  - intros q [= <-]. destruct Hd as [-> _]. rewrite lookup_insert_ne; [done|]. intros E.
    destruct (processes k !! next_pid k) eqn:Hn; [specialize (K1 _ (ex_intro _ _ Hn)); lia|].
    by rewrite <- E, Hn in Ha.
  - intros q Hq. apply K1. destruct (decide (q = p)) as [->|Hne]; [by rewrite HP|].
    rewrite exit_processes_other in Hq by done. by apply fmap_is_Some in Hq.
  - intros q [? [_ Hq]%lookup_delete_Some]. eauto.
  - intros q [= <-]. rewrite lookup_delete_ne; [done|]. intros ->. by rewrite Hd in Ha.
  - intros q [<-|[_ Hq]]%lookup_insert_is_Some; [|eauto]. apply K1. by rewrite HP.
Qed.

Lemma run_ok es k k' : kernel_ok k -> run es k = Some k' -> kernel_ok k'.
Proof.
  revert k. induction es as [|e es IH]; intros k K E; [by injection E as <-|].
  cbn in E. destruct (perform e k) as [k1|] eqn:E1; [|done]. eapply IH; [|done]. by eapply perform_ok.
Qed.

(** ** The life of a pid *)

Definition exited_with (k : kernel) (c x : Z) : Prop := stat <$> processes k !! c = Some (Exited x).

(** The pid [c] was in use, or will never be. *)
Definition gone (k : kernel) (c : Z) : Prop := processes k !! c = None /\ c < next_pid k.

(** The event takes the status of [c]. *)
Definition reaps (c : Z) (e : event) : Prop := match e with Reap _ d _ => d = c | _ => False end.

(** The entry of [c] after an event of another process that does not reap it. *)
Lemma perform_exited e k k' c x :
  kernel_ok k -> perform e k = Some k' -> exited_with k c x ->
  actor e <> c /\ (~ reaps c e -> exited_with k' c x)
  /\ (reaps c e -> (exists p, e = Reap p c x) /\ gone k' c).
Proof.
  intros K E Hx. pose proof (actor_able e k k' K E) as Ha. unfold exited_with in *.
  assert (Hc : actor e <> c) by congruence. split; [done|]. destruct K as [K1 _].
  assert (Hn : c < next_pid k) by (apply K1; by destruct (processes k !! c)).
  perform_cases E; cbn [reaps processes next_pid with_processes]; (split; [|try done]); try done.
  - intros _. rewrite lookup_insert_ne; [done|]. lia.
  - intros _. by apply exit_processes_exited.
  - intros Hne. rewrite lookup_delete_ne by done. done.
  - intros ->. rewrite Hd in Hx. injection Hx as ->. split; [by eexists|]. split; [apply lookup_delete_eq|done].
  - intros _. rewrite lookup_insert_ne; done.
Qed.

Lemma perform_gone e k k' c :
  kernel_ok k -> perform e k = Some k' -> gone k c -> actor e <> c /\ ~ reaps c e /\ gone k' c.
Proof.
  intros K E [Hc Hn]. pose proof (actor_able e k k' K E) as Ha.
  assert (Hne : actor e <> c) by (intros <-; by rewrite Hc in Ha). split; [done|]. unfold gone.
  perform_cases E; cbn [reaps]; (split; [try by intros []|]); try (split; done).
  - split; [|lia]. rewrite lookup_insert_ne; [done|]. lia.
  - split; [|done]. rewrite exit_processes_other by done. by rewrite Hc.
  - intros ->. by rewrite Hc in Hd.
  - split; [|done]. by rewrite lookup_delete_None; right.
  - split; [|done]. by rewrite lookup_insert_ne.
Qed.

(** A process has exited only by its own [Exit]. *)
Lemma perform_exits e k k' c x :
  kernel_ok k -> perform e k = Some k' -> exited_with k' c x -> e = Exit c x \/ exited_with k c x.
Proof.
  intros K E Hx. unfold exited_with in *. perform_cases E; auto.
  - destruct (decide (c0 = c)) as [->|]; [by rewrite lookup_insert_eq in Hx|]. rewrite lookup_insert_ne in Hx; auto.
  - destruct (decide (p = c)) as [->|Hne].
    + rewrite exit_processes_self in Hx. injection Hx as ->. by left.
    + right. by apply exit_processes_exited in Hx.
  - right. destruct (decide (c0 = c)) as [->|]; [by rewrite lookup_delete_eq in Hx|]. rewrite lookup_delete_ne in Hx; auto.
  - destruct (decide (p = c)) as [->|]; [by rewrite lookup_insert_eq in Hx|]. rewrite lookup_insert_ne in Hx; auto.
Qed.

(** *** Along a run *)

Definition silent (c : Z) (e : event) : Prop := actor e <> c /\ ~ reaps c e.

Lemma run_gone es k k' c :
  kernel_ok k -> run es k = Some k' -> gone k c -> Forall (silent c) es /\ gone k' c.
Proof.
  revert k. induction es as [|e es IH]; intros k K E G; [by injection E as <-|].
  cbn in E. destruct (perform e k) as [k1|] eqn:E1; [|done].
  destruct (perform_gone e k k1 c K E1 G) as (Ha & Hr & G').
  destruct (IH k1 (perform_ok _ _ _ K E1) E G'). by split; [constructor|].
Qed.

(** From the exit of [c] until it is reaped it is silent and keeps its status. *)
Lemma run_exited es k k' c x :
  kernel_ok k -> run es k = Some k' -> exited_with k c x -> (exists y, exited_with k' c y) ->
  Forall (silent c) es /\ exited_with k' c x.
Proof.
  revert k. induction es as [|e es IH]; intros k K E Hx Hy; [by injection E as <-|].
  cbn in E. destruct (perform e k) as [k1|] eqn:E1; [|done]. pose proof (perform_ok _ _ _ K E1) as K1.
  destruct (perform_exited e k k1 c x K E1 Hx) as (Ha & Hs & Hr).
  assert (Hnr : ~ reaps c e).
  { intros H. destruct (Hr H) as [_ G]. destruct Hy as [y Hy].
    destruct (run_gone es k1 k' c K1 E G) as [_ [G' _]]. unfold exited_with in Hy. by rewrite G' in Hy. }
  destruct (IH k1 K1 E (Hs Hnr) Hy) as [Hf Hx']. by split; [constructor|].
Qed.

(** Who has exited in the end had exited before, or exits on the way. *)
Lemma run_exits es k k' c x :
  kernel_ok k -> run es k = Some k' -> exited_with k' c x ->
  exited_with k c x /\ Forall (silent c) es
  \/ exists es0 es1, es = es0 ++ Exit c x :: es1 /\ Forall (silent c) es1.
Proof.
  revert k. induction es as [|e es IH]; intros k K E Hx; [injection E as <-; by left|].
  cbn in E. destruct (perform e k) as [k1|] eqn:E1; [|done]. pose proof (perform_ok _ _ _ K E1) as K1.
  destruct (IH k1 K1 E Hx) as [[Hx1 Hf]|(es0 & es1 & -> & Hf)].
  - destruct (perform_exits e k k1 c x K E1 Hx1) as [->|Hx0]; [right; by exists [], es|].
    destruct (perform_exited e k k1 c x K E1 Hx0) as (Ha & _ & Hr).
    left. split; [done|]. constructor; [|done]. split; [done|]. intros H. destruct (Hr H) as [_ [Hg _]].
    unfold exited_with in Hx1. by rewrite Hg in Hx1.
  - right. by exists (e :: es0), es1.
Qed.

(** The history of a status that is reaped. *)
Lemma run_reaped es1 p c x es2 k k' :
  kernel_ok k -> run (es1 ++ Reap p c x :: es2) k = Some k' ->
  (exited_with k c x /\ Forall (silent c) es1
   \/ exists es0 es, es1 = es0 ++ Exit c x :: es /\ Forall (silent c) es)
  /\ Forall (silent c) es2.
Proof.
  intros K (k1 & E1 & E2)%run_app_Some. pose proof (run_ok _ _ _ K E1) as K1.
  cbn [run] in E2. destruct (perform (Reap p c x) k1) as [k2|] eqn:E; [|done].
  assert (Hx : exited_with k1 c x).
  { unfold perform in E. destruct (current k1); [|done]. case_decide as Hd; [|done].
    destruct Hd as [_ Hd]. unfold exited_with. by rewrite Hd. }
  split; [by eapply run_exits|].
  destruct (perform_exited _ k1 k2 c x K1 E Hx) as (_ & _ & Hr). destruct (Hr eq_refl) as [_ G].
  eapply run_gone; [by eapply perform_ok|done|done].
Qed.

(** Pids are handed out in order, so no two processes ever get the same. *)
Definition created_pid (e : event) : option Z := match e with Create _ c => Some c | _ => None end.

Lemma run_created es k k' :
  run es k = Some k' ->
  omap created_pid es = seqZ (next_pid k) (next_pid k' - next_pid k) /\ next_pid k <= next_pid k'.
Proof.
  revert k. induction es as [|e es IH]; intros k E.
  { injection E as <-. rewrite Z.sub_diag. by split; [|lia]. }
  cbn [run] in E. destruct (perform e k) as [k1|] eqn:E1; [|done]. destruct (IH k1 E) as [Hs Hle].
  assert (Hn : match created_pid e with
    | Some c => c = next_pid k /\ next_pid k1 = next_pid k + 1
    | None => next_pid k1 = next_pid k end).
  { clear -E1. perform_cases E1; cbn [created_pid next_pid with_processes]; try done. by destruct Hd as [-> _]. }
  cbn [omap list_omap]. destruct (created_pid e) as [c|].
  - destruct Hn as [-> Hn]. rewrite Hn in Hs, Hle. split; [|lia]. rewrite Hs.
    rewrite (seqZ_cons (next_pid k)) by lia. f_equal. f_equal; lia.
  - rewrite Hn in Hs, Hle. by split.
Qed.

(** Who was there, or came, and is no longer there has been reaped. *)
Lemma run_gone_reaped es k k' c :
  kernel_ok k -> run es k = Some k' -> is_Some (processes k !! c) \/ next_pid k <= c < next_pid k' ->
  processes k' !! c = None -> exists p x, Reap p c x ∈ es.
Proof.
  revert k. induction es as [|e es IH]; intros k K E Hc Hg.
  { injection E as <-. destruct Hc as [[P HP]|]; [congruence|lia]. }
  cbn [run] in E. destruct (perform e k) as [k1|] eqn:E1; [|done]. pose proof (perform_ok _ _ _ K E1) as K1.
  assert (H : (exists p x, e = Reap p c x) \/ is_Some (processes k1 !! c) \/ next_pid k1 <= c < next_pid k').
  { clear -E1 Hc. perform_cases E1; try by right.
    - destruct Hd as [-> _]. right. destruct (decide (c = next_pid k)) as [->|Hne]; [left; by rewrite lookup_insert_eq|].
      destruct Hc as [Hc|Hc]; [left; by rewrite lookup_insert_ne|right; lia].
    - right. destruct Hc as [Hc|Hc]; [left|by right]. destruct (decide (c = p)) as [->|Hne].
      + by rewrite exit_processes_self.
      + rewrite exit_processes_other by done. by apply fmap_is_Some.
    - destruct (decide (c0 = c)) as [->|Hne]; [left; by eexists _, _|right].
      destruct Hc as [Hc|Hc]; [left; by rewrite lookup_delete_ne|by right].
    - right. destruct Hc as [Hc|Hc]; [left|by right]. apply lookup_insert_is_Some'. by right. }
  destruct H as [(p & x & ->)|H].
  - exists p, x. by left.
  - destruct (IH k1 K1 E H Hg) as (p & x & Hin). exists p, x. by right.
Qed.

(** ** The model at work *)

(** What the kernel boots into: init and the first thread. *)
Definition boot_kernel : kernel := Kernel {[1 := Process None Able; 2 := Process None Able]} None 3 1.

Lemma boot_kernel_ok : kernel_ok boot_kernel.
Proof.
  split; [|done]. intros c. cbn [processes boot_kernel].
  intros [<-|[_ <-%lookup_singleton_is_Some]]%lookup_insert_is_Some; cbn; lia.
Qed.

(** The first thread creates a child, waits for it and reaps its status. *)
Example run_self_test :
  run [Dispatch 1; NoChild 1; Yield 1; Dispatch 2; Create 2 3; Block 2; Dispatch 3; Exit 3 88;
       Dispatch 1; NoChild 1; Yield 1; Dispatch 2; Reap 2 3 88] boot_kernel
  = Some (Kernel {[1 := Process None Able; 2 := Process None Able]} (Some 2) 4 1).
Proof. by vm_compute. Qed.

(** An orphan goes to init, which wakes up for it. *)
Example run_orphan :
  run [Dispatch 1; Create 1 3; Block 1; Dispatch 3; Create 3 4; Yield 3; Dispatch 4; Exit 4 7;
       Dispatch 3; Exit 3 5; Dispatch 1; Reap 1 4 7; Reap 1 3 5] boot_kernel
  = Some (Kernel {[1 := Process None Able; 2 := Process None Able]} (Some 1) 5 1).
Proof. by vm_compute. Qed.

(** Nobody is reaped twice, and init does not exit. *)
Example run_refused :
  run [Dispatch 1; Create 1 3; Block 1; Dispatch 3; Exit 3 5; Dispatch 1; Reap 1 3 5; Reap 1 3 5] boot_kernel = None
  /\ run [Dispatch 1; Exit 1 0] boot_kernel = None.
Proof. by vm_compute. Qed.
