(* ===== verification/Sched.v ===== *)
(** * The scheduler and the threads as one system

    [lstep] is the interleaving of the scheduler loop with every thread's
    operations: a thread that has the CPU may ask for its own process, print,
    create a process, yield, wait or exit, in any order, and each step runs the
    kernel's own code, the switch and what the other side does first included.
    Between two rounds the scheduler takes interrupts, any number of them.
    [w_threads] remembers where each switched-out thread continues (in the machine
    this is the return address in its saved context).  A step is labelled with
    what the users of the system calls see of it, events of ProcModel.v; [step]
    forgets the labels.

    [table_ok] and its lemmas say what the steps keep true of the process table
    alone; SchedInv.v adds the machine and the memory. *)

From S2P Require Import Prelude Riscv Memory State Spinlock Kalloc Vm VmMap Uart Printf Csr Proc ProcTable ProcMem ProcExit Switch Trap ProcModel.

(** ** The step relation *)

(** Where a switched-out thread continues: in [forkret], after [yield]'s or
    after [wait_process]'s switch, with [sched]'s saved [intena]. *)
Inductive resume_point := RStart | RYield (intena : Z) | RWait (intena : Z).

(** Who has the CPU: the scheduler, about to look at slot [i], or a thread. *)
Inductive runner := Scheduling (i : nat) | Running (p : nat).

Record world := World {
  w_state : kstate;
  w_runner : runner;
  w_threads : gmap nat resume_point;
}.

Section step.
Context {L : Linker}.

(** After a round of [wait_process]: it returned, or the thread sleeps. *)
Inductive after_wait (p : nat) (s : kstate) (T : gmap nat resume_point) : wait_result -> world -> Prop :=
  | after_ret pid status : after_wait p s T (WaitRet pid status) (World s (Running p) T)
  | after_none : after_wait p s T WaitNone (World s (Running p) T)
  | after_sleep q i s' :
      scheduler_back p s = Done tt s' ->
      after_wait p s T (WaitSleep q i) (World s' (Scheduling (S p)) (<[p := RWait i]> T)).

(** What a step is to the users of the system calls ([event] of ProcModel.v), who
    know processes by their pid. *)
Definition pid_at (s : kstate) (i : nat) : Z := p_pid (default zero_proc (procs s !! i)).

Definition wait_events (p : Z) (r : wait_result) : list event :=
  match r with
  | WaitRet pid status => [Reap p pid status]
  | WaitNone => [NoChild p]
  | WaitSleep _ _ => [Block p]
  end.

(** The steps.  [step_create] asks for a function that is not null, since [forkret]
    of the new thread panics otherwise, and for a pid below INT_MAX, past which the
    increment of [nextpid] is undefined; proc.c tests neither, and the kernel's
    threads keep to both.  Calls and handlers that panic have no step.  After a round
    that has found nothing the code waits in [wfi] until an interrupt is pending and
    starts the next round; the wait is left out, and with it the local [found]. *)
Inductive lstep : world -> list event -> world -> Prop :=
  | step_skip i s s' T :
      (i < NPROC)%nat -> scheduler_try i s = Done false s' ->
      lstep (World s (Scheduling i) T) [] (World s' (Scheduling (S i)) T)
  | step_round s s' T :
      scheduler_window s = Done tt s' ->
      lstep (World s (Scheduling NPROC) T) [] (World s' (Scheduling 0) T)
  | step_interrupt cause pc tval a b s s1 s2 s3 T :
      intr_on s = Done tt s1 ->
      kerneltrap_enter (trap_entry cause pc tval s1) = Done (a, b, None) s2 ->
      kerneltrap_leave a b None s2 = Done tt s3 ->
      lstep (World s (Scheduling NPROC) T) [] (World (sret s3) (Scheduling NPROC) T)
  | step_start i s s1 s2 fn T :
      (i < NPROC)%nat -> scheduler_try i s = Done true s1 -> T !! i = Some RStart ->
      forkret s1 = Done fn s2 ->
      lstep (World s (Scheduling i) T) [Dispatch (pid_at s i)] (World s2 (Running i) (delete i T))
  | step_resume i v s s1 s2 T :
      (i < NPROC)%nat -> scheduler_try i s = Done true s1 -> T !! i = Some (RYield v) ->
      yield_leave i v s1 = Done tt s2 ->
      lstep (World s (Scheduling i) T) [Dispatch (pid_at s i)] (World s2 (Running i) (delete i T))
  | step_rewait i v s s1 s2 r s3 T w' :
      (i < NPROC)%nat -> scheduler_try i s = Done true s1 -> T !! i = Some (RWait v) ->
      sleep_leave i v L_wait s1 = Done tt s2 -> wait_round (Some i) s2 = Done r s3 ->
      after_wait i s3 (delete i T) r w' ->
      lstep (World s (Scheduling i) T) (Dispatch (pid_at s i) :: wait_events (pid_at s i) r) w'
  | step_create p fn pid k s s' T :
      fn <> 0 -> nextpid s < 2 ^ 31 - 1 -> first_unused (procs s) = Some k ->
      create_process fn s = Done pid s' ->
      lstep (World s (Running p) T) [Create (pid_at s p) pid] (World s' (Running p) (<[k := RStart]> T))
  | step_myproc p q s s' T :
      myproc s = Done q s' ->
      lstep (World s (Running p) T) [] (World s' (Running p) T)
  | step_print p fmt ap bs s s' T :
      Forall is_char fmt -> formatted fmt ap = Some bs -> printf fmt ap s = Done 0 s' ->
      lstep (World s (Running p) T) [] (World s' (Running p) T)
  | step_yield p q v s s1 s2 T :
      yield_enter s = Done (q, v) s1 -> scheduler_back p s1 = Done tt s2 ->
      lstep (World s (Running p) T) [Yield (pid_at s p)] (World s2 (Scheduling (S p)) (<[p := RYield v]> T))
  | step_exit p status v s s1 s2 T :
      exit_process status s = Done v s1 -> scheduler_back p s1 = Done tt s2 ->
      lstep (World s (Running p) T) [Exit (pid_at s p) (i32 status)] (World s2 (Scheduling (S p)) T)
  | step_wait p q r s s1 s2 T w' :
      wait_begin s = Done q s1 -> wait_round q s1 = Done r s2 -> after_wait p s2 T r w' ->
      lstep (World s (Running p) T) (wait_events (pid_at s p) r) w'.

Definition step (w w' : world) : Prop := exists es, lstep w es w'.

(** The events of several steps, in order. *)
Inductive lsteps : world -> list event -> world -> Prop :=
  | lsteps_none w : lsteps w [] w
  | lsteps_next w es w1 es' w2 : lstep w es w1 -> lsteps w1 es' w2 -> lsteps w (es ++ es') w2.

Lemma lsteps_rtc w es w' : lsteps w es w' -> rtc step w w'.
Proof. induction 1 as [|w es w1 es' w2 H _ IH]; [done|]. eapply rtc_l; [|done]. by exists es. Qed.

Lemma rtc_lsteps w w' : rtc step w w' -> exists es, lsteps w es w'.
Proof.
  induction 1 as [|w w1 w2 [es H] _ [es' IH]]; [eexists; constructor|]. eexists. by econstructor.
Qed.

(** ** The process table *)

Definition live (q : proc) : Prop := p_state q <> UNUSED.

(** The fields that no step changes: nobody is killed, stacks stay where they are. *)
Definition fixed (q : proc) : Z * Z := (p_killed q, p_kstack q).

(** A thread that is switched out continues where its saved state says;
    a new one starts [forkret] at the top of its own stack. *)
Definition ready_to (r : resume_point) (q : proc) : Prop :=
  match r with
  | RStart => ra (p_context q) = sym_forkret /\ sp (p_context q) = u64 (p_kstack q + PGSIZE)
      /\ s0 (p_context q) <> 0
  | RYield v => v = 0
  | RWait v => v = 0
  end.

Definition slot_ok (m : runner) (T : gmap nat resume_point) (k : nat) (q : proc) : Prop :=
  match p_state q with
  | UNUSED => T !! k = None /\ p_parent q = None
  | USED => False
  | SLEEPING => T !! k = Some (RWait 0) /\ p_chan q = PProc k
  | RUNNABLE => exists r, T !! k = Some r /\ ready_to r q
  | RUNNING => m = Running k /\ T !! k = None
  | ZOMBIE => T !! k = None
  end.

Definition can_parent (ps : list proc) (j : nat) : Prop :=
  exists r, ps !! j = Some r /\ p_state r <> UNUSED /\ p_state r <> ZOMBIE.

(** What holds of the process table [ps], with init in slot [ip] and the next
    pid [np], whenever no operation is under way. *)
Record table_ok (m : runner) (T : gmap nat resume_point) (ip : nat) (np : Z) (ps : list proc) : Prop := {
  to_length : length ps = NPROC;
  to_slot : forall k q, ps !! k = Some q -> slot_ok m T k q;
  to_parent : forall k q j, ps !! k = Some q -> p_parent q = Some j -> j <> k /\ can_parent ps j;
  to_init : can_parent ps ip /\ (forall q, ps !! ip = Some q -> p_parent q = None);
  to_kids : forall k q, ps !! k = Some q -> p_state q = SLEEPING ->
    exists j r, ps !! j = Some r /\ p_parent r = Some k;
  to_awake : forall k q j r, ps !! k = Some q -> p_state q = SLEEPING ->
    ps !! j = Some r -> p_parent r = Some k -> p_state r <> ZOMBIE;
  to_pid : forall k q, ps !! k = Some q -> live q -> 0 < p_pid q < np;
  to_pids : forall j k q r, ps !! j = Some q -> ps !! k = Some r -> live q -> live r ->
    p_pid q = p_pid r -> j = k;
  to_fixed : forall k q, ps !! k = Some q -> fixed q = (0, KSTACK (Z.of_nat k));
}.

Lemma to_killed m T ip np ps k q : table_ok m T ip np ps -> ps !! k = Some q -> p_killed q = 0.
Proof. intros Ht Hq. by pose proof (to_fixed _ _ _ _ _ Ht k q Hq) as [= ? _]. Qed.

Lemma to_kstack m T ip np ps k q : table_ok m T ip np ps -> ps !! k = Some q -> p_kstack q = KSTACK (Z.of_nat k).
Proof. intros Ht Hq. by pose proof (to_fixed _ _ _ _ _ Ht k q Hq) as [= _ ?]. Qed.

(** ** What a step does to one slot *)

(** Slots change state only from live to live, except the one slot [k]. *)
Lemma can_parent_alter ps k f j :
  can_parent ps j -> (forall q, ps !! k = Some q -> p_state (f q) <> UNUSED /\ p_state (f q) <> ZOMBIE) ->
  can_parent (alter f k ps) j.
Proof.
  intros (r & Hr & H1 & H2) Hf. unfold can_parent. setoid_rewrite alter_lookup. rewrite Hr.
  case_decide; cbn; [subst; exists (f r); split; [done|by apply Hf]|by exists r].
Qed.

(** A slot update that keeps the parent and the pid, from one state other than
    UNUSED and ZOMBIE to another. *)
Lemma table_ok_move m m' T T' ip np ps k q f :
  table_ok m T ip np ps -> ps !! k = Some q ->
  p_state q <> UNUSED -> p_state q <> ZOMBIE ->
  (forall q, p_parent (f q) = p_parent q) -> (forall q, p_pid (f q) = p_pid q) ->
  (forall q, fixed (f q) = fixed q) -> p_state (f q) <> UNUSED -> p_state (f q) <> ZOMBIE ->
  (forall j r, j <> k -> ps !! j = Some r -> slot_ok m T j r -> slot_ok m' T' j r) ->
  slot_ok m' T' k (f q) ->
  (p_state (f q) = SLEEPING -> p_state q = SLEEPING \/
     (exists j r, ps !! j = Some r /\ p_parent r = Some k)
     /\ forall j r, ps !! j = Some r -> p_parent r = Some k -> p_state r <> ZOMBIE) ->
  table_ok m' T' ip np (alter f k ps).
Proof.
  intros [A1 A2 A3 A4 A5 A6 A7 A8 A9] Hq Hu Hz Hp Hpid Hkl Hu' Hz' Hs Hk Hsl.
  assert (Hlk : forall j r', alter f k ps !! j = Some r' ->
    exists r, ps !! j = Some r /\ p_parent r' = p_parent r /\ p_pid r' = p_pid r
      /\ (p_state r' = ZOMBIE -> p_state r = ZOMBIE) /\ (live r' -> live r)
      /\ (j = k /\ r = q /\ r' = f q \/ j <> k /\ r' = r)).
  { intros j r'. rewrite alter_lookup. case_decide as Hj; [subst j; rewrite Hq; intros [= <-]|intros Hr'].
    - exists q. rewrite Hp, Hpid. split_and!; try done. by left.
    - exists r'. split_and!; try done. right. by split. }
  assert (Hcp : forall j, can_parent ps j -> can_parent (alter f k ps) j).
  { intros j Hc. apply can_parent_alter; [done|]. intros x Hx. by simplify_eq. }
  split.
  - by rewrite length_alter.
  - intros j r' (r & Hr & _ & _ & _ & _ & [(-> & -> & ->)|(Hj & ->)])%Hlk; [done|]. apply Hs; auto.
  - intros j r' i (r & Hr & Hpr & _)%Hlk Hpar. rewrite Hpr in Hpar.
    destruct (A3 j r i Hr Hpar). auto.
  - destruct A4 as [A4 A4']. split; [auto|]. intros r' (r & Hr & Hpr & _)%Hlk. rewrite Hpr. auto.
  - intros j r' Hr' Hst.
    assert (Hkid : exists i t, ps !! i = Some t /\ p_parent t = Some j).
    { apply Hlk in Hr' as (r & Hr & _ & _ & _ & _ & [(-> & -> & ->)|(Hj & ->)]); [|eauto].
      destruct (Hsl Hst) as [|[? _]]; eauto. }
    destruct Hkid as (i & t & Ht & Hpt). exists i.
    setoid_rewrite alter_lookup. rewrite Ht. case_decide; cbn; [exists (f t); by rewrite Hp|by exists t].
  - intros j r' i t' Hr' Hst (t & Ht & Hpt & _ & Hzt & _)%Hlk Hpar Hzo. rewrite Hpt in Hpar.
    apply Hzt in Hzo. apply Hlk in Hr' as (r & Hr & _ & _ & _ & _ & [(-> & -> & ->)|(Hj & ->)]).
    + destruct (Hsl Hst) as [Hqs|[_ Hno]]; [exact (A6 _ _ _ _ Hq Hqs Ht Hpar Hzo)|by apply (Hno i t)].
    + exact (A6 _ _ _ _ Hr Hst Ht Hpar Hzo).
  - intros j r' (r & Hr & _ & -> & _ & Hl & _)%Hlk Hlive. eauto.
  - intros j i r' t' (r & Hr & _ & -> & _ & Hl & _)%Hlk (t & Ht & _ & -> & _ & Hl' & _)%Hlk H1 H2. eauto.
  - intros j r' (r & Hr & _ & _ & _ & _ & [(-> & -> & ->)|(_ & ->)])%Hlk; rewrite ?Hkl; eauto.
Qed.

(** A process is created in the unused slot [k] by the running process [p]. *)
Lemma table_ok_create T ip np ps p k q tf pt fn :
  table_ok (Running p) T ip np ps -> ps !! k = Some q -> p_state q = UNUSED ->
  can_parent ps p -> (forall q, ps !! p = Some q -> p_state q <> SLEEPING) -> 0 < np -> fn <> 0 ->
  table_ok (Running p) (<[k := RStart]> T) ip (np + 1)
    (alter (created np tf pt fn (Some p)) k ps).
Proof.
  intros [A1 A2 A3 A4 A5 A6 A7 A8 A9] Hq Hu Hp Hps Hnp Hfn.
  assert (Hne : forall j, can_parent ps j -> j <> k).
  { intros j (r & Hr & H1 & _) ->. by simplify_eq. }
  assert (Hcp : forall j, can_parent ps j -> can_parent (alter (created np tf pt fn (Some p)) k ps) j).
  { intros j Hc. pose proof (Hne j Hc) as Hj. destruct Hc as (r & Hr & ?).
    exists r. by rewrite list_lookup_alter_ne. }
  assert (Hlk : forall j r', alter (created np tf pt fn (Some p)) k ps !! j = Some r' ->
    j = k /\ r' = created np tf pt fn (Some p) q \/ j <> k /\ ps !! j = Some r').
  { intros j r'. rewrite alter_lookup. case_decide as Hj; [subst j; rewrite Hq; intros [= <-]|]; auto. }
  split.
  - by rewrite length_alter.
  - intros j r' [[-> ->]|[Hj Hr]]%Hlk.
    + exists RStart. split; [apply lookup_insert_eq|done].
    + pose proof (A2 _ _ Hr) as Hs. unfold slot_ok in *. by rewrite lookup_insert_ne.
  - intros j r' i [[-> ->]|[Hj Hr]]%Hlk Hpar.
    + injection Hpar as <-. split; [by apply Hne|auto].
    + destruct (A3 _ _ _ Hr Hpar). auto.
  - destruct A4 as [A4 A4']. split; [auto|]. intros r' [[-> ->]|[Hj Hr]]%Hlk; [by destruct (Hne _ A4)|auto].
  - intros j r' [[-> ->]|[Hj Hr]]%Hlk Hst; [done|].
    destruct (A5 _ _ Hr Hst) as (i & t & Ht & Hpt). exists i, t. split; [|done].
    rewrite list_lookup_alter_ne; [done|]. intros ->. simplify_eq.
    specialize (A2 _ _ Hq). unfold slot_ok in A2. rewrite Hu in A2. destruct A2 as [_ A2]. congruence.
  - intros j r' i t' [[-> ->]|[Hj Hr]]%Hlk Hst [[-> ->]|[Hi Ht]]%Hlk Hpar;
      [done|done|discriminate|exact (A6 _ _ _ _ Hr Hst Ht Hpar)].
  - intros j r' [[-> ->]|[Hj Hr]]%Hlk Hl; [cbn; lia|]. specialize (A7 _ _ Hr Hl). lia.
  - intros j i r' t' [[-> ->]|[Hj Hr]]%Hlk [[-> ->]|[Hi Ht]]%Hlk H1 H2 E; try done.
    + specialize (A7 _ _ Ht H2). cbn in E. lia.
    + specialize (A7 _ _ Hr H1). cbn in E. lia.
    + by eapply A8.
  - intros j r' [[-> ->]|[Hj Hr]]%Hlk; [exact (A9 _ _ Hq)|eauto].
Qed.

(** The zombie in slot [k], a child of the running process [p], is reaped. *)
Lemma table_ok_reap m T ip np ps p k q :
  table_ok m T ip np ps -> ps !! k = Some q -> p_state q = ZOMBIE -> p_parent q = Some p ->
  (forall q, ps !! p = Some q -> p_state q <> SLEEPING) ->
  table_ok m T ip np (alter emptied k ps).
Proof.
  intros [A1 A2 A3 A4 A5 A6 A7 A8 A9] Hq Hz Hpar Hps.
  assert (Hne : forall j, can_parent ps j -> j <> k).
  { intros j (r & Hr & _ & H1) ->. by simplify_eq. }
  assert (Hcp : forall j, can_parent ps j -> can_parent (alter emptied k ps) j).
  { intros j Hc. pose proof (Hne j Hc) as Hj. destruct Hc as (r & Hr & ?).
    exists r. by rewrite list_lookup_alter_ne. }
  assert (Hlk : forall j r', alter emptied k ps !! j = Some r' ->
    j = k /\ r' = emptied q \/ j <> k /\ ps !! j = Some r').
  { intros j r'. rewrite alter_lookup. case_decide as Hj; [subst j; rewrite Hq; intros [= <-]|]; auto. }
  split.
  - by rewrite length_alter.
  - intros j r' [[-> ->]|[Hj Hr]]%Hlk; [|by apply A2].
    specialize (A2 _ _ Hq). unfold slot_ok in A2. rewrite Hz in A2. by split.
  - intros j r' i [[-> ->]|[Hj Hr]]%Hlk Hp; [done|]. destruct (A3 _ _ _ Hr Hp). auto.
  - destruct A4 as [A4 A4']. split; [auto|]. intros r' [[-> ->]|[Hj Hr]]%Hlk; [done|auto].
  - intros j r' [[-> ->]|[Hj Hr]]%Hlk Hst; [done|].
    destruct (A5 _ _ Hr Hst) as (i & t & Ht & Hpt). exists i, t. split; [|done].
    rewrite list_lookup_alter_ne; [done|]. intros ->. simplify_eq. by eapply Hps.
  - intros j r' i t' [[-> ->]|[Hj Hr]]%Hlk Hst [[-> ->]|[Hi Ht]]%Hlk Hp;
      [done|done|discriminate|exact (A6 _ _ _ _ Hr Hst Ht Hp)].
  - intros j r' [[-> ->]|[Hj Hr]]%Hlk Hl; [done|]. eauto.
  - intros j i r' t' [[-> ->]|[Hj Hr]]%Hlk [[-> ->]|[Hi Ht]]%Hlk H1 H2 E; try done. by eapply A8.
  - intros j r' [[-> ->]|[Hj Hr]]%Hlk; [|eauto].
    pose proof (A9 _ _ Hq) as [= _ Hks]. unfold fixed. cbn. by rewrite Hks.
Qed.

(** ** Exit *)

(** What the exit of [me] does to the slot [j] of another process. *)
Definition exit1 (me : nat) (par : option nat) (ip : nat) (b : bool) (q : proc) : proc :=
  let q := adopt1 (Some ip) (Some me) q in
  let q := if b then wake1 (PProc ip) q else q in
  match par with
  | Some i => wake1 (PProc i) q
  | None => q
  end.

Lemma exit_table_lookup me par ip b ps j q :
  length ps = NPROC -> ps !! j = Some q -> j <> me ->
  exit_table me par (Some ip) b ps !! j = Some (exit1 me par ip b q).
Proof.
  intros Hl Hq Hj. pose proof (lookup_lt_Some _ _ _ Hq) as Hb. rewrite Hl in Hb.
  assert (Ha : adopt_upto NPROC (Some ip) (Some me) ps !! j = Some (adopt1 (Some ip) (Some me) q)).
  { unfold adopt_upto. rewrite list_lookup_imap, Hq. cbn [fmap option_fmap option_map].
    by rewrite (proj2 (Nat.ltb_lt j NPROC)). }
  assert (Hw : wake_init b (Some ip) (Some me) (adopt_upto NPROC (Some ip) (Some me) ps) !! j
    = Some (if b then wake1 (PProc ip) (adopt1 (Some ip) (Some me) q) else adopt1 (Some ip) (Some me) q)).
  { unfold wake_init. destruct b; [|done].
    rewrite (woken_lookup _ _ _ _ _ Ha) by done. by rewrite bool_decide_eq_false_2 by congruence. }
  unfold exit_table, exit1. destruct par as [i|]; [|done].
  rewrite (woken_lookup _ _ _ _ _ Hw) by done. by rewrite bool_decide_eq_false_2 by congruence.
Qed.

(** A wake-up either makes a sleeper runnable or changes nothing. *)
Lemma wake1_cases chan q :
  p_state q = SLEEPING /\ p_chan q = chan /\ wake1 chan q = set_p_state RUNNABLE q
  \/ wake1 chan q = q /\ (p_state q = SLEEPING -> p_chan q <> chan).
Proof.
  unfold wake1. destruct (decide (p_state q = SLEEPING)) as [H1|H1].
  - rewrite bool_decide_eq_true_2 by done. destruct (decide (p_chan q = chan)) as [H2|H2].
    + rewrite bool_decide_eq_true_2 by done. auto.
    + rewrite bool_decide_eq_false_2 by done. right. by split.
  - rewrite bool_decide_eq_false_2 by done. right. by split.
Qed.

Lemma adopt1_keeps ip p q :
  p_state (adopt1 ip p q) = p_state q /\ p_chan (adopt1 ip p q) = p_chan q
  /\ p_pid (adopt1 ip p q) = p_pid q /\ p_context (adopt1 ip p q) = p_context q
  /\ fixed (adopt1 ip p q) = fixed q /\ p_xstate (adopt1 ip p q) = p_xstate q
  /\ p_trapframe (adopt1 ip p q) = p_trapframe q /\ p_pagetable (adopt1 ip p q) = p_pagetable q
  /\ p_parent (adopt1 ip p q) = if decide (p_parent q = p) then ip else p_parent q.
Proof.
  unfold adopt1. destruct (decide (p_parent q = p)) as [H|H].
  - by rewrite bool_decide_eq_true_2.
  - by rewrite bool_decide_eq_false_2.
Qed.

Record exit1_spec (me : nat) (par : option nat) (ip : nat) (b : bool) (q r : proc) : Prop := {
  e1_pid : p_pid r = p_pid q;
  e1_chan : p_chan r = p_chan q;
  e1_fixed : fixed r = fixed q;
  e1_xstate : p_xstate r = p_xstate q;
  e1_context : p_context r = p_context q;
  e1_trapframe : p_trapframe r = p_trapframe q;
  e1_pagetable : p_pagetable r = p_pagetable q;
  e1_parent : p_parent r = if decide (p_parent q = Some me) then Some ip else p_parent q;
  e1_state : p_state r = p_state q \/ p_state q = SLEEPING /\ p_state r = RUNNABLE;
  e1_asleep : p_state r = SLEEPING ->
    (b = true -> p_chan q <> PProc ip) /\ forall i, par = Some i -> p_chan q <> PProc i;
  e1_woken : p_state q = SLEEPING -> p_state r = RUNNABLE ->
    b = true /\ p_chan q = PProc ip \/ exists i, par = Some i /\ p_chan q = PProc i;
}.

Lemma exit1_ok me par ip b q : exit1_spec me par ip b q (exit1 me par ip b q).
Proof.
  unfold exit1. destruct (adopt1_keeps (Some ip) (Some me) q) as (A1 & A2 & A3 & A4 & Ak & Ax & A5 & A6 & A7).
  set (a := adopt1 _ _ q) in *. clearbody a.
  set (c := if b then wake1 (PProc ip) a else a).
  assert (Hc : exit1_spec me None ip b q c).
  { unfold c. destruct b; [destruct (wake1_cases (PProc ip) a) as [(H1 & H2 & ->)|(-> & H)]|].
    - split; [done..| | |]; cbn; [right; split; [congruence|done]|by intros [=]|left; split; congruence].
    - split; [done..| | |]; [by left| |congruence]. intros Hs. split; [|by intros]. intros _. rewrite <- A2. apply H, Hs.
    - split; [done..| | |]; [by left| |congruence]. intros _. by split. }
  clearbody c. destruct par as [i|]; [|done]. destruct Hc as [C1 C2 Ck Cx C3 C4 C5 C6 C7 C8 C9].
  destruct (wake1_cases (PProc i) c) as [(H1 & H2 & ->)|(-> & H)].
  - split; [done..| | |]; cbn; [right; split; [destruct C7 as [|[? ?]]; congruence|done]|by intros [=]|].
    intros _ _. right. exists i. split; [done|congruence].
  - split; [done..| |].
    + intros Hs. destruct (C8 Hs) as [C8' _]. split; [done|]. intros ? [= <-]. rewrite <- C2. by apply H.
    + intros Hs Hr. destruct (C9 Hs Hr) as [?|(? & [=] & _)]. by left.
Qed.

Lemma zombies_all p ps j r :
  length ps = NPROC -> ps !! j = Some r -> zombie_of p r -> zombies_upto NPROC p ps = true.
Proof.
  intros Hl Hr Hz. unfold zombies_upto. rewrite take_ge by lia. apply existsb_exists. exists r.
  split; [|by apply bool_decide_eq_true_2]. apply list_elem_of_In. by eapply list_elem_of_lookup_2.
Qed.

Lemma zombies_some p ps :
  zombies_upto NPROC p ps = true -> exists j r, ps !! j = Some r /\ zombie_of p r.
Proof.
  unfold zombies_upto. intros (r & Hr & Hz)%existsb_exists.
  apply list_elem_of_In, list_elem_of_lookup_1 in Hr as [j Hr]. exists j, r.
  split; [by apply lookup_take_Some in Hr as [Hr _]|]. by apply bool_decide_eq_true in Hz.
Qed.

Section table_exit.
Context {T : gmap nat resume_point} {ip : nat} {np : Z} {ps : list proc} {me : nat} {q : proc}.
Context (f : proc -> proc).
Hypothesis Hok : table_ok (Running me) T ip np ps.
Hypothesis Hq : ps !! me = Some q.
Hypothesis Hrun : p_state q = RUNNING.
Hypothesis Hip : me <> ip.
Hypothesis Hf : forall q, p_state (f q) = ZOMBIE /\ p_parent (f q) = p_parent q /\ p_pid (f q) = p_pid q
  /\ fixed (f q) = fixed q.

Let par := p_parent q.
Let b := zombies_upto NPROC (Some me) ps.
Let ps' := alter f me (exit_table me par (Some ip) b ps).

(** A slot of the new table is the zombie or comes from another slot. *)
Lemma exit_slot j r' :
  ps' !! j = Some r' ->
  j = me /\ r' = f q \/ exists r, j <> me /\ ps !! j = Some r /\ exit1_spec me par ip b r r'.
Proof.
  assert (Hself : par <> Some me) by (intros E; by destruct (to_parent _ _ _ _ _ Hok _ _ _ Hq E)).
  pose proof (to_length _ _ _ _ _ Hok) as Hl. unfold ps'. rewrite alter_lookup. case_decide as Hj.
  - subst j. rewrite exit_table_self with (q := q) by done. cbn. intros [= <-]. by left.
  - intros Hr. right. destruct (lookup_lt_is_Some_2 ps j) as [r Hr0].
    { apply lookup_lt_Some in Hr. by rewrite (tn_length (F := exit_table me par (Some ip) b)) in Hr. }
    rewrite (exit_table_lookup _ _ _ _ _ _ r) in Hr by done. injection Hr as <-.
    exists r. split_and!; try done. apply exit1_ok.
Qed.

Lemma exit_slot_other j r :
  ps !! j = Some r -> j <> me -> exists r', ps' !! j = Some r' /\ exit1_spec me par ip b r r'.
Proof.
  intros Hr Hj. eexists. split; [|apply exit1_ok]. unfold ps'.
  rewrite list_lookup_alter_ne by done. apply exit_table_lookup; [apply (to_length _ _ _ _ _ Hok)|done|done].
Qed.

Lemma exit_slot_self : ps' !! me = Some (f q).
Proof.
  assert (Hself : par <> Some me) by (intros E; by destruct (to_parent _ _ _ _ _ Hok _ _ _ Hq E)).
  unfold ps'. by rewrite list_lookup_alter_eq, (exit_table_self me par (Some ip) b ps q).
Qed.

Lemma exit_can_parent j : j <> me -> can_parent ps j -> can_parent ps' j.
Proof.
  intros Hj (r & Hr & H1 & H2). destruct (exit_slot_other j r Hr Hj) as (r' & Hr' & E).
  exists r'. split; [done|]. destruct (e1_state _ _ _ _ _ _ E) as [->|[_ ->]]; done.
Qed.

Lemma exit_slot_ok m j r' : ps' !! j = Some r' -> slot_ok m T j r'.
Proof.
  pose proof (to_slot _ _ _ _ _ Hok) as A2. intros [[-> ->]|(r & Hj & Hr & E)]%exit_slot.
  - specialize (A2 _ _ Hq). unfold slot_ok in *. rewrite Hrun in A2. rewrite (proj1 (Hf q)). apply A2.
  - specialize (A2 _ _ Hr). unfold slot_ok in *. destruct E as [E1 E2 Ek Ex E3 E4 E5 E6 E7 E8 _].
    destruct E7 as [->|[Es ->]].
    + destruct (p_state r); try done.
      * destruct A2 as [? Hp]. rewrite E6, Hp. by split.
      * by rewrite E2.
      * destruct A2 as (x & Hx & Hrd). exists x. split; [done|]. injection Ek as _ Ek. destruct x; cbn in *; by rewrite ?E3, ?Ek.
      * destruct A2 as [[= ->] _]. done.
    + rewrite Es in A2. destruct A2 as [? _]. by exists (RWait 0).
Qed.

Lemma exit_parent_ok j r' i :
  ps' !! j = Some r' -> p_parent r' = Some i -> i <> j /\ can_parent ps' i.
Proof.
  pose proof (to_parent _ _ _ _ _ Hok) as A3. destruct (to_init _ _ _ _ _ Hok) as [A4 A4'].
  intros [[-> ->]|(r & Hj & Hr & E)]%exit_slot Hp.
  - destruct (Hf q) as (_ & Hfp & _ & _). rewrite Hfp in Hp. destruct (A3 _ _ _ Hq Hp).
    split; [done|]. by apply exit_can_parent.
  - rewrite (e1_parent _ _ _ _ _ _ E) in Hp. case_decide as Hd.
    + injection Hp as <-. split; [|apply exit_can_parent; auto]. intros ->. rewrite (A4' _ Hr) in Hd. done.
    + destruct (A3 _ _ _ Hr Hp) as [? ?]. split; [done|]. apply exit_can_parent; [congruence|done].
Qed.

(** Who sleeps now slept before. *)
Lemma exit_asleep j r' :
  ps' !! j = Some r' -> p_state r' = SLEEPING ->
  exists r, j <> me /\ ps !! j = Some r /\ p_state r = SLEEPING /\ exit1_spec me par ip b r r'.
Proof.
  intros [[-> ->]|(r & Hj & Hr & E)]%exit_slot Hst; [by rewrite (proj1 (Hf q)) in Hst|].
  exists r. split_and!; try done. destruct (e1_state _ _ _ _ _ _ E) as [<-|[? ?]]; congruence.
Qed.

Lemma exit_kids_ok j r' :
  ps' !! j = Some r' -> p_state r' = SLEEPING -> exists i t, ps' !! i = Some t /\ p_parent t = Some j.
Proof.
  intros H Hst. destruct (exit_asleep j r' H Hst) as (r & Hj & Hr & Hrs & E).
  destruct (to_kids _ _ _ _ _ Hok _ _ Hr Hrs) as (i & t & Ht & Hpt).
  destruct (decide (i = me)) as [->|Hi].
  - exists me, (f q). simplify_eq. split; [apply exit_slot_self|by rewrite (proj1 (proj2 (Hf q)))].
  - destruct (exit_slot_other i t Ht Hi) as (t' & Ht' & E'). exists i, t'. split; [done|].
    rewrite (e1_parent _ _ _ _ _ _ E'), Hpt. rewrite decide_False by congruence. done.
Qed.

Lemma exit_awake_ok j r' i t' :
  ps' !! j = Some r' -> p_state r' = SLEEPING -> ps' !! i = Some t' -> p_parent t' = Some j ->
  p_state t' <> ZOMBIE.
Proof.
  intros Hj' Hst Hi' Hp Hz. destruct (exit_asleep j r' Hj' Hst) as (r & Hj & Hr & Hrs & E).
  pose proof (to_slot _ _ _ _ _ Hok _ _ Hr) as Hs. unfold slot_ok in Hs. rewrite Hrs in Hs. destruct Hs as [_ Hch].
  destruct (e1_asleep _ _ _ _ _ _ E Hst) as [Hb Hpar].
  apply exit_slot in Hi' as [[-> ->]|(t & Hi & Ht & E')].
  - destruct (Hf q) as (_ & Hfp & _ & _). rewrite Hfp in Hp. by apply (Hpar j).
  - assert (Htz : p_state t = ZOMBIE).
    { destruct (e1_state _ _ _ _ _ _ E') as [<-|[? ?]]; congruence. }
    rewrite (e1_parent _ _ _ _ _ _ E') in Hp. case_decide as Hd.
    + injection Hp as <-. apply Hb; [|done]. apply (zombies_all _ _ i t); [apply (to_length _ _ _ _ _ Hok)|done|done].
    + exact (to_awake _ _ _ _ _ Hok _ _ _ _ Hr Hrs Ht Hp Htz).
Qed.

(** Who is alive now, or a zombie, was alive before with the same pid. *)
Lemma exit_live j r' :
  ps' !! j = Some r' -> live r' -> exists r, ps !! j = Some r /\ live r /\ p_pid r' = p_pid r.
Proof.
  intros [[-> ->]|(r & Hj & Hr & E)]%exit_slot Hl.
  - exists q. split; [done|]. split; [unfold live; by rewrite Hrun|apply Hf].
  - exists r. split; [done|]. split; [|apply E]. unfold live in *.
    destruct (e1_state _ _ _ _ _ _ E) as [<-|[-> _]]; done.
Qed.

(** The running process [me] exits: its children go to init, its parent and,
    when a zombie is handed over, init are woken. *)
Lemma table_ok_exit m : table_ok m T ip np ps'.
Proof.
  pose proof (to_init _ _ _ _ _ Hok) as [A4 A4']. split.
  - unfold ps'. rewrite length_alter, (tn_length (F := exit_table me par (Some ip) b)). apply Hok.
  - intros j r'. apply exit_slot_ok.
  - apply exit_parent_ok.
  - split; [by apply exit_can_parent; auto|]. intros r' [[-> ->]|(r & Hj & Hr & E)]%exit_slot; [done|].
    rewrite (e1_parent _ _ _ _ _ _ E), (A4' _ Hr). by case_decide.
  - apply exit_kids_ok.
  - apply exit_awake_ok.
  - intros j r' Hr' Hl. destruct (exit_live j r' Hr' Hl) as (r & Hr & Lr & ->).
    exact (to_pid _ _ _ _ _ Hok _ _ Hr Lr).
  - intros j i r' t' Hr' Ht' H1 H2 Heq.
    destruct (exit_live _ _ Hr' H1) as (r & Hr & L1 & E1), (exit_live _ _ Ht' H2) as (t & Ht & L2 & E2).
    apply (to_pids _ _ _ _ _ Hok j i r t); congruence.
  - intros j r' [[-> ->]|(r & Hj & Hr & E)]%exit_slot.
    + rewrite (proj2 (proj2 (proj2 (Hf q)))). exact (to_fixed _ _ _ _ _ Hok _ _ Hq).
    + rewrite (e1_fixed _ _ _ _ _ _ E). exact (to_fixed _ _ _ _ _ Hok _ _ Hr).
Qed.

End table_exit.

End step.
