(* ===== verification/ProcSpec.v ===== *)
(** * The contracts of the process operations

    What kernel/proc.c's operations promise their callers, put together from the
    lemmas of ProcTable.v, ProcMem.v, ProcExit.v and Switch.v: creation and
    release of a process, the address space it gets, sleep and wake-up, exit,
    wait, and giving up the CPU. *)

From S2P Require Import Prelude Riscv Memory State Spinlock Kalloc Vm VmMap Sv39 VmKernel VmDestroy Uart Printf Csr Proc ProcTable ProcMem ProcExit Switch Trap Sched.

Section proc_spec.
Context {L : Linker} {LO : LinkerOk}.

(** ** The address space of a new process *)

(** What the hardware makes of it: the trampoline code at TRAMPOLINE, physical
    page 1 at TRAPFRAME, nothing else. *)
Definition user_translate (va : Z) : option (Z * Z) :=
  if canonical va then
    if decide (vbase va = TRAPFRAME) then Some (PGSIZE + va mod 4096, PTE_R .| PTE_W .| PTE_V)
    else if decide (vbase va = TRAMPOLINE) then
      Some (sym_trampoline + va mod 4096, PTE_R .| PTE_X .| PTE_V)
    else None
  else None.

Lemma user_space_translate s pt tbl free va :
  user_space s pt tbl free -> sv39_translate (mem s) pt va = user_translate va.
Proof.
  intros [[_ W _] Hl]. rewrite (translate_wf _ _ tbl) by done. unfold user_translate.
  destruct (canonical va); [|done]. rewrite Hl. unfold user_leaf, user_leaf_at. destruct trampoline_bounds as [T1 T2].
  case_decide; [|case_decide; [|done]]; cbn [mbind option_bind].
  - destruct (leaf_entry_hw PGSIZE (PTE_R .| PTE_W)) as (-> & -> & ->); done.
  - destruct (leaf_entry_hw sym_trampoline (PTE_R .| PTE_X)) as (-> & -> & ->); done.
Qed.

(** ** Creation *)

Lemma only_owned_pages K tbl l s s' :
  only_owned K tbl s s' -> (map_to_list tbl).*2 ≡ₚ l -> only_owned (K ++ l) ∅ s s'.
Proof.
  intros H Hl a Ha. apply H. intros p [Hp|[path Hp]]; apply Ha; left; apply elem_of_app; [by left|right].
  rewrite <- Hl. apply list_elem_of_fmap. exists (path, p). split; [done|]. by apply elem_of_map_to_list.
Qed.

(** C27: [create_process] builds a runnable process.  With a free slot and four
    free pages it returns the next pid; the first unused slot gets that pid, a
    trapframe page, a page table, the caller as parent if there is one, and a
    context that starts [forkret] on the slot's stack with the thread function
    in s0; every other slot keeps its contents, the other pages of RAM keep
    theirs, and the four pages are gone from the free list.  The page table maps
    the trampoline and TRAPFRAME, the latter to physical address 4096. *)
Theorem create_process_spec s k tf pt t1 t2 free fn q :
  can_alloc s (tf :: pt :: t1 :: t2 :: free) k -> lock_free L_wait s -> procs s !! k = Some q ->
  exists s' q', create_process fn s = Done (nextpid s) s'
    /\ procs s' !! k = Some q'
    /\ p_state q' = RUNNABLE /\ p_pid q' = nextpid s /\ p_trapframe q' = tf /\ p_pagetable q' = pt
    /\ p_parent q' = (match c_proc (cpu0 s) with Some me => Some me | None => p_parent q end)
    /\ p_context q' = Context sym_forkret (u64 (p_kstack q + PGSIZE)) fn 0 0 0 0 0 0 0 0 0 0 0
    /\ (forall j, j <> k -> procs s' !! j = procs s !! j)
    /\ nextpid s' = i32 (nextpid s + 1)
    /\ pool s' free /\ only_owned [tf; pt; t1; t2] ∅ s s'
    /\ (forall va, sv39_translate (mem s') pt va = user_translate va)
    /\ noff s' = noff s /\ intr_get s' = intr_get s.
Proof.
  intros Hc Hw Hq. destruct (create_process_ok s k tf pt t1 t2 free fn Hc Hw)
    as (s' & n & tbl & E & Es & U & H1 & H2 & H3 & H4 & H5).
  exists s', (created (nextpid s) tf pt fn (c_proc (cpu0 s)) q).
  assert (Hps : procs s' = alter (created (nextpid s) tf pt fn (c_proc (cpu0 s))) k (procs s)) by by rewrite Es.
  assert (Hn : nextpid s' = i32 (nextpid s + 1)) by by rewrite Es.
  assert (Hcsr : csr s' = csr (touch s)) by by rewrite Es.
  assert (Hnoff : noff s' = noff (touch s)) by by rewrite Es.
  clear Es.
  assert (Hno : noff s' = noff s) by by rewrite Hnoff, noff_touch.
  split_and!; try done; try by destruct (c_proc (cpu0 s)).
  - rewrite Hps, list_lookup_alter_eq, Hq. done.
  - intros j Hj. by rewrite Hps, list_lookup_alter_ne.
  - apply (vm_pool _ _ _ _ (us_inv _ _ _ _ U)).
  - by apply (only_owned_pages [tf] tbl).
  - intros va. by eapply user_space_translate.
  - unfold intr_get. rewrite Hcsr. fold (intr_get (touch s)). apply intr_get_touch.
Qed.

(** C28: allocation and release of a process are inverse.  [free_process] undoes
    [alloc_process]: the slot is unused again with all its fields reset, and the
    free list holds the same pages as before; only the pid is spent. *)
Theorem alloc_free_round_trip s k tf pt t1 t2 free q :
  can_alloc s (tf :: pt :: t1 :: t2 :: free) k -> procs s !! k = Some q ->
  exists s1 s2 free' q', alloc_process s = Done (Some k) s1 /\ free_process k s1 = Done tt s2
    /\ pool s2 free' /\ free' ≡ₚ tf :: pt :: t1 :: t2 :: free
    /\ procs s2 !! k = Some q' /\ p_state q' = UNUSED /\ p_pid q' = 0 /\ p_parent q' = None
    /\ p_trapframe q' = 0 /\ p_pagetable q' = 0 /\ p_chan q' = PNull /\ p_killed q' = 0 /\ p_xstate q' = 0
    /\ (forall j, j <> k -> procs s2 !! j = procs s !! j)
    /\ lock_held (L_proc k) s2 /\ only_owned [tf; pt; t1; t2] ∅ s s2.
Proof.
  intros Hc Hq. destruct (alloc_process_ok s k tf pt t1 t2 free Hc)
    as (s1 & n & tbl & E & Es & U & H1 & H2 & H3 & H4 & H5).
  pose proof (slot_bound s k (ca_locks _ _ _ Hc) (ca_slot _ _ _ Hc)) as Hkb.
  assert (Hex : lock_exists (L_proc k) s) by (apply lock_exists_proc; [apply (ca_locks _ _ _ Hc)|done]).
  set (q1 := born (nextpid s) tf pt (set_p_lock (Spinlock 1 (lk_name (p_lock q)) (Some 0%nat)) q)).
  assert (Hps1 : procs s1 = alter (born (nextpid s) tf pt) k (procs (locked_state (L_proc k) s))) by by rewrite Es.
  assert (Hl1 : get_lock (L_proc k) s1 = get_lock (L_proc k) (locked_state (L_proc k) s)).
  { rewrite Es. apply (ind_get (l := L_proc k) (u := patch _ _ _ _ _ _)). }
  assert (Hn1 : noff s1 = noff (locked_state (L_proc k) s)) by by rewrite Es.
  clear Es.
  assert (Hq1 : procs s1 !! k = Some q1).
  { rewrite Hps1, list_lookup_alter_eq, (lookup_locked_self k q) by done. done. }
  destruct (free_process_ok s1 k q1 tbl free) as (s2 & free' & E2 & Es2 & P2 & C2 & O2).
  { by split. }
  { rewrite Hn1, noff_locked. pose proof (hart_noff _ (ca_hart _ _ _ Hc)). lia. }
  assert (Hps2 : procs s2 = alter emptied k (procs s1)) by by rewrite Es2.
  assert (Hl2 : get_lock (L_proc k) s2 = get_lock (L_proc k) (table (alter emptied k) s1)) by by rewrite Es2.
  clear Es2.
  exists s1, s2, free', (emptied q1). split_and!; try done.
  - rewrite C2. change (p_trapframe q1) with tf. by rewrite H5.
  - rewrite Hps2, list_lookup_alter_eq, Hq1. done.
  - intros j Hj. rewrite Hps2, Hps1, !list_lookup_alter_ne by done.
    unfold locked_state, set_lock. cbn [procs set_procs]. by rewrite list_lookup_alter_ne.
  - unfold lock_held. rewrite Hl2, (ind_get (l := L_proc k) (u := table _)), Hl1. by apply locked_state_held.
  - intros a Ha. rewrite (only_owned_pages _ _ _ _ _ O2 H5 a Ha).
    by apply (only_owned_pages [tf] tbl [pt; t1; t2] s s1).
Qed.

(** ** Giving up the CPU *)

(** The scheduler has the CPU, right after it switched back from a thread. *)
Lemma scheduling_descheduled me f s q `{!LockNeutral f} :
  running s me q -> scheduling (descheduled me f (touch s)).
Proof.
  intros R. pose proof (running_bound _ _ _ R) as Hb. destruct R as [Hh Hn Hc Hq [Hl Hf]]. unfold descheduled.
  set (F := alter _ me).
  assert (E : forall l, get_lock l (swapped (c_context (cpu0 (touch s))) None (c_context (cpu0 (touch s))) F (touch s))
    = get_lock l s).
  { intros l. rewrite <- (get_lock_touch l s). rewrite <- (ind_get (l := l) (u := table F) (touch s)). by destruct l. }
  split.
  - by apply (hart_ok_noff (touch s)); [..|apply hart_ok_touch].
  - change (noff (touch s) = 0). by rewrite noff_touch.
  - done.
  - split; [change (length (F (procs s)) = NPROC); by rewrite (tn_length (F := F))|].
    intros j Hj Hno. unfold lock_free. rewrite E. by apply Hf.
Qed.

Lemma running_back me q f s `{!LockNeutral f} :
  running s me q -> scheduler_back me (parked me f s) = Done tt (descheduled me f (touch s)).
Proof.
  intros R. destruct (running_lock s me q (L_proc me) R) as [Hf Hex]; [exists me; split; [done|by eapply running_bound]|].
  by apply scheduler_back_parked; [apply _|apply R..| |].
Qed.

(** C29: giving up the CPU and getting it back is invisible to the thread.  After
    [yield]'s switch the scheduler runs with all locks free and the slot
    RUNNABLE; if it picks the slot again, the thread continues after its call
    with its registers, its stack and the interrupt state as they were, and the
    only trace left in the machine is the copy of the registers in its slot. *)
Theorem yield_round_trip s me q :
  running s me q -> p_state q = RUNNING -> intr_get s = false ->
  exists v s1 s2 s3 s4, yield_enter s = Done (me, v) s1 /\ scheduler_back me s1 = Done tt s2
    /\ scheduling s2 /\ procs s2 = alter (fun q => set_p_context (regs s) (set_p_state RUNNABLE q)) me (procs s)
    /\ scheduler_try me s2 = Done true s3 /\ yield_leave me v s3 = Done tt s4
    /\ s4 = table (alter (set_p_context (regs s)) me) (touch s).
Proof.
  intros R Hst Hoff. pose proof R as [Hh Hn Hc Hq [Hl Hf]].
  assert (Et : touch s = set_intena 0 s) by (unfold touch; by rewrite Hn, Hoff).
  set (s2 := descheduled me (set_p_state RUNNABLE) (set_intena 0 s)).
  set (q2 := set_p_context (regs s) (set_p_state RUNNABLE q)).
  pose proof (scheduling_descheduled me (set_p_state RUNNABLE) s q R) as S2. rewrite Et in S2. fold s2 in S2.
  assert (Hq2 : procs s2 !! me = Some q2) by exact (lookup_alter_slot s me q (fun q => set_p_context (regs s) (set_p_state RUNNABLE q)) Hq).
  eexists _, _, s2, (dispatched me q2 s2), _. split; [by eapply yield_enter_ok|].
  split; [rewrite (running_back me q _ s R), Et; done|]. split; [done|]. split; [done|].
  split. { rewrite (scheduler_try_ok me q2) by first [apply S2|done]. by rewrite bool_decide_eq_true_2. }
  split. { apply yield_leave_ok; first [apply S2|done]. }
  rewrite Hoff. cbn [c_bool]. unfold resumed.
  assert (Hi2 : intr_get s2 = false) by exact Hoff.
  rewrite restored_off by first [exact Hi2|apply S2].
  assert (Ht : touch s2 = s2).
  { unfold touch. replace (noff s2) with 0 by (symmetry; exact Hn). rewrite Hi2. reflexivity. }
  rewrite Ht. clear S2.
  assert (Hps : alter (fun q => set_p_state RUNNING q) me (procs s2) = alter (set_p_context (regs s)) me (procs s)).
  { apply list_eq. intros j. change (procs s2) with (alter (fun q => set_p_context (regs s) (set_p_state RUNNABLE q)) me (procs s)).
    rewrite !alter_lookup. case_decide; [subst j|done]. rewrite Hq. cbn. f_equal.
    destruct q. cbn in Hst. by subst. }
  unfold swapped, table at 1. rewrite Hps, Et.
  destruct s as [? ? ? [] ? ? ? ? ? ? ? ? ? ? ? ? ?]. cbn in Hc. by subst.
Qed.

(** C26: sleeping and waking.  [sleep], called with the lock [W] held, gives up the
    CPU with [W] free and the slot asleep on [chan]: both changes become visible
    together, since the slot's own lock is held until the scheduler releases it.
    From then on a [wakeup] of the channel by anyone else makes exactly the
    sleepers on that channel runnable, this one included; and once the scheduler
    picks the slot, [sleep] returns with [W] held again, the channel cleared and
    the thread's registers back. *)
Theorem sleep_wakeup s me q W chan :
  running s me q -> is_global W -> lock_free W s ->
  exists v s1 s2, sleep_enter chan (Some W) (locked_state W s) = Done (me, v) s1
    /\ scheduler_back me s1 = Done tt s2 /\ scheduling s2 /\ lock_free W s2
    /\ procs s2 !! me = Some (set_p_context (regs s) (set_p_state SLEEPING (set_p_chan chan q)))
    /\ (forall j, j <> me -> procs s2 !! j = procs s !! j)
    /\ (forall r, hart_ok r -> plocks_free (fun _ => False) r -> c_proc (cpu0 r) <> Some me ->
         exists r', wakeup chan r = Done tt r'
           /\ forall j q', procs r !! j = Some q' ->
                procs r' !! j = Some (if decide (c_proc (cpu0 r) <> Some j /\ p_state q' = SLEEPING /\ p_chan q' = chan)
                                     then set_p_state RUNNABLE q' else q'))
    /\ (forall r q', scheduling r -> lock_free W r -> procs r !! me = Some q' -> p_state q' = RUNNABLE ->
         exists r1 r2, scheduler_try me r = Done true r1 /\ sleep_leave me v W r1 = Done tt r2
           /\ lock_held W r2 /\ regs r2 = p_context q'
           /\ procs r2 !! me = Some (set_p_chan PNull (set_p_state RUNNING q'))).
Proof.
  intros R HW Hw. pose proof R as [Hh Hn Hc Hq [Hl Hf]].
  exists (c_bool (intr_get s)), (parked me (asleep chan) (touch s)), (descheduled me (asleep chan) (touch s)).
  assert (Ht : running (touch s) me q).
  { split; [by apply hart_ok_touch|by rewrite noff_touch|done|done|by apply plocks_free_touch]. }
  split. { pose proof (sleep_enter_ok s me q W chan (fun ps => ps) R HW Hw Hq) as E.
    by rewrite !(table_id (fun ps => ps)) in E by done. }
  split. { rewrite (running_back me q _ _ Ht). by rewrite touch_touch. }
  split. { by eapply scheduling_descheduled. }
  split.
  { unfold lock_free. replace (get_lock W _) with (get_lock W s); [exact Hw|].
    rewrite <- (get_lock_touch W s). by destruct W as [| | | | |j]; [..|destruct (HW j)]. }
  split. { exact (lookup_alter_slot s me q (fun q => set_p_context (regs s) (asleep chan q)) Hq). }
  split. { intros j Hj. cbn. by rewrite list_lookup_alter_ne. }
  split.
  - intros r Hrh [Hrl Hrf] Hrc. eexists. split; [apply wakeup_ok; [done|done|]|].
    + intros j Hj _. apply Hrf; [done|tauto].
    + intros j q' Hq'. pose proof (lookup_lt_Some _ _ _ Hq') as Hj. rewrite Hrl in Hj.
      change (procs (table ?F (touch r))) with (F (procs r)). rewrite (woken_lookup _ _ _ _ q') by done. f_equal.
      unfold wake1. destruct (decide (c_proc (cpu0 r) = Some j)) as [E|E].
      * rewrite bool_decide_eq_true_2 by done. rewrite decide_False; [done|]. intros [? _]. done.
      * rewrite bool_decide_eq_false_2 by done.
        destruct (decide (p_state q' = SLEEPING)) as [E1|E1], (decide (p_chan q' = chan)) as [E2|E2];
          rewrite ?(bool_decide_eq_true_2 _ E1), ?(bool_decide_eq_false_2 _ E1),
            ?(bool_decide_eq_true_2 _ E2), ?(bool_decide_eq_false_2 _ E2); cbn [andb];
          [by rewrite decide_True|rewrite decide_False; naive_solver..].
  - intros r q' Sr Wr Hq' Hst. exists (dispatched me q' r). eexists. split.
    { rewrite (scheduler_try_ok me q') by first [apply Sr|done]. by rewrite bool_decide_eq_true_2. }
    split. { apply sleep_leave_ok; first [exact HW|exact Wr|apply Sr|done]. }
    assert (Hr : get_lock W (resumed me q' (set_p_chan PNull) (c_bool (intr_get s)) r) = get_lock W r).
    { by destruct W as [| | | | |j]; [..|destruct (HW j)]. }
    split; [|split].
    + apply locked_state_held. by apply lock_exists_global.
    + by destruct W as [| | | | |j]; [..|destruct (HW j)].
    + set (x := resumed _ _ _ _ _).
      replace (procs (locked_state W x)) with (procs x) by (by destruct W as [| | | | |j]; [..|destruct (HW j)]).
      exact (lookup_alter_slot r me q' (fun q => set_p_chan PNull (set_p_state RUNNING q)) Hq').
Qed.

(** ** Exit and wait *)

(** What the exit of [me] changes in another slot: a child goes to init, and a
    sleeper that is roused becomes runnable. *)
Definition adopted (me ip : nat) (r : proc) : proc :=
  if decide (p_parent r = Some me) then set_p_parent (Some ip) r else r.

(** The sleepers it rouses: on the parent's channel, or on init's if a child of
    [me] has exited already. *)
Definition roused (me ip : nat) (par : option nat) (ps : list proc) (r : proc) : Prop :=
  p_state r = SLEEPING
  /\ ((exists i, par = Some i /\ p_chan r = PProc i)
      \/ p_chan r = PProc ip /\ exists k z, ps !! k = Some z /\ p_parent z = Some me /\ p_state z = ZOMBIE).

Lemma exit1_exact me ip par b r :
  let wakes := p_state r = SLEEPING
    /\ ((exists i, par = Some i /\ p_chan r = PProc i) \/ p_chan r = PProc ip /\ b = true) in
  (wakes -> exit1 me par ip b r = set_p_state RUNNABLE (adopted me ip r))
  /\ (~ wakes -> exit1 me par ip b r = adopted me ip r).
Proof.
  cbv zeta. unfold exit1. replace (adopt1 (Some ip) (Some me) r) with (adopted me ip r); last first.
  { unfold adopted, adopt1. by case_decide; [rewrite bool_decide_eq_true_2|rewrite bool_decide_eq_false_2]. }
  assert (E : p_state (adopted me ip r) = p_state r /\ p_chan (adopted me ip r) = p_chan r).
  { unfold adopted. by case_decide. }
  destruct E as [Es Ec]. rewrite <- Es, <- Ec. generalize (adopted me ip r). clear. intros r.
  assert (Hhit : forall chan, p_state r = SLEEPING -> p_chan r = chan -> wake1 chan r = set_p_state RUNNABLE r).
  { intros chan H1 H2. unfold wake1. by rewrite !bool_decide_eq_true_2. }
  assert (Hrun : forall chan, wake1 chan (set_p_state RUNNABLE r) = set_p_state RUNNABLE r) by done.
  split.
  - intros [Hs [(i & -> & Hc)|[Hc ->]]].
    + rewrite <- (Hhit (PProc i)) at 1 by done.
      destruct b; [|done]. by destruct (wake1_cases (PProc ip) r) as [(_ & _ & ->)|[-> _]]; rewrite ?Hhit.
    + rewrite Hhit by done. by destruct par.
  - intros Hn. assert (H1 : (if b then wake1 (PProc ip) r else r) = r).
    { destruct b; [|done]. destruct (wake1_cases (PProc ip) r) as [(H1 & H2 & _)|[-> _]]; [|done].
      destruct Hn. split; [done|]. by right. }
    rewrite H1. destruct par as [i|]; [|done].
    destruct (wake1_cases (PProc i) r) as [(H2 & H3 & _)|[-> _]]; [|done].
    destruct Hn. split; [done|]. left. by exists i.
Qed.

(** C24: exit.  A process other than init that exits gives the CPU back as a zombie
    with its status, and keeps its pages for the parent to release.  Of the other
    slots exactly two things change: children of the process become init's, and a
    slot that sleeps on the parent's channel, or on init's if one of the inherited
    children has exited already, becomes runnable; every other field of every
    other slot is as before.  Outside the process table only the registers, now
    the scheduler's, the current process and the hart's saved enable bit change;
    so memory, devices, locks, control registers and interrupt nesting are
    untouched, and all locks are free. *)
Theorem exit_process_spec s me q status ip :
  running s me q -> lock_free L_wait s -> initproc s = Some ip -> me <> ip -> p_parent q <> Some me ->
  exists v s1 s2, exit_process status s = Done v s1 /\ scheduler_back me s1 = Done tt s2
    /\ scheduling s2
    /\ procs s2 !! me = Some (set_p_context (regs s) (set_p_state ZOMBIE (set_p_xstate (i32 status) q)))
    /\ (forall j r, j <> me -> procs s !! j = Some r ->
         (roused me ip (p_parent q) (procs s) r -> procs s2 !! j = Some (set_p_state RUNNABLE (adopted me ip r)))
         /\ (~ roused me ip (p_parent q) (procs s) r -> procs s2 !! j = Some (adopted me ip r)))
    /\ s2 = set_procs (procs s2) (set_regs (c_context (cpu0 s))
         (set_cpu0 (set_c_proc None (set_c_intena (c_bool (intr_get s)) (cpu0 s))) s)).
Proof.
  intros R Hw Hi Hip Hpar. pose proof R as [Hh Hn Hc Hq [Hl Hf]].
  set (b := zombies_upto NPROC (Some me) (procs s)).
  set (F := exit_table me (p_parent q) (Some ip) b).
  assert (RF : running (table F (touch s)) me q).
  { split; [by apply hart_ok_table, hart_ok_touch|by rewrite <- Hn, <- noff_touch|done| |].
    - by apply exit_table_self.
    - apply plocks_free_table; [apply _|]. by apply plocks_free_touch. }
  exists (c_bool (intr_get s)), (parked me (exited status) (table F (touch s))),
    (descheduled me (exited status) (touch (table F (touch s)))).
  split. { rewrite (exit_process_ok s me q status R Hw) by congruence. by rewrite Hi. }
  split. { by apply (running_back me q). }
  split. { by eapply scheduling_descheduled. }
  set (g := fun q => set_p_context (regs s) (exited status q)).
  assert (Hp : procs (descheduled me (exited status) (touch (table F (touch s)))) = alter g me (F (procs s))) by done.
  rewrite Hp. split; [|split].
  - apply (lookup_alter_slot (table F (touch s)) me q g). apply RF.
  - intros j r Hj Hr. rewrite list_lookup_alter_ne by done. unfold F. rewrite (exit_table_lookup _ _ _ _ _ j r) by done.
    assert (Hb : (exists k z, procs s !! k = Some z /\ p_parent z = Some me /\ p_state z = ZOMBIE) <-> b = true).
    { split; [|apply zombies_some]. intros (k & z & Hz & H). by apply (zombies_all _ _ k z). }
    unfold roused. rewrite Hb. destruct (exit1_exact me ip (p_parent q) b r) as [H1 H2].
    split; intros H; f_equal; auto.
  - rewrite <- Hp. unfold descheduled, touch. change (noff (table F _)) with (noff s). rewrite Hn.
    by destruct s as [? ? ? [] ? ? ? ? ? ? ? ? ? ? ? ? ?].
Qed.

(** C25: wait.  A round of [wait_process] looks for a child that has exited.  If
    there is one, it returns the pid and status of the first, releases the
    child's slot and puts all its pages on the free list; if there is no child at
    all, or the caller has been killed, it returns -1 and changes nothing;
    otherwise the caller is asleep on its own slot, with wait_lock free. *)
Theorem wait_process_spec s me q :
  running s me q -> lock_free L_wait s ->
  exists s0, wait_begin s = Done (Some me) s0 /\
  match first_zombie (Some me) (procs s) with
  | Some (k, z) =>
      forall tbl free, slot_owns s k z tbl free ->
      exists s1 free', wait_round (Some me) s0 = Done (WaitRet (p_pid z) (p_xstate z)) s1
        /\ procs s1 = alter emptied k (procs s)
        /\ pool s1 free' /\ free' ≡ₚ p_trapframe z :: (map_to_list tbl).*2 ++ free
        /\ lock_free L_wait s1 /\ noff s1 = 0 /\ intr_get s1 = intr_get s
  | None =>
      if negb (has_kids (Some me) (procs s)) || negb (p_killed q =? 0)
      then wait_round (Some me) s0 = Done WaitNone (touch s)
      else exists v s1 s2, wait_round (Some me) s0 = Done (WaitSleep me v) s1
        /\ scheduler_back me s1 = Done tt s2 /\ scheduling s2 /\ lock_free L_wait s2
        /\ procs s2 = alter (fun q => set_p_context (regs s) (set_p_state SLEEPING (set_p_chan (PProc me) q))) me (procs s)
  end.
Proof.
  intros R Hw. pose proof R as [Hh Hn Hc Hq Hpl]. exists (locked_state L_wait s). split.
  { unfold wait_begin. mstep; [by apply myproc_ok|]. rewrite Hc. mstep; [|reflexivity].
    rewrite <- (locked_state_touch L_wait s).
    apply acquire_ok; [by apply hart_ok_touch|by apply lock_exists_global|rewrite get_lock_touch; apply Hw]. }
  destruct (first_zombie (Some me) (procs s)) as [[k z]|] eqn:Hz.
  - intros tbl free O. destruct (wait_round_reap s me k z tbl free Hh Hn Hpl Hw Hz O)
      as (s1 & free' & E & Es & P & C & _).
    exists s1, free'. split; [exact E|]. split; [by rewrite Es|]. split; [exact P|]. split; [exact C|].
    rewrite Es. split; [done|]. split; [by rewrite <- Hn, <- noff_touch|].
    exact (intr_get_touch s).
  - rewrite (wait_round_none s me q R Hw Hz). destruct (_ || _); [done|].
    assert (Ht : running (touch s) me q).
    { split; [by apply hart_ok_touch|by rewrite noff_touch|done|done|by apply plocks_free_touch]. }
    eexists _, _, _. split; [reflexivity|]. split; [by apply (running_back me q)|].
    split; [by eapply scheduling_descheduled|]. by split.
Qed.

(** [sched] switches only from a sound state.  If it gets as far as the switch,
    the caller is the current process, holds its slot's lock and no other lock,
    has changed its state from RUNNING, and interrupts are off; and it saves
    exactly the registers and the saved enable bit.  In every other case it
    panics (or faults, without a process). *)
Theorem sched_requires s i s' :
  hart_ok s -> sched_enter s = Done i s' ->
  exists p, c_proc (cpu0 s) = Some p /\ noff s = 1 /\ intr_get s = false
    /\ p_state (default zero_proc (procs s !! p)) <> RUNNING
    /\ holding (L_proc p) s = Done true s /\ i = intena s
    /\ s' = set_regs (c_context (cpu0 s)) (set_procs (alter (set_p_context (regs s)) p (procs s)) s).
Proof.
  intros Hh E. destruct (sched_enter_inv s i s' Hh E) as (p & Hc & Hhold & Hn & Hs & Hi & -> & ->).
  rewrite touch_deep in Hhold by lia. by exists p.
Qed.

End proc_spec.

(** ** Witnesses *)

#[local] Existing Instance demo_linker.
#[local] Existing Instance demo_linker_ok.

(** Four free pages and an empty process table. *)
Definition demo_free : kstate := pool_with (demo_pages 4).

Lemma demo_free_fields :
  procs demo_free = replicate NPROC zero_proc /\ noff demo_free = 0 /\ nextpid demo_free = 1
  /\ pid_lock demo_free = zero_lock /\ printlock demo_free = zero_lock /\ wait_lock demo_free = zero_lock
  /\ io demo_free = demo_io /\ c_proc (cpu0 demo_free) = None.
Proof.
  unfold demo_free. generalize (demo_pages 4). intros l. induction l as [|p l IH]; [done|]. exact IH.
Qed.

Lemma demo_can_alloc : can_alloc demo_free (demo_pages 4) 0.
Proof.
  destruct demo_free_fields as (P & N & I & L1 & L2 & L3 & IO & _).
  assert (Hpool : pool demo_free (demo_pages 4)) by (apply demo_pages_pool; lia).
  split.
  - apply (pool_hart _ _ Hpool).
  - rewrite N. lia.
  - split; [by rewrite P|]. intros i Hi _. unfold lock_free, get_lock. rewrite P.
    by rewrite lookup_replicate_2.
  - unfold lock_free, get_lock. by rewrite L1.
  - unfold lock_free, get_lock. by rewrite L2.
  - intros t. rewrite IO. exists 0%nat. split; [lia|done].
  - rewrite I. lia.
  - exact Hpool.
  - by rewrite P.
Qed.

Lemma create_process_spec_witness :
  exists s' q', create_process 0x80002004 demo_free = Done 1 s' /\ procs s' !! 0%nat = Some q'
    /\ p_state q' = RUNNABLE /\ forall va, sv39_translate (mem s') 0x8000b000 va = user_translate va.
Proof.
  destruct demo_free_fields as (P & _ & I & _ & _ & L3 & _).
  destruct (create_process_spec demo_free 0 0x8000a000 0x8000b000 0x8000c000 0x8000d000 [] 0x80002004 zero_proc
    demo_can_alloc) as (s' & q' & E & Hq & Hst & _ & _ & _ & _ & _ & _ & _ & _ & _ & Ht & _).
  - unfold lock_free, get_lock. rewrite L3. split; reflexivity.
  - rewrite P. reflexivity.
  - rewrite I in E. exists s', q'. split; [exact E|]. split; [exact Hq|]. split; [exact Hst|exact Ht].
Defined.

Lemma alloc_free_round_trip_witness :
  exists s1 s2 free', alloc_process demo_free = Done (Some 0%nat) s1 /\ free_process 0 s1 = Done tt s2
    /\ pool s2 free' /\ free' ≡ₚ demo_pages 4.
Proof.
  destruct demo_free_fields as (P & _).
  destruct (alloc_free_round_trip demo_free 0 0x8000a000 0x8000b000 0x8000c000 0x8000d000 [] zero_proc
    demo_can_alloc) as (s1 & s2 & free' & q' & E1 & E2 & Hp & Hf & _); [rewrite P; reflexivity|].
  exists s1, s2, free'. split; [exact E1|]. split; [exact E2|]. split; [exact Hp|exact Hf].
Defined.

(** Slot 1 runs; slot 0 is its parent and sleeps, slot 2 is a child. *)
Definition demo_thread : kstate :=
  set_initproc (Some 0%nat) (set_cpu0 (set_c_proc (Some 1%nat) (cpu0 demo_state)) (set_procs
    (set_p_state SLEEPING (set_p_chan (PProc 0) zero_proc) :: set_p_state RUNNING (set_p_parent (Some 0%nat) zero_proc)
     :: set_p_state RUNNABLE (set_p_parent (Some 1%nat) zero_proc) :: replicate 61 zero_proc)
    (set_csr (set_sstatus 0 (csr demo_state)) demo_state))).

Definition demo_self : proc := set_p_state RUNNING (set_p_parent (Some 0%nat) zero_proc).

Lemma demo_thread_running : running demo_thread 1 demo_self.
Proof.
  split; try done. split; [done|]. intros i Hi _. do 64 (destruct i as [|i]; [done|]). unfold NPROC in Hi. lia.
Qed.

Lemma yield_round_trip_witness :
  exists v s1 s2, yield_enter demo_thread = Done (1%nat, v) s1 /\ scheduler_back 1 s1 = Done tt s2
    /\ scheduling s2.
Proof.
  destruct (yield_round_trip demo_thread 1 demo_self demo_thread_running eq_refl eq_refl)
    as (v & s1 & s2 & _ & _ & E1 & E2 & S & _).
  exists v, s1, s2. split; [exact E1|]. split; [exact E2|exact S].
Defined.

Lemma sleep_wakeup_witness :
  exists v s1 s2, sleep_enter PTicks (Some L_ticks) (locked_state L_ticks demo_thread) = Done (1%nat, v) s1
    /\ scheduler_back 1 s1 = Done tt s2 /\ lock_free L_ticks s2.
Proof.
  destruct (sleep_wakeup demo_thread 1 demo_self L_ticks PTicks demo_thread_running) as
    (v & s1 & s2 & E1 & E2 & _ & Hl & _).
  - intros j. discriminate.
  - split; reflexivity.
  - exists v, s1, s2. split; [exact E1|]. split; [exact E2|exact Hl].
Defined.

Lemma exit_process_spec_witness :
  exists v s1 s2, exit_process 7 demo_thread = Done v s1 /\ scheduler_back 1 s1 = Done tt s2
    /\ procs s2 !! 0%nat = Some (set_p_state RUNNABLE (set_p_chan (PProc 0) zero_proc))
    /\ procs s2 !! 2%nat = Some (set_p_state RUNNABLE (set_p_parent (Some 0%nat) zero_proc)).
Proof.
  destruct (exit_process_spec demo_thread 1 demo_self 7 0 demo_thread_running (conj eq_refl eq_refl) eq_refl)
    as (v & s1 & s2 & E1 & E2 & _ & _ & H & _); [discriminate|discriminate|].
  set (r0 := set_p_state SLEEPING (set_p_chan (PProc 0) zero_proc)).
  set (r2 := set_p_state RUNNABLE (set_p_parent (Some 1%nat) zero_proc)).
  destruct (H 0%nat r0 ltac:(discriminate) eq_refl) as [H0 _].
  destruct (H 2%nat r2 ltac:(discriminate) eq_refl) as [_ H2].
  exists v, s1, s2. split; [exact E1|]. split; [exact E2|]. split.
  - rewrite H0; [reflexivity|]. split; [reflexivity|]. left. exists 0%nat. split; reflexivity.
  - rewrite H2; [reflexivity|]. intros [Hs _]. discriminate Hs.
Defined.

Lemma wait_process_spec_witness :
  exists s0 v s1, wait_begin demo_thread = Done (Some 1%nat) s0
    /\ wait_round (Some 1%nat) s0 = Done (WaitSleep 1 v) s1.
Proof.
  destruct (wait_process_spec demo_thread 1 demo_self demo_thread_running (conj eq_refl eq_refl))
    as (s0 & E0 & v & s1 & s2 & E1 & _).
  exists s0, v, s1. split; [exact E0|exact E1].
Defined.

Lemma sched_requires_witness :
  exists s0 i s', sched_enter s0 = Done i s' /\ i = 0 /\ noff s0 = 1 /\ intr_get s0 = false.
Proof.
  set (s0 := table (alter (set_p_state RUNNABLE) 1%nat) (locked_state (L_proc 1) demo_thread)).
  assert (Hh : hart_ok s0) by (apply hart_ok_table, hart_ok_locked_state; [apply demo_thread_running|done]).
  assert (E : sched_enter s0 = Done 0 (parked 1 (set_p_state RUNNABLE) demo_thread)).
  { apply (sched_parked demo_thread 1 demo_self (set_p_state RUNNABLE)); try apply demo_thread_running; try done.
    apply lock_exists_proc; [done|unfold NPROC; lia]. }
  destruct (sched_requires s0 0 _ Hh E) as (p & _ & Hn & Ho & _ & _ & Hi & _).
  exists s0, 0, (parked 1 (set_p_state RUNNABLE) demo_thread).
  split; [exact E|]. split; [reflexivity|]. split; [exact Hn|exact Ho].
Defined.
