(* ===== verification/SchedMem.v ===== *)
(** * Who owns which page

    The memory side of the system invariant: every live process owns its
    trapframe page and the three pages of its page table, the kernel owns the
    pages of its own page table and the stacks that this table maps, the rest is on
    the free list, and no page has two owners.  The lemmas say that creating and
    reaping processes keep this so, that no page is ever lost, and that the
    kernel's address space stays what it is. *)

From S2P Require Import Prelude Riscv Memory State Spinlock Kalloc Vm VmMap Sv39 VmKernel VmDestroy Uart Printf Csr Proc ProcTable ProcMem ProcExit ProcInit Switch Trap Sched.

Section sched_mem.
Context {L : Linker} {LO : LinkerOk}.

(** ** Definitions *)

(** The pages of a live slot. *)
Definition slot_pages (q : proc) (tbl : gmap (list Z) Z) : list Z :=
  p_trapframe q :: (map_to_list tbl).*2.

Fixpoint live_count (ps : list proc) : nat :=
  match ps with
  | [] => 0
  | q :: ps' => (if bool_decide (p_state q = UNUSED) then 0 else 1) + live_count ps'
  end.

(** What the slot [k] owns, and all slots from [k] on together. *)
Definition owned (q : proc) (tbl : gmap (list Z) Z) : list Z :=
  if bool_decide (p_state q = UNUSED) then [] else slot_pages q tbl.

Fixpoint slots_pages (k : nat) (ps : list proc) (tbls : nat -> gmap (list Z) Z) : list Z :=
  match ps with
  | [] => []
  | q :: ps' => owned q (tbls k) ++ slots_pages (S k) ps' tbls
  end.

(** What stays the same for ever once the kernel has booted: how many pages there
    are for processes, and the pages of the kernel stacks, by slot. *)
Record resources := Resources {
  total_pages :> nat;
  stack_pages : list Z;
}.

(** [total] pages in all are free or belong to processes; [tbls k] are the table
    pages of slot [k], [ktbl] those of the kernel. *)
Record memory_ok (total : resources) (s : kstate) (free : list Z) (tbls : nat -> gmap (list Z) Z)
    (ktbl : gmap (list Z) Z) : Prop := {
  mo_kernel : vm_inv s (kernel_pagetable s) ktbl free;
  mo_slot : forall k q, procs s !! k = Some q -> live q -> slot_owns s k q (tbls k) free;
  mo_size : forall k q, procs s !! k = Some q -> live q -> size (tbls k) = 3%nat;
  mo_apart : forall j k q r a, j <> k -> procs s !! j = Some q -> procs s !! k = Some r ->
    live q -> live r -> a ∈ slot_pages q (tbls j) -> a ∉ slot_pages r (tbls k);
  mo_kapart : forall k q path a, procs s !! k = Some q -> live q -> ktbl !! path = Some a ->
    a ∉ slot_pages q (tbls k);
  mo_count : (length free + 4 * live_count (procs s) = total)%nat;
  mo_leaf : forall va, leaf_pte (mem s) ktbl va = with_stacks kernel_leaf (stack_pages total) va;
  mo_stacks : forall a, a ∈ stack_pages total -> (a ∉ free)
    /\ forall k q, procs s !! k = Some q -> live q -> a ∉ slot_pages q (tbls k);
  mo_all : free ++ (map_to_list ktbl).*2 ++ stack_pages total ++ slots_pages 0 (procs s) tbls ≡ₚ all_pages;
}.

(** Two versions of a slot that own the same pages. *)
Definition same_space (q q' : proc) : Prop :=
  p_trapframe q' = p_trapframe q /\ p_pagetable q' = p_pagetable q
  /\ (p_state q' = UNUSED <-> p_state q = UNUSED).

(** ** Counting *)

Lemma live_count_same ps ps' :
  length ps' = length ps ->
  (forall k q q', ps !! k = Some q -> ps' !! k = Some q' -> p_state q' = UNUSED <-> p_state q = UNUSED) ->
  live_count ps' = live_count ps.
Proof.
  revert ps'; induction ps as [|q ps IH]; intros [|q' ps'] Hl H; try done. cbn. f_equal.
  - by rewrite (bool_decide_ext _ _ (H 0%nat q q' eq_refl eq_refl)).
  - apply IH; [cbn in Hl; lia|]. intros k r r'. apply (H (S k)).
Qed.

Lemma live_count_alter ps k f q :
  ps !! k = Some q -> (p_state q = UNUSED <-> p_state (f q) <> UNUSED) ->
  (live_count (alter f k ps) + (if bool_decide (p_state q = UNUSED) then 0 else 1)
   = live_count ps + (if bool_decide (p_state q = UNUSED) then 1 else 0))%nat.
Proof.
  revert k; induction ps as [|r ps IH]; intros [|k] Hq Hf; try done.
  - injection Hq as ->. change (alter f 0%nat (q :: ps)) with (f q :: ps). cbn [live_count].
    destruct (decide (p_state q = UNUSED)) as [E|E], (decide (p_state (f q) = UNUSED)) as [E'|E'];
      rewrite ?(bool_decide_eq_true_2 _ E), ?(bool_decide_eq_false_2 _ E),
        ?(bool_decide_eq_true_2 _ E'), ?(bool_decide_eq_false_2 _ E'); tauto || lia.
  - change (alter f (S k) (r :: ps)) with (r :: alter f k ps). cbn [live_count].
    specialize (IH k Hq Hf). lia.
Qed.

Lemma live_count_create ps k f q :
  ps !! k = Some q -> p_state q = UNUSED -> live (f q) -> live_count (alter f k ps) = S (live_count ps).
Proof.
  intros Hq Hu Hl. pose proof (live_count_alter ps k f q Hq) as E.
  rewrite bool_decide_eq_true_2 in E by done. specialize (E ltac:(by split)). lia.
Qed.

Lemma live_count_reap ps k f q :
  ps !! k = Some q -> live q -> p_state (f q) = UNUSED -> live_count ps = S (live_count (alter f k ps)).
Proof.
  intros Hq Hl Hu. pose proof (live_count_alter ps k f q Hq) as E.
  rewrite bool_decide_eq_false_2 in E by done. specialize (E ltac:(split; [done|by intros []])). lia.
Qed.

(** ** All pages of the slots *)

Lemma slots_pages_same i ps ps' tbls :
  length ps' = length ps ->
  (forall k q q', ps !! k = Some q -> ps' !! k = Some q' -> same_space q q') ->
  slots_pages i ps' tbls = slots_pages i ps tbls.
Proof.
  revert i ps'; induction ps as [|q ps IH]; intros i [|q' ps'] Hl H; try done. cbn [slots_pages]. f_equal.
  - destruct (H 0%nat q q' eq_refl eq_refl) as (H1 & _ & H2). unfold owned, slot_pages.
    by rewrite (bool_decide_ext _ _ H2), H1.
  - apply IH; [cbn in Hl; lia|]. intros k r r'. apply (H (S k)).
Qed.

Lemma slots_pages_ext i ps tbls tbls' :
  (forall j, (i <= j)%nat -> tbls' j = tbls j) -> slots_pages i ps tbls' = slots_pages i ps tbls.
Proof.
  revert i; induction ps as [|q ps IH]; intros i H; [done|]. cbn [slots_pages].
  rewrite H by lia. f_equal. apply IH. intros j Hj. apply H. lia.
Qed.

(** Slot [k] and the rest. *)
Lemma slots_pages_alter i ps tbls k q :
  ps !! k = Some q ->
  exists rest, forall f tbls', (forall j, j <> (i + k)%nat -> tbls' j = tbls j) ->
    slots_pages i (alter f k ps) tbls' ≡ₚ owned (f q) (tbls' (i + k)%nat) ++ rest.
Proof.
  revert i k; induction ps as [|r ps IH]; intros i [|k] Hq; try done.
  - injection Hq as ->. exists (slots_pages (S i) ps tbls). intros f tbls' Ht.
    change (alter f 0%nat (q :: ps)) with (f q :: ps). cbn [slots_pages]. rewrite Nat.add_0_r.
    by rewrite (slots_pages_ext (S i) ps tbls tbls') by (intros j Hj; apply Ht; lia).
  - destruct (IH (S i) k Hq) as [rest H]. exists (owned r (tbls i) ++ rest). intros f tbls' Ht.
    change (alter f (S k) (r :: ps)) with (r :: alter f k ps). cbn [slots_pages].
    rewrite H by (intros j Hj; apply Ht; lia). rewrite (Ht i) by lia.
    replace (i + S k)%nat with (S i + k)%nat by lia. apply Permutation_app_swap_app.
Qed.

Lemma slots_pages_split ps tbls k q f tbls' :
  ps !! k = Some q -> (forall j, j <> k -> tbls' j = tbls j) ->
  exists rest, slots_pages 0 ps tbls ≡ₚ owned q (tbls k) ++ rest
    /\ slots_pages 0 (alter f k ps) tbls' ≡ₚ owned (f q) (tbls' k) ++ rest.
Proof.
  intros Hq Ht. destruct (slots_pages_alter 0 ps tbls k q Hq) as [rest H]. exists rest. split.
  - rewrite <- (H id tbls) by done. by rewrite list_alter_id.
  - by apply H.
Qed.

(** The slots' pages when one is taken into use, and when one is given up. *)
Lemma slots_pages_create ps tbls k q f tbl :
  ps !! k = Some q -> p_state q = UNUSED -> p_state (f q) <> UNUSED ->
  slots_pages 0 (alter f k ps) (fun j => if decide (j = k) then tbl else tbls j)
  ≡ₚ slot_pages (f q) tbl ++ slots_pages 0 ps tbls.
Proof.
  intros Hq Hu Hl. set (tbls' := fun j => if decide (j = k) then tbl else tbls j).
  destruct (slots_pages_split ps tbls k q f tbls' Hq) as (rest & R1 & R2).
  { intros j Hj. unfold tbls'. by rewrite decide_False. }
  rewrite R1, R2. unfold owned, tbls'. rewrite decide_True by done.
  by rewrite (bool_decide_eq_true_2 _ Hu), (bool_decide_eq_false_2 _ Hl).
Qed.

Lemma slots_pages_reap ps tbls k q f :
  ps !! k = Some q -> p_state q <> UNUSED -> p_state (f q) = UNUSED ->
  slots_pages 0 ps tbls ≡ₚ slot_pages q (tbls k) ++ slots_pages 0 (alter f k ps) tbls.
Proof.
  intros Hq Hl Hu. destruct (slots_pages_split ps tbls k q f tbls Hq) as (rest & R1 & R2); [done|].
  rewrite R1, R2. unfold owned. by rewrite (bool_decide_eq_true_2 _ Hu), (bool_decide_eq_false_2 _ Hl).
Qed.

(** ** Owners of pages *)

Lemma elem_of_slot_pages a q tbl :
  a ∈ slot_pages q tbl <-> a = p_trapframe q \/ exists path, tbl !! path = Some a.
Proof.
  unfold slot_pages. rewrite elem_of_cons, list_elem_of_fmap. f_equiv. split.
  - intros ([path x] & -> & H%elem_of_map_to_list). by exists path.
  - intros [path H]. exists (path, a). split; [done|]. by apply elem_of_map_to_list.
Qed.

Lemma slot_pages_page s k q tbl free a :
  slot_owns s k q tbl free -> a ∈ slot_pages q tbl -> page_ok a /\ (a ∉ free).
Proof.
  intros [_ H1 [[_ W D] _] H2 _] [->|[path Hp]]%elem_of_slot_pages; [done|].
  split; [by eapply wf_page|by eapply D].
Qed.

Lemma page_addr_apart p q a :
  page_ok p -> page_ok q -> p <> q -> p <= a < p + PGSIZE -> ~ (q <= a < q + PGSIZE).
Proof. intros [H1 _] [H2 _] Hne Ha Hb. destruct (pages_disjoint p q H1 H2 Hne); lia. Qed.

(** A table that lies outside the changed pages stays what it was. *)
Lemma vm_inv_outside s s' root tbl free free' (K : list Z) :
  vm_inv s root tbl free -> pool s' free' ->
  (forall a, (forall p, p ∈ K -> ~ (p <= a < p + PGSIZE)) -> ldb (mem s') a = ldb (mem s) a) ->
  (forall p, p ∈ K -> page_ok p) ->
  (forall path p, tbl !! path = Some p -> (p ∉ K) /\ (p ∉ free')) ->
  vm_inv s' root tbl free' /\ forall va, leaf_pte (mem s') tbl va = leaf_pte (mem s) tbl va.
Proof.
  intros [_ W _] Hp Hm HK Ht.
  destruct (pt_wf_ext (mem s) (mem s') root tbl W) as [W' L'].
  - intros path p a Hpath Ha. apply Hm. intros q Hq.
    apply (page_addr_apart p); [by eapply wf_page|by apply HK| |done].
    intros ->. by apply (proj1 (Ht _ _ Hpath)).
  - split; [|done]. split; [done|done|]. intros path p Hpath. by apply (proj2 (Ht _ _ Hpath)).
Qed.

Lemma slot_owns_outside s s' k q q' tbl free free' (K : list Z) :
  slot_owns s k q tbl free -> procs s' !! k = Some q' -> same_space q q' -> pool s' free' ->
  (forall a, (forall p, p ∈ K -> ~ (p <= a < p + PGSIZE)) -> ldb (mem s') a = ldb (mem s) a) ->
  (forall p, p ∈ K -> page_ok p) ->
  (forall a, a ∈ slot_pages q tbl -> (a ∉ K) /\ (a ∉ free')) ->
  slot_owns s' k q' tbl free'.
Proof.
  intros [H1 H2 [H3 H3'] H4 H5] Hk (E1 & E2 & _) Hp Hm HK Ha.
  destruct (vm_inv_outside s s' (p_pagetable q) tbl free free' K H3 Hp Hm HK) as [I' L'].
  { intros path p Hpath. apply Ha. apply elem_of_slot_pages. eauto. }
  split.
  - done.
  - by rewrite E1.
  - rewrite E2. split; [done|]. intros va. by rewrite L', H3'.
  - rewrite E1. apply Ha. apply elem_of_slot_pages. by left.
  - by rewrite E1.
Qed.

Lemma same_space_pages q q' tbl a : same_space q q' -> a ∈ slot_pages q' tbl <-> a ∈ slot_pages q tbl.
Proof. intros (E & _). by rewrite !elem_of_slot_pages, E. Qed.

(** ** Steps that move no page *)

Lemma memory_ok_same (n : resources) s s' free tbls ktbl :
  memory_ok n s free tbls ktbl -> mem s' = mem s -> freelist s' = freelist s ->
  kernel_pagetable s' = kernel_pagetable s -> hart_ok s' -> lock_free L_kmem s' ->
  length (procs s') = length (procs s) ->
  (forall k q q', procs s !! k = Some q -> procs s' !! k = Some q' -> same_space q q') ->
  memory_ok n s' free tbls ktbl.
Proof.
  intros [A1 A2 A2' A3 A4 A5 A6 A7 A8] Hm Hf Hkp Hh Hk Hlen Hsp.
  assert (Hp : pool s' free).
  { destruct A1 as [[P1 P2 _ _] _ _]. split; [by rewrite Hm, Hf|done|done|done]. }
  assert (Hback : forall k q', procs s' !! k = Some q' -> exists q, procs s !! k = Some q /\ same_space q q').
  { intros k q' Hq'. destruct (lookup_lt_is_Some_2 (procs s) k) as [q Hq].
    - rewrite <- Hlen. by eapply lookup_lt_Some.
    - exists q. eauto. }
  assert (Hmem : forall a, (forall p, p ∈ ([] : list Z) -> ~ (p <= a < p + PGSIZE)) ->
    ldb (mem s') a = ldb (mem s) a) by (intros; by rewrite Hm).
  assert (Hlive : forall q q', same_space q q' -> live q' -> live q).
  { unfold live. intros q q' (_ & _ & E) H. tauto. }
  split.
  - rewrite Hkp. apply (vm_inv_outside s s' _ _ free free []); try done; [set_solver|].
    intros path p Hpath. split; [set_solver|]. by apply (vm_disj _ _ _ _ A1 path).
  - intros k q' Hq' Hl'. destruct (Hback k q' Hq') as (q & Hq & Hs).
    pose proof (A2 k q Hq (Hlive _ _ Hs Hl')) as Ho.
    apply (slot_owns_outside s s' k q q' _ free free [] Ho); try done; [set_solver|].
    intros a Ha. split; [set_solver|]. by apply (slot_pages_page s k q (tbls k) free).
  - intros k q' Hq' Hl'. destruct (Hback k q' Hq') as (q & Hq & Hs). eauto.
  - intros j k q' r' a Hne Hq' Hr' Hlq Hlr.
    destruct (Hback j q' Hq') as (q & Hq & Hs), (Hback k r' Hr') as (r & Hr & Hs').
    rewrite (same_space_pages q q'), (same_space_pages r r') by done. eauto.
  - intros k q' path a Hq' Hl'. destruct (Hback k q' Hq') as (q & Hq & Hs).
    rewrite (same_space_pages q q') by done. eauto.
  - rewrite (live_count_same (procs s)); [done|done|]. intros k q q' Hq Hq'. by apply (Hsp k q q').
  - intros va. by rewrite Hm.
  - intros a Ha. destruct (A7 a Ha) as [A7f A7s]. split; [done|]. intros k q' Hq' Hl'.
    destruct (Hback k q' Hq') as (q & Hq & Hs). rewrite (same_space_pages q q') by done. eauto.
  - by rewrite (slots_pages_same 0 (procs s) (procs s')).
Qed.

(** ** Creating and reaping *)

Lemma perm_three_size (tbl : gmap (list Z) Z) a b c :
  (map_to_list tbl).*2 ≡ₚ [a; b; c] -> size tbl = 3%nat.
Proof.
  intros H%Permutation_length. rewrite length_fmap, length_map_to_list in H. exact H.
Qed.

Lemma lookup_alter_cases {A} (f : A -> A) (l : list A) k j q r :
  l !! k = Some q -> alter f k l !! j = Some r -> j = k /\ r = f q \/ j <> k /\ l !! j = Some r.
Proof.
  intros Hq. rewrite alter_lookup. case_decide as Hj; [subst; rewrite Hq; by intros [= <-]; left|by right].
Qed.

(** The four pages of a new process. *)
Lemma new_pages (tf pt t1 t2 : Z) (tbl : gmap (list Z) Z) s s' q :
  (map_to_list tbl).*2 ≡ₚ [pt; t1; t2] -> only_owned [tf] tbl s s' -> p_trapframe q = tf ->
  let new := [tf; pt; t1; t2] in
  (forall a, (forall p, p ∈ new -> ~ (p <= a < p + PGSIZE)) -> ldb (mem s') a = ldb (mem s) a)
  /\ forall a, a ∈ slot_pages q tbl -> a ∈ new.
Proof.
  intros Hperm Hoo Htf new.
  split.
  - intros a Ha. apply Hoo. intros p [Hp|[path Hp]]; apply Ha; unfold new.
    + apply list_elem_of_singleton in Hp as ->. by left.
    + right. by eapply table_page.
  - intros a [->|[path Hp]]%elem_of_slot_pages; unfold new; [rewrite Htf; by left|right; by eapply table_page].
Qed.

(** Slot [k] takes four free pages. *)
Lemma memory_ok_create n s s' k q f tf pt t1 t2 free tbls tbl ktbl :
  memory_ok n s (tf :: pt :: t1 :: t2 :: free) tbls ktbl ->
  procs s !! k = Some q -> p_state q = UNUSED ->
  procs s' = alter f k (procs s) -> live (f q) -> p_trapframe (f q) = tf -> p_pagetable (f q) = pt ->
  kernel_pagetable s' = kernel_pagetable s ->
  user_space s' pt tbl free -> only_owned [tf] tbl s s' -> page_ok tf -> tf ∉ free ->
  (forall path p, tbl !! path = Some p -> p <> tf) -> (map_to_list tbl).*2 ≡ₚ [pt; t1; t2] ->
  memory_ok n s' free (fun j => if decide (j = k) then tbl else tbls j) ktbl.
Proof.
  intros [A1 A2 A2' A3 A4 A5 A6 A7 A8] Hq Hu Hps Hl' Htf Hpt Hkp Hus Hoo Hptf Hntf Hne Hperm.
  set (new := [tf; pt; t1; t2]).
  pose proof (vm_pool _ _ _ _ A1) as Hpool.
  pose proof (pool_nodup _ _ Hpool) as Hnd.
  destruct (new_pages tf pt t1 t2 tbl s s' (f q) Hperm Hoo Htf) as [Hmem Hmine]. fold new in Hmem, Hmine.
  assert (Hnew : forall p, p ∈ new -> p ∈ tf :: pt :: t1 :: t2 :: free) by (unfold new; set_solver).
  assert (Hnok : forall p, p ∈ new -> page_ok p) by (intros p Hp; by eapply pool_page_ok, Hnew).
  assert (Hout : forall p : Z, p ∉ tf :: pt :: t1 :: t2 :: free -> (p ∉ new) /\ (p ∉ free)).
  { intros p Hp. unfold new. split; set_solver. }
  pose proof (vm_pool _ _ _ _ (us_inv _ _ _ _ Hus)) as Hpool'.
  set (q' := f q) in *.
  assert (Hlk : forall j r, procs s' !! j = Some r -> j = k /\ r = q' \/ j <> k /\ procs s !! j = Some r).
  { intros j r. rewrite Hps. by apply lookup_alter_cases. }
  assert (Hother : forall j r a, procs s !! j = Some r -> live r -> a ∈ slot_pages r (tbls j) ->
    (a ∉ new) /\ (a ∉ free)).
  { intros j r a Hr Hl Ha. apply Hout. eapply slot_pages_page; [by apply A2|done]. }
  destruct (vm_inv_outside s s' _ _ (tf :: pt :: t1 :: t2 :: free) free new A1) as [Ik Lk]; try done.
  { intros path p Hp. apply Hout. by eapply (vm_disj _ _ _ _ A1). }
  split.
  - by rewrite Hkp.
  - intros j r [[-> ->]|[Hj Hr]]%Hlk Hl.
    + rewrite decide_True by done. split; rewrite ?Htf, ?Hpt; try done.
      by rewrite Hps, list_lookup_alter_eq, Hq.
    + rewrite decide_False by done.
      apply (slot_owns_outside s s' j r r _ (tf :: pt :: t1 :: t2 :: free) free new (A2 j r Hr Hl)); try done.
      * rewrite Hps. by rewrite list_lookup_alter_ne.
      * eauto.
  - intros j r [[-> ->]|[Hj Hr]]%Hlk Hl; case_decide; try done; [by eapply perm_three_size|eauto].
  - intros j i r t a Hji [[-> ->]|[Hj Hr]]%Hlk [[-> ->]|[Hi Ht]]%Hlk Hl1 Hl2; try done.
    + rewrite decide_True, decide_False by done. intros Ha%Hmine Hb.
      by destruct (Hother i t a Ht Hl2 Hb).
    + rewrite decide_False, decide_True by done. intros Ha Hb%Hmine.
      by destruct (Hother j r a Hr Hl1 Ha).
    + rewrite !decide_False by done. eauto.
  - intros j r path a [[-> ->]|[Hj Hr]]%Hlk Hl Hpath.
    + rewrite decide_True by done. intros Ha%Hmine.
      by apply (vm_disj _ _ _ _ A1 path a Hpath), Hnew.
    + rewrite decide_False by done. eauto.
  - rewrite Hps, (live_count_create _ k f q Hq Hu Hl'). cbn [length] in A5. lia.
  - intros va. by rewrite Lk.
  - intros a Ha. destruct (A7 a Ha) as [A7f A7s]. destruct (Hout a A7f) as [Han Haf]. split; [done|].
    intros j r [[-> ->]|[Hj Hr]]%Hlk Hl.
    + rewrite decide_True by done. by intros H%Hmine.
    + rewrite decide_False by done. eauto.
  - rewrite <- A8, Hps, (slots_pages_create _ tbls k q f tbl Hq Hu Hl'). unfold slot_pages.
    fold q'. rewrite Htf, Hperm. solve_Permutation.
Qed.

(** The pages of slot [k] go back to the free list. *)
Lemma memory_ok_reap n s s' k q free free' tbls ktbl :
  memory_ok n s free tbls ktbl -> procs s !! k = Some q -> live q ->
  procs s' = alter emptied k (procs s) -> kernel_pagetable s' = kernel_pagetable s ->
  pool s' free' -> free' ≡ₚ p_trapframe q :: (map_to_list (tbls k)).*2 ++ free ->
  only_owned [p_trapframe q] (tbls k) s s' ->
  memory_ok n s' free' tbls ktbl.
Proof.
  intros [A1 A2 A2' A3 A4 A5 A6 A7 A8] Hq Hl Hps Hkp Hpool' Hperm Hoo.
  set (old := slot_pages q (tbls k)).
  assert (Hoo' : forall a, (forall p, p ∈ old -> ~ (p <= a < p + PGSIZE)) -> ldb (mem s') a = ldb (mem s) a).
  { intros a Ha. apply Hoo. intros p Hp. apply Ha. apply elem_of_slot_pages.
    destruct Hp as [->%list_elem_of_singleton|]; auto. }
  assert (Hook : forall p, p ∈ old -> page_ok p).
  { intros p Hp. by eapply slot_pages_page; [apply A2|]. }
  assert (Hfree' : forall p, p ∈ free' <-> p ∈ old \/ p ∈ free).
  { intros p. rewrite Hperm. unfold old, slot_pages. rewrite !elem_of_cons, elem_of_app. tauto. }
  assert (Hlk : forall j r, procs s' !! j = Some r -> live r -> j <> k /\ procs s !! j = Some r).
  { intros j r Hr Hlr. rewrite Hps in Hr. rewrite alter_lookup in Hr. case_decide as Hj; [|auto].
    subst. rewrite Hq in Hr. cbn in Hr. by simplify_eq. }
  destruct (vm_inv_outside s s' _ _ free free' old A1) as [Ik Lk]; try done.
  { intros path p Hp. split; [by eapply A4|]. rewrite Hfree'. intros [Ho|Hf]; [by eapply A4|].
    by eapply (vm_disj _ _ _ _ A1). }
  split.
  - by rewrite Hkp.
  - intros j r Hr Hlr. destruct (Hlk j r Hr Hlr) as [Hj Hr'].
    apply (slot_owns_outside s s' j r r _ free free' old (A2 j r Hr' Hlr)); try done.
    intros a Ha. assert (Hno : a ∉ old) by by eapply (A3 j k).
    split; [done|]. rewrite Hfree'. intros [?|Hf]; [done|].
    by destruct (slot_pages_page s j r (tbls j) free a (A2 j r Hr' Hlr) Ha).
  - intros j r Hr Hlr. destruct (Hlk j r Hr Hlr). eauto.
  - intros j i r t a Hji Hr Ht Hl1 Hl2. destruct (Hlk j r Hr Hl1), (Hlk i t Ht Hl2). eauto.
  - intros j r path a Hr Hlr. destruct (Hlk j r Hr Hlr). eauto.
  - rewrite Hps. rewrite (live_count_reap _ k emptied q Hq Hl) in A5 by done.
    apply Permutation_length in Hperm. cbn [length] in Hperm.
    rewrite length_app, length_fmap, length_map_to_list in Hperm.
    rewrite (A2' k q Hq Hl) in Hperm. lia.
  - intros va. by rewrite Lk.
  - intros a Ha. destruct (A7 a Ha) as [A7f A7s]. split.
    + rewrite Hfree'. intros [Ho|Hf]; [by eapply A7s|done].
    + intros j r Hr Hlr. destruct (Hlk j r Hr Hlr). eauto.
  - rewrite <- A8, Hps, Hperm, (slots_pages_reap _ tbls k q emptied Hq Hl) by done. unfold slot_pages.
    solve_Permutation.
Qed.

End sched_mem.
