(* ===== verification/SchedStep.v ===== *)
(** * What each step does

    [inv] is what holds of the whole kernel between two steps of Sched.v's
    interleaving.  From it the result of every step follows: one lemma per kind of
    step (its effect) gives the state after it in closed form.  SchedInv.v derives from them
    that the steps keep [inv], SchedLive.v that a runnable slot stays so, and
    Refine.v that they are steps of the abstract process model. *)

From S2P Require Import Prelude Riscv Memory State Spinlock Kalloc Vm VmMap Sv39 VmDestroy Uart Printf Csr Proc ProcTable ProcMem ProcExit Switch Trap Sched SchedMem.

Section effects.
Context {L : Linker} {LO : LinkerOk}.

(** ** Definitions *)

(** No lock is held, no critical section is open, and the UART answers. *)
Record quiet (s : kstate) : Prop := {
  qu_hart : hart_ok s;
  qu_depth : noff s = 0;
  qu_procs : plocks_free (fun _ => False) s;
  qu_locks : forall l, is_global l -> lock_free l s;
  qu_uart : uart_live s;
}.

Definition runner_ok (s : kstate) (m : runner) : Prop :=
  match m with
  | Scheduling i => (i <= NPROC)%nat /\ c_proc (cpu0 s) = None
  | Running p => c_proc (cpu0 s) = Some p /\ exists q, procs s !! p = Some q /\ p_state q = RUNNING
  end.

(** Every slot has a page for its stack, and no two the same. *)
Definition stacks_ok (stacks : list Z) : Prop := length stacks = NPROC /\ NoDup stacks /\ Forall page_ok stacks.

(** The invariant, for a machine with [total] pages for processes and those stacks,
    and init in slot [ip]. *)
Record inv (total : resources) (ip : nat) (w : world) : Prop := {
  iv_quiet : quiet (w_state w);
  iv_runner : runner_ok (w_state w) (w_runner w);
  iv_sie : w_runner w <> Scheduling NPROC -> intr_get (w_state w) = false;
  iv_init : initproc (w_state w) = Some ip;
  iv_table : table_ok (w_runner w) (w_threads w) ip (nextpid (w_state w)) (procs (w_state w));
  iv_pid : 0 < nextpid (w_state w) < 2 ^ 31;
  iv_satp : satp (csr (w_state w)) = MAKE_SATP (kernel_pagetable (w_state w));
  iv_stacks : stacks_ok (stack_pages total);
  iv_memory : exists free tbls ktbl, memory_ok total (w_state w) free tbls ktbl;
}.

(** ** Quiet states *)

Lemma quiet_same s s' :
  quiet s -> tp (csr s') = tp (csr s) -> noff s' = noff s ->
  (forall l, get_lock l s' = get_lock l s) -> length (procs s') = length (procs s) ->
  io_in (io s') = io_in (io s) -> io_wait (io s') = io_wait (io s) -> quiet s'.
Proof.
  intros [[H1 H2 H3] Hn [Hl Hp] Hg Hu] Ht En El Ep Ei Ew. split.
  - split; rewrite ?Ht, ?En; done || lia.
  - by rewrite En.
  - split; [by rewrite Ep|]. intros i Hi Hh. unfold lock_free. rewrite El. by apply Hp.
  - intros l Hgl. unfold lock_free. rewrite El. by apply Hg.
  - intros t. rewrite Ei, Ew. apply Hu.
Qed.

Lemma quiet_free s l : quiet s -> (match l with L_proc i => (i < NPROC)%nat | _ => True end) -> lock_free l s.
Proof.
  intros [_ _ [_ Hp] Hg _] Hl. destruct l as [| | | | |i]; [apply Hg; done..|]. apply Hp; [done|tauto].
Qed.

Lemma quiet_touch s : quiet s -> quiet (touch s).
Proof. intros H. by apply (quiet_same s). Qed.

Lemma quiet_table F s `{!TableNeutral F} : quiet s -> quiet (table F s).
Proof.
  intros H. apply (quiet_same s); try done.
  - intros l. by rewrite (ind_get (l := l) (u := table F)).
  - apply (tn_length (F := F)).
Qed.

Lemma quiet_swapped r cur sc F s `{!TableNeutral F} : quiet s -> quiet (swapped r cur sc F s).
Proof.
  intros H. apply (quiet_same (table F s)); try done. by apply quiet_table.
Qed.

Lemma quiet_patch m fl n bs np F s `{!TableNeutral F} : quiet s -> quiet (patch m fl n bs np F s).
Proof. intros H. apply (quiet_same (table F s)); try done. by apply quiet_table. Qed.

Lemma quiet_scheduling s : quiet s -> c_proc (cpu0 s) = None -> scheduling s.
Proof. intros [H1 H2 H3 _ _] Hc. by split. Qed.

Lemma quiet_running s me q :
  quiet s -> c_proc (cpu0 s) = Some me -> procs s !! me = Some q -> running s me q.
Proof. intros [H1 H2 H3 _ _] Hc Hq. by split. Qed.

(** ** Lookups in the table *)

Lemma has_kids_spec p ps :
  has_kids (Some p) ps = true -> exists j r, ps !! j = Some r /\ p_parent r = Some p.
Proof.
  unfold has_kids. intros (r & Hr & Hp)%existsb_exists.
  apply list_elem_of_In, list_elem_of_lookup_1 in Hr as [j Hr]. exists j, r.
  split; [done|]. by apply bool_decide_eq_true in Hp.
Qed.

Lemma has_kids_none p ps :
  has_kids (Some p) ps = false -> forall j r, ps !! j = Some r -> p_parent r <> Some p.
Proof.
  unfold has_kids. intros Hn j r Hr Hp.
  assert (H : existsb (fun q => bool_decide (p_parent q = Some p)) ps = true); [|congruence].
  apply existsb_exists. exists r. split; [|by apply bool_decide_eq_true_2].
  apply list_elem_of_In. by eapply list_elem_of_lookup_2.
Qed.

Lemma first_zombie_none p ps :
  first_zombie p ps = None -> forall j r, ps !! j = Some r -> p_parent r = p -> p_state r <> ZOMBIE.
Proof.
  intros Hn%list_find_None j r Hr Hp Hz. rewrite Forall_lookup in Hn. by apply (Hn j r Hr).
Qed.

Lemma first_zombie_some p ps k z :
  first_zombie p ps = Some (k, z) -> ps !! k = Some z /\ p_parent z = p /\ p_state z = ZOMBIE.
Proof. by intros (H1 & [H2 H3] & _)%list_find_Some. Qed.

(** ** The parts of the steps *)

Lemma inv_running n ip s p T :
  inv n ip (World s (Running p) T) ->
  quiet s /\ intr_get s = false /\ exists q, procs s !! p = Some q /\ p_state q = RUNNING /\ running s p q.
Proof.
  intros I. destruct (iv_runner _ _ _ I) as [Hc (q & Hq & Hst)]. cbn [w_state] in *.
  split; [apply I|]. split; [by apply (iv_sie _ _ _ I)|]. exists q. split_and!; try done.
  by apply quiet_running; [apply I| |].
Qed.

Lemma inv_threads n ip s i T q :
  inv n ip (World s (Scheduling i) T) -> procs s !! i = Some q -> p_state q = RUNNABLE ->
  exists r, T !! i = Some r /\ ready_to r q.
Proof.
  intros I Hq Hs. pose proof (to_slot _ _ _ _ _ (iv_table _ _ _ I) i q Hq) as H.
  unfold slot_ok in H. by rewrite Hs in H.
Qed.

(** The scheduler takes the CPU back from a thread that parked itself. *)
Lemma back_parked s p q f `{!LockNeutral f} :
  quiet s -> procs s !! p = Some q ->
  scheduler_back p (parked p f s) = Done tt (descheduled p f (touch s)).
Proof.
  intros Hq Hp. pose proof (qu_procs _ Hq) as [Hl Hf]. pose proof (lookup_lt_Some _ _ _ Hp) as Hb.
  rewrite Hl in Hb. apply scheduler_back_parked; [done|apply Hq|apply Hq| |].
  - by apply lock_exists_proc.
  - apply Hf; [done|tauto].
Qed.

(** What [scheduler_try] found when it reports a switch, and when it does not. *)
Lemma try_true n ip s i T s1 :
  inv n ip (World s (Scheduling i) T) -> (i < NPROC)%nat -> scheduler_try i s = Done true s1 ->
  exists q, procs s !! i = Some q /\ p_state q = RUNNABLE /\ s1 = dispatched i q s.
Proof.
  intros I Hi E. pose proof (to_length _ _ _ _ _ (iv_table _ _ _ I)) as Hl. cbn in Hl.
  destruct (lookup_lt_is_Some_2 (procs s) i) as [q Hq]; [lia|]. exists q. split; [done|].
  rewrite (scheduler_try_ok i q s) in E by first [apply (iv_quiet _ _ _ I)|done].
  destruct (decide (p_state q = RUNNABLE)) as [Hs|Hs].
  - rewrite bool_decide_eq_true_2 in E by done. by injection E as <-.
  - by rewrite bool_decide_eq_false_2 in E.
Qed.

Lemma try_false n ip s i T s1 :
  inv n ip (World s (Scheduling i) T) -> (i < NPROC)%nat -> scheduler_try i s = Done false s1 ->
  s1 = touch s.
Proof.
  intros I Hi E. pose proof (to_length _ _ _ _ _ (iv_table _ _ _ I)) as Hl. cbn in Hl.
  destruct (lookup_lt_is_Some_2 (procs s) i) as [q Hq]; [lia|].
  rewrite (scheduler_try_ok i q s) in E by first [apply (iv_quiet _ _ _ I)|done].
  case_bool_decide; [done|]. by injection E as <-.
Qed.

Lemma window_ok s : scheduler_window s = Done tt (sie_off s).
Proof.
  assert (H : forall x, (x .| SSTATUS_SIE) .& Z.lnot SSTATUS_SIE = x .& Z.lnot SSTATUS_SIE).
  { intros x. zbits. rewrite sie_testbit by lia. by destruct (i =? 1), (Z.testbit x i). }
  unfold scheduler_window, intr_on, intr_off, w_sstatus. mrun. unfold modify, sie_off. ksimpl.
  rewrite H. by destruct s as [? [] ? ? ? ? ? ? ? ? ? ? ? ? ? ? ?].
Qed.

Lemma inv_can_alloc n ip s m T free k :
  inv n ip (World s m T) -> pool s free -> first_unused (procs s) = Some k -> can_alloc s free k.
Proof.
  intros I Hp Hk. pose proof (iv_quiet _ _ _ I) as Hqu. pose proof (iv_pid _ _ _ I) as Hpid.
  cbn [w_state] in *. split; try apply Hqu; try done.
  - rewrite (qu_depth _ Hqu). lia.
  - lia.
Qed.

Lemma create_process_oom s free k fn :
  can_alloc s free k -> (length free < 4)%nat -> exists s', create_process fn s = Panic "alloc_page" s'.
Proof.
  intros Hc Hl. destruct (alloc_process_oom s free k Hc Hl) as [s' E]. exists s'.
  unfold create_process. by apply bind_Panic.
Qed.

Lemma wait_begin_ok n ip s p T :
  inv n ip (World s (Running p) T) -> wait_begin s = Done (Some p) (locked_state L_wait s).
Proof.
  intros I. destruct (inv_running _ _ _ _ _ I) as (Hqu & Hoff & q & Hq & Hst & R).
  unfold wait_begin. mstep; [by apply myproc_ok, R|]. rewrite (ru_cur _ _ _ R).
  mstep; [|reflexivity]. rewrite <- (locked_state_touch L_wait s).
  apply acquire_ok; [by apply hart_ok_touch, R|by apply lock_exists_global|].
  rewrite get_lock_touch. by apply (quiet_free s L_wait).
Qed.

Lemma exit_init_panics n ip s T status :
  inv n ip (World s (Running ip) T) -> exists s', exit_process status s = Panic "init exiting" s'.
Proof.
  intros I. destruct (inv_running _ _ _ _ _ I) as (Hqu & Hoff & q & Hq & Hst & R).
  pose proof (iv_init _ _ _ I) as Hi. cbn [w_state] in Hi.
  exists (touch s). unfold exit_process.
  rewrite (bind_Done _ _ _ _ _ _ (myproc_ok s (qu_hart _ Hqu)) eq_refl), bind_gets.
  change (initproc (touch s)) with (initproc s). by rewrite (ru_cur _ _ _ R), Hi, bool_decide_eq_true_2.
Qed.

(** ** The effect of each step *)

(** The state after the exit of [p], whose slot holds [q]. *)
Definition after_exit (p ip : nat) (status : Z) (q : proc) (s : kstate) : kstate :=
  descheduled p (exited status)
    (touch (table (exit_table p (p_parent q) (Some ip) (zombies_upto NPROC (Some p) (procs s))) (touch s))).

Section one_step.
Context {n : resources} {ip : nat}.

Lemma start_effect i s s1 s2 fn T :
  inv n ip (World s (Scheduling i) T) -> (i < NPROC)%nat -> scheduler_try i s = Done true s1 ->
  forkret s1 = Done fn s2 ->
  exists q j, procs s !! i = Some q /\ p_state q = RUNNABLE /\ s2 = started i q j s.
Proof.
  intros I Hi E E2. destruct (try_true _ _ _ _ _ _ I Hi E) as (q & Hq & Hst & ->).
  pose proof (iv_quiet _ _ _ I) as Hqu. cbn [w_state] in Hqu.
  destruct (forkret_ok i q s) as (j & [(_ & E')|(_ & s' & E')]).
  - apply quiet_scheduling; [done|]. apply (iv_runner _ _ _ I).
  - by apply (quiet_free s L_print).
  - apply Hqu.
  - done.
  - rewrite E' in E2. injection E2 as <- <-. by exists q, j.
  - by rewrite E' in E2.
Qed.

Lemma resume_effect i v s s1 s2 T :
  inv n ip (World s (Scheduling i) T) -> (i < NPROC)%nat -> scheduler_try i s = Done true s1 ->
  T !! i = Some (RYield v) -> yield_leave i v s1 = Done tt s2 ->
  exists q, procs s !! i = Some q /\ p_state q = RUNNABLE /\ s2 = resumed i q (fun q => q) 0 s.
Proof.
  intros I Hi E HT E2. destruct (try_true _ _ _ _ _ _ I Hi E) as (q & Hq & Hst & ->).
  destruct (inv_threads _ _ _ _ _ _ I Hq Hst) as (r & HT' & Hr). rewrite HT in HT'.
  injection HT' as <-. cbn in Hr. subst v.
  rewrite (yield_leave_ok i q 0 s) in E2 by (done || apply (iv_quiet _ _ _ I)).
  apply Done_inj in E2 as [_ <-]. by exists q.
Qed.

Lemma rewait_effect i v s s1 s2 T :
  inv n ip (World s (Scheduling i) T) -> (i < NPROC)%nat -> scheduler_try i s = Done true s1 ->
  T !! i = Some (RWait v) -> sleep_leave i v L_wait s1 = Done tt s2 ->
  exists q, procs s !! i = Some q /\ p_state q = RUNNABLE
    /\ s2 = locked_state L_wait (resumed i q (set_p_chan PNull) 0 s).
Proof.
  intros I Hi E HT E2. destruct (try_true _ _ _ _ _ _ I Hi E) as (q & Hq & Hst & ->).
  destruct (inv_threads _ _ _ _ _ _ I Hq Hst) as (r & HT' & Hr). rewrite HT in HT'.
  injection HT' as <-. cbn in Hr. subst v.
  rewrite (sleep_leave_ok i q 0 L_wait s) in E2
    by first [done | apply (quiet_free s L_wait); [apply (iv_quiet _ _ _ I)|done]
             | apply (iv_quiet _ _ _ I)].
  apply Done_inj in E2 as [_ <-]. by exists q.
Qed.

Lemma yield_effect p q v s s1 s2 T :
  inv n ip (World s (Running p) T) -> yield_enter s = Done (q, v) s1 -> scheduler_back p s1 = Done tt s2 ->
  exists r, procs s !! p = Some r /\ p_state r = RUNNING /\ v = 0
    /\ s2 = descheduled p (set_p_state RUNNABLE) (touch s).
Proof.
  intros I E Eb. destruct (inv_running _ _ _ _ _ I) as (Hqu & Hoff & r & Hr & Hrun & R).
  rewrite (yield_enter_ok s p r R), Hoff in E. injection E as _ <- <-.
  rewrite (back_parked s p r) in Eb by done. injection Eb as <-. by exists r.
Qed.

(** Only processes other than init get through [exit_process]. *)
Lemma exit_effect p status v s s1 s2 T :
  inv n ip (World s (Running p) T) -> exit_process status s = Done v s1 -> scheduler_back p s1 = Done tt s2 ->
  exists q, procs s !! p = Some q /\ p_state q = RUNNING /\ p <> ip /\ p_parent q <> Some p
    /\ s2 = after_exit p ip status q s.
Proof.
  intros I E Hb. destruct (inv_running _ _ _ _ _ I) as (Hqu & Hoff & q & Hq & Hrun & R).
  pose proof (iv_table _ _ _ I) as Ht. pose proof (iv_init _ _ _ I) as Hi.
  cbn [w_state w_runner w_threads] in *.
  assert (Hip : p <> ip).
  { intros ->. destruct (exit_init_panics _ _ _ _ status I) as [s' E']. congruence. }
  assert (Hpar : p_parent q <> Some p).
  { intros Hp. by destruct (to_parent _ _ _ _ _ Ht _ _ _ Hq Hp). }
  rewrite (exit_process_ok s p q status R) in E by (done || congruence || by apply (quiet_free s L_wait)).
  injection E as <- <-. rewrite Hi in Hb.
  rewrite (back_parked _ p q) in Hb;
    [|apply _|by apply quiet_table, quiet_touch; [apply _|]|by apply exit_table_self].
  injection Hb as <-. by exists q.
Qed.

(** A round of [wait_process] by [p]: a zombie child [z] of slot [k] is reaped, or
    there is no child, or there are children and none is a zombie. *)
Inductive waited (p : nat) (s : kstate) (T : gmap nat resume_point) : wait_result -> world -> Prop :=
  | waited_reap k z tbls ktbl free free' s' :
      procs s !! k = Some z -> p_parent z = Some p -> p_state z = ZOMBIE ->
      memory_ok n s free tbls ktbl ->
      s' = set_mem (mem s') (set_freelist (freelist s') (table (alter emptied k) (touch s))) ->
      pool s' free' -> free' ≡ₚ p_trapframe z :: (map_to_list (tbls k)).*2 ++ free ->
      only_owned [p_trapframe z] (tbls k) s s' ->
      waited p s T (WaitRet (p_pid z) (p_xstate z)) (World s' (Running p) T)
  | waited_none :
      (forall j r, procs s !! j = Some r -> p_parent r <> Some p) ->
      waited p s T WaitNone (World (touch s) (Running p) T)
  | waited_sleep i :
      (exists j r, procs s !! j = Some r /\ p_parent r = Some p) ->
      (forall j r, procs s !! j = Some r -> p_parent r = Some p -> p_state r <> ZOMBIE) ->
      i = 0 ->
      waited p s T (WaitSleep p i)
        (World (descheduled p (asleep (PProc p)) (touch s)) (Scheduling (S p)) (<[p := RWait i]> T)).

Lemma wait_outcome s p T :
  inv n ip (World s (Running p) T) ->
  exists r s2, wait_round (Some p) (locked_state L_wait s) = Done r s2 /\ (exists w', after_wait p s2 T r w')
    /\ forall w', after_wait p s2 T r w' -> waited p s T r w'.
Proof.
  intros I. destruct (inv_running _ _ _ _ _ I) as (Hqu & Hoff & q & Hq & Hst & R).
  assert (Hw : lock_free L_wait s) by by apply (quiet_free s L_wait).
  destruct (first_zombie (Some p) (procs s)) as [[k z]|] eqn:Hz.
  - destruct (first_zombie_some _ _ _ _ Hz) as (Hk & Hpar & Hzs).
    destruct (iv_memory _ _ _ I) as (free & tbls & ktbl & Hm). cbn [w_state] in Hm.
    assert (Hlive : live z) by (unfold live; by rewrite Hzs).
    destruct (wait_round_reap s p k z (tbls k) free) as (s' & free' & E & Es & P & C & O);
      try apply R; [done|done|by eapply mo_slot|].
    eexists _, _. split; [exact E|]. split; [eexists; constructor|].
    intros w' Ha. inversion Ha; subst w' pid status. by eapply waited_reap.
  - rewrite (wait_round_none s p q R Hw Hz).
    rewrite (to_killed _ _ _ _ _ _ _ (iv_table _ _ _ I) Hq), Z.eqb_refl, orb_false_r.
    assert (Hb : scheduler_back p (parked p (asleep (PProc p)) (touch s))
      = Done tt (descheduled p (asleep (PProc p)) (touch s))).
    { rewrite (back_parked (touch s) p q) by (done || by apply quiet_touch). by rewrite touch_touch. }
    destruct (has_kids (Some p) (procs s)) eqn:Hk; cbn [negb]; eexists _, _; (split; [reflexivity|]).
    + split; [eexists; by constructor|]. rewrite Hoff. intros w' Ha. inversion Ha as [| |q0 i0 s' Hb']; subst.
      rewrite Hb in Hb'. injection Hb' as <-.
      apply waited_sleep; [by apply has_kids_spec|by apply first_zombie_none|done].
    + split; [eexists; constructor|]. intros w' Ha. inversion Ha; subst. apply waited_none. by apply has_kids_none.
Qed.

Lemma wait_effect s p T r s2 w' :
  inv n ip (World s (Running p) T) -> wait_round (Some p) (locked_state L_wait s) = Done r s2 ->
  after_wait p s2 T r w' -> waited p s T r w'.
Proof.
  intros I E. destruct (wait_outcome s p T I) as (r' & s2' & E' & _ & H).
  rewrite E' in E. injection E as <- <-. apply H.
Qed.

Lemma create_effect p fn pid k s s' T :
  inv n ip (World s (Running p) T) -> nextpid s < 2 ^ 31 - 1 -> first_unused (procs s) = Some k ->
  create_process fn s = Done pid s' ->
  exists q tf pt t1 t2 free tbls ktbl tbl i bs,
    procs s !! k = Some q /\ p_state q = UNUSED /\ pid = nextpid s
    /\ memory_ok n s (tf :: pt :: t1 :: t2 :: free) tbls ktbl
    /\ s' = patch (mem s') (freelist s') i bs (nextpid s + 1)
              (alter (created (nextpid s) tf pt fn (Some p)) k) (touch s)
    /\ user_space s' pt tbl free /\ page_ok tf /\ (tf ∉ free)
    /\ (forall path a, tbl !! path = Some a -> a <> tf)
    /\ only_owned [tf] tbl s s' /\ (map_to_list tbl).*2 ≡ₚ [pt; t1; t2].
Proof.
  intros I Hnp Hk E. destruct (inv_running _ _ _ _ _ I) as (Hqu & Hoff & r & Hr & Hrun & R).
  destruct (iv_memory _ _ _ I) as (free & tbls & ktbl & Hm).
  pose proof (iv_pid _ _ _ I) as Hpid. cbn [w_state w_runner w_threads] in *.
  pose proof (inv_can_alloc _ _ _ _ _ free k I (vm_pool _ _ _ _ (mo_kernel _ _ _ _ _ Hm)) Hk) as Hc.
  destruct (first_unused_Some _ _ Hk) as (q & Hq & Hu & _).
  destruct free as [|tf [|pt [|t1 [|t2 free]]]];
    try (destruct (create_process_oom s _ k fn Hc) as [? E']; [cbn; lia|congruence]).
  destruct (create_process_ok s k tf pt t1 t2 free fn Hc) as (s1 & j & tbl & E' & Es & H);
    [by apply (quiet_free s L_wait)|].
  rewrite E' in E. injection E as <- <-. rewrite (ru_cur _ _ _ R) in Es.
  rewrite i32_small in Es by lia.
  by exists q, tf, pt, t1, t2, free, tbls, ktbl, tbl, j, (new_message (nextpid s)).
Qed.

End one_step.

End effects.
