(* ===== verification/SchedInv.v ===== *)
(** * The system invariant is kept

    [inv] of SchedStep.v: the hart and the locks are quiet, interrupts are off
    outside the scheduler's window, the process table is sound and every page has
    one owner.  Every step keeps it ([step_inv]), so it holds in every reachable
    state.  From it follow that at most one process runs, that no wake-up of a
    waiting parent is lost, that no page leaks, and that the steps never go
    wrong. *)

From S2P Require Import Prelude Riscv Memory State Spinlock Kalloc Vm VmMap Sv39 VmDestroy Uart Printf Csr Proc ProcTable ProcMem ProcExit Switch Trap Sched SchedMem SchedStep.

Section inv.
Context {L : Linker} {LO : LinkerOk}.

(** ** A world whose state is replaced by an equivalent one *)

(** Nothing the invariant speaks of differs. *)
Record same_view (s s' : kstate) : Prop := {
  sv_procs : procs s' = procs s;
  sv_mem : mem s' = mem s;
  sv_freelist : freelist s' = freelist s;
  sv_kernel : kernel_pagetable s' = kernel_pagetable s;
  sv_satp : satp (csr s') = satp (csr s);
  sv_init : initproc s' = initproc s;
  sv_pid : nextpid s' = nextpid s;
  sv_cur : c_proc (cpu0 s') = c_proc (cpu0 s);
}.

Lemma memory_ok_view n s s' free tbls ktbl :
  memory_ok n s free tbls ktbl -> quiet s' -> procs s' = procs s -> mem s' = mem s ->
  freelist s' = freelist s -> kernel_pagetable s' = kernel_pagetable s ->
  memory_ok n s' free tbls ktbl.
Proof.
  intros Hm Hq Hp E1 E2 E3. apply (memory_ok_same n s); try done.
  - apply Hq.
  - by apply (quiet_free s' L_kmem).
  - by rewrite Hp.
  - intros k q q' H1 H2. rewrite Hp in H2. by simplify_eq.
Qed.

Lemma inv_view n ip s s' m T :
  inv n ip (World s m T) -> same_view s s' -> quiet s' ->
  (m <> Scheduling NPROC -> intr_get s' = false) -> inv n ip (World s' m T).
Proof.
  intros [A1 A2 A3 A4 A5 A6 A8 A9 (free & tbls & ktbl & A7)] [B1 B2 B3 B4 B8 B5 B6 B7] Hq Hi.
  cbn [w_state w_runner w_threads] in *. split; cbn [w_state w_runner w_threads].
  - done.
  - unfold runner_ok in *. by rewrite B1, B7.
  - done.
  - by rewrite B5.
  - by rewrite B1, B6.
  - by rewrite B6.
  - by rewrite B8, B4.
  - done.
  - exists free, tbls, ktbl. by apply (memory_ok_view n s).
Qed.

Lemma inv_touch n ip s m T : inv n ip (World s m T) -> inv n ip (World (touch s) m T).
Proof.
  intros I. apply (inv_view n ip s); [done|done|apply quiet_touch, I|].
  intros Hm. rewrite intr_get_touch. by apply (iv_sie _ _ _ I).
Qed.

(** ** Steps that change one slot and move no page *)

Lemma inv_move n ip s s' m T m' T' k q f :
  inv n ip (World s m T) -> procs s !! k = Some q -> quiet s' -> intr_get s' = false ->
  runner_ok s' m' -> procs s' = alter f k (procs s) -> mem s' = mem s -> freelist s' = freelist s ->
  kernel_pagetable s' = kernel_pagetable s -> initproc s' = initproc s -> nextpid s' = nextpid s ->
  satp (csr s') = satp (csr s) -> same_space q (f q) -> table_ok m' T' ip (nextpid s) (alter f k (procs s)) ->
  inv n ip (World s' m' T').
Proof.
  intros [A1 A2 A3 A4 A5 A6 A8 A9 (free & tbls & ktbl & A7)] Hq Hqu Hi Hr Ep Em Ef Ek Ei En Es Hsp Ht.
  cbn [w_state w_runner w_threads] in *. split; cbn [w_state w_runner w_threads].
  - done.
  - done.
  - done.
  - by rewrite Ei.
  - by rewrite Ep, En.
  - by rewrite En.
  - by rewrite Es, Ek.
  - done.
  - exists free, tbls, ktbl. apply (memory_ok_same n s); try done.
    + apply Hqu.
    + by apply (quiet_free s' L_kmem).
    + by rewrite Ep, length_alter.
    + intros j r r' Hr1 Hr2. rewrite Ep, alter_lookup in Hr2. case_decide as Hj.
      * subst. rewrite Hq in *. cbn in Hr2. by simplify_eq.
      * rewrite Hr1 in Hr2. by simplify_eq.
Qed.

(** Slot [j] of another process, when [k] changes hands with the scheduler. *)
Lemma slot_ok_other m m' T T' k j r :
  slot_ok m T j r -> j <> k -> T' !! j = T !! j -> m <> Running j -> slot_ok m' T' j r.
Proof.
  unfold slot_ok. intros H Hj -> Hm. destruct (p_state r); try done. by destruct H.
Qed.

Lemma resumed_touch k q f s :
  noff s = 0 -> intr_get s = false ->
  resumed k q f 0 s
  = swapped (p_context q) (Some k) (regs s) (alter (fun q => f (set_p_state RUNNING q)) k) (touch s).
Proof. intros Hn Hi. unfold resumed. by rewrite restored_off. Qed.

(** Slot [i] gets the CPU; [f] is what the thread does to its slot first. *)
Lemma inv_dispatch n ip s i T q f `{!LockNeutral f} :
  inv n ip (World s (Scheduling i) T) -> (i < NPROC)%nat -> procs s !! i = Some q ->
  p_state q = RUNNABLE ->
  (forall q, p_parent (f q) = p_parent q /\ p_pid (f q) = p_pid q /\ p_state (f q) = p_state q
     /\ fixed (f q) = fixed q /\ p_trapframe (f q) = p_trapframe q /\ p_pagetable (f q) = p_pagetable q) ->
  inv n ip (World (resumed i q f 0 s) (Running i) (delete i T)).
Proof.
  intros I Hi Hq Hst Hf. pose proof (iv_quiet _ _ _ I) as Hqu. pose proof (iv_table _ _ _ I) as Ht.
  assert (Hoff : intr_get s = false) by (apply (iv_sie _ _ _ I); intros [= ->]; cbn in Hi; lia).
  cbn [w_state w_runner w_threads] in *.
  set (g := fun q => f (set_p_state RUNNING q)).
  assert (Hg : p_state (g q) = RUNNING) by (unfold g; by rewrite (proj1 (proj2 (proj2 (Hf _))))).
  rewrite resumed_touch by (done || apply Hqu). fold g.
  apply (inv_move n ip s _ (Scheduling i) T _ _ i q g); try done.
  - apply quiet_swapped; [apply _|]. by apply quiet_touch.
  - split; [done|]. exists (g q). split; [|done]. by apply lookup_alter_slot.
  - unfold same_space, g. destruct (Hf (set_p_state RUNNING q)) as (_ & _ & -> & _ & -> & ->).
    cbn. rewrite Hst. done.
  - apply (table_ok_move (Scheduling i) _ T _ _ _ _ i q g Ht Hq); rewrite ?Hst, ?Hg; try done.
    + intros r. unfold g. by rewrite (proj1 (Hf _)).
    + intros r. unfold g. by rewrite (proj1 (proj2 (Hf _))).
    + intros r. unfold g. by destruct (Hf (set_p_state RUNNING r)) as (_ & _ & _ & -> & _).
    + intros j r Hj Hr Hs. apply (slot_ok_other (Scheduling i) _ T _ i); try done.
      by rewrite lookup_delete_ne.
    + unfold slot_ok. rewrite Hg. split; [done|]. apply lookup_delete_eq.
Qed.

(** The running process [p] gives the CPU up, with its slot updated by [f]. *)
Lemma inv_park n ip s p T q f r `{!LockNeutral f} :
  inv n ip (World s (Running p) T) -> procs s !! p = Some q ->
  (forall q, p_parent (f q) = p_parent q /\ p_pid (f q) = p_pid q /\ fixed (f q) = fixed q
     /\ p_trapframe (f q) = p_trapframe q /\ p_pagetable (f q) = p_pagetable q) ->
  (p_state (f q) <> UNUSED) -> p_state (f q) <> ZOMBIE ->
  (forall c T', T' !! p = Some r -> slot_ok (Scheduling (S p)) T' p (set_p_context c (f q))) ->
  (p_state (f q) = SLEEPING -> (exists j r, procs s !! j = Some r /\ p_parent r = Some p)
     /\ forall j r, procs s !! j = Some r -> p_parent r = Some p -> p_state r <> ZOMBIE) ->
  inv n ip (World (descheduled p f (touch s)) (Scheduling (S p)) (<[p := r]> T)).
Proof.
  intros I Hq Hf Hu Hz Hslot Hsl. pose proof (iv_quiet _ _ _ I) as Hqu. pose proof (iv_table _ _ _ I) as Ht.
  destruct (iv_runner _ _ _ I) as [Hc (q' & Hq' & Hrun)].
  assert (Hoff : intr_get s = false) by by apply (iv_sie _ _ _ I).
  cbn [w_state w_runner w_threads] in *. simplify_eq.
  pose proof (lookup_lt_Some _ _ _ Hq) as Hb. rewrite (to_length _ _ _ _ _ Ht) in Hb.
  unfold descheduled. set (g := fun q => set_p_context (regs (touch s)) (f q)).
  apply (inv_move n ip s _ (Running p) T _ _ p q g); try done.
  - apply quiet_swapped; [apply _|]. by apply quiet_touch.
  - unfold same_space, g. destruct (Hf q) as (_ & _ & _ & E1 & E2). cbn. rewrite E1, E2, Hrun.
    split_and!; [done..|]. by split.
  - apply (table_ok_move (Running p) _ T _ _ _ _ p q g Ht Hq); rewrite ?Hrun; try done.
    + intros t. apply Hf.
    + intros t. apply Hf.
    + intros t. apply (Hf t).
    + intros j t Hj Hr Hs. apply (slot_ok_other (Running p) _ T _ p); try done.
      * by rewrite lookup_insert_ne.
      * intros [= ->]. done.
    + apply Hslot. apply lookup_insert_eq.
    + intros Hs. right. by apply Hsl.
Qed.

(** ** Printing *)

Lemma inv_io_step n ip s m T k w :
  inv n ip (World s m T) -> inv n ip (World (io_step k w s) m T).
Proof.
  intros I. apply (inv_view n ip s); [done|done| |].
  - apply (quiet_same s); try done. apply I.
  - apply (iv_sie _ _ _ I).
Qed.

Lemma inv_print n ip s m T fmt ap bs s' :
  inv n ip (World s m T) -> Forall is_char fmt -> formatted fmt ap = Some bs -> printf fmt ap s = Done 0 s' ->
  exists k, s' = io_step k ((fun b => (UART0 + THR, b)) <$> bs) (touch s).
Proof.
  intros I Hf Hb E. pose proof (iv_quiet _ _ _ I) as Q. cbn [w_state] in Q.
  destruct (printf_ok fmt ap bs s (qu_hart _ Q) (quiet_free s L_print Q Logic.I) (qu_uart _ Q) Hf Hb)
    as (s1 & E1 & k & ->).
  rewrite E1 in E. apply Done_inj in E as [_ <-]. by exists k.
Qed.

(** ** wait *)

Lemma inv_reap n ip s p T k z tbls ktbl free free' s' :
  inv n ip (World s (Running p) T) -> procs s !! k = Some z -> p_parent z = Some p -> p_state z = ZOMBIE ->
  memory_ok n s free tbls ktbl ->
  s' = set_mem (mem s') (set_freelist (freelist s') (table (alter emptied k) (touch s))) ->
  pool s' free' -> free' ≡ₚ p_trapframe z :: (map_to_list (tbls k)).*2 ++ free ->
  only_owned [p_trapframe z] (tbls k) s s' -> inv n ip (World s' (Running p) T).
Proof.
  intros I Hk Hpar Hzs Hm Es P C O. destruct (inv_running _ _ _ _ _ I) as (Hqu & Hoff & q & Hq & Hst & _).
  assert (Hqu' : quiet (table (alter emptied k) (touch s))) by (apply quiet_table, quiet_touch; [apply _|done]).
  assert (Hqs : quiet s') by (rewrite Es; by apply (quiet_same _ _ Hqu')).
  assert (Hps : procs s' = alter emptied k (procs s)) by by rewrite Es.
  assert (Hkp : kernel_pagetable s' = kernel_pagetable s) by by rewrite Es.
  assert (Hnx : nextpid s' = nextpid s) by by rewrite Es.
  assert (Hin : initproc s' = initproc s) by by rewrite Es.
  assert (Hcp : c_proc (cpu0 s') = c_proc (cpu0 s)) by by rewrite Es.
  assert (Hcs : csr s' = csr (touch s)) by by rewrite Es.
  clear Es. destruct I as [I1 I2 I3 I4 I5 I6 I7 I8 _]. cbn [w_state w_runner w_threads] in *.
  split; cbn [w_state w_runner w_threads]; try done.
  - destruct I2 as [I2 _]. split; [by rewrite Hcp|]. exists q. split; [|done].
    rewrite Hps, list_lookup_alter_ne; [done|]. intros ->. simplify_eq. congruence.
  - intros _. unfold intr_get. rewrite Hcs. fold (intr_get (touch s)). by rewrite intr_get_touch.
  - by rewrite Hin.
  - rewrite Hps, Hnx. apply (table_ok_reap _ _ _ _ _ p k z); try done.
    intros q' Hq'. simplify_eq. congruence.
  - by rewrite Hnx.
  - by rewrite Hcs, Hkp.
  - exists free', tbls, ktbl. apply (memory_ok_reap n s s' k z free free' tbls ktbl Hm); try done.
    unfold live. by rewrite Hzs.
Qed.

Lemma inv_wait n ip s p T r s2 w' :
  inv n ip (World s (Running p) T) -> wait_round (Some p) (locked_state L_wait s) = Done r s2 ->
  after_wait p s2 T r w' -> inv n ip w'.
Proof.
  intros I E Ha. destruct (wait_effect _ _ _ _ _ _ I E Ha) as [k z tbls ktbl free free' s' Hk Hp Hz Hm Es P C O|_|i Hkids Hno ->].
  - by eapply inv_reap.
  - by apply inv_touch.
  - destruct (inv_running _ _ _ _ _ I) as (_ & _ & q & Hq & _ & _). by apply (inv_park n ip s p T q).
Qed.

(** ** create *)

Lemma inv_create n ip s p T k fn pid s' :
  inv n ip (World s (Running p) T) -> first_unused (procs s) = Some k -> fn <> 0 ->
  nextpid s < 2 ^ 31 - 1 -> create_process fn s = Done pid s' ->
  inv n ip (World s' (Running p) (<[k := RStart]> T)).
Proof.
  intros I Hk Hfn Hnp E. destruct (inv_running _ _ _ _ _ I) as (Hqu & Hoff & r & Hr & Hrun & R).
  destruct (create_effect _ _ _ _ _ _ _ I Hnp Hk E)
    as (q & tf & pt & t1 & t2 & free & tbls & ktbl & tbl & i & bs & Hq & Hu & -> & Hm & Es & U & H1 & H2 & H3 & H4 & H5).
  clear E. set (f := created (nextpid s) tf pt fn (Some p)) in Es.
  assert (Hqs : quiet s') by (rewrite Es; apply quiet_patch; [apply _|]; by apply quiet_touch).
  assert (Hps : procs s' = alter f k (procs s)) by by rewrite Es.
  assert (Hkp : kernel_pagetable s' = kernel_pagetable s) by by rewrite Es.
  assert (Hin : initproc s' = initproc s) by by rewrite Es.
  assert (Hcp : c_proc (cpu0 s') = c_proc (cpu0 s)) by by rewrite Es.
  assert (Hcs : csr s' = csr (touch s)) by by rewrite Es.
  assert (Hnx : nextpid s' = nextpid s + 1) by by rewrite Es.
  clear Es. destruct I as [I1 I2 I3 I4 I5 I6 I7 I8 _]. cbn [w_state w_runner w_threads] in *.
  assert (Hpk : p <> k) by (intros ->; simplify_eq; congruence).
  split; cbn [w_state w_runner w_threads]; try done.
  - destruct I2 as [I2 _]. split; [by rewrite Hcp|]. exists r. split; [|done].
    by rewrite Hps, list_lookup_alter_ne.
  - intros _. unfold intr_get. rewrite Hcs. fold (intr_get (touch s)). by rewrite intr_get_touch.
  - by rewrite Hin.
  - rewrite Hps, Hnx. apply (table_ok_create T ip (nextpid s) (procs s) p k q); try done; [| |lia].
    + exists r. rewrite Hrun. by split_and!.
    + intros r' Hr'. simplify_eq. congruence.
  - rewrite Hnx. lia.
  - by rewrite Hcs, Hkp.
  - exists free, (fun j => if decide (j = k) then tbl else tbls j), ktbl.
    by apply (memory_ok_create n s s' k q f tf pt t1 t2 free tbls tbl ktbl).
Qed.

(** ** exit *)

Lemma exit_same_space me par ip b q : same_space q (exit1 me par ip b q).
Proof.
  destruct (exit1_ok me par ip b q) as [_ _ _ _ _ E1 E2 _ E3 _ _]. split_and!; [done..|].
  destruct E3 as [->|[-> ->]]; [done|]. by split.
Qed.

(** Where a slot of the table after an exit comes from. *)
Lemma exit_table_back p par ip b g ps q k r' :
  length ps = NPROC -> ps !! p = Some q -> exit_table p par (Some ip) b ps !! p = Some q ->
  alter g p (exit_table p par (Some ip) b ps) !! k = Some r' ->
  exists r, ps !! k = Some r /\ (k = p /\ r' = g q \/ k <> p /\ exists b, r' = exit1 p par ip b r).
Proof.
  intros Hl Hq HF. rewrite alter_lookup. case_decide as Hk.
  - subst. rewrite HF. intros [= <-]. exists q. auto.
  - intros Hr. destruct (lookup_lt_is_Some_2 ps k) as [r0 Hr0].
    { apply lookup_lt_Some in Hr. by rewrite (tn_length (F := exit_table _ _ _ _)) in Hr. }
    rewrite (exit_table_lookup _ _ _ _ _ _ r0) in Hr by done.
    injection Hr as <-. exists r0. split; [done|]. right. split; [done|]. by eexists.
Qed.

Lemma inv_exit n ip s p T status v s1 s2 :
  inv n ip (World s (Running p) T) -> exit_process status s = Done v s1 ->
  scheduler_back p s1 = Done tt s2 -> inv n ip (World s2 (Scheduling (S p)) T).
Proof.
  intros I E Hb. destruct (inv_running _ _ _ _ _ I) as (Hqu & Hoff & _).
  destruct (exit_effect _ _ _ _ _ _ _ I E Hb) as (q & Hq & Hrun & Hip & Hpar & ->). clear E Hb.
  pose proof (iv_table _ _ _ I) as Ht. destruct (iv_memory _ _ _ I) as (free & tbls & ktbl & Hm).
  cbn [w_state w_runner w_threads] in *.
  set (F := exit_table p (p_parent q) (Some ip) (zombies_upto NPROC (Some p) (procs s))).
  assert (HqF : quiet (table F (touch s))) by (apply quiet_table, quiet_touch; [apply _|done]).
  assert (HF : procs (table F (touch s)) !! p = Some q) by by apply exit_table_self.
  set (g := fun q => set_p_context (regs (touch (table F (touch s)))) (exited status q)).
  set (s2 := after_exit p ip status q s).
  assert (Hps : procs s2 = alter g p (F (procs s))) by done.
  assert (Hqs : quiet s2) by (apply quiet_swapped; [apply _|]; by apply quiet_touch).
  assert (Hlk : forall k r', procs s2 !! k = Some r' -> exists r, procs s !! k = Some r
    /\ (k = p /\ r' = g q \/ k <> p /\ exists b, r' = exit1 p (p_parent q) ip b r)).
  { intros k r' Hr. rewrite Hps in Hr. apply (exit_table_back p (p_parent q) ip _ g (procs s) q k r' (to_length _ _ _ _ _ Ht) Hq HF Hr). }
  pose proof (lookup_lt_Some _ _ _ Hq) as Hpb. rewrite (to_length _ _ _ _ _ Ht) in Hpb.
  destruct I as [I1 I2 I3 I4 I5 I6 I7 I8 _]. cbn [w_state w_runner w_threads] in *.
  split; cbn [w_state w_runner w_threads]; try done.
  - rewrite Hps. apply (table_ok_exit g); try done.
  - exists free, tbls, ktbl. apply (memory_ok_same n s); try done.
    + apply Hqs.
    + by apply (quiet_free s2 L_kmem).
    + rewrite Hps, length_alter. apply (tn_length (F := F)).
    + intros k r r' Hr Hr'. destruct (Hlk k r' Hr') as (r0 & Hr0 & [[-> ->]|[_ [b ->]]]); simplify_eq.
      * unfold same_space, g. cbn. rewrite Hrun. split_and!; [done..|]. by split.
      * apply exit_same_space.
Qed.

(** ** The scheduler's steps *)

Lemma inv_window n ip s T :
  inv n ip (World s (Scheduling NPROC) T) -> inv n ip (World (sie_off s) (Scheduling 0) T).
Proof.
  intros [A1 A2 A3 A4 A5 A6 A8 A9 (free & tbls & ktbl & A7)]. cbn [w_state w_runner w_threads] in *.
  assert (Hq : quiet (sie_off s)).
  { by apply (quiet_same s). }
  split; cbn [w_state w_runner w_threads]; try done.
  - destruct A2 as [_ A2]. by split; [lia|].
  - intros _. apply intr_get_sie_off.
  - destruct A5 as [B1 B2 B3 B4 B5 B6 B7 B8 B9]. split; try done.
    intros k q Hk. specialize (B2 k q Hk). unfold slot_ok in *. destruct (p_state q); try done.
    by destruct B2.
  - exists free, tbls, ktbl. by apply (memory_ok_view n s).
Qed.

(** No thread sleeps on the tick counter. *)
Lemma woken_none m T ip np ps cur : table_ok m T ip np ps -> woken PTicks cur ps = ps.
Proof.
  intros Ht. apply list_eq. intros j. unfold woken, woken_upto. rewrite list_lookup_imap.
  destruct (ps !! j) as [q|] eqn:Hq; [|done]. cbn [fmap option_fmap option_map]. f_equal.
  destruct (_ && _); [|done]. unfold wake1.
  destruct (decide (p_state q = SLEEPING)) as [Hs|Hs]; [|by rewrite bool_decide_eq_false_2].
  pose proof (to_slot _ _ _ _ _ Ht j q Hq) as H. unfold slot_ok in H. rewrite Hs in H.
  destruct H as [_ ->]. rewrite (bool_decide_eq_false_2 (PProc j = PTicks)) by done. by rewrite andb_false_r.
Qed.

Lemma quiet_interruptible s : quiet s -> interruptible s.
Proof.
  intros H. split; try apply H; try done.
  intros j Hj _. by apply (quiet_free s (L_proc j)).
Qed.

Lemma quiet_sie_on s : quiet s -> quiet (sie_on s).
Proof. intros H. by apply (quiet_same s). Qed.

(** An interrupt between two rounds. *)
Lemma interrupt_view n ip s T cause pc tval a b s1 s2 s3 :
  inv n ip (World s (Scheduling NPROC) T) -> intr_on s = Done tt s1 ->
  kerneltrap_enter (trap_entry cause pc tval s1) = Done (a, b, None) s2 ->
  kerneltrap_leave a b None s2 = Done tt s3 -> same_view s (sret s3) /\ quiet (sret s3).
Proof.
  intros I E1 E2 E3. pose proof (iv_quiet _ _ _ I) as Hq. pose proof (iv_runner _ _ _ I) as [_ Hc].
  cbn [w_state w_runner] in *. injection E1 as <-. fold (sie_on s) in E2.
  set (t := trap_entry cause pc tval (sie_on s)) in *.
  assert (Hi : interruptible t) by by apply interruptible_trap, quiet_interruptible, quiet_sie_on.
  destruct (kerneltrap_enter_inv t a b None s2 Hi Hc E2) as (-> & -> & _ & Hd). clear E2.
  change (sepc (csr t)) with pc in E3. change (sstatus (csr t)) with (trap_sstatus (sstatus (csr (sie_on s)))) in E3.
  destruct (trap_return (sie_on s) s2 pc cause tval Hd) as (s3' & E3' & _ & _ & Ht & _ & R & _ & Hsp).
  rewrite E3' in E3. injection E3 as ->. clear E3'.
  destruct Hd as [D1 _ D2 D3 D4].
  assert (Hps : procs s2 = procs s).
  { destruct D2 as [->| ->]; [done|]. eapply (woken_none _ _ _ _ _ _ (iv_table _ _ _ I)). }
  rewrite <- R in D1, D3, D4, Hps.
  assert (Hl : forall l, get_lock l (sret s3) = get_lock l s).
  { intros l. apply (f_equal (get_lock l)) in D1. destruct l; try exact D1. cbn in Hps |- *. by rewrite Hps. }
  assert (Hn : noff (sret s3) = noff s) by by apply (f_equal noff) in D1.
  split; [split|].
  - exact Hps.
  - by apply (f_equal mem) in D1.
  - by apply (f_equal freelist) in D1.
  - by apply (f_equal kernel_pagetable) in D1.
  - exact Hsp.
  - by apply (f_equal initproc) in D1.
  - by apply (f_equal nextpid) in D1.
  - by apply (f_equal (fun s => c_proc (cpu0 s))) in D1.
  - apply (quiet_same s); try done. by cbn in Hps |- *; rewrite Hps.
Qed.

Lemma inv_interrupt n ip s T cause pc tval a b s1 s2 s3 :
  inv n ip (World s (Scheduling NPROC) T) -> intr_on s = Done tt s1 ->
  kerneltrap_enter (trap_entry cause pc tval s1) = Done (a, b, None) s2 ->
  kerneltrap_leave a b None s2 = Done tt s3 -> inv n ip (World (sret s3) (Scheduling NPROC) T).
Proof.
  intros I E1 E2 E3. destruct (interrupt_view _ _ _ _ _ _ _ _ _ _ _ _ I E1 E2 E3) as [Hv Hq].
  by apply (inv_view n ip s).
Qed.

Lemma inv_advance n ip s i T :
  inv n ip (World s (Scheduling i) T) -> (i < NPROC)%nat ->
  inv n ip (World (touch s) (Scheduling (S i)) T).
Proof.
  intros I Hi. apply inv_touch in I. destruct I as [A1 A2 A3 A4 A5 A6 A8 A9 A7].
  cbn [w_state w_runner w_threads] in *. split; cbn [w_state w_runner w_threads]; try done.
  - destruct A2 as [_ A2]. by split; [lia|].
  - intros _. apply A3. intros [= ->]. cbn in Hi. lia.
  - destruct A5 as [B1 B2 B3 B4 B5 B6 B7 B8 B9]. split; try done.
    intros k q Hk. specialize (B2 k q Hk). unfold slot_ok in *. destruct (p_state q); try done.
    by destruct B2.
Qed.

Lemma inv_started n ip s i T q j :
  inv n ip (World s (Scheduling i) T) -> (i < NPROC)%nat -> procs s !! i = Some q ->
  p_state q = RUNNABLE -> inv n ip (World (started i q j s) (Running i) (delete i T)).
Proof.
  intros I Hi Hq Hs.
  assert (Hoff : intr_get s = false) by (apply (iv_sie _ _ _ I); intros [= ->]; cbn in Hi; lia).
  pose proof (inv_dispatch n ip s i T q (fun q => q) I Hi Hq Hs ltac:(done)) as I'.
  unfold started. rewrite Hoff. cbn [c_bool].
  apply (inv_view n ip (resumed i q (fun q => q) 0 s)); [done|done| |].
  - apply (quiet_same (resumed i q (fun q => q) 0 s)); try done. apply I'.
  - intros _. by apply (iv_sie _ _ _ I').
Qed.

(** ** Every step *)

Lemma inv_rewait n ip i v s s1 s2 r s3 T w' :
  inv n ip (World s (Scheduling i) T) -> (i < NPROC)%nat -> scheduler_try i s = Done true s1 ->
  T !! i = Some (RWait v) -> sleep_leave i v L_wait s1 = Done tt s2 -> wait_round (Some i) s2 = Done r s3 ->
  after_wait i s3 (delete i T) r w' -> inv n ip w'.
Proof.
  intros I Hi E HT E2 E3 Ha. destruct (rewait_effect _ _ _ _ _ _ I Hi E HT E2) as (q & Hq & Hst & ->).
  eapply inv_wait; [|exact E3|exact Ha]. by apply inv_dispatch; [apply _|..].
Qed.

Lemma inv_yield n ip p q v s s1 s2 T :
  inv n ip (World s (Running p) T) -> yield_enter s = Done (q, v) s1 -> scheduler_back p s1 = Done tt s2 ->
  inv n ip (World s2 (Scheduling (S p)) (<[p := RYield v]> T)).
Proof.
  intros I E Eb. destruct (yield_effect _ _ _ _ _ _ _ I E Eb) as (r & Hr & Hrun & -> & ->).
  apply (inv_park n ip s p T r); try done. intros c T' HT. by exists (RYield 0).
Qed.

Lemma step_inv n ip w w' : inv n ip w -> step w w' -> inv n ip w'.
Proof.
  intros I [es Hs]. destruct Hs as
    [i s s1 T Hi E | s s1 T E | cause pc tval a b s s1 s2 s3 T E E2 E3 | i s s1 s2 fn T Hi E HT E2 | i v s s1 s2 T Hi E HT E2
    | i v s s1 s2 r s3 T w' Hi E HT E2 E3 Ha | p fn pid k s s1 T Hfn Hnp Hk E
    | p q s s1 T E | p fmt ap bs s s1 T Hf Hb E
    | p q v s s1 s2 T E Eb | p status v s s1 s2 T E Eb | p q r s s1 s2 T w' E E2 Ha].
  - rewrite (try_false _ _ _ _ _ _ I Hi E). by apply inv_advance.
  - rewrite window_ok in E. injection E as <-. by apply inv_window.
  - by eapply inv_interrupt.
  - destruct (start_effect _ _ _ _ _ _ I Hi E E2) as (q & j & Hq & Hst & ->). by apply inv_started.
  - destruct (resume_effect _ _ _ _ _ _ I Hi E HT E2) as (q & Hq & Hst & ->).
    by apply inv_dispatch; [apply _|..].
  - by eapply inv_rewait.
  - by eapply inv_create.
  - rewrite myproc_ok in E by apply (iv_quiet _ _ _ I). injection E as <- <-. by apply inv_touch.
  - destruct (inv_print _ _ _ _ _ _ _ _ _ I Hf Hb E) as [k ->]. by apply inv_io_step, inv_touch.
  - by eapply inv_yield.
  - by eapply inv_exit.
  - rewrite (wait_begin_ok _ _ _ _ _ I) in E. injection E as <- <-. by eapply inv_wait.
Qed.

End inv.
