(* ===== verification/SchedLive.v ===== *)
(** * Progress and fairness

    In a state that satisfies the system invariant the kernel is never stuck:
    the scheduler's next look at the table, and every call of a running thread
    that does not run out of slots, pages or process numbers, goes through.  And
    the scheduler is fair: a runnable thread gets the CPU before any other thread
    gets it a second time. *)

From S2P Require Import Prelude Riscv Memory State Spinlock Kalloc Vm VmMap Sv39 VmDestroy Uart Printf Csr Proc ProcTable ProcMem ProcExit Switch Trap Sched SchedMem SchedStep SchedInv.

Section live.
Context {L : Linker} {LO : LinkerOk}.

(** ** Definitions *)

Definition runnable (k : nat) (w : world) : Prop :=
  exists q, procs (w_state w) !! k = Some q /\ p_state q = RUNNABLE.

(** The next slot the scheduler looks at, now or when it gets the CPU back. *)
Definition next_look (w : world) : nat :=
  match w_runner w with
  | Scheduling i => i
  | Running p => S p
  end.

(** How many slots the scheduler looks at before slot [k]. *)
Definition turns_before (k : nat) (w : world) : nat :=
  if (next_look w <=? k)%nat then k - next_look w else NPROC - next_look w + k.

(** A step from here is a look of the scheduler at a slot. *)
Definition looks (w : world) : bool :=
  match w_runner w with
  | Scheduling i => (i <? NPROC)%nat
  | Running _ => false
  end.

(** The scheduler is about to switch to slot [k]. *)
Definition dispatches (k : nat) (w : world) : Prop :=
  w_runner w = Scheduling k /\ (k < NPROC)%nat /\ exists s1, scheduler_try k (w_state w) = Done true s1.

(** A run during which slot [k] does not get the CPU and the scheduler looks at
    [c] slots. *)
Inductive waits (k : nat) : nat -> world -> world -> Prop :=
  | waits_none w : waits k 0 w w
  | waits_step c w w1 w2 :
      ~ dispatches k w -> step w w1 -> waits k c w1 w2 ->
      waits k ((if looks w then 1 else 0) + c) w w2.

(** ** Progress *)

Lemma wait_progress n ip s p T :
  inv n ip (World s (Running p) T) ->
  exists r s2 w', wait_round (Some p) (locked_state L_wait s) = Done r s2 /\ after_wait p s2 T r w'.
Proof.
  intros I. destruct (wait_outcome s p T I) as (r & s2 & E & [w' Ha] & _). by exists r, s2, w'.
Qed.

(** The scheduler's next look goes through. *)
Lemma look_progress n ip s i T :
  inv n ip (World s (Scheduling i) T) -> exists w', step (World s (Scheduling i) T) w'.
Proof.
  intros I. destruct (iv_runner _ _ _ I) as [Hi Hc]. cbn [w_state] in *.
  destruct (decide (i = NPROC)) as [->|Hne].
  { eexists. eexists; eapply step_round. apply window_ok. }
  assert (Hb : (i < NPROC)%nat) by lia. pose proof (iv_quiet _ _ _ I) as Hq. cbn [w_state] in Hq.
  pose proof (to_length _ _ _ _ _ (iv_table _ _ _ I)) as Hl. cbn in Hl.
  destruct (lookup_lt_is_Some_2 (procs s) i) as [q Hs]; [lia|].
  pose proof (scheduler_try_ok i q s (qu_hart _ Hq) (qu_procs _ Hq) Hs) as Et.
  case_bool_decide as Hst; [|eexists; by eexists; eapply step_skip].
  destruct (inv_threads _ _ _ _ _ _ I Hs Hst) as (r & HT & Hr). destruct r as [|v|v]; cbn in Hr.
  - destruct Hr as (_ & _ & Hr).
    destruct (forkret_ok i q s) as (j & [(_ & Ef)|(? & _)]); [by apply quiet_scheduling|
      by apply (quiet_free s L_print)|apply Hq|done| |done].
    eexists. by eexists; eapply step_start.
  - subst v. eexists. eexists; eapply step_resume; [done|exact Et|done|].
    apply yield_leave_ok; first [apply Hq|done].
  - subst v.
    assert (Es : sleep_leave i 0 L_wait (dispatched i q s)
        = Done tt (locked_state L_wait (resumed i q (set_p_chan PNull) 0 s))).
    { apply sleep_leave_ok; first [done|by apply (quiet_free s L_wait)|apply Hq]. }
    assert (I' : inv n ip (World (resumed i q (set_p_chan PNull) 0 s) (Running i) (delete i T))).
    { by apply inv_dispatch; [apply _|..]. }
    destruct (wait_progress _ _ _ _ _ I') as (r & s2 & w' & Ew & Ha).
    exists w'. eexists; eapply step_rewait; [done|exact Et|exact HT|exact Es|exact Ew|exact Ha].
Qed.

Lemma yield_progress n ip s p T :
  inv n ip (World s (Running p) T) ->
  exists v s1 s2, yield_enter s = Done (p, v) s1 /\ scheduler_back p s1 = Done tt s2.
Proof.
  intros I. destruct (inv_running _ _ _ _ _ I) as (Hqu & Hoff & q & Hq & Hst & R).
  eexists _, _, _. split; [by eapply yield_enter_ok|]. by apply (back_parked s p q); [apply _|..].
Qed.

Lemma exit_progress n ip s p T status :
  inv n ip (World s (Running p) T) -> p <> ip ->
  exists v s1 s2, exit_process status s = Done v s1 /\ scheduler_back p s1 = Done tt s2.
Proof.
  intros I Hip. destruct (inv_running _ _ _ _ _ I) as (Hqu & Hoff & q & Hq & Hst & R).
  pose proof (iv_init _ _ _ I) as Hi. cbn [w_state] in Hi.
  assert (Hpar : p_parent q <> Some p).
  { intros Hp. by destruct (to_parent _ _ _ _ _ (iv_table _ _ _ I) _ _ _ Hq Hp). }
  eexists _, _, _. split.
  - apply exit_process_ok; [done|by apply (quiet_free s L_wait)|congruence|done].
  - apply (back_parked _ p q); [apply _| |by apply exit_table_self].
    by apply quiet_table, quiet_touch; [apply _|].
Qed.

(** What [create_process] does when a running thread calls it. *)
Lemma create_cases n ip s p T fn free :
  inv n ip (World s (Running p) T) -> pool s free ->
  match first_unused (procs s) with
  | None => exists s', create_process fn s = Panic "create_process: alloc_process failed" s'
  | Some k =>
      if (length free <? 4)%nat then exists s', create_process fn s = Panic "alloc_page" s'
      else exists s', create_process fn s = Done (nextpid s) s'
        /\ exists tf pt, procs s' = alter (created (nextpid s) tf pt fn (Some p)) k (procs s)
  end.
Proof.
  intros I Hp. destruct (inv_running _ _ _ _ _ I) as (Hqu & Hoff & q & Hq & Hst & R).
  destruct (first_unused (procs s)) as [k|] eqn:Hk.
  - pose proof (inv_can_alloc _ _ _ _ _ _ _ I Hp Hk) as Hc. destruct (Nat.ltb_spec (length free) 4) as [Hl|Hl].
    + by apply (create_process_oom s free k).
    + destruct free as [|tf [|pt [|t1 [|t2 free]]]]; try (cbn in Hl; lia).
      destruct (create_process_ok s k tf pt t1 t2 free fn Hc) as (s1 & j & tbl & E & Es & _);
        [by apply (quiet_free s L_wait)|].
      exists s1. split; [exact E|]. exists tf, pt. rewrite (ru_cur _ _ _ R) in Es. by rewrite Es.
  - exists (touch s). unfold create_process.
    rewrite (bind_Done _ _ _ _ _ _ (alloc_process_full s (qu_hart _ Hqu) (qu_procs _ Hqu) Hk) eq_refl). done.
Qed.

(** ** A runnable slot stays runnable *)

(** The process table changed only in slots that were not runnable. *)
Lemma runnable_alter k p f (ps : list proc) q q' :
  ps !! k = Some q -> p_state q = RUNNABLE -> ps !! p = Some q' -> p_state q' <> RUNNABLE ->
  alter f p ps !! k = Some q.
Proof. intros Hk Hr Hp Hn. rewrite list_lookup_alter_ne; [done|]. intros ->. congruence. Qed.

Lemma runnable_other k p f (ps : list proc) q :
  ps !! k = Some q -> p <> k -> alter f p ps !! k = Some q.
Proof. intros Hk Hne. by rewrite list_lookup_alter_ne. Qed.

Lemma runnable_wait n ip s p T r s2 w' k :
  inv n ip (World s (Running p) T) -> wait_round (Some p) (locked_state L_wait s) = Done r s2 ->
  after_wait p s2 T r w' ->
  next_look w' = S p /\ (runnable k (World s (Running p) T) -> runnable k w').
Proof.
  intros I E Ha.
  destruct (wait_effect _ _ _ _ _ _ I E Ha) as [j z tbls ktbl free free' s' Hj Hp Hz _ Es _ _ _|_|i _ _ ->];
    (split; [done|]); intros (t & Ht & Hst); cbn [w_state] in Ht.
  - exists t. split; [|done]. cbn [w_state]. rewrite Es. apply (runnable_alter k j emptied (procs s) t z); congruence.
  - by exists t.
  - destruct (inv_running _ _ _ _ _ I) as (_ & _ & q & Hq & Hrun & _).
    exists t. split; [|done]. apply (runnable_other k p _ (procs s)); [done|congruence].
Qed.

Lemma runnable_exit n ip s p T status v s1 s2 k :
  inv n ip (World s (Running p) T) -> exit_process status s = Done v s1 ->
  scheduler_back p s1 = Done tt s2 ->
  runnable k (World s (Running p) T) -> runnable k (World s2 (Scheduling (S p)) T).
Proof.
  intros I E Hb (t & Ht & Hr). cbn [w_state] in *.
  destruct (exit_effect _ _ _ _ _ _ _ I E Hb) as (q & Hq & Hrun & Hip & Hpar & ->).
  assert (Hkp : p <> k) by (intros ->; simplify_eq; congruence).
  eexists. split.
  - apply runnable_other; [|done].
    apply (exit_table_lookup p (p_parent q) ip _ (procs s) k t); [apply (iv_table _ _ _ I)|done|done].
  - destruct (e1_state _ _ _ _ _ _ (exit1_ok p (p_parent q) ip (zombies_upto NPROC (Some p) (procs s)) t))
      as [->|[? _]]; [done|congruence].
Qed.

(** A look at a slot that is not [k], and [k] is one turn closer. *)
Lemma look_other n ip s i T k :
  inv n ip (World s (Scheduling i) T) -> (i < NPROC)%nat -> runnable k (World s (Scheduling i) T) ->
  ~ dispatches k (World s (Scheduling i) T) -> i <> k.
Proof.
  intros I Hi (t & Ht & Hst) Hd ->. cbn [w_state] in *. apply Hd. split_and!; [done|done|].
  cbn [w_state]. rewrite (scheduler_try_ok k t s) by first [apply (iv_quiet _ _ _ I)|done].
  rewrite bool_decide_eq_true_2 by done. eauto.
Qed.

Lemma turns_look i k s T w' :
  i <> k -> (i < NPROC)%nat -> (k < NPROC)%nat -> next_look w' = S i ->
  ((if looks (World s (Scheduling i) T) then 1 else 0) + turns_before k w')%nat
  = turns_before k (World s (Scheduling i) T).
Proof.
  intros Hne Hi Hk Hn. unfold looks, turns_before. rewrite Hn. cbn [next_look w_runner].
  rewrite (proj2 (Nat.ltb_lt i NPROC)) by done.
  destruct (Nat.leb_spec i k), (Nat.leb_spec (S i) k); lia.
Qed.

Lemma turns_running p k s T w' :
  next_look w' = S p ->
  ((if looks (World s (Running p) T) then 1 else 0) + turns_before k w')%nat
  = turns_before k (World s (Running p) T).
Proof. intros Hn. unfold looks, turns_before. by rewrite Hn. Qed.

Lemma turns_round k s T s' i :
  (k < NPROC)%nat -> i = 0%nat \/ i = NPROC ->
  ((if looks (World s (Scheduling NPROC) T) then 1 else 0) + turns_before k (World s' (Scheduling i) T))%nat
  = turns_before k (World s (Scheduling NPROC) T).
Proof.
  intros Hk Hi. unfold looks, turns_before. cbn [next_look w_runner]. rewrite Nat.ltb_irrefl.
  rewrite (proj2 (Nat.leb_gt NPROC k)) by done. destruct Hi as [->| ->].
  - cbn [Nat.leb]. lia.
  - rewrite (proj2 (Nat.leb_gt NPROC k)) by done. lia.
Qed.

(** The steps that change the process table, one lemma each. *)
Lemma runnable_start n ip i s s1 s2 fn T k :
  inv n ip (World s (Scheduling i) T) -> (i < NPROC)%nat -> i <> k ->
  scheduler_try i s = Done true s1 -> T !! i = Some RStart -> forkret s1 = Done fn s2 ->
  runnable k (World s (Scheduling i) T) -> runnable k (World s2 (Running i) (delete i T)).
Proof.
  intros I Hi Hne E HT E2 (t & Ht & Hst). cbn [w_state] in Ht.
  destruct (start_effect _ _ _ _ _ _ I Hi E E2) as (q & j & _ & _ & ->).
  exists t. split; [|done]. by apply (runnable_other k i _ (procs s)).
Qed.

Lemma runnable_resume n ip i v s s1 s2 T k :
  inv n ip (World s (Scheduling i) T) -> (i < NPROC)%nat -> i <> k ->
  scheduler_try i s = Done true s1 -> T !! i = Some (RYield v) -> yield_leave i v s1 = Done tt s2 ->
  runnable k (World s (Scheduling i) T) -> runnable k (World s2 (Running i) (delete i T)).
Proof.
  intros I Hi Hne E HT E2 (t & Ht & Hst). cbn [w_state] in Ht.
  destruct (resume_effect _ _ _ _ _ _ I Hi E HT E2) as (q & _ & _ & ->).
  exists t. split; [|done]. by apply (runnable_other k i _ (procs s)).
Qed.

Lemma runnable_rewait n ip i v s s1 s2 r s3 T w' k :
  inv n ip (World s (Scheduling i) T) -> (i < NPROC)%nat -> i <> k ->
  scheduler_try i s = Done true s1 -> T !! i = Some (RWait v) -> sleep_leave i v L_wait s1 = Done tt s2 ->
  wait_round (Some i) s2 = Done r s3 -> after_wait i s3 (delete i T) r w' ->
  runnable k (World s (Scheduling i) T) -> next_look w' = S i /\ runnable k w'.
Proof.
  intros I Hi Hne E HT E2 E3 Ha (t & Ht & Hst). cbn [w_state] in Ht.
  destruct (rewait_effect _ _ _ _ _ _ I Hi E HT E2) as (q & Hq & Hsq & ->).
  assert (I' : inv n ip (World (resumed i q (set_p_chan PNull) 0 s) (Running i) (delete i T))).
  { by apply inv_dispatch; [apply _|..]. }
  destruct (runnable_wait _ _ _ _ _ _ _ _ k I' E3 Ha) as [Hn Hk']. split; [done|].
  apply Hk'. exists t. split; [|done]. by apply (runnable_other k i _ (procs s)).
Qed.

Lemma runnable_create n ip p fn pid j s s1 T T' k :
  inv n ip (World s (Running p) T) -> nextpid s < 2 ^ 31 - 1 -> first_unused (procs s) = Some j ->
  create_process fn s = Done pid s1 ->
  runnable k (World s (Running p) T) -> runnable k (World s1 (Running p) T').
Proof.
  intros I Hnp Hj E (t & Ht & Hst). cbn [w_state] in Ht.
  destruct (create_effect _ _ _ _ _ _ _ I Hnp Hj E)
    as (q & tf & pt & t1 & t2 & free & tbls & ktbl & tbl & i & bs & Hq & Hu & _ & _ & Es & _).
  exists t. split; [|done]. cbn [w_state]. rewrite Es. apply (runnable_alter k j _ (procs s) t q); congruence.
Qed.

Lemma runnable_yield n ip p q v s s1 s2 T T' k :
  inv n ip (World s (Running p) T) -> yield_enter s = Done (q, v) s1 -> scheduler_back p s1 = Done tt s2 ->
  runnable k (World s (Running p) T) -> runnable k (World s2 (Scheduling (S p)) T').
Proof.
  intros I E Eb (t & Ht & Hst). cbn [w_state] in Ht.
  destruct (yield_effect _ _ _ _ _ _ _ I E Eb) as (r & Hr & Hrun & _ & ->).
  exists t. split; [|done]. apply (runnable_alter k p _ (procs s) t r); congruence.
Qed.

(** One step of a run during which slot [k] does not get the CPU. *)
Lemma step_runnable n ip w w' k :
  inv n ip w -> step w w' -> runnable k w -> ~ dispatches k w ->
  runnable k w' /\ ((if looks w then 1 else 0) + turns_before k w')%nat = turns_before k w.
Proof.
  intros I Hs Hr Hd. pose proof Hr as (t & Ht & Hst).
  assert (Hk : (k < NPROC)%nat).
  { rewrite <- (to_length _ _ _ _ _ (iv_table _ _ _ I)). by eapply lookup_lt_Some. }
  destruct Hs as [es Hs]. destruct Hs as
    [i s s1 T Hi E | s s1 T E | cause pc tval a b s s1 s2 s3 T E E2 E3 | i s s1 s2 fn T Hi E HT E2
    | i v s s1 s2 T Hi E HT E2 | i v s s1 s2 r s3 T w' Hi E HT E2 E3 Ha | p fn pid j s s1 T Hfn Hnp Hk' E
    | p q s s1 T E | p fmt ap bs s s1 T Hf Hb E
    | p q v s s1 s2 T E Eb | p status v s s1 s2 T E Eb | p q r s s1 s2 T w' E E2 Ha]; cbn [w_state] in Ht;
    try (pose proof (look_other _ _ _ _ _ _ I Hi Hr Hd) as Hne).
  - split; [|by apply turns_look]. rewrite (try_false _ _ _ _ _ _ I Hi E). by exists t.
  - split; [|apply turns_round; auto]. rewrite window_ok in E. injection E as <-. by exists t.
  - split; [|apply turns_round; auto].
    destruct (interrupt_view _ _ _ _ _ _ _ _ _ _ _ _ I E E2 E3) as [[Hp _ _ _ _ _ _ _] _].
    exists t. cbn [w_state]. by rewrite Hp.
  - split; [by eapply runnable_start|by apply turns_look].
  - split; [by eapply runnable_resume|by apply turns_look].
  - destruct (runnable_rewait _ _ _ _ _ _ _ _ _ _ _ k I Hi Hne E HT E2 E3 Ha Hr) as [Hn Hr'].
    split; [done|by apply turns_look].
  - split; [by eapply runnable_create|by apply turns_running].
  - split; [|by apply turns_running]. rewrite myproc_ok in E by apply (iv_quiet _ _ _ I).
    injection E as <- <-. by exists t.
  - split; [|by apply turns_running].
    destruct (inv_print _ _ _ _ _ _ _ _ _ I Hf Hb E) as [j ->]. by exists t.
  - split; [by eapply runnable_yield|by apply turns_running].
  - split; [by eapply runnable_exit|by apply turns_running].
  - rewrite (wait_begin_ok _ _ _ _ _ I) in E. injection E as <- <-.
    destruct (runnable_wait _ _ _ _ _ _ _ _ k I E2 Ha) as [Hn Hk']. split; [by apply Hk'|].
    by apply turns_running.
Qed.

Lemma waits_runnable n ip k c w w' :
  waits k c w w' -> inv n ip w -> runnable k w ->
  runnable k w' /\ (c + turns_before k w')%nat = turns_before k w.
Proof.
  intros Hw. induction Hw as [w|c w w1 w2 Hd Hs Hw IH]; intros I Hr; [done|].
  destruct (step_runnable n ip w w1 k I Hs Hr Hd) as [Hr1 Ht].
  destruct (IH (step_inv _ _ _ _ I Hs) Hr1) as [Hr2 Ht2]. split; [done|lia].
Qed.

(** If the threads that get the CPU give it back, [k] gets it. *)
Definition patience (k : nat) (w : world) : nat :=
  (3 * turns_before k w
   + match w_runner w with Running _ => 2 | Scheduling i => if (i =? NPROC)%nat then 1 else 0 end)%nat.

Lemma dispatches_eventually n ip k w :
  inv n ip w -> runnable k w -> exists w', rtc step w w' /\ dispatches k w'.
Proof.
  intros I Hr. remember (patience k w) as m eqn:Hm. revert w I Hr Hm.
  induction (lt_wf m) as [m _ IH]. intros w I Hr ->.
  pose proof Hr as (t & Ht & Hst).
  assert (Hk : (k < NPROC)%nat).
  { rewrite <- (to_length _ _ _ _ _ (iv_table _ _ _ I)). by eapply lookup_lt_Some. }
  assert (Hgo : forall w1, step w w1 -> ~ dispatches k w -> (patience k w1 < patience k w)%nat ->
    exists w', rtc step w w' /\ dispatches k w').
  { intros w1 Hs Hd Hlt. destruct (step_runnable n ip w w1 k I Hs Hr Hd) as [Hr1 _].
    destruct (IH _ Hlt w1 (step_inv _ _ _ _ I Hs) Hr1 eq_refl) as (w' & H1 & H2).
    exists w'. split; [by eapply rtc_l|done]. }
  destruct w as [s [i|p] T].
  - destruct (iv_runner _ _ _ I) as [Hi _]. destruct (decide (i = NPROC)) as [->|Hne].
    + apply (Hgo (World (sie_off s) (Scheduling 0) T)).
      * eexists; apply step_round, window_ok.
      * intros [[= ->] [? _]]. lia.
      * unfold patience, turns_before. cbn [w_runner next_look]. rewrite Nat.eqb_refl.
        rewrite (proj2 (Nat.leb_gt NPROC k)) by done.
        change (0 =? NPROC)%nat with false. change (0 <=? k)%nat with true. cbv beta match. lia.
    + assert (Hb : (i < NPROC)%nat) by lia. destruct (decide (i = k)) as [->|Hik].
      * exists (World s (Scheduling k) T). split; [done|]. split_and!; [done|done|]. cbn [w_state] in *.
        rewrite (scheduler_try_ok k t) by first [apply (iv_quiet _ _ _ I)|done].
        rewrite bool_decide_eq_true_2 by done. eauto.
      * destruct (look_progress _ _ _ _ _ I) as [w1 Hs].
        assert (Hd : ~ dispatches k (World s (Scheduling i) T)) by by intros [[= ->] _].
        apply (Hgo w1 Hs Hd). destruct (step_runnable n ip _ w1 k I Hs Hr Hd) as [_ Ht1].
        unfold looks in Ht1. cbn [w_runner] in Ht1. rewrite (proj2 (Nat.ltb_lt i NPROC)) in Ht1 by done.
        unfold patience. rewrite <- Ht1. repeat case_match; lia.
  - destruct (yield_progress _ _ _ _ _ I) as (v & s1 & s2 & E & Eb).
    apply (Hgo (World s2 (Scheduling (S p)) (<[p := RYield v]> T))).
    + by eexists; eapply step_yield.
    + by intros [[=] _].
    + unfold patience. change (turns_before k (World s2 _ _)) with (turns_before k (World s (Running p) T)).
      cbn [w_runner]. destruct (S p =? NPROC)%nat; lia.
Qed.

End live.
