(* ===== verification/Boot.v ===== *)
(** * Boot

    kernel/main.c up to the scheduler: the greetings, the page allocator, the
    kernel's page table, the process table, the init process and the first
    thread.  Interrupts taken on the way are left to BootIrq.v.

    The lemmas follow [main] up to [procinit], and [userinit]; BootInv.v puts
    them together. *)

From S2P Require Import Prelude Riscv Memory State Spinlock Kalloc Vm VmMap Sv39 VmKernel VmDestroy Uart Printf Csr Proc ProcTable ProcMem ProcExit Switch Trap Sched SchedMem SchedStep SchedInv ProcInit.

(** ** kernel/main.c *)

Section main.
Context `{L : Linker}.

(** Everything before the allocator. *)
Definition main_greet : M unit :=
  uartinit ;;
  trapinithart ;;
  uart_puts (str "Hello, OS!" ++ nl) ;;
  printf (str "Testinginteger:%d" ++ nl) [VInt 42] ;;
  printf (str "Testingnegative:%d" ++ nl) [VInt (-123)] ;;
  printf (str "Testingzero:%d" ++ nl) [VInt 0] ;;
  t ← r_time;
  w_stimecmp (u64 (t + 10000)) ;;
  printf (str "Testinghex:0x%x" ++ nl) [VInt 0xABC] ;;
  printf (str "Testingstring:%s" ++ nl) [VStr (Some (str "Hello"))] ;;
  printf (str "Testingchar:%c" ++ nl) [VInt 88] ;;
  printf (str "Testingpercent:%%" ++ nl) [] ;;
  printf (str "INT_MAX:%d" ++ nl) [VInt 2147483647] ;;
  printf (str "INT_MIN:%d" ++ nl) [VInt (-2147483648)] ;;
  printf (str "NULLstring:%s" ++ nl) [VStr None] ;;
  printf (str "Emptystring:%s") [VStr (Some [])] ;;
  clear_screen.

(** The same once paging is on. *)
Definition main_greet_paged : M unit :=
  trapinithart ;;
  uart_puts (str "Hello, OS!" ++ nl) ;;
  printf (str "Testinginteger:%d" ++ nl) [VInt 42] ;;
  printf (str "Testingnegative:%d" ++ nl) [VInt (-123)] ;;
  printf (str "Testingzero:%d" ++ nl) [VInt 0] ;;
  printf (str "Testinghex:0x%x" ++ nl) [VInt 0xABC] ;;
  printf (str "Testingstring:%s" ++ nl) [VStr (Some (str "Hello"))] ;;
  printf (str "Testingchar:%c" ++ nl) [VInt 88] ;;
  printf (str "Testingpercent:%%" ++ nl) [] ;;
  printf (str "INT_MAX:%d" ++ nl) [VInt 2147483647] ;;
  printf (str "INT_MIN:%d" ++ nl) [VInt (-2147483648)] ;;
  printf (str "NULLstring:%s" ++ nl) [VStr None] ;;
  printf (str "Emptystring:%s") [VStr (Some [])] ;;
  clear_screen.

(** [scheduler] up to its loop. *)
Definition scheduler_begin : M unit :=
  _ ← mycpu;
  modify (fun s => set_cpu0 (set_c_proc None (cpu0 s)) s).

(** [main] up to the scheduler's loop. *)
Definition main : M unit :=
  main_greet ;;
  pmm_init ;;
  kvminit ;;
  kvminithart ;;
  main_greet_paged ;;
  procinit ;;
  userinit ;;
  create_process sym_simple_task ;;
  scheduler_begin.

(** ** Output phases *)

Record ready (s : kstate) : Prop := {
  rd_hart : hart_ok s;
  rd_print : lock_free L_print s;
  rd_uart : uart_live s;
}.

(** The state without the device log, the saved enable bit and the control registers. *)
Definition core (s : kstate) : kstate :=
  set_io (Mmio (io_in (io s)) (io_time (io s)) (io_wait (io s)) 0 [])
    (set_csr demo_csrs (set_intena 0 s)).

(** Once the trap vector is set it stays so. *)
Definition keeps_vector (s s' : kstate) : Prop :=
  stvec (csr s) = sym_kernelvec -> stvec (csr s') = sym_kernelvec.

(** [bs] went out; only what [core] leaves out changed, the interrupt and
    paging state not even that. *)
Record talks (bs : list Z) (s s' : kstate) : Prop := {
  tk_core : core s' = core s;
  tk_tp : tp (csr s') = tp (csr s);
  tk_sstatus : sstatus (csr s') = sstatus (csr s);
  tk_satp : satp (csr s') = satp (csr s);
  tk_vector : keeps_vector s s';
  tk_line : line (io_log (io s')) = line (io_log (io s)) ++ bs;
  tk_ready : ready s';
}.

Class Talks {A} (m : M A) (bs : list Z) : Prop :=
  talks_run : forall s, ready s -> exists a s', m s = Done a s' /\ talks bs s s'.

(** What each phase prints. *)
Definition greeting : list Z :=
  crlf (str "Hello, OS!" ++ nl) ++ str "Testinginteger:42" ++ nl ++ str "Testingnegative:-123" ++ nl
  ++ str "Testingzero:0" ++ nl ++ str "Testinghex:0xabc" ++ nl ++ str "Testingstring:Hello" ++ nl
  ++ str "Testingchar:X" ++ nl ++ str "Testingpercent:%" ++ nl ++ str "INT_MAX:2147483647" ++ nl
  ++ str "INT_MIN:-2147483648" ++ nl ++ str "NULLstring:(null)" ++ nl ++ str "Emptystring:"
  ++ (27 :: str "[2J") ++ (27 :: str "[H").

Lemma keeps_eq s s' : stvec (csr s') = stvec (csr s) -> keeps_vector s s'.
Proof. unfold keeps_vector. congruence. Qed.

#[local] Hint Extern 0 (keeps_vector _ _) => exact (fun H => H) : core.

Lemma talks_refl s : ready s -> talks [] s s.
Proof. intros H. split; try done. by rewrite app_nil_r. Qed.

Lemma talks_trans b1 b2 s1 s2 s3 : talks b1 s1 s2 -> talks b2 s2 s3 -> talks (b1 ++ b2) s1 s3.
Proof.
  intros [A1 A2 A3 A4 Av A5 A6] [B1 B2 B3 B4 Bv B5 B6].
  split; try congruence; [intros H; by apply Bv, Av|]. by rewrite B5, A5, app_assoc.
Qed.

#[export] Instance talks_ret {A} (a : A) : Talks (mret a) [].
Proof. intros s H. exists a, s. split; [done|by apply talks_refl]. Qed.

#[export] Instance talks_bind {A B} (m : M A) (f : A -> M B) b1 b2 :
  Talks m b1 -> (forall a, Talks (f a) b2) -> Talks (x ← m; f x) (b1 ++ b2).
Proof.
  intros Hm Hf s Hs. destruct (Hm s Hs) as (a & s1 & E1 & T1).
  destruct (Hf a s1 (tk_ready _ _ _ T1)) as (b & s2 & E2 & T2).
  exists b, s2. split; [by mstep; [exact E1|]|]. by eapply talks_trans.
Qed.

Lemma talks_csr f s :
  ready s -> tp (f (csr s)) = tp (csr s) -> sstatus (f (csr s)) = sstatus (csr s) ->
  satp (f (csr s)) = satp (csr s) -> keeps_vector s (set_csr (f (csr s)) s) ->
  talks [] s (set_csr (f (csr s)) s).
Proof.
  intros [H1 H2 H3] E1 E2 E3 E4. split; try done; [by rewrite app_nil_r|]. split; [|done|done].
  by apply (hart_ok_tp s).
Qed.

#[export] Instance talks_trapinithart : Talks trapinithart [].
Proof. intros s H. eexists tt, _. split; [done|]. by apply (talks_csr (set_stvec sym_kernelvec)). Qed.

#[export] Instance talks_stimecmp x : Talks (w_stimecmp x) [].
Proof. intros s H. eexists tt, _. split; [done|]. by apply (talks_csr (set_stimecmp x)). Qed.

#[export] Instance talks_time : Talks r_time [].
Proof.
  intros s [H1 H2 H3]. eexists _, _. split; [done|]. split; try done; [by rewrite app_nil_r|].
  split; [|done|done]. by apply (hart_ok_same s).
Qed.

Lemma talks_sent bs s s' : ready s -> sent bs (touch s) s' -> talks bs s s'.
Proof.
  intros [H1 H2 H3] Hs. pose proof (sent_log _ _ _ Hs) as Hl. destruct Hs as [n ->].
  split; try done. split; [|done|done]. apply (hart_ok_same (touch s)); [done|done|by apply hart_ok_touch].
Qed.

Lemma talks_printf fmt ap bs :
  Forall is_char fmt -> formatted fmt ap = Some bs -> Talks (printf fmt ap) bs.
Proof.
  intros Hf Hb s Hs. destruct (printf_ok fmt ap bs s) as (s' & E & S); try apply Hs; try done.
  exists 0, s'. split; [done|]. by apply talks_sent.
Qed.

#[export] Instance talks_puts cs : Talks (uart_puts cs) (crlf cs).
Proof.
  intros s [H1 H2 H3]. destruct (uart_puts_emits cs s H3) as (s' & E & S). exists tt, s'. split; [done|].
  pose proof (sent_log _ _ _ S) as Hl. destruct S as [n ->]. split; try done. split; [|done|done].
  by apply (hart_ok_same s).
Qed.

Lemma talks_eq {A} (m : M A) b1 b2 : Talks m b1 -> b1 = b2 -> Talks m b2.
Proof. by intros ? <-. Qed.

End main.

(** A [printf] whose text the specification computes. *)
Ltac talk_printf :=
  eapply talks_printf; [by apply (bool_decide_unpack _)|vm_compute; reflexivity].

Ltac talk :=
  repeat first
    [ apply talks_ret | apply talks_time | apply talks_stimecmp | apply talks_trapinithart
    | apply talks_puts | talk_printf | eapply talks_bind; [|intros ?] ].

Section phases.
Context `{L : Linker}.

#[export] Instance talks_clear_screen : Talks clear_screen ((27 :: str "[2J") ++ (27 :: str "[H")).
Proof. unfold clear_screen. eapply talks_eq; [talk|]. by vm_compute. Qed.

#[export] Instance talks_greet_paged : Talks main_greet_paged greeting.
Proof.
  unfold main_greet_paged. eapply talks_eq; [talk; apply talks_clear_screen|]. by vm_compute.
Qed.

(** [uartinit] makes the print lock. *)
Lemma uartinit_ok s :
  hart_ok s -> uart_live s ->
  exists s', uartinit s = Done tt s' /\ ready s' /\ line (io_log (io s')) = line (io_log (io s)) ++ [3]
    /\ core s' = core (set_printlock (Spinlock 0 "printlock" None) s) /\ csr s' = csr s.
Proof.
  intros Hh Hu. eexists. split; [reflexivity|]. split_and!; try done.
  - split; [by apply (hart_ok_same s)|done|done].
  - cbn [set_lock]. ksimpl. rewrite <- !app_assoc. unfold line. by rewrite omap_app.
Qed.

#[export] Instance talks_greet_rest :
  Talks (trapinithart ;;
    uart_puts (str "Hello, OS!" ++ nl) ;;
    printf (str "Testinginteger:%d" ++ nl) [VInt 42] ;;
    printf (str "Testingnegative:%d" ++ nl) [VInt (-123)] ;;
    printf (str "Testingzero:%d" ++ nl) [VInt 0] ;;
    t ← r_time;
    w_stimecmp (u64 (t + 10000)) ;;
    printf (str "Testinghex:0x%x" ++ nl) [VInt 0xABC] ;;
    printf (str "Testingstring:%s" ++ nl) [VStr (Some (str "Hello"))] ;;
    printf (str "Testingchar:%c" ++ nl) [VInt 88] ;;
    printf (str "Testingpercent:%%" ++ nl) [] ;;
    printf (str "INT_MAX:%d" ++ nl) [VInt 2147483647] ;;
    printf (str "INT_MIN:%d" ++ nl) [VInt (-2147483648)] ;;
    printf (str "NULLstring:%s" ++ nl) [VStr None] ;;
    printf (str "Emptystring:%s") [VStr (Some [])] ;;
    clear_screen) greeting.
Proof. eapply talks_eq; [talk; apply talks_clear_screen|]. by vm_compute. Qed.

Lemma main_greet_ok s :
  hart_ok s -> uart_live s ->
  exists s', main_greet s = Done tt s' /\ ready s'
    /\ line (io_log (io s')) = line (io_log (io s)) ++ 3 :: greeting
    /\ core s' = core (set_printlock (Spinlock 0 "printlock" None) s)
    /\ tp (csr s') = tp (csr s) /\ sstatus (csr s') = sstatus (csr s).
Proof.
  intros Hh Hu. destruct (uartinit_ok s Hh Hu) as (s1 & E1 & R1 & L1 & C1 & Cs1).
  destruct (talks_greet_rest s1 R1) as ([] & s2 & E2 & [T1 T2 T3 T4 Tv T5 T6]).
  exists s2. split; [|split_and!; try congruence].
  - unfold main_greet. mstep; [exact E1|]. exact E2.
  - by rewrite T5, L1, <- app_assoc.
Qed.

(** ** userinit *)

#[export] Instance independent_initproc l v : Independent l (set_initproc v).
Proof. split; intros; by destruct l. Qed.

Definition init_message (pid : Z) : list Z :=
  str "userinit: created init process pid " ++ render 10 true pid ++ nl.

Lemma set_initproc_patch v m fl n bs np F s :
  set_initproc v (patch m fl n bs np F s) = patch m fl n bs np F (set_initproc v s).
Proof. done. Qed.

Lemma patch_io_step m fl n1 b1 n2 b2 np F s :
  io_step n2 ((fun b => (UART0 + THR, b)) <$> b2) (patch m fl n1 b1 np F s)
  = patch m fl (n1 + n2) (b1 ++ b2) np F s.
Proof.
  unfold patch.
  change (io_step n2 ?w (set_mem m (set_freelist fl (set_nextpid np ?x))))
    with (set_mem m (set_freelist fl (set_nextpid np (io_step n2 w x)))).
  by rewrite io_step_step, fmap_app.
Qed.

End phases.

Section boot.
Context {L : Linker} {LO : LinkerOk}.

Lemma printf_init pid s :
  hart_ok s -> lock_free L_print s -> uart_live s -> - 2 ^ 31 <= pid < 2 ^ 31 ->
  exists n, printf (str "userinit: created init process pid %d" ++ nl) [VInt pid] s
    = Done 0 (io_step n ((fun b => (UART0 + THR, b)) <$> init_message pid) (touch s)).
Proof.
  intros Hh Hlk Hl Hp.
  destruct (printf_ok (str "userinit: created init process pid %d" ++ nl) [VInt pid]
    (init_message pid) s) as (s' & E & n & ->); try done.
  - by apply (bool_decide_unpack _).
  - unfold init_message. rewrite <- (i32_small pid) at 2 by done.
    apply (formatted_int1 (str "userinit: created init process pid ") nl); by apply (bool_decide_unpack _).
  - by exists n.
Qed.

Lemma userinit_ok s k tf pt t1 t2 free :
  can_alloc s (tf :: pt :: t1 :: t2 :: free) k ->
  exists s' n tbl, userinit s = Done tt s'
    /\ s' = patch (mem s') (freelist s') n (new_message (nextpid s) ++ init_message (nextpid s))
              (i32 (nextpid s + 1)) (alter (created (nextpid s) tf pt sym_init_task None) k)
              (set_initproc (Some k) (touch s))
    /\ user_space s' pt tbl free /\ page_ok tf /\ (tf ∉ free)
    /\ (forall path q, tbl !! path = Some q -> q <> tf)
    /\ only_owned [tf] tbl s s' /\ (map_to_list tbl).*2 ≡ₚ [pt; t1; t2].
Proof.
  intros Hc. destruct (alloc_process_ok s k tf pt t1 t2 free Hc)
    as (s1 & n & tbl & E & Es & U & H1 & H2 & H3 & H4 & H5).
  destruct Hc as [Hh Hd Hpl Hpid Hpr Hl Hn Hpool Hk].
  pose proof (slot_bound s k Hpl Hk) as Hkb. destruct (first_unused_Some _ _ Hk) as (p & Hp & _ & _).
  remember (mem s1) as m1 eqn:Em. remember (freelist s1) as f1 eqn:Ef.
  set (pid := nextpid s) in *.
  assert (Hex : lock_exists (L_proc k) s) by (apply lock_exists_proc; [apply Hpl|done]).
  assert (Hfk : lock_free (L_proc k) s) by (apply Hpl; [done|tauto]).
  set (u := fun r => set_initproc (Some k) (patch m1 f1 n (new_message pid) (i32 (pid + 1))
    (alter (created pid tf pt sym_init_task None) k) r)).
  assert (Iu : Independent (L_proc k) u) by (unfold u; apply _).
  destruct (printf_init pid (u (touch s))) as [n2 E2]; try done.
  { by apply (hart_ok_same (touch s)); [..|apply hart_ok_touch]. }
  assert (Et : touch (u (touch s)) = u (touch s)) by (rewrite <- (touch_touch s) at 2; done).
  rewrite Et in E2.
  set (s2 := io_step n2 _ (u (touch s))) in E2.
  exists s2, (n + n2)%nat, tbl. split_and!; try done.
  - unfold userinit. mstep; [exact E|]. mrun. cbn [deref]. mrun.
    do 3 (mstep; [apply upd_ok|]).
    assert (Eu : table (alter (set_p_state RUNNABLE) k)
      (table (alter (fun pr => set_p_context (set_ra sym_forkret (p_context pr)) pr) k)
        (table (alter (fun pr => set_p_context (set_s0 sym_init_task (p_context pr)) pr) k)
          (set_initproc (Some k) s1))) = u (locked_state (L_proc k) s)).
    { rewrite Es, set_initproc_patch, !table_patch. unfold u. rewrite set_initproc_patch. apply patch_ext.
      rewrite !list_alter_alter_eq. reflexivity. }
    rewrite Eu. mstep; [by apply (release_section (L_proc k) u)|].
    mstep. { apply get_proc_ok. apply (lookup_alter_slot s k p). exact Hp. }
    mstep; [exact E2|]. done.
  - unfold s2, u. rewrite set_initproc_patch, patch_io_step. done.
  - destruct U as [I6 L6]. split.
    + apply (vm_inv_move s1); [exact I6|exact Em|exact Ef| |].
      * apply (hart_ok_same (touch s)); [done|done|by apply hart_ok_touch].
      * by apply (pool_lock s (tf :: pt :: t1 :: t2 :: free)).
    + intros va. rewrite <- L6, <- Em. done.
  - intros a Ha. rewrite <- H4 by done. by rewrite <- Em.
Qed.

(** ** The boot sequence *)

(** The machine when [main] starts: globals zero but for their initialisers,
    interrupt nesting closed, and a UART that answers. *)
Record powered (s : kstate) : Prop := {
  pw_hart : hart_ok s;
  pw_depth : noff s = 0;
  pw_cur : c_proc (cpu0 s) = None;
  pw_procs : procs s = replicate NPROC zero_proc;
  pw_freelist : freelist s = 0;
  pw_nextpid : nextpid s = 1;
  pw_init : initproc s = None;
  pw_first : forkret_first s = 1;
  pw_pid : lock_free L_pid s;
  pw_ticks : lock_free L_ticks s;
  pw_uart : uart_live s;
}.

(** What the phases before the processes keep. *)
Record fresh (s : kstate) : Prop := {
  fr_hart : hart_ok s;
  fr_depth : noff s = 0;
  fr_cur : c_proc (cpu0 s) = None;
  fr_nextpid : nextpid s = 1;
  fr_first : forkret_first s = 1;
  fr_pid : lock_free L_pid s;
  fr_ticks : lock_free L_ticks s;
  fr_print : lock_free L_print s;
  fr_uart : uart_live s;
}.

Lemma fresh_ext s s' :
  fresh s -> hart_ok s' -> noff s' = noff s -> c_proc (cpu0 s') = c_proc (cpu0 s) ->
  nextpid s' = nextpid s -> forkret_first s' = forkret_first s ->
  pid_lock s' = pid_lock s -> tickslock s' = tickslock s ->
  printlock s' = printlock s -> io_in (io s') = io_in (io s) -> io_wait (io s') = io_wait (io s) -> fresh s'.
Proof.
  intros [A1 A2 A3 A4 A9 A5 A6 A7 A8] Hh E1 E2 E3 E9 E4 E5 E6 E7 E8.
  split; try congruence; unfold lock_free, get_lock, uart_live in *; rewrite ?E4, ?E5, ?E6, ?E7, ?E8; done.
Qed.

Lemma fresh_core s s' : fresh s -> hart_ok s' -> core s' = core s -> fresh s'.
Proof.
  intros F Hh E. apply (fresh_ext s); try done.
  - by apply (f_equal (fun s => noff s)) in E.
  - by apply (f_equal (fun s => c_proc (cpu0 s))) in E.
  - by apply (f_equal nextpid) in E.
  - by apply (f_equal forkret_first) in E.
  - by apply (f_equal pid_lock) in E.
  - by apply (f_equal tickslock) in E.
  - by apply (f_equal printlock) in E.
  - by apply (f_equal (fun s => io_in (io s))) in E.
  - by apply (f_equal (fun s => io_wait (io s))) in E.
Qed.

Lemma fresh_erase s s' : fresh s -> hart_ok s' -> erase s' = erase s -> fresh s'.
Proof.
  intros F Hh E. apply (fresh_ext s); try done.
  - by apply (f_equal (fun s => noff s)) in E.
  - by apply (f_equal (fun s => c_proc (cpu0 s))) in E.
  - by apply (f_equal nextpid) in E.
  - by apply (f_equal forkret_first) in E.
  - by apply (f_equal pid_lock) in E.
  - by apply (f_equal tickslock) in E.
  - by apply (f_equal printlock) in E.
  - by apply (f_equal (fun s => io_in (io s))) in E.
  - by apply (f_equal (fun s => io_wait (io s))) in E.
Qed.

(** Pages that are enough to boot: tables, stacks and two processes. *)
Definition boot_pages : nat := kvminit_pages + NPROC + 2 + 8.

(** The table [procinit] leaves, all slots unused. *)
Definition empty_table : list proc := init_upto NPROC (replicate NPROC zero_proc).

(** What holds once the second greeting is out: memory is managed, paging is on. *)
Record paged (s s' : kstate) (tbl : gmap (list Z) Z) (free : list Z) : Prop := {
  pg_fresh : fresh s';
  pg_vm : vm_inv s' (kernel_pagetable s') tbl free;
  pg_leaf : forall va, leaf_pte (mem s') tbl va = kernel_leaf va;
  pg_satp : satp (csr s') = MAKE_SATP (kernel_pagetable s');
  pg_pages : (map_to_list tbl).*2 ++ free ≡ₚ all_pages;
  pg_free : (n_pages <= length free + kvminit_pages)%nat;
  pg_procs : procs s' = procs s;
  pg_line : line (io_log (io s')) = line (io_log (io s)) ++ 3 :: greeting ++ greeting;
}.

(** [pmm_init]: every page of RAM is free. *)
Lemma pmm_phase s :
  fresh s -> freelist s = 0 ->
  exists s', pmm_init s = Done tt s' /\ fresh s' /\ pool s' (reverse (pages_from first_page n_pages))
    /\ procs s' = procs s /\ line (io_log (io s')) = line (io_log (io s)) /\ keeps_vector s s'.
Proof.
  intros F Hf. destruct (pmm_init_ok s (fr_hart _ F) Hf) as (s2 & E2 & Pool2 & X2).
  exists s2. split; [done|]. split_and!; [|done| | |].
  - apply (fresh_erase (set_kmem_lock (Spinlock 0 "kmem" None) s)); [|apply Pool2|exact X2].
    apply (fresh_ext s); try done. by apply (hart_ok_same s), F.
  - by apply (f_equal procs) in X2.
  - apply (f_equal (fun s => line (io_log (io s)))) in X2. exact X2.
  - apply (f_equal (fun s => stvec (csr s))) in X2. by apply keeps_eq.
Qed.

(** [kvminit]: the kernel's page table is built. *)
Lemma kvminit_phase s :
  fresh s -> pool s (reverse (pages_from first_page n_pages)) -> (kvminit_pages <= n_pages)%nat ->
  exists s' tbl free, kvminit s = Done tt s' /\ fresh s' /\ kernel_space s' tbl free
    /\ (map_to_list tbl).*2 ++ free ≡ₚ all_pages /\ (n_pages <= length free + kvminit_pages)%nat
    /\ procs s' = procs s /\ line (io_log (io s')) = line (io_log (io s)) /\ keeps_vector s s'.
Proof.
  intros F Pool Hpages. set (l := reverse (pages_from first_page n_pages)) in *.
  assert (Hl : length l = n_pages) by (unfold l; by rewrite length_reverse, pages_from_length).
  destruct l as [|root free] eqn:El; [cbn in Hl; unfold kvminit_pages in *; lia|].
  destruct (kvminit_ok s root free Pool) as (s3 & tbl & k & E3 & Hroot & Hk & K3 & X3 & P3); [lia|].
  exists s3, tbl, (drop k (root :: free)). split_and!; [done| |done| | | | |].
  - apply (fresh_erase (set_kernel_pagetable root s)); [|apply (pool_hart s3 (drop k (root :: free))), K3|apply X3].
    apply (fresh_ext s); try done. by apply (hart_ok_same s), F.
  - rewrite P3, <- El. apply reverse_Permutation.
  - rewrite length_drop. lia.
  - by rewrite (frame_procs _ _ X3).
  - destruct X3 as [X3 _]. apply (f_equal (fun s => line (io_log (io s)))) in X3. exact X3.
  - destruct X3 as [X3 _]. apply (f_equal (fun s => stvec (csr s))) in X3. by apply keeps_eq.
Qed.

(** [kvminithart]: paging is on. *)
Lemma kvminithart_phase s tbl free :
  fresh s -> kernel_space s tbl free ->
  exists s', kvminithart s = Done tt s' /\ fresh s' /\ kernel_space s' tbl free
    /\ s' = set_csr (set_satp (MAKE_SATP (kernel_pagetable s)) (csr s)) s.
Proof.
  intros F [I K]. eexists. split; [reflexivity|].
  assert (Hh : hart_ok (set_csr (set_satp (MAKE_SATP (kernel_pagetable s)) (csr s)) s)).
  { apply (hart_ok_tp s); [done..|apply F]. }
  split; [by apply (fresh_ext s)|]. split; [|done]. split; [|exact K].
  apply (vm_inv_move s); [exact I|done|done|exact Hh|apply (pool_lock s free), I].
Qed.

Lemma main_pages s :
  powered s -> exists s', (main_greet ;; pmm_init) s = Done tt s' /\ fresh s'
    /\ pool s' (reverse (pages_from first_page n_pages)) /\ procs s' = procs s
    /\ line (io_log (io s')) = line (io_log (io s)) ++ 3 :: greeting.
Proof.
  intros [P1 P2 P3 P4 P5 P6 P7 P11 P8 P9 P10].
  destruct (main_greet_ok s P1 P10) as (s1 & E1 & R1 & L1 & C1 & T1 & S1).
  assert (F1 : fresh s1).
  { apply (fresh_core (set_printlock (Spinlock 0 "printlock" None) s)); [|apply R1|exact C1].
    split; try done. by apply (hart_ok_same s). }
  assert (Hf1 : freelist s1 = 0) by (apply (f_equal freelist) in C1; by rewrite <- P5).
  destruct (pmm_phase s1 F1 Hf1) as (s2 & E2 & F2 & Pool2 & Hp2 & L2 & _).
  exists s2. split; [by mstep; [exact E1|]|]. split_and!; [done|done| |by rewrite L2].
  rewrite Hp2. by apply (f_equal procs) in C1.
Qed.

(** Talking keeps the memory and the page table. *)
Lemma talks_kernel_space bs s s' tbl free :
  talks bs s s' -> kernel_space s tbl free -> kernel_space s' tbl free.
Proof.
  intros [T1 _ _ _ _ _ T6] [I Hl].
  assert (Em : mem s' = mem s) by (by apply (f_equal mem) in T1).
  assert (Ek : kernel_pagetable s' = kernel_pagetable s) by (by apply (f_equal kernel_pagetable) in T1).
  split; [|intros va; by rewrite Em]. rewrite Ek.
  apply (vm_inv_move s); [done|done|by apply (f_equal freelist) in T1|apply T6|].
  assert (El : kmem_lock s' = kmem_lock s) by (by apply (f_equal kmem_lock) in T1).
  unfold lock_free, get_lock. rewrite El. apply (pool_lock s free), I.
Qed.

Lemma main_paged s :
  powered s -> (kvminit_pages <= n_pages)%nat ->
  exists s' tbl free, (main_greet ;; pmm_init ;; kvminit ;; kvminithart ;; main_greet_paged) s = Done tt s'
    /\ paged s s' tbl free.
Proof.
  intros P Hpages. destruct (main_pages s P) as (s2 & E2 & F2 & Pool2 & Hp2 & L2).
  destruct (kvminit_phase s2 F2 Pool2 Hpages) as (s3 & tbl & free3 & E3 & F3 & K3 & Hall3 & Hf3 & Hp3 & L3 & _).
  destruct (kvminithart_phase s3 tbl free3 F3 K3) as (s4 & E4 & F4 & K4 & Es4).
  destruct (talks_greet_paged s4) as ([] & s5 & E5 & T5); [split; apply F4|].
  pose proof (talks_kernel_space _ _ _ _ _ T5 K4) as [I5 HL5]. destruct T5 as [T51 T52 T53 T54 T5v T55 T56].
  exists s5, tbl, free3. split; [|split; [|done|done| |done|done| |]].
  - assert (Et : (kvminit ;; kvminithart ;; main_greet_paged) s2 = Done tt s5).
    { mstep; [exact E3|]. mstep; [exact E4|]. exact E5. }
    rewrite <- Et. apply bind_Done_inv in E2 as (r & s1 & E1 & E2). mstep; [exact E1|]. by mstep; [exact E2|].
  - by apply (fresh_core s4); [done|apply T56|done].
  - apply (f_equal kernel_pagetable) in T51. change (kernel_pagetable s5 = kernel_pagetable s4) in T51.
    rewrite T54, T51. by rewrite Es4.
  - rewrite <- Hp2, <- Hp3. transitivity (procs s4); [by apply (f_equal procs) in T51|by rewrite Es4].
  - rewrite T55, Es4. change (io (set_csr _ s3)) with (io s3). rewrite L3, L2. by rewrite <- app_assoc.
Qed.

(** A fresh kernel with an empty table and all its locks made is quiet. *)
Lemma fresh_quiet s free :
  fresh s -> pool s free -> procs s = empty_table -> wait_lock s = Spinlock 0 "wait_lock" None -> quiet s.
Proof.
  intros F Hp U W. split; [apply F|apply F| | |apply F].
  - split; [rewrite U; by vm_compute|]. intros i Hi _. unfold lock_free, get_lock. rewrite U.
    assert (Hz : empty_table !! i = Some (init_slot i zero_proc)).
    { unfold empty_table, init_upto. rewrite list_lookup_imap, lookup_replicate_2 by done.
      cbn [fmap option_fmap option_map]. by rewrite (proj2 (Nat.ltb_lt i NPROC)). }
    by rewrite Hz.
  - intros l' Hg. destruct l' as [| | | | |i]; [apply (pool_lock s free), Hp|apply F| |apply F..|by destruct (Hg i)].
    unfold lock_free, get_lock. by rewrite W.
Qed.

(** [procinit]: the stacks are mapped and the table is empty. *)
Lemma procinit_phase s tbl free :
  fresh s -> kernel_space s tbl free -> satp (csr s) = MAKE_SATP (kernel_pagetable s) ->
  procs s = replicate NPROC zero_proc -> (NPROC + 2 <= length free)%nat ->
  exists s' tbl' free' stacks, procinit s = Done tt s' /\ fresh s' /\ quiet s' /\ procs s' = empty_table
    /\ stacked s' tbl' free' stacks /\ (length free <= length free' + NPROC + 2)%nat
    /\ (map_to_list tbl').*2 ++ free' ++ stacks ≡ₚ (map_to_list tbl).*2 ++ free
    /\ line (io_log (io s')) = line (io_log (io s)) /\ keeps_vector s s'.
Proof.
  intros F K Hsatp Hp Hf. pose proof (missing_le tbl (KSTACK 0)) as Hm.
  destruct (procinit_stacked s tbl free K Hf Hsatp)
    as (s6 & tbl6 & free6 & stacks & E6 & St & [U1 U2 U3 U4 U5 U6 U7 U8]).
  pose proof (st_length _ _ _ _ St) as Hst.
  rewrite Hst in U3. change (procs (set_lock L_wait _ s)) with (procs s) in U3.
  rewrite Hp in U3. fold empty_table in U3. destruct U4 as [U4 _].
  assert (F6 : fresh s6).
  { apply (fresh_erase (set_procs (procs s6) (set_lock L_wait (Spinlock 0 "wait_lock" None) s)));
      [|apply (vm_pool _ _ _ _ U1)|exact U4]. apply (fresh_ext s); try done. by apply (hart_ok_same s), F. }
  exists s6, tbl6, free6, stacks. split_and!; try done.
  - apply (fresh_quiet s6 free6); try done; [apply U1|by apply (f_equal wait_lock) in U4].
  - lia.
  - apply (f_equal (fun s => line (io_log (io s)))) in U4. exact U4.
  - apply (f_equal (fun s => stvec (csr s))) in U4. by apply keeps_eq.
Qed.

(** The first half: memory is managed, paging is on, the stacks are mapped. *)
Lemma main_memory s :
  powered s -> (boot_pages <= n_pages)%nat ->
  exists s' tbl free stacks, (main_greet ;; pmm_init ;; kvminit ;; kvminithart ;; main_greet_paged ;; procinit) s
      = Done tt s'
    /\ fresh s' /\ quiet s' /\ procs s' = empty_table
    /\ (n_pages + 8 <= length free + boot_pages)%nat
    /\ stacked s' tbl free stacks /\ (map_to_list tbl).*2 ++ free ++ stacks ≡ₚ all_pages
    /\ line (io_log (io s')) = line (io_log (io s)) ++ 3 :: greeting ++ greeting.
Proof.
  intros P Hpages. unfold boot_pages in Hpages |- *.
  destruct (main_paged s P) as (s5 & tbl & free & E5 & [F5 I5 K5 Hsp5 Hall5 Hf5 Hp5 L5]); [lia|].
  destruct (procinit_phase s5 tbl free F5) as (s6 & tbl6 & free6 & stacks & E6 & F6 & Q6 & Hp6 & I6 & Hf6 & Hall6 & L6 & _);
    [by split|done|by rewrite Hp5; apply P|unfold NPROC in *; lia|].
  exists s6, tbl6, free6, stacks. split_and!; try done.
  - do 4 (apply bind_Done_inv in E5 as (? & ? & ? & E5)). do 5 (mstep; [eassumption|]). exact E6.
  - lia.
  - by rewrite Hall6.
  - by rewrite L6.
Qed.

End boot.
