(* ===== verification/BootInv.v ===== *)
(** * The boot theorem

    [main] reaches the scheduler's loop, in a state that satisfies the system
    invariant of SchedInv.v: so whatever the threads do from there, everything
    that invariant implies holds. *)

From S2P Require Import Prelude Riscv Memory State Spinlock Kalloc Vm VmMap Sv39 VmKernel VmDestroy Uart Printf Csr Proc ProcTable ProcMem ProcExit Switch Trap Sched SchedMem SchedStep SchedInv ProcInit Boot.

Section boot_inv.
Context {L : Linker} {LO : LinkerOk}.

(** ** The first processes *)

Lemma empty_lookup j q : empty_table !! j = Some q -> (j < NPROC)%nat /\ q = init_slot j zero_proc.
Proof.
  unfold empty_table, init_upto. rewrite list_lookup_imap. intros (q0 & Hq0 & ->)%fmap_Some.
  apply lookup_replicate in Hq0 as [-> Hj]. split; [done|]. by rewrite (proj2 (Nat.ltb_lt j NPROC)).
Qed.

Lemma empty_slot j : (j < NPROC)%nat -> empty_table !! j = Some (init_slot j zero_proc).
Proof.
  intros Hj. unfold empty_table, init_upto. rewrite list_lookup_imap, lookup_replicate_2 by done.
  cbn [fmap option_fmap option_map]. by rewrite (proj2 (Nat.ltb_lt j NPROC)).
Qed.

(** The process table after [userinit] and the first [create_process]. *)
Definition boot_table (tf0 pt0 tf1 pt1 : Z) : list proc :=
  alter (created 2 tf1 pt1 sym_simple_task None) 1%nat
    (alter (created 1 tf0 pt0 sym_init_task None) 0%nat empty_table).

Definition boot_threads : gmap nat resume_point := <[1%nat := RStart]> {[0%nat := RStart]}.

Lemma boot_lookup tf0 pt0 tf1 pt1 j q :
  boot_table tf0 pt0 tf1 pt1 !! j = Some q ->
  j = 0%nat /\ q = created 1 tf0 pt0 sym_init_task None (init_slot 0 zero_proc)
  \/ j = 1%nat /\ q = created 2 tf1 pt1 sym_simple_task None (init_slot 1 zero_proc)
  \/ (2 <= j)%nat /\ q = init_slot j zero_proc.
Proof.
  unfold boot_table. rewrite !alter_lookup. repeat case_decide; subst; try lia; intros Hq.
  - apply fmap_Some in Hq as (q0 & Hq0 & ->). apply empty_lookup in Hq0 as [_ ->]. auto.
  - apply fmap_Some in Hq as (q0 & Hq0 & ->). apply empty_lookup in Hq0 as [_ ->]. auto.
  - apply empty_lookup in Hq as [_ ->]. right. right. split; [lia|done].
Qed.

Lemma boot_table_ok tf0 pt0 tf1 pt1 :
  table_ok (Scheduling NPROC) boot_threads 0 3 (boot_table tf0 pt0 tf1 pt1).
Proof.
  pose proof init_task_text as Hi. pose proof simple_task_text as Hs. unfold KERNBASE in *.
  split.
  - unfold boot_table. rewrite !length_alter. by vm_compute.
  - intros j q [[-> ->]|[[-> ->]|[Hj ->]]]%boot_lookup; unfold slot_ok; cbn.
    + exists RStart. split; [done|]. cbn. split; [done|lia].
    + exists RStart. split; [done|]. cbn. split; [done|lia].
    + split; [|done]. unfold boot_threads. rewrite lookup_insert_ne, lookup_singleton_ne by lia. done.
  - intros j q i [[-> ->]|[[-> ->]|[Hj ->]]]%boot_lookup; by cbn.
  - split; [|by intros q [[_ ->]|[[? ->]|[? ->]]]%boot_lookup].
    eexists. split; [unfold boot_table; rewrite list_lookup_alter_ne by done;
      rewrite list_lookup_alter_eq, (empty_slot 0) by (unfold NPROC; lia); reflexivity|]. done.
  - intros j q [[-> ->]|[[-> ->]|[Hj ->]]]%boot_lookup; by cbn.
  - intros j q i r [[-> ->]|[[-> ->]|[Hj ->]]]%boot_lookup; by cbn.
  - intros j q [[-> ->]|[[-> ->]|[Hj ->]]]%boot_lookup Hl; cbn; try lia. by destruct Hl.
  - intros j i q r [[-> ->]|[[-> ->]|[Hj ->]]]%boot_lookup [[-> ->]|[[-> ->]|[Hi' ->]]]%boot_lookup H1 H2 E;
      try done; by destruct H1 || destruct H2.
  - by intros j q [[-> ->]|[[-> ->]|[Hj ->]]]%boot_lookup.
Qed.

Lemma main_split s :
  main s = (_ ← (main_greet ;; pmm_init ;; kvminit ;; kvminithart ;; main_greet_paged ;; procinit);
    userinit ;; create_process sym_simple_task ;; scheduler_begin) s.
Proof.
  unfold main. symmetry. do 5 (rewrite bind_assoc; apply bind_ext; intros ? ?). done.
Qed.

(** A process made by [main] itself, in the state [s]. *)
Lemma fresh_can_alloc s free k :
  quiet s -> pool s free -> - 2 ^ 31 <= nextpid s < 2 ^ 31 -> first_unused (procs s) = Some k ->
  can_alloc s free k.
Proof.
  intros Hq Hp Hn Hk. split; try apply Hq; try done. rewrite (qu_depth _ Hq). lia.
Qed.

Lemma memory_ok_empty s tbl free stacks :
  stacked s tbl free stacks -> procs s = empty_table ->
  (map_to_list tbl).*2 ++ free ++ stacks ≡ₚ all_pages ->
  memory_ok (Resources (length free) stacks) s free (fun _ => ∅) tbl.
Proof.
  intros St Hp Hall. assert (Hno : forall k q, procs s !! k = Some q -> ~ live q).
  { intros k q Hq. rewrite Hp in Hq. apply empty_lookup in Hq as [_ ->]. intros H. by apply H. }
  split; try by (intros; exfalso; naive_solver).
  - apply St.
  - rewrite Hp. replace (live_count empty_table) with 0%nat by (by vm_compute). cbn. lia.
  - apply St.
  - intros a Ha. split; [by apply (st_pages _ _ _ _ St)|]. intros k q Hq Hl. by destruct (Hno k q Hq).
  - rewrite Hp. replace (slots_pages 0 empty_table (fun _ => ∅)) with ([] : list Z) by (by vm_compute).
    rewrite app_nil_r, <- Hall. apply Permutation_app_swap_app.
Qed.

Lemma stacked_ok s tbl free stacks : stacked s tbl free stacks -> stacks_ok stacks.
Proof.
  intros St. split; [apply St|]. split; [apply St|]. apply Forall_forall. intros p Hp.
  by apply (st_pages _ _ _ _ St).
Qed.

Lemma created_fields pid tf pt fn par q :
  p_state (created pid tf pt fn par q) = RUNNABLE /\ p_trapframe (created pid tf pt fn par q) = tf
  /\ p_pagetable (created pid tf pt fn par q) = pt.
Proof. by destruct par. Qed.

(** What [main] says about its two processes. *)
Definition boot_messages : list Z := new_message 1 ++ init_message 1 ++ new_message 2.

(** What [main] leaves for the scheduler, besides the invariant: the two
    processes, the next pid, the flag of [forkret], and the text [out]. *)
Record boot_left (s : kstate) (out : list Z) : Prop := {
  bl_pid : nextpid s = 3;
  bl_first : forkret_first s = 1;
  bl_line : line (io_log (io s)) = out;
  bl_procs : exists tf0 pt0 tf1 pt1, procs s = boot_table tf0 pt0 tf1 pt1;
}.

Lemma line_patch m fl n bs np F s :
  line (io_log (io (patch m fl n bs np F s))) = line (io_log (io s)) ++ bs.
Proof.
  change (line (io_log (io (io_step n ((fun b => (UART0 + THR, b)) <$> bs) s))) = line (io_log (io s)) ++ bs).
  apply (sent_log bs s). by exists n.
Qed.

(** From [s] to [s'] a process with this pid and function was made in slot [k],
    with four free pages, and the text [bs] was printed. *)
Record made (total : resources) (k : nat) (pid fn : Z) (bs : list Z) (ktbl : gmap (list Z) Z) (s s' : kstate)
    (free' : list Z) : Prop := {
  md_quiet : quiet s';
  md_procs : exists tf pt, procs s' = alter (created pid tf pt fn None) k (procs s);
  md_pid : nextpid s' = pid + 1;
  md_first : forkret_first s' = forkret_first s;
  md_cur : c_proc (cpu0 s') = c_proc (cpu0 s);
  md_line : line (io_log (io s')) = line (io_log (io s)) ++ bs;
  md_kernel : kernel_pagetable s' = kernel_pagetable s;
  md_satp : satp (csr s') = satp (csr s);
  md_vector : stvec (csr s') = stvec (csr s);
  md_memory : exists tbls, memory_ok total s' free' tbls ktbl;
}.

Lemma userinit_made total s tbls ktbl a0 a1 a2 a3 free :
  quiet s -> nextpid s = 1 -> c_proc (cpu0 s) = None -> procs s = empty_table ->
  memory_ok total s (a0 :: a1 :: a2 :: a3 :: free) tbls ktbl ->
  exists s', userinit s = Done tt s' /\ initproc s' = Some 0%nat
    /\ made total 0 1 sym_init_task (new_message 1 ++ init_message 1) ktbl s s' free.
Proof.
  intros Q Hn Hc Hp M0.
  assert (A0 : can_alloc s (a0 :: a1 :: a2 :: a3 :: free) 0).
  { apply fresh_can_alloc; [done|apply M0|rewrite Hn; lia|]. by rewrite Hp. }
  destruct (userinit_ok s 0 a0 a1 a2 a3 free A0) as (s1 & n1 & t1 & E1 & Es1 & U1 & Ha1 & Ha2 & Ha3 & Ha4 & Ha5).
  rewrite Hn in Es1. exists s1. split; [done|]. split; [by rewrite Es1|].
  pose proof (memory_ok_create total s s1 0 (init_slot 0 zero_proc) (created 1 a0 a1 sym_init_task None)
    a0 a1 a2 a3 free tbls t1 ktbl M0) as M1. rewrite Hp in M1.
  split; try by rewrite Es1.
  - rewrite Es1. apply quiet_patch; [apply _|]. by apply (quiet_same s).
  - exists a0, a1. by rewrite Es1.
  - rewrite Es1, line_patch. reflexivity.
  - eexists. apply M1; try done; [by rewrite Es1, <- Hp|by rewrite Es1].
Qed.

Lemma create_process_made total s tbls ktbl k q fn b0 b1 b2 b3 free :
  quiet s -> - 2 ^ 31 <= nextpid s < 2 ^ 31 - 1 -> c_proc (cpu0 s) = None ->
  first_unused (procs s) = Some k -> procs s !! k = Some q -> p_state q = UNUSED ->
  memory_ok total s (b0 :: b1 :: b2 :: b3 :: free) tbls ktbl ->
  exists s', create_process fn s = Done (nextpid s) s' /\ initproc s' = initproc s
    /\ made total k (nextpid s) fn (new_message (nextpid s)) ktbl s s' free.
Proof.
  intros Q Hn Hc Hk Hq Hu M0.
  assert (A0 : can_alloc s (b0 :: b1 :: b2 :: b3 :: free) k) by (apply fresh_can_alloc; [done|apply M0|lia|done]).
  destruct (create_process_ok s k b0 b1 b2 b3 free fn A0)
    as (s2 & n2 & t2 & E2 & Es2 & U2 & Hb1 & Hb2 & Hb3 & Hb4 & Hb5); [by apply (quiet_free s L_wait)|].
  rewrite Hc in Es2. exists s2. split; [done|]. split; [by rewrite Es2|].
  pose proof (memory_ok_create total s s2 k q (created (nextpid s) b0 b1 fn None)
    b0 b1 b2 b3 free tbls t2 ktbl M0 Hq Hu) as M2.
  split; try by rewrite Es2.
  - rewrite Es2. apply quiet_patch; [apply _|]. by apply quiet_touch.
  - exists b0, b1. by rewrite Es2.
  - rewrite Es2. change (i32 (nextpid s + 1) = nextpid s + 1). apply i32_small. lia.
  - rewrite Es2, line_patch. reflexivity.
  - eexists. apply M2; try done; by rewrite Es2.
Qed.

(** The second half: init and the first thread exist, and the scheduler starts. *)
Lemma main_processes s tbl free stacks :
  fresh s -> quiet s -> procs s = empty_table -> (8 <= length free)%nat ->
  stacked s tbl free stacks -> (map_to_list tbl).*2 ++ free ++ stacks ≡ₚ all_pages ->
  exists s', (userinit ;; create_process sym_simple_task ;; scheduler_begin) s = Done tt s'
    /\ inv (Resources (length free) stacks) 0 (World s' (Scheduling NPROC) boot_threads)
    /\ boot_left s' (line (io_log (io s)) ++ boot_messages).
Proof.
  intros F Q Hp Hlen St Hall.
  destruct free as [|a0 [|a1 [|a2 [|a3 [|b0 [|b1 [|b2 [|b3 free]]]]]]]]; try (cbn in Hlen; lia). clear Hlen.
  pose proof (memory_ok_empty s tbl _ stacks St Hp Hall) as M0. set (total := Resources _ _) in *.
  destruct (userinit_made total s _ tbl a0 a1 a2 a3 _ Q (fr_nextpid _ F) (fr_cur _ F) Hp M0)
    as (s1 & E1 & I1 & [Q1 (tf0 & pt0 & P1) N1 B1 C1 L1 K1 S1 V1 [tbls1 M1]]).
  rewrite Hp in P1. rewrite (fr_cur _ F) in C1.
  destruct (create_process_made total s1 tbls1 tbl 1 (init_slot 1 zero_proc) sym_simple_task b0 b1 b2 b3 free Q1)
    as (s2 & E2 & I2 & [Q2 (tf1 & pt1 & P2) N2 B2 C2 L2 K2 S2 V2 [tbls2 M2]]); try done.
  { rewrite N1. lia. }
  { by rewrite P1. }
  { rewrite P1, list_lookup_alter_ne by done. apply empty_slot. unfold NPROC. lia. }
  rewrite N1 in N2, P2, L2. rewrite I1 in I2.
  set (s3 := set_cpu0 (set_c_proc None (cpu0 s2)) s2).
  assert (Q3 : quiet s3) by (by apply (quiet_same s2)).
  exists s3. split; [|split].
  - mstep; [exact E1|]. mstep; [exact E2|]. unfold scheduler_begin.
    rewrite bind_mycpu by apply Q2. done.
  - split; cbn [w_state w_runner w_threads]; try done.
    + change (procs s3) with (procs s2). change (nextpid s3) with (nextpid s2).
      rewrite P2, P1, N2. apply boot_table_ok.
    + change (nextpid s3) with (nextpid s2). rewrite N2. lia.
    + change (satp (csr s2) = MAKE_SATP (kernel_pagetable s2)). rewrite S2, S1, K2, K1. apply St.
    + by eapply stacked_ok.
    + eexists free, _, tbl. by apply (memory_ok_view total s2).
  - split; [exact N2| | |].
    + change (forkret_first s2 = 1). rewrite B2, B1. apply F.
    + change (io s3) with (io s2). rewrite L2, L1. unfold boot_messages. by rewrite <- !app_assoc.
    + exists tf0, pt0, tf1, pt1. change (procs s3) with (procs s2). by rewrite P2, P1.
Qed.

(** All of [main]: both halves. *)
Lemma main_ok s :
  powered s -> (boot_pages <= n_pages)%nat ->
  exists s' (total : resources), main s = Done tt s' /\ inv total 0 (World s' (Scheduling NPROC) boot_threads)
    /\ (n_pages + 8 <= total + boot_pages)%nat
    /\ boot_left s' (line (io_log (io s)) ++ 3 :: greeting ++ greeting ++ boot_messages).
Proof.
  intros P Hn. destruct (main_memory s P Hn) as (s1 & tbl & free & stacks & E1 & F & Q & Hp & Hl & I & Hall & Hg).
  destruct (main_processes s1 tbl free stacks F Q Hp) as (s' & E2 & Hinv & HB); [lia|done|done|].
  rewrite Hg in HB. rewrite <- !app_assoc in HB.
  exists s', (Resources (length free) stacks). split; [|split_and!; [done|by change (total_pages _) with (length free)|done]].
  rewrite main_split. by mstep; [exact E1|].
Qed.

(** The machine when entry.S calls [start]: globals zero but for their
    initialisers, hart 0, and a UART that answers. *)
Record reset (s : kstate) : Prop := {
  rs_hart : i32 (tp (csr s)) = 0;
  rs_mstatus : 0 <= mstatus (csr s) < 2 ^ 64;
  rs_depth : noff s = 0;
  rs_cur : c_proc (cpu0 s) = None;
  rs_procs : procs s = replicate NPROC zero_proc;
  rs_freelist : freelist s = 0;
  rs_nextpid : nextpid s = 1;
  rs_init : initproc s = None;
  rs_first : forkret_first s = 1;
  rs_pid : lock_free L_pid s;
  rs_uart : uart_live s;
}.

(** [start] hands over what [main] needs. *)
Lemma start_powers s :
  reset s -> exists s', start s = Done tt s' /\ booted s' /\ powered s'
    /\ stvec (csr s') = stvec (csr s) /\ io_log (io s') = io_log (io s).
Proof.
  intros R. destruct (start_boots s (rs_mstatus s R)) as (s' & E & B & _ & _ & Hv & _ & Hlog).
  exists s'. split; [done|]. split; [done|]. split; [|done].
  rewrite start_ok in E. apply Done_inj in E as [_ <-]. destruct R. split; try done.
  split; [done| |]; unfold noff in *; cbn [cpu0 set_csr set_tickslock set_io] in *; lia.
Qed.

(** C12: the kernel boots.  From the state in which the entry code calls [start],
    and with at least [boot_pages] pages of RAM, [start] sets the hart up for
    supervisor mode ([booted]), and [main] terminates without a panic, a fault or
    an endless loop and enters the scheduler's loop.  Everything it is meant to
    print has gone out on the serial line by then, and the state it has built
    satisfies the system invariant: init and the first thread are runnable, all
    locks are free, and all pages but those of the kernel's page table and stacks
    are free or belong to the two processes.  Between the two, though, the timer
    and interrupts are on ([booted]) while stvec has its value from reset: only
    the second statement of [main] installs the trap vector. *)
Theorem boot_reaches_scheduler s :
  reset s -> (boot_pages <= n_pages)%nat ->
  exists s0 s' (total : resources), start s = Done tt s0 /\ booted s0 /\ stvec (csr s0) = stvec (csr s)
    /\ main s0 = Done tt s'
    /\ inv total 0 (World s' (Scheduling NPROC) boot_threads)
    /\ (n_pages <= total + kvminit_pages + NPROC + 2)%nat
    /\ line (io_log (io s')) = line (io_log (io s)) ++ 3 :: greeting ++ greeting
         ++ new_message 1 ++ init_message 1 ++ new_message 2
    /\ nextpid s' = 3 /\ exists tf0 pt0 tf1 pt1, procs s' = boot_table tf0 pt0 tf1 pt1.
Proof.
  intros R Hn. destruct (start_powers s R) as (s0 & E0 & B & P & Hv & Hlog).
  destruct (main_ok s0 P Hn) as (s' & total & E & I & Hl & [B1 B2 B3 B4]).
  rewrite Hlog in B3. exists s0, s', total. split_and!; try done. unfold boot_pages in Hl. lia.
Qed.

End boot_inv.

(** ** Witnesses *)

#[local] Existing Instance demo_linker.
#[local] Existing Instance demo_linker_ok.

Lemma demo_powered : powered demo_state.
Proof. split; done || apply demo_uart_live. Qed.

Lemma demo_boot_pages : (boot_pages <= n_pages)%nat.
Proof. apply Nat.leb_le. by vm_compute. Qed.

Lemma demo_reset : reset demo_state.
Proof. split; done || apply demo_uart_live. Qed.

Lemma boot_reaches_scheduler_witness :
  exists s0 s', start demo_state = Done tt s0 /\ main s0 = Done tt s'
    /\ exists n, inv n 0 (World s' (Scheduling NPROC) boot_threads).
Proof.
  destruct (boot_reaches_scheduler demo_state demo_reset demo_boot_pages)
    as (s0 & s' & n & E0 & _ & _ & E & I & _).
  exists s0, s'. split; [exact E0|]. split; [exact E|]. by exists n.
Defined.
