(* ===== verification/BootIrq.v ===== *)
(** * Booting with interrupts

    The timer is on while kernel/main.c runs.  Here [main] is the list of its
    statements, and between any two of them the hart may take interrupts.  A boot
    has four kinds of configurations: at a statement, gone astray through a trap
    vector that is not the kernel's, dead in a handler that does not return, and
    failed in a statement that does not end.  The last never happens, the second
    only before the second statement has set the vector, and the third only
    through an external interrupt; however many other interrupts come, the
    scheduler starts with the system invariant established. *)

From S2P Require Import Prelude Riscv Memory State Spinlock Kalloc Vm VmMap Sv39 VmKernel VmDestroy Uart Printf Csr Proc ProcTable ProcMem ProcExit Switch Trap Sched SchedMem SchedStep SchedInv ProcInit Boot BootInv.

(** ** The statements of main *)

Section statements.
Context `{L : Linker}.

Definition void {A} (m : M A) : M unit := _ ← m; mret tt.

Definition seq (l : list (M unit)) : M unit := foldr (fun m k => m ;; k) (mret tt) l.

Definition greet_statements : list (M unit) :=
  [uart_puts (str "Hello, OS!" ++ nl);
   void (printf (str "Testinginteger:%d" ++ nl) [VInt 42]);
   void (printf (str "Testingnegative:%d" ++ nl) [VInt (-123)]);
   void (printf (str "Testingzero:%d" ++ nl) [VInt 0]);
   t ← r_time; w_stimecmp (u64 (t + 10000));
   void (printf (str "Testinghex:0x%x" ++ nl) [VInt 0xABC]);
   void (printf (str "Testingstring:%s" ++ nl) [VStr (Some (str "Hello"))]);
   void (printf (str "Testingchar:%c" ++ nl) [VInt 88]);
   void (printf (str "Testingpercent:%%" ++ nl) []);
   void (printf (str "INT_MAX:%d" ++ nl) [VInt 2147483647]);
   void (printf (str "INT_MIN:%d" ++ nl) [VInt (-2147483648)]);
   void (printf (str "NULLstring:%s" ++ nl) [VStr None]);
   void (printf (str "Emptystring:%s") [VStr (Some [])]);
   clear_screen].

Definition greet_paged_statements : list (M unit) :=
  [trapinithart;
   uart_puts (str "Hello, OS!" ++ nl);
   void (printf (str "Testinginteger:%d" ++ nl) [VInt 42]);
   void (printf (str "Testingnegative:%d" ++ nl) [VInt (-123)]);
   void (printf (str "Testingzero:%d" ++ nl) [VInt 0]);
   void (printf (str "Testinghex:0x%x" ++ nl) [VInt 0xABC]);
   void (printf (str "Testingstring:%s" ++ nl) [VStr (Some (str "Hello"))]);
   void (printf (str "Testingchar:%c" ++ nl) [VInt 88]);
   void (printf (str "Testingpercent:%%" ++ nl) []);
   void (printf (str "INT_MAX:%d" ++ nl) [VInt 2147483647]);
   void (printf (str "INT_MIN:%d" ++ nl) [VInt (-2147483648)]);
   void (printf (str "NULLstring:%s" ++ nl) [VStr None]);
   void (printf (str "Emptystring:%s") [VStr (Some [])]);
   clear_screen].

Definition main_statements : list (M unit) :=
  [uartinit; trapinithart] ++ greet_statements ++ [pmm_init; kvminit; kvminithart]
  ++ greet_paged_statements
  ++ [procinit; userinit; void (create_process sym_simple_task); scheduler_begin].

Lemma bind_void {A B} (m : M A) (f : unit -> M B) s : (x ← void m; f x) s = (_ ← m; f tt) s.
Proof. unfold void. by rewrite bind_assoc. Qed.

Lemma bind_unit (m : M unit) s : (m ;; mret tt) s = m s.
Proof. unfold mbind, M_bind. by destruct (m s) as [[]| | | |]. Qed.

(** They are the statements of [main]. *)
Lemma main_seq s : main s = seq main_statements s.
Proof.
  unfold main, main_greet, main_greet_paged, main_statements, greet_statements, greet_paged_statements.
  cbn [app seq foldr]. repeat (rewrite ?bind_assoc, ?bind_void; apply bind_ext; intros ? ?).
  by rewrite bind_unit.
Qed.

End statements.

(** ** Interrupts *)

Section irq.
Context {L : Linker} {LO : LinkerOk}.

(** The two interrupts the hart can take. *)
Definition interrupt (cause : Z) : Prop := cause = SCAUSE_TIMER \/ cause = SCAUSE_EXTERNAL.

(** kernelvec's handler runs to its end without yielding, since no thread runs yet,
    and returns into [s']. *)
Definition served (cause pc tval : Z) (s s' : kstate) : Prop :=
  exists a b s1 s2, kerneltrap_enter (trap_entry cause pc tval s) = Done (a, b, None) s1
    /\ kerneltrap_leave a b None s1 = Done tt s2 /\ s' = sret s2.

Inductive irq (cause : Z) (s : kstate) : kstate -> Prop :=
  | irq_taken pc tval s' :
      stvec (csr s) = sym_kernelvec -> intr_get s = true -> served cause pc tval s s' -> irq cause s s'.

(** Where a boot can be: before the statements [l], with interrupts possible; at an
    address that is not the kernel's handler; in a handler that does not return;
    or in a statement that does not run to its end. *)
Inductive boot_config : Type :=
  | Booting (l : list (M unit)) (s : kstate)
  | Astray (l : list (M unit)) (s : kstate)
  | Dead (cause : Z) (s : kstate)
  | Failed (m : M unit) (s : kstate).

Inductive bstep : boot_config -> boot_config -> Prop :=
  | b_statement m l s s' : m s = Done tt s' -> bstep (Booting (m :: l) s) (Booting l s')
  | b_failed m l s : (forall s', m s <> Done tt s') -> bstep (Booting (m :: l) s) (Failed m s)
  | b_irq cause l s s' : interrupt cause -> irq cause s s' -> bstep (Booting l s) (Booting l s')
  | b_astray cause pc tval l s : interrupt cause -> intr_get s = true -> stvec (csr s) <> sym_kernelvec ->
      bstep (Booting l s) (Astray l (trap_entry cause pc tval s))
  | b_dead cause pc tval l s : interrupt cause -> intr_get s = true -> stvec (csr s) = sym_kernelvec ->
      (forall s', ~ served cause pc tval s s') -> bstep (Booting l s) (Dead cause (trap_entry cause pc tval s)).

(** The state without what handlers change: the device log and time, the control
    registers, the saved enable bit and the tick count. *)
Definition forget (s : kstate) : kstate :=
  set_io (Mmio (io_in (io s)) (fun _ => 0) (io_wait (io s)) 0 [])
    (set_csr demo_csrs (set_intena 0 (set_ticks 0 s))).

Definition kept (s s' : kstate) : Prop :=
  forget s' = forget s /\ tp (csr s') = tp (csr s) /\ satp (csr s') = satp (csr s) /\ keeps_vector s s'.

(** Nothing runs, no lock is held, and nobody sleeps: an interrupt is harmless. *)
Record awake (s : kstate) : Prop := {
  aw_interruptible : interruptible s;
  aw_cur : c_proc (cpu0 s) = None;
  aw_procs : Forall (fun q => p_state q <> SLEEPING) (procs s);
}.

Lemma woken_awake chan cur ps : Forall (fun q => p_state q <> SLEEPING) ps -> woken chan cur ps = ps.
Proof.
  intros H. apply list_eq. intros j. unfold woken, woken_upto. rewrite list_lookup_imap.
  destruct (ps !! j) as [q|] eqn:Hq; [|done]. cbn [fmap option_fmap option_map]. f_equal.
  destruct (_ && _); [|done]. unfold wake1.
  by rewrite bool_decide_eq_false_2 by exact (proj1 (Forall_lookup _ _) H j q Hq).
Qed.

Lemma irq_kept cause s s' : awake s -> irq cause s s' -> kept s s'.
Proof.
  intros [Hi Hc Hp] [pc tval s3 Hv Hon (a & b & s1 & s2 & E1 & E2 & ->)]. set (t := trap_entry cause pc tval s) in *.
  assert (Ht : interruptible t) by by apply interruptible_trap.
  destruct (kerneltrap_enter_inv t a b None s1 Ht Hc E1) as (-> & -> & _ & Hd). clear E1.
  assert (Hps : procs s1 = procs s).
  { destruct (hd_procs _ _ Hd) as [->| ->]; [done|]. by apply woken_awake. }
  destruct Hd as [D1 D2 _ D3 D4].
  apply Done_inj in E2 as [_ <-]. split.
  - transitivity (forget s1); [reflexivity|]. change (forget s) with (forget t). rewrite <- D1.
    change (procs t) with (procs s). rewrite <- Hps. unfold forget.
    change (io_in (io s1) = io_in (io s)) in D3. change (io_wait (io s1) = io_wait (io s)) in D4.
    rewrite D3, D4. by destruct s1 as [? ? [] ? ? ? ? ? ? ? ? ? ? ? ? ? ?].
  - split; [by apply (f_equal tp) in D2|]. split; [by apply (f_equal satp) in D2|].
    apply keeps_eq. by apply (f_equal stvec) in D2.
Qed.

(** A timer interrupt is always served. *)
Lemma timer_served s pc tval :
  awake s -> intr_get s = true -> exists s', served SCAUSE_TIMER pc tval s s'.
Proof.
  intros [Hi Hc _] Hon.
  destruct (kerneltrap_timer (trap_entry SCAUSE_TIMER pc tval s)) as [n E];
    [by apply interruptible_trap|apply trap_from_supervisor|apply intr_get_trap|done|].
  change (c_proc (cpu0 (trap_entry _ _ _ s))) with (c_proc (cpu0 s)) in E. rewrite Hc in E.
  eexists _, _, _, _, _. split; [exact E|]. split; reflexivity.
Qed.

Lemma kept_field {A} (f : kstate -> A) s s' :
  kept s s' -> (forall t, f (forget t) = f t) -> f s' = f s.
Proof. intros [H _] Hf. by rewrite <- (Hf s'), H, Hf. Qed.

End irq.

(** A field that [forget] keeps. *)
Ltac kept_eq H :=
  first [exact (proj1 (proj2 H)) | exact (proj1 (proj2 (proj2 H))) |
    match goal with
    | |- ?a = _ =>
        match type of H with
        | kept ?s ?s' => let f := eval pattern s' in a in
            match f with ?g _ => exact (kept_field g s s' H (fun t => eq_refl)) end
        end
    end].

(** ** Phases *)

Section phases.
Context {L : Linker} {LO : LinkerOk}.

Definition irqs (s s' : kstate) : Prop := exists cause, irq cause s s'.

(** With [l] left to do: however many interrupts come first, the next statement
    runs to its end, and so on; at the end [Q] holds. *)
Fixpoint safe (Q : kstate -> Prop) (l : list (M unit)) (s : kstate) : Prop :=
  forall s1, rtc irqs s s1 -> awake s1 /\ stvec (csr s1) = sym_kernelvec /\
    match l with
    | [] => Q s1
    | m :: l' => exists s2, m s1 = Done tt s2 /\ safe Q l' s2
    end.

Lemma safe_irq Q l s s' : safe Q l s -> irqs s s' -> safe Q l s'.
Proof. destruct l; intros H Hi s1 Hs; apply H; by eapply rtc_l. Qed.

(** What a safe boot can come to. *)
Definition safe_config (Q : kstate -> Prop) (c : boot_config) : Prop :=
  match c with
  | Booting l s => safe Q l s
  | Dead cause _ => cause = SCAUSE_EXTERNAL
  | Astray _ _ | Failed _ _ => False
  end.

Lemma safe_bstep Q l s c : safe Q l s -> bstep (Booting l s) c -> safe_config Q c.
Proof.
  intros H Hs. inversion Hs as [m l1 s0 s1 E|m l1 s0 Hm|cause l1 s0 s1 _ Hi|cause pc tval l1 s0 _ _ Hv
    |cause pc tval l1 s0 [->| ->] Hon Hv Hno]; subst; cbn [safe_config].
  - destruct (H s (rtc_refl _ _)) as (_ & _ & s2 & E2 & H2). rewrite E in E2. by apply Done_inj in E2 as [_ <-].
  - destruct (H s (rtc_refl _ _)) as (_ & _ & s2 & E2 & _). by destruct (Hm s2).
  - eapply safe_irq; [exact H|by exists cause].
  - destruct Hv. destruct l; apply (H s (rtc_refl _ _)).
  - destruct (timer_served s pc tval) as [s' Hs']; [destruct l; apply (H s (rtc_refl _ _))|done|].
    by destruct (Hno s').
  - done.
Qed.

(** A boot that has ended otherwise goes nowhere. *)
Lemma ended_steps c c' : (forall l s, c <> Booting l s) -> rtc bstep c c' -> c' = c.
Proof.
  intros Hc Hr. inversion Hr as [|? y ? Hs _]; subst; [done|]. by inversion Hs; subst; case (Hc _ _ eq_refl).
Qed.

Lemma safe_reach Q l s c : safe Q l s -> rtc bstep (Booting l s) c -> safe_config Q c.
Proof.
  intros H Hr. remember (Booting l s) as a eqn:Ea. revert l s Ea H.
  induction Hr as [x|x y z Hs Hr IH]; intros l s -> H; [exact H|].
  pose proof (safe_bstep Q l s y H Hs) as Hy.
  destruct y as [l1 s1| | |]; [by eapply IH|..]; apply ended_steps in Hr as ->; done.
Qed.

(** What holds between the statements of a phase. *)
Class Phase (P : kstate -> Prop) : Prop := {
  ph_kept : forall s s', P s -> kept s s' -> P s';
  ph_awake : forall s, P s -> awake s;
}.

(** The phase, with the trap vector set. *)
Definition armed (P : kstate -> Prop) (s : kstate) : Prop := P s /\ stvec (csr s) = sym_kernelvec.

Lemma phase_irqs P s s1 `{!Phase P} : armed P s -> rtc irqs s s1 -> armed P s1.
Proof.
  intros H Hr. induction Hr as [|x y z [cause Hi] _ IH]; [done|]. apply IH. destruct H as [H Hv].
  pose proof (irq_kept cause x y (ph_awake x H) Hi) as Hk. split; [by eapply ph_kept|].
  by apply Hk.
Qed.

Lemma safe_end P Q s `{!Phase P} : armed P s -> (forall s, P s -> Q s) -> safe Q [] s.
Proof.
  intros H HQ s1 Hr. destruct (phase_irqs P s s1 H Hr) as [H1 Hv]. split; [by apply ph_awake|].
  split; [done|by apply HQ].
Qed.

Lemma safe_step P P' Q m l s `{!Phase P} :
  armed P s -> (forall s, P s -> exists s', m s = Done tt s' /\ P' s' /\ keeps_vector s s') ->
  (forall s, armed P' s -> safe Q l s) -> safe Q (m :: l) s.
Proof.
  intros H Hm Hl s1 Hr. destruct (phase_irqs P s s1 H Hr) as [H1 Hv]. split; [by apply ph_awake|].
  split; [done|]. destruct (Hm s1 H1) as (s2 & E & H2 & Hk). exists s2. split; [done|]. apply Hl.
  split; [done|by apply Hk].
Qed.

(** Statements that only print. *)
Lemma talks_kept bs s s' : talks bs s s' -> kept s s'.
Proof.
  intros [T1 T2 _ T4 Tv _ _]. split; [|done]. apply (f_equal forget) in T1. exact T1.
Qed.

Lemma safe_talk P Q l0 l s `{!Phase P} :
  Forall (fun m => exists bs, Talks m bs) l0 -> (forall s, armed P s -> safe Q l s) -> armed P s ->
  safe Q (l0 ++ l) s.
Proof.
  intros H Hl. revert s. induction H as [|m l0 [bs Hm] _ IH]; intros s Hs; [by apply Hl|].
  apply (safe_step P P Q m _ s Hs); [|exact IH]. clear s Hs. intros s Hs.
  destruct (ph_awake s Hs) as [[A1 A2 A3 A4 A5 A6 A7] _ _].
  destruct (Hm s) as ([] & s' & E & T); [by split|]. exists s'. split; [done|].
  split; [eapply ph_kept; [exact Hs|by eapply talks_kept]|apply T].
Qed.

#[export] Instance talks_void {A} (m : M A) bs : Talks m bs -> Talks (void m) (bs ++ []).
Proof. intros H. apply talks_bind; [done|]. intros _. apply talks_ret. Qed.

Ltac talking :=
  repeat first [apply Forall_nil_2 | apply Forall_cons_2];
  eexists; first [apply talks_clear_screen | talk; done | apply talks_void; talk_printf].

Lemma greet_talks : Forall (fun m => exists bs, Talks m bs) greet_statements.
Proof. unfold greet_statements. talking. Qed.

Lemma greet_paged_talks : Forall (fun m => exists bs, Talks m bs) greet_paged_statements.
Proof. unfold greet_paged_statements. talking. Qed.

(** ** The phases of main *)

Lemma hart_ok_kept s s' : hart_ok s -> noff s = 0 -> kept s s' -> hart_ok s'.
Proof.
  intros [H1 H2 H3] Hn H. assert (En : noff s' = noff s) by kept_eq H.
  split; rewrite ?En; [by rewrite (proj1 (proj2 H))|done|lia].
Qed.

Lemma fresh_kept s s' : fresh s -> kept s s' -> fresh s'.
Proof.
  intros F H. apply (fresh_ext s); first [exact F | kept_eq H | idtac].
  apply (hart_ok_kept s); [apply F|apply F|exact H].
Qed.

Lemma quiet_kept s s' : quiet s -> kept s s' -> quiet s'.
Proof.
  intros F H. apply (quiet_same s); first [exact F | kept_eq H | idtac].
  all: intros l; destruct l; kept_eq H.
Qed.

Lemma pool_kept s s' free : pool s free -> noff s = 0 -> kept s s' -> pool s' free.
Proof.
  intros [P1 P2 P3 P4] Hn H.
  assert (Em : mem s' = mem s) by kept_eq H. assert (Ef : freelist s' = freelist s) by kept_eq H.
  assert (Ek : kmem_lock s' = kmem_lock s) by kept_eq H.
  split; [by rewrite Em, Ef|done|by apply (hart_ok_kept s)|]. unfold lock_free, get_lock in *. by rewrite Ek.
Qed.

Lemma vm_inv_kept s s' root tbl free : vm_inv s root tbl free -> noff s = 0 -> kept s s' -> vm_inv s' root tbl free.
Proof.
  intros I Hn H. pose proof (pool_kept s s' free (vm_pool _ _ _ _ I) Hn H) as P.
  apply (vm_inv_move s); [done|kept_eq H|kept_eq H|apply P|apply P].
Qed.

Lemma kernel_space_kept s s' tbl free : kernel_space s tbl free -> noff s = 0 -> kept s s' -> kernel_space s' tbl free.
Proof.
  intros [I Hl] Hn H. assert (Em : mem s' = mem s) by kept_eq H.
  assert (Ek : kernel_pagetable s' = kernel_pagetable s) by kept_eq H.
  split; [rewrite Ek; by apply (vm_inv_kept s)|intros va; by rewrite Em].
Qed.

(** Slots that are not in use, with free locks. *)
Definition idle_slot (q : proc) : Prop := p_state q = UNUSED /\ locked (p_lock q) = 0 /\ lk_cpu (p_lock q) = None.

Lemma fresh_awake s : fresh s -> length (procs s) = NPROC -> Forall idle_slot (procs s) -> awake s.
Proof.
  intros F Hl Hp. rewrite Forall_lookup in Hp. split; [|apply F|].
  - split; try apply F; [done|]. intros j Hj _. destruct (lookup_lt_is_Some_2 (procs s) j) as [q Hq]; [lia|].
    destruct (Hp j q Hq) as (_ & H). unfold lock_free, get_lock. by rewrite Hq.
  - apply Forall_lookup. intros j q Hq. by destruct (Hp j q Hq) as [-> _].
Qed.

Lemma zero_awake s : fresh s -> procs s = replicate NPROC zero_proc -> awake s.
Proof.
  intros F Hp. apply fresh_awake; [done|by rewrite Hp|]. rewrite Hp. by apply Forall_replicate.
Qed.

Lemma empty_idle : length empty_table = NPROC /\ Forall idle_slot empty_table.
Proof.
  split; [by vm_compute|]. apply Forall_lookup. intros j q [_ ->]%empty_lookup. done.
Qed.


(** Nothing is managed yet. *)
Definition phase_raw (s : kstate) : Prop :=
  fresh s /\ procs s = replicate NPROC zero_proc /\ freelist s = 0.

(** All pages are free. *)
Definition phase_pages (s : kstate) : Prop :=
  fresh s /\ procs s = replicate NPROC zero_proc /\ pool s (reverse (pages_from first_page n_pages)).

(** The kernel's page table is built. *)
Definition phase_mapped (s : kstate) : Prop :=
  fresh s /\ procs s = replicate NPROC zero_proc
  /\ exists tbl free, kernel_space s tbl free /\ (map_to_list tbl).*2 ++ free ≡ₚ all_pages
       /\ (n_pages <= length free + kvminit_pages)%nat.

(** It is in force. *)
Definition phase_paged (s : kstate) : Prop :=
  phase_mapped s /\ satp (csr s) = MAKE_SATP (kernel_pagetable s).

(** The stacks are mapped, the process table is empty. *)
Definition phase_empty (s : kstate) : Prop :=
  fresh s /\ procs s = empty_table /\ quiet s
  /\ exists tbl free stacks, stacked s tbl free stacks /\ (map_to_list tbl).*2 ++ free ++ stacks ≡ₚ all_pages
       /\ (8 <= length free)%nat.

(** The kernel's table stays in force, and every slot has its stack. *)
Definition in_force (total : resources) (s : kstate) : Prop :=
  satp (csr s) = MAKE_SATP (kernel_pagetable s) /\ stacks_ok (stack_pages total).

(** init exists. *)
Definition phase_init (s : kstate) : Prop :=
  quiet s /\ c_proc (cpu0 s) = None /\ initproc s = Some 0%nat /\ nextpid s = 2
  /\ (exists tf0 pt0, procs s = alter (created 1 tf0 pt0 sym_init_task None) 0%nat empty_table)
  /\ exists total b0 b1 b2 b3 free tbls ktbl,
       memory_ok total s (b0 :: b1 :: b2 :: b3 :: free) tbls ktbl /\ in_force total s.

(** Both processes exist. *)
Definition phase_made (s : kstate) : Prop :=
  quiet s /\ c_proc (cpu0 s) = None /\ initproc s = Some 0%nat /\ nextpid s = 3
  /\ (exists tf0 pt0 tf1 pt1, procs s = boot_table tf0 pt0 tf1 pt1)
  /\ exists total free tbls ktbl, memory_ok total s free tbls ktbl /\ in_force total s.

#[local] Instance raw_phase : Phase phase_raw.
Proof.
  split.
  - intros s s' (F & Hp & Hf) H. split; [by apply (fresh_kept s)|].
    split; [rewrite <- Hp; kept_eq H|rewrite <- Hf; kept_eq H].
  - intros s (F & Hp & Hf). by apply zero_awake.
Qed.

#[local] Instance pages_phase : Phase phase_pages.
Proof.
  split.
  - intros s s' (F & Hp & Hf) H. split; [by apply (fresh_kept s)|].
    split; [rewrite <- Hp; kept_eq H|apply (pool_kept s); [done|apply F|done]].
  - intros s (F & Hp & Hf). by apply zero_awake.
Qed.

#[local] Instance mapped_phase : Phase phase_mapped.
Proof.
  split.
  - intros s s' (F & Hp & tbl & free & K & Hall & Hf) H. split; [by apply (fresh_kept s)|].
    split; [rewrite <- Hp; kept_eq H|]. exists tbl, free. split; [|done].
    apply (kernel_space_kept s); [done|apply F|done].
  - intros s (F & Hp & _). by apply zero_awake.
Qed.

Lemma satp_kept s s' :
  satp (csr s) = MAKE_SATP (kernel_pagetable s) -> kept s s' -> satp (csr s') = MAKE_SATP (kernel_pagetable s').
Proof.
  intros E H. assert (Es : satp (csr s') = satp (csr s)) by kept_eq H.
  assert (Ek : kernel_pagetable s' = kernel_pagetable s) by kept_eq H. by rewrite Es, Ek.
Qed.

#[local] Instance paged_phase : Phase phase_paged.
Proof.
  split.
  - intros s s' [H1 H2] H. split; [by apply (ph_kept s)|by apply (satp_kept s)].
  - intros s [H _]. by apply ph_awake.
Qed.

Lemma stacked_kept s s' tbl free stacks :
  stacked s tbl free stacks -> noff s = 0 -> kept s s' -> stacked s' tbl free stacks.
Proof.
  intros [I HL Hs Hl Hn Hp] Hd H. assert (Em : mem s' = mem s) by kept_eq H.
  assert (Ek : kernel_pagetable s' = kernel_pagetable s) by kept_eq H.
  split; [rewrite Ek; by apply (vm_inv_kept s)|intros va; by rewrite Em|by apply (satp_kept s)|done..].
Qed.

Lemma in_force_kept total s s' : in_force total s -> kept s s' -> in_force total s'.
Proof. intros [H1 H2] H. split; [by apply (satp_kept s)|done]. Qed.

#[local] Instance empty_phase : Phase phase_empty.
Proof.
  split.
  - intros s s' (F & Hp & Q & tbl & free & stacks & I & Hall & Hf) H. split; [by apply (fresh_kept s)|].
    split; [rewrite <- Hp; kept_eq H|]. split; [by apply (quiet_kept s)|]. exists tbl, free, stacks.
    split; [|done]. apply (stacked_kept s); [done|apply F|done].
  - intros s (F & Hp & _). destruct empty_idle. by apply fresh_awake; rewrite ?Hp.
Qed.

Lemma quiet_awake s : quiet s -> c_proc (cpu0 s) = None -> Forall (fun q => p_state q <> SLEEPING) (procs s) -> awake s.
Proof. intros Q Hc Hp. split; [by apply quiet_interruptible|done|done]. Qed.

Lemma memory_ok_kept total s s' free tbls ktbl :
  memory_ok total s free tbls ktbl -> quiet s -> kept s s' -> memory_ok total s' free tbls ktbl.
Proof.
  intros M Q H. apply (memory_ok_view total s); first [done|by apply (quiet_kept s)|kept_eq H].
Qed.

Lemma awake_alter k pid tf pt fn ps :
  Forall (fun q => p_state q <> SLEEPING) ps ->
  Forall (fun q => p_state q <> SLEEPING) (alter (created pid tf pt fn None) k ps).
Proof.
  rewrite !Forall_lookup. intros H j q. rewrite alter_lookup. case_decide; [|apply H].
  intros Hq. by apply fmap_Some in Hq as (q0 & _ & ->).
Qed.

Lemma empty_not_sleeping : Forall (fun q => p_state q <> SLEEPING) empty_table.
Proof. eapply Forall_impl; [apply empty_idle|]. by intros q [-> _]. Qed.

#[local] Instance init_phase : Phase phase_init.
Proof.
  split.
  - intros s s' (Q & Hc & Hi & Hn & (tf & pt & Hp) & total & b0 & b1 & b2 & b3 & free & tbls & ktbl & M & MF) H.
    split; [by apply (quiet_kept s)|]. split; [rewrite <- Hc; kept_eq H|]. split; [rewrite <- Hi; kept_eq H|].
    split; [rewrite <- Hn; kept_eq H|]. split; [exists tf, pt; rewrite <- Hp; kept_eq H|].
    exists total, b0, b1, b2, b3, free, tbls, ktbl.
    split; [by apply (memory_ok_kept total s)|by apply (in_force_kept total s)].
  - intros s (Q & Hc & _ & _ & (tf & pt & Hp) & _). apply quiet_awake; [done|done|].
    rewrite Hp. by apply awake_alter, empty_not_sleeping.
Qed.

#[local] Instance made_phase : Phase phase_made.
Proof.
  split.
  - intros s s' (Q & Hc & Hi & Hn & (tf0 & pt0 & tf1 & pt1 & Hp) & total & free & tbls & ktbl & M & MF) H.
    split; [by apply (quiet_kept s)|]. split; [rewrite <- Hc; kept_eq H|]. split; [rewrite <- Hi; kept_eq H|].
    split; [rewrite <- Hn; kept_eq H|]. split; [exists tf0, pt0, tf1, pt1; rewrite <- Hp; kept_eq H|].
    exists total, free, tbls, ktbl.
    split; [by apply (memory_ok_kept total s)|by apply (in_force_kept total s)].
  - intros s (Q & Hc & _ & _ & (tf0 & pt0 & tf1 & pt1 & Hp) & _). apply quiet_awake; [done|done|].
    rewrite Hp. apply awake_alter, awake_alter, empty_not_sleeping.
Qed.

(** ** The statements between the phases *)

Lemma pmm_step s : phase_raw s -> exists s', pmm_init s = Done tt s' /\ phase_pages s' /\ keeps_vector s s'.
Proof.
  intros (F & Hp & Hf). destruct (pmm_phase s F Hf) as (s' & E & F' & P & Hp' & _ & Hk).
  exists s'. split; [done|]. split; [|done]. split; [done|]. split; [congruence|done].
Qed.

Lemma kvminit_step s : (kvminit_pages <= n_pages)%nat -> phase_pages s ->
  exists s', kvminit s = Done tt s' /\ phase_mapped s' /\ keeps_vector s s'.
Proof.
  intros Hn (F & Hp & P). destruct (kvminit_phase s F P Hn) as (s' & tbl & free & E & F' & K & Hall & Hf & Hp' & _ & Hk).
  exists s'. split; [done|]. split; [|done]. split; [done|]. split; [congruence|]. by exists tbl, free.
Qed.

Lemma kvminithart_step s :
  phase_mapped s -> exists s', kvminithart s = Done tt s' /\ phase_paged s' /\ keeps_vector s s'.
Proof.
  intros (F & Hp & tbl & free & K & Hall & Hf).
  destruct (kvminithart_phase s tbl free F K) as (s' & E & F' & K' & Es). exists s'. split; [done|]. split.
  - split; [|by rewrite Es]. split; [done|]. split; [by rewrite Es|by exists tbl, free].
  - apply keeps_eq. by rewrite Es.
Qed.

Lemma procinit_step s :
  (boot_pages <= n_pages)%nat -> phase_paged s ->
  exists s', procinit s = Done tt s' /\ phase_empty s' /\ keeps_vector s s'.
Proof.
  intros Hn [(F & Hp & tbl & free & K & Hall & Hf) Hs]. unfold boot_pages in Hn.
  destruct (procinit_phase s tbl free F K Hs Hp) as (s' & tbl' & free' & stacks & E & F' & Q & Hp' & I & Hl & Hall' & _ & Hk).
  { unfold NPROC in *. lia. }
  exists s'. split; [done|]. split; [|done]. split_and!; try done. exists tbl', free', stacks.
  split; [done|]. split; [by rewrite Hall'|lia].
Qed.

Lemma userinit_step s : phase_empty s ->
  exists s', userinit s = Done tt s' /\ phase_init s' /\ keeps_vector s s'.
Proof.
  intros (F & Hp & Q & tbl & free & stacks & I & Hall & Hl).
  destruct free as [|a0 [|a1 [|a2 [|a3 [|b0 [|b1 [|b2 [|b3 free]]]]]]]]; try (cbn in Hl; lia).
  pose proof (memory_ok_empty s tbl _ stacks I Hp Hall) as M. set (total := Resources _ _) in M.
  destruct (userinit_made total s _ tbl a0 a1 a2 a3 _ Q (fr_nextpid _ F) (fr_cur _ F) Hp M)
    as (s1 & E1 & I1 & [Q1 (tf0 & pt0 & P1) N1 _ C1 _ K1 S1 V1 [tbls1 M1]]).
  exists s1. split; [done|]. split; [|by apply keeps_eq]. split; [done|]. split; [by rewrite C1; apply F|]. split; [done|]. split; [done|].
  split; [exists tf0, pt0; by rewrite P1, Hp|]. exists total, b0, b1, b2, b3, free, tbls1, tbl.
  split; [done|]. split; [rewrite S1, K1; apply I|by eapply stacked_ok].
Qed.

Lemma create_step s : phase_init s ->
  exists s', void (create_process sym_simple_task) s = Done tt s' /\ phase_made s' /\ keeps_vector s s'.
Proof.
  intros (Q & Hc & Hi & Hn & (tf0 & pt0 & Hp) & total & b0 & b1 & b2 & b3 & free & tbls & ktbl & M & MS & MT).
  destruct (create_process_made total s tbls ktbl 1 (init_slot 1 zero_proc) sym_simple_task b0 b1 b2 b3 free Q)
    as (s2 & E2 & I2 & [Q2 (tf1 & pt1 & P2) N2 _ C2 _ K2 S2 V2 [tbls2 M2]]); try done.
  { rewrite Hn. lia. }
  { by rewrite Hp. }
  { rewrite Hp, list_lookup_alter_ne by done. apply empty_slot. unfold NPROC. lia. }
  exists s2. split; [unfold void; by mstep; [exact E2|]|]. split; [|by apply keeps_eq].
  split; [done|]. split; [congruence|]. split; [congruence|].
  rewrite Hn in *. split; [done|]. split; [exists tf0, pt0, tf1, pt1; by rewrite P2, Hp|].
  exists total, free, tbls2, ktbl. split; [done|]. by split; [rewrite S2, K2|].
Qed.

Lemma scheduler_begin_step s : phase_made s ->
  exists s', scheduler_begin s = Done tt s' /\ phase_made s' /\ keeps_vector s s'.
Proof.
  intros H. pose proof H as (Q & Hc & _). eexists. split.
  - unfold scheduler_begin. rewrite bind_mycpu by apply Q. reflexivity.
  - split; [|by apply keeps_eq]. eapply ph_kept; [exact H|].
    split; [|split_and!; [done..|by apply keeps_eq]]. rewrite <- Hc.
    by destruct s as [? ? ? [] ? ? ? ? ? ? ? ? ? ? ? ? ?].
Qed.

(** The scheduler starts: the system invariant holds, and there are the two
    processes that [main] makes. *)
Definition boot_done (s : kstate) : Prop :=
  (exists total : resources, inv total 0 (World s (Scheduling NPROC) boot_threads))
  /\ nextpid s = 3 /\ exists tf0 pt0 tf1 pt1, procs s = boot_table tf0 pt0 tf1 pt1.

Lemma made_done s : phase_made s -> boot_done s.
Proof.
  intros (Q & Hc & Hi & Hn & (tf0 & pt0 & tf1 & pt1 & Hp) & total & free & tbls & ktbl & M & MS & MT).
  split; [|split; [done|by exists tf0, pt0, tf1, pt1]].
  exists total. split; cbn [w_state w_runner w_threads]; try done.
  - rewrite Hp, Hn. apply boot_table_ok.
  - rewrite Hn. lia.
  - by exists free, tbls, ktbl.
Qed.

(** Everything after the trap vector is set. *)
Lemma statements_safe s :
  (boot_pages <= n_pages)%nat -> armed phase_raw s ->
  safe boot_done (drop 2 main_statements) s.
Proof.
  intros Hn H. assert (Hk : (kvminit_pages <= n_pages)%nat) by (unfold boot_pages in Hn; lia).
  unfold main_statements. cbn [app drop].
  apply (safe_talk phase_raw _ _ _ _ greet_talks); [|done]. clear s H. intros s H.
  refine (safe_step phase_raw phase_pages _ _ _ s H pmm_step _). clear s H. intros s H.
  refine (safe_step phase_pages phase_mapped _ _ _ s H (fun s => kvminit_step s Hk) _). clear s H. intros s H.
  refine (safe_step phase_mapped phase_paged _ _ _ s H kvminithart_step _). clear s H. intros s H.
  apply (safe_talk phase_paged _ _ _ _ greet_paged_talks); [|done]. clear s H. intros s H.
  refine (safe_step phase_paged phase_empty _ _ _ s H (fun s => procinit_step s Hn) _). clear s H. intros s H.
  refine (safe_step phase_empty phase_init _ _ _ s H userinit_step _). clear s H. intros s H.
  refine (safe_step phase_init phase_made _ _ _ s H create_step _). clear s H. intros s H.
  refine (safe_step phase_made phase_made _ _ _ s H scheduler_begin_step _). clear s H. intros s H.
  exact (safe_end phase_made _ s H made_done).
Qed.

(** Before the trap vector is set, an interrupt goes astray. *)
Lemma unset_step m l s c :
  stvec (csr s) <> sym_kernelvec -> (exists s', m s = Done tt s') -> rtc bstep (Booting (m :: l) s) c ->
  c = Booting (m :: l) s \/ (exists s', c = Astray (m :: l) s')
  \/ exists s', m s = Done tt s' /\ rtc bstep (Booting l s') c.
Proof.
  intros Hv [s2 Hm] Hr. inversion Hr as [|? y ? Hs Hr']; subst; [by left|right].
  inversion Hs as [m1 l1 s0 s1 E|m1 l1 s0 Hno|cause l1 s0 s1 _ Hi|cause pc tval l1 s0 _ _ _
    |cause pc tval l1 s0 _ _ Hv']; subst; try done.
  - right. by exists s1.
  - by destruct (Hno s2).
  - by destruct Hi.
  - left. eexists. by apply (ended_steps (Astray _ _)).
Qed.

Lemma raw_after_vector s s1 :
  powered s -> ready s1 -> core s1 = core (set_printlock (Spinlock 0 "printlock" None) s) ->
  exists s2, trapinithart s1 = Done tt s2 /\ armed phase_raw s2.
Proof.
  intros [P1 P2 P3 P4 P5 P6 P7 P11 P8 P9 P10] R C1. eexists. split; [reflexivity|]. split; [|done].
  assert (F1 : fresh s1).
  { apply (fresh_core (set_printlock (Spinlock 0 "printlock" None) s)); [|apply R|exact C1].
    split; try done. by apply (hart_ok_same s). }
  apply (ph_kept s1); [|split_and!; [done..|by intros _]]. split; [exact F1|].
  split; [apply (f_equal procs) in C1; by rewrite <- P4|apply (f_equal freelist) in C1; by rewrite <- P5].
Qed.

(** What holds at every point of a boot: the next statement runs to its end, and at
    the end the kernel is up. *)
Definition on_way (l : list (M unit)) (s : kstate) : Prop :=
  match l with
  | [] => boot_done s
  | m :: _ => exists s', m s = Done tt s'
  end.

(** The statements left while the trap vector is not set. *)
Definition unset (l : list (M unit)) : Prop := l = main_statements \/ l = drop 1 main_statements.

Definition boot_point (c : boot_config) : Prop :=
  match c with
  | Booting l s => on_way l s /\ (unset l \/ stvec (csr s) = sym_kernelvec /\ awake s)
  | Astray l _ => unset l
  | Dead cause _ => cause = SCAUSE_EXTERNAL
  | Failed _ _ => False
  end.

Lemma safe_point c : safe_config boot_done c -> boot_point c.
Proof.
  destruct c as [l s| | |]; try done. intros H.
  destruct l as [|m l]; destruct (H s (rtc_refl _ _)) as (Ha & Hv & Hs); (split; [|by right]).
  - exact Hs.
  - destruct Hs as (s' & E & _). by exists s'.
Qed.

Lemma boot_points s c :
  powered s -> (boot_pages <= n_pages)%nat -> stvec (csr s) <> sym_kernelvec ->
  rtc bstep (Booting main_statements s) c -> boot_point c.
Proof.
  intros P Hn Hv Hr.
  destruct (uartinit_ok s (pw_hart _ P) (pw_uart _ P)) as (s1 & E1 & R1 & _ & C1 & Cs1).
  destruct (raw_after_vector s s1 P R1 C1) as (s2 & E2 & H2).
  assert (Hv1 : stvec (csr s1) <> sym_kernelvec) by (by rewrite Cs1).
  apply unset_step in Hr as [->|[[s' ->]|(s1' & E1' & Hr)]]; [| |rewrite E1 in E1'; apply Done_inj in E1' as [_ <-]|done|by exists s1].
  { split; [by exists s1|]. left. by left. }
  { by left. }
  apply unset_step in Hr as [->|[[s' ->]|(s2' & E2' & Hr)]]; [| |rewrite E2 in E2'; apply Done_inj in E2' as [_ <-]|done|by exists s2].
  { split; [by exists s2|]. left. by right. }
  { by right. }
  apply safe_point. eapply safe_reach; [by apply statements_safe|exact Hr].
Qed.

Lemma boot_on_way s l s' :
  powered s -> (boot_pages <= n_pages)%nat -> stvec (csr s) <> sym_kernelvec ->
  rtc bstep (Booting main_statements s) (Booting l s') -> on_way l s'.
Proof. intros P Hn Hv Hr. by destruct (boot_points s _ P Hn Hv Hr). Qed.

(** The boot without interrupts is one of them. *)
Lemma seq_steps l s s' : seq l s = Done tt s' -> rtc bstep (Booting l s) (Booting [] s').
Proof.
  revert s; induction l as [|m l IH]; intros s E.
  - apply Done_inj in E as [_ <-]. apply rtc_refl.
  - cbn [seq foldr] in E. apply bind_Done_inv in E as ([] & s1 & E1 & E2).
    eapply rtc_l; [by apply b_statement|by apply IH].
Qed.

(** ** Theorem *)

(** C23: the kernel boots, unless an interrupt comes too early or from a device.
    Let timer and external interrupts be taken between any two statements of
    [main], whenever they are on, and let stvec not be kernelvec when [main]
    starts.  Then no statement ever panics, faults or spins; when the last one is
    done the system invariant holds and the process table has the two processes
    of [main] and no other.  An interrupt traps to an address other than the
    kernel's only before the second statement, [trapinithart], is done - and there
    it does so: if interrupts are on when [main] starts, such a trap can be the
    first thing that happens.  Afterwards every timer interrupt is served, and
    only an external one can end the boot. *)
Theorem boot_with_interrupts s :
  powered s -> (boot_pages <= n_pages)%nat -> stvec (csr s) <> sym_kernelvec ->
  main s = seq main_statements s
  /\ (intr_get s = true -> forall cause pc tval, interrupt cause ->
        bstep (Booting main_statements s) (Astray main_statements (trap_entry cause pc tval s)))
  /\ forall c, rtc bstep (Booting main_statements s) c ->
       match c with
       | Booting l s' => on_way l s'
           /\ (unset l \/ stvec (csr s') = sym_kernelvec
                /\ (intr_get s' = true -> forall pc tval, exists s'', served SCAUSE_TIMER pc tval s' s''))
       | Astray l s' => unset l
       | Dead cause s' => cause = SCAUSE_EXTERNAL
       | Failed m s' => False
       end.
Proof.
  intros P Hn Hv. split; [apply main_seq|]. split; [intros Hon cause pc tval Hc; by apply b_astray|].
  intros c Hr. pose proof (boot_points s c P Hn Hv Hr) as Hc. destruct c as [l s'| | |]; try exact Hc.
  destruct Hc as [Hs [Hu|[Hset Ha]]]; (split; [exact Hs|]); [by left|right]. split; [exact Hset|].
  intros Hon pc tval. by apply timer_served.
Qed.

End phases.

(** ** Witness *)

#[local] Existing Instance demo_linker.
#[local] Existing Instance demo_linker_ok.

(** From reset: an interrupt first goes astray; without it the vector is set, a timer
    interrupt is served, and the next statement runs. *)
Lemma boot_with_interrupts_witness :
  exists s0, start demo_state = Done tt s0
    /\ bstep (Booting main_statements s0) (Astray main_statements (trap_entry SCAUSE_TIMER 0 0 s0))
    /\ exists s2 s3, rtc bstep (Booting main_statements s0) (Booting (drop 2 main_statements) s2)
         /\ irq SCAUSE_TIMER s2 s3
         /\ exists m s4, drop 2 main_statements !! 0%nat = Some m /\ m s3 = Done tt s4.
Proof.
  destruct (start_powers demo_state demo_reset) as (s0 & E0 & B & P & Hs & _).
  assert (Hv : stvec (csr s0) <> sym_kernelvec) by (rewrite Hs; vm_compute; congruence).
  destruct (boot_with_interrupts s0 P demo_boot_pages Hv) as (_ & Hastray & Hway).
  exists s0. split; [exact E0|].
  split; [apply Hastray; [apply (bt_intr s0 B)|left; reflexivity]|].
  destruct (uartinit_ok s0 (pw_hart _ P) (pw_uart _ P)) as (s1 & E1 & _ & _ & _ & Cs1).
  set (s2 := set_csr (set_stvec sym_kernelvec (csr s1)) s1).
  assert (H2 : rtc bstep (Booting main_statements s0) (Booting (drop 2 main_statements) s2)).
  { eapply rtc_l; [apply (b_statement uartinit _ _ _ E1)|]. apply rtc_once, (b_statement trapinithart). reflexivity. }
  assert (Hon : intr_get s2 = true).
  { change (intr_get s2) with (intr_get s1). unfold intr_get. rewrite Cs1. exact (bt_intr _ B). }
  destruct (Hway _ H2) as (_ & [[Hl|Hl]|[Hset Ht]]); [by apply (f_equal length) in Hl..|].
  destruct (Ht Hon 0 0) as [s3 H3].
  pose proof (irq_taken SCAUSE_TIMER s2 0 0 s3 Hset Hon H3) as Hi.
  exists s2, s3. split; [exact H2|]. split; [exact Hi|].
  assert (Hr : rtc bstep (Booting main_statements s0) (Booting (drop 2 main_statements) s3)).
  { eapply rtc_r; [exact H2|]. apply (b_irq SCAUSE_TIMER); [left; reflexivity|exact Hi]. }
  destruct (Hway _ Hr) as ([s4 E4] & _).
  eexists _, s4. split; [reflexivity|exact E4].
Defined.
