(* ===== verification/System.v ===== *)
(** * The running system

    What holds of the kernel in every state it can reach: from reset through
    [start], [main] with any interrupts between its statements, and then any
    interleaving of the scheduler, interrupts between its rounds, and threads
    that create processes, yield, wait and exit.  The theorems instantiate the
    invariant of SchedInv.v, established by BootIrq.v and kept by every step, and
    the progress and fairness lemmas of SchedLive.v. *)

From S2P Require Import Prelude Riscv Memory State Spinlock Kalloc Vm VmMap Sv39 VmKernel VmDestroy Uart Printf Csr Proc ProcTable ProcMem ProcExit Switch Trap Sched SchedMem SchedStep SchedInv SchedLive ProcInit Boot BootInv BootIrq.

Section system.
Context {L : Linker} {LO : LinkerOk}.

(** The states in which the scheduler starts: after reset, where the trap vector
    holds anything but the kernel's own, [start], and [main] with any interrupts
    between its statements. *)
Definition boots (s1 : kstate) : Prop :=
  exists s s0, reset s /\ (boot_pages <= n_pages)%nat /\ stvec (csr s) <> sym_kernelvec
    /\ start s = Done tt s0 /\ rtc bstep (Booting main_statements s0) (Booting [] s1).

Definition boot_world (s1 : kstate) : world := World s1 (Scheduling NPROC) boot_threads.

(** The worlds the kernel reaches from reset. *)
Definition reachable (w : world) : Prop := exists s1, boots s1 /\ rtc step (boot_world s1) w.

Lemma boots_done s1 : boots s1 -> boot_done s1.
Proof.
  intros (s & s0 & R & Hn & Hv & E & Hb). destruct (start_powers s R) as (s0' & E' & _ & P & Hs & _).
  rewrite E' in E. apply Done_inj in E as [_ <-]. rewrite <- Hs in Hv.
  exact (boot_on_way s0' [] s1 P Hn Hv Hb).
Qed.

Lemma rtc_inv n ip w w' : rtc step w w' -> inv n ip w -> inv n ip w'.
Proof. induction 1 as [|w w1 w2 Hs _ IH]; [done|]. intros I. apply IH. by eapply step_inv. Qed.

Lemma reachable_inv w : reachable w -> exists n, inv n 0 w.
Proof.
  intros (s1 & Hb & Hr). destruct (boots_done s1 Hb) as [[n I] _]. exists n. by eapply rtc_inv.
Qed.

(** The kernel's own memory while the invariant holds. *)
Lemma inv_stacked n ip w : inv n ip w -> exists tbl free, stacked (w_state w) tbl free (stack_pages n).
Proof.
  intros I. destruct (iv_memory _ _ _ I) as (free & tbls & ktbl & Hm). destruct (iv_stacks _ _ _ I) as (H1 & H2 & H3).
  exists ktbl, free. split; [apply Hm|apply Hm|apply I|done|done|]. intros p Hp.
  rewrite Forall_forall in H3. split; [by apply H3|]. by apply (mo_stacks _ _ _ _ _ Hm).
Qed.

Lemma reachable_steps w w' : reachable w -> rtc step w w' -> reachable w'.
Proof. intros (s1 & Hb & Hr) H. exists s1. split; [done|]. by etrans. Qed.

(** The boot without interrupts is one of them. *)
Lemma main_boots s s0 s1 :
  reset s -> (boot_pages <= n_pages)%nat -> stvec (csr s) <> sym_kernelvec ->
  start s = Done tt s0 -> main s0 = Done tt s1 -> boots s1.
Proof.
  intros R Hn Hv E0 E1. exists s, s0. split_and!; [done..|]. apply seq_steps. by rewrite <- main_seq.
Qed.

(** ** Theorems *)

(** C1: every page of RAM always has exactly one owner.  Along any run of the
    kernel there is one list of pages, the kernel stacks, such that in every state
    the pages the allocator manages - those between the kernel's end and PHYSTOP,
    each once ([all_pages]) - are: the free list that [pool] reads from memory; the
    pages of the kernel's page table in force; the kernel stacks, each mapped at
    its slot's address; and for each live slot its trapframe page and the three
    pages of its page table, which the slot's own fields lead to ([slot_owns]).
    So creating, running and reaping processes neither loses, shares nor invents a
    page.  And the rest of the system invariant holds ([inv]): the locks are free,
    the current process is the one whose slot is running, init is slot 0 and the
    process table is sound ([table_ok]). *)
Theorem system_invariant w :
  reachable w -> exists total : resources, forall w', rtc step w w' ->
    inv total 0 w'
    /\ exists free tbls ktbl,
         let s := w_state w' in
         pool s free
         /\ pt_wf (mem s) (kernel_pagetable s) ktbl /\ satp (csr s) = MAKE_SATP (kernel_pagetable s)
         /\ kernel_map s (stack_pages total)
         /\ (forall k q, procs s !! k = Some q -> live q ->
              slot_owns s k q (tbls k) free /\ size (tbls k) = 3%nat)
         /\ free ++ (map_to_list ktbl).*2 ++ stack_pages total ++ slots_pages 0 (procs s) tbls ≡ₚ all_pages
         /\ NoDup all_pages /\ forall p, p ∈ all_pages <-> page_ok p.
Proof.
  intros [n I]%reachable_inv. exists n. intros w' Hr. pose proof (rtc_inv _ _ _ _ Hr I) as I'.
  split; [exact I'|]. destruct (iv_memory _ _ _ I') as (free & tbls & ktbl & Hm). exists free, tbls, ktbl.
  destruct (mo_kernel _ _ _ _ _ Hm) as [Hp Hw _]. destruct (inv_stacked _ _ _ I') as (tbl & fr & St).
  split_and!; [done|done|apply I'|by eapply stacked_map| |apply Hm|apply NoDup_pages_from|apply pages_from_ok].
  intros k q Hq Hl. split; [by eapply mo_slot|by eapply mo_size].
Qed.

(** C10: the kernel's address space never changes, and every process keeps a stack
    of its own.  Along any run there is one list of 64 distinct pages such that in
    all its states: the hardware translates the page at a slot's [kstack] to the
    slot's page of the list, readable and writable, faults on the guard page
    below it, and translates every other address as kernel/mm/vm.c's identity map
    does ([kernel_map]); none of these pages is on the free list or owned by a
    process; slot [k]'s [kstack] is KSTACK(k); and a process that has not run yet
    will start in [forkret] with its stack pointer at the top of that stack. *)
Theorem stacks_are_private w w' :
  reachable w -> rtc step w w' ->
  exists stacks, length stacks = NPROC /\ NoDup stacks /\ Forall page_ok stacks
    /\ forall v, v = w \/ v = w' ->
      kernel_map (w_state v) stacks
      /\ (exists free tbls, pool (w_state v) free /\ forall a, a ∈ stacks -> (a ∉ free)
           /\ forall k q, procs (w_state v) !! k = Some q -> live q ->
                slot_owns (w_state v) k q (tbls k) free /\ a ∉ slot_pages q (tbls k))
      /\ (forall k q, procs (w_state v) !! k = Some q -> p_kstack q = KSTACK (Z.of_nat k)
           /\ (p_state q = RUNNABLE -> w_threads v !! k = Some RStart ->
                ra (p_context q) = sym_forkret /\ sp (p_context q) = KSTACK (Z.of_nat k) + PGSIZE)).
Proof.
  intros [n I]%reachable_inv Hr. pose proof (rtc_inv _ _ _ _ Hr I) as I'. exists (stack_pages n).
  destruct (iv_stacks _ _ _ I) as (Hl & Hn & Hp). split_and!; [done..|].
  intros v Hv. assert (Iv : inv n 0 v) by by destruct Hv as [->| ->]. clear I I' Hr Hv w w'.
  split; [|split].
  - destruct (inv_stacked _ _ _ Iv) as (tbl & free & St). by eapply stacked_map.
  - destruct (iv_memory _ _ _ Iv) as (free & tbls & ktbl & Hm). exists free, tbls.
    split; [apply (mo_kernel _ _ _ _ _ Hm)|]. intros a Ha. destruct (mo_stacks _ _ _ _ _ Hm a Ha) as [H1 H2].
    split; [done|]. intros k q Hq Hq'. split; [by eapply mo_slot|by apply H2].
  - intros k q Hq. pose proof (iv_table _ _ _ Iv) as Ht. pose proof (to_kstack _ _ _ _ _ _ _ Ht Hq) as Hk.
    split; [done|]. intros Hs HT. pose proof (to_slot _ _ _ _ _ Ht k q Hq) as H. unfold slot_ok in H.
    rewrite Hs in H. destruct H as (r & Hr & Hrd). rewrite HT in Hr. injection Hr as <-.
    destruct Hrd as (H1 & H2 & _). split; [done|]. rewrite H2, Hk. apply u64_small.
    pose proof (lookup_lt_Some _ _ _ Hq) as Hb. rewrite (to_length _ _ _ _ _ Ht) in Hb.
    destruct (kstack_facts k Hb) as (_ & _ & H0 & Hhi & _). unfold PGSIZE in *. lia.
Qed.

(** The translations a hart may still hold from before [procinit].  [kvminithart]
    executes the kernel's only [sfence.vma], when [kernel_translate] is the map in
    force ([kernel_space_is_identity] of VmKernel.v); [procinit] extends it.  The
    old map differs from the present one only on the stacks, which it faults on. *)
Theorem unfenced_stacks w va :
  reachable w -> 0 <= va < 2 ^ 64 ->
  hw_translate (w_state w) va = kernel_translate va
  \/ (exists j, (j < NPROC)%nat /\ vbase va = KSTACK (Z.of_nat j)) /\ kernel_translate va = None.
Proof.
  intros [n I]%reachable_inv Hva. destruct (inv_stacked _ _ _ I) as (tbl & free & St).
  pose proof (stacked_map _ _ _ _ St) as [_ _ Ho].
  destruct (stack_of (stack_pages n) va) as [pa|] eqn:Es; [right|left; by apply Ho].
  apply stack_of_Some in Es as (j & Hj & Hv). apply lookup_lt_Some in Hj. rewrite (st_length _ _ _ _ St) in Hj.
  split; [by exists j|]. rewrite <- kernel_leaf_translate by done. rewrite kernel_leaf_above.
  - by destruct (canonical va).
  - rewrite Hv. pose proof (kstack_range j Hj). unfold PGSIZE in *. lia.
Qed.

(** C8: at most one process runs.  A slot is RUNNING exactly when its thread has
    the CPU, and then it is the process [myproc] returns; while the scheduler
    has the CPU, [myproc] is null and no slot is RUNNING. *)
Theorem one_process_runs w k q :
  reachable w -> procs (w_state w) !! k = Some q ->
  (p_state q = RUNNING <-> w_runner w = Running k)
  /\ (p_state q = RUNNING <-> c_proc (cpu0 (w_state w)) = Some k)
  /\ p_state q <> USED.
Proof.
  intros [n I]%reachable_inv Hq. pose proof (to_slot _ _ _ _ _ (iv_table _ _ _ I) k q Hq) as Hs.
  pose proof (iv_runner _ _ _ I) as Hr. unfold slot_ok, runner_ok in *.
  destruct (w_runner w) as [i|p].
  - destruct Hr as [_ Hc]. rewrite Hc. destruct (p_state q); try done;
      try (by destruct Hs as [[=] _]); split_and!; try done; split; intros [=].
  - destruct Hr as [Hc (r & Hp & Hrun)]. rewrite Hc. split_and!.
    + split; [|intros [= ->]; congruence]. intros E. rewrite E in Hs. by destruct Hs.
    + split; [intros E; rewrite E in Hs; destruct Hs as [[= ->] _]; done|]. intros [= ->]. congruence.
    + intros E. by rewrite E in Hs.
Qed.

(** C6: no wake-up is lost.  A sleeping process sleeps in [wait_process], on its
    own slot, and it has a child, none of whose children has exited: a child's
    exit wakes it in time, also when the child was inherited from an exiting
    process. *)
Theorem no_lost_wakeup w k q :
  reachable w -> procs (w_state w) !! k = Some q -> p_state q = SLEEPING ->
  p_chan q = PProc k
  /\ (exists j r, procs (w_state w) !! j = Some r /\ p_parent r = Some k)
  /\ (forall j r, procs (w_state w) !! j = Some r -> p_parent r = Some k -> p_state r <> ZOMBIE).
Proof.
  intros [n I]%reachable_inv Hq Hs. pose proof (iv_table _ _ _ I) as Ht. split_and!.
  - pose proof (to_slot _ _ _ _ _ Ht k q Hq) as H. unfold slot_ok in H. rewrite Hs in H. apply H.
  - by eapply to_kids.
  - intros j r Hr Hp. exact (to_awake _ _ _ _ _ Ht _ _ _ _ Hq Hs Hr Hp).
Qed.

(** C9: the process tree.  Live processes have positive, pairwise distinct pids
    below [nextpid]; a process's parent is another process, alive and not a
    zombie; init, in slot 0, never dies and has no parent; and no process is ever
    marked as killed. *)
Theorem process_tree w :
  reachable w ->
  let ps := procs (w_state w) in
  (forall k q, ps !! k = Some q -> live q -> 0 < p_pid q < nextpid (w_state w))
  /\ (forall j k q r, ps !! j = Some q -> ps !! k = Some r -> live q -> live r ->
        p_pid q = p_pid r -> j = k)
  /\ (forall k q j, ps !! k = Some q -> p_parent q = Some j -> j <> k /\ can_parent ps j)
  /\ initproc (w_state w) = Some 0%nat /\ can_parent ps 0
  /\ (forall q, ps !! 0%nat = Some q -> p_parent q = None)
  /\ (forall k q, ps !! k = Some q -> p_killed q = 0).
Proof.
  intros [n I]%reachable_inv ps. pose proof (iv_table _ _ _ I) as Ht.
  pose proof Ht as [A1 A2 A3 [A4 A4'] A5 A6 A7 A8 A9].
  pose proof (iv_init _ _ _ I). split_and!; try done. intros k q Hq. by eapply to_killed.
Qed.

(** C5: no page leaks and no page is shared.  Between any two states of a run the
    number of free pages plus four for each live process is the same; the free
    list is well-formed; every live process owns a trapframe page and the three
    pages of its page table; and pages of different processes, of the kernel's
    page table and of the free list are all different. *)
Theorem pages_conserved w w' :
  reachable w -> rtc step w w' ->
  exists total, forall v, v = w \/ v = w' ->
    exists free tbls ktbl, memory_ok total (w_state v) free tbls ktbl
      /\ pool (w_state v) free
      /\ (length free + 4 * live_count (procs (w_state v)) = total)%nat.
Proof.
  intros [n I]%reachable_inv Hr. pose proof (rtc_inv _ _ _ _ Hr I) as I'. exists n.
  intros v [-> | ->]; [destruct (iv_memory _ _ _ I) as (f & t & k & H)|destruct (iv_memory _ _ _ I') as (f & t & k & H)];
    exists f, t, k; split_and!; try done; apply H.
Qed.

(** C11: threads are never interrupted.  Whenever a thread has the CPU, interrupts
    are disabled, so no timer tick can take the CPU from it: the scheduler
    masks interrupts before it takes the slot's lock, so the thread's release
    of that lock leaves them masked. *)
Theorem threads_uninterrupted w p :
  reachable w -> w_runner w = Running p -> intr_get (w_state w) = false.
Proof. intros [n I]%reachable_inv Hp. apply (iv_sie _ _ _ I). by rewrite Hp. Qed.

(** C4: the kernel never gets stuck.  While the scheduler has the CPU its next
    look at the table goes through, whatever it finds.  A running thread's calls
    end: yielding, waiting and, except for init, exiting always succeed;
    creating a process succeeds if there is a free slot and four free pages, and
    panics with the message that says which was missing otherwise; and exit of
    init panics.  No call faults or spins. *)
Theorem system_progress w :
  reachable w ->
  match w_runner w with
  | Scheduling i => exists w', step w w'
  | Running p =>
      let s := w_state w in
      (exists v s1 s2, yield_enter s = Done (p, v) s1 /\ scheduler_back p s1 = Done tt s2)
      /\ (exists q r s1 s2 w', wait_begin s = Done q s1 /\ wait_round q s1 = Done r s2
            /\ after_wait p s2 (w_threads w) r w')
      /\ (forall status, if decide (p = 0%nat)
            then exists s1, exit_process status s = Panic "init exiting" s1
            else exists v s1 s2, exit_process status s = Done v s1 /\ scheduler_back p s1 = Done tt s2)
      /\ (forall fn free, pool s free ->
            match first_unused (procs s) with
            | None => exists s1, create_process fn s = Panic "create_process: alloc_process failed" s1
            | Some k =>
                if (length free <? 4)%nat then exists s1, create_process fn s = Panic "alloc_page" s1
                else exists s1, create_process fn s = Done (nextpid s) s1
                  /\ exists tf pt, procs s1 = alter (created (nextpid s) tf pt fn (Some p)) k (procs s)
            end)
  end.
Proof.
  intros [n I]%reachable_inv. destruct w as [s [i|p] T]; cbn [w_runner w_state w_threads].
  { by eapply look_progress. }
  cbv zeta. split_and!.
  - by eapply yield_progress.
  - destruct (wait_progress _ _ _ _ _ I) as (r & s2 & w' & E & Ha).
    exists (Some p), r, (locked_state L_wait s), s2, w'. split; [by eapply wait_begin_ok|done].
  - intros status. destruct (decide (p = 0%nat)) as [->|Hp]; [by eapply exit_init_panics|by eapply exit_progress].
  - intros fn free Hp. by eapply create_cases.
Qed.

(** C7: the scheduler is fair.  From a state where slot [k] is runnable, along any
    run in which it does not get the CPU: it stays runnable, and the scheduler
    gets exactly one turn closer to it with every slot it looks at, so that it
    looks at fewer than 64 other slots before it switches to [k]; and at every
    point such a run has a continuation in which it does switch to [k]. *)
Theorem scheduler_fair w w' k c :
  reachable w -> runnable k w -> waits k c w w' ->
  runnable k w' /\ (c + turns_before k w' = turns_before k w)%nat /\ (turns_before k w < NPROC)%nat
  /\ (exists w1, rtc step w' w1 /\ dispatches k w1).
Proof.
  intros [n I]%reachable_inv Hr Hw. destruct (waits_runnable n 0 k c w w' Hw I Hr) as [Hr' Ht].
  assert (I' : inv n 0 w').
  { clear -Hw I LO. induction Hw as [|c w w1 w2 Hd Hs Hw IH]; [done|]. apply IH. by eapply step_inv. }
  split_and!; [done|done| |].
  - pose proof Hr as (q & Hq & _). pose proof (lookup_lt_Some _ _ _ Hq) as Hk.
    rewrite (to_length _ _ _ _ _ (iv_table _ _ _ I)) in Hk.
    assert (next_look w <= NPROC)%nat.
    { destruct w as [s [i|p] T]; cbn [next_look w_runner]; destruct (iv_runner _ _ _ I) as [H1 H2]; [done|].
      destruct H2 as (r & Hp & _). cbn [w_state] in Hp. apply lookup_lt_Some in Hp.
      pose proof (to_length _ _ _ _ _ (iv_table _ _ _ I)) as Hl. cbn [w_state] in Hl. lia. }
    unfold turns_before. destruct (Nat.leb_spec (next_look w) k); lia.
  - by eapply dispatches_eventually.
Qed.

End system.

(** ** Witnesses *)

#[local] Existing Instance demo_linker.
#[local] Existing Instance demo_linker_ok.

(** The scheduler's first round after reset, and init's first turn. *)
Lemma demo_boot : exists s n, reachable (World s (Scheduling NPROC) boot_threads)
  /\ inv n 0 (World s (Scheduling NPROC) boot_threads) /\ (300 <= n)%nat /\ nextpid s = 3
  /\ (exists a b c d, procs s = boot_table a b c d)
  /\ exists q, procs s !! 0%nat = Some q /\ p_state q = RUNNABLE.
Proof.
  destruct (start_powers demo_state demo_reset) as (s0 & E0 & _ & P & _).
  destruct (main_ok s0 P demo_boot_pages) as (s & n & E & I & Hn & [Hpid _ _ Hps]).
  exists s, n. split.
  - exists s. split; [|apply rtc_refl].
    by apply (main_boots demo_state s0 s demo_reset demo_boot_pages ltac:(by vm_compute)).
  - clear E. split; [exact I|]. split_and!; [|exact Hpid| |].
    + assert (Hb : (boot_pages + 300 <= n_pages)%nat) by (apply Nat.leb_le; by vm_compute). lia.
    + exact Hps.
    + destruct Hps as (? & ? & ? & ? & ->). eexists. split; reflexivity.
Qed.

Lemma demo_running : exists s T n, reachable (World s (Running 0) T) /\ inv n 0 (World s (Running 0) T)
  /\ (300 <= n)%nat /\ nextpid s = 3
  /\ exists a b c d, procs s = alter (set_p_state RUNNING) 0%nat (boot_table a b c d).
Proof.
  destruct demo_boot as (s & n & Hr & I & Hn & Hpid & (a & b & c & d & Hps) & q & Hq & Hst).
  assert (H1 : step (World s (Scheduling NPROC) boot_threads) (World (sie_off s) (Scheduling 0) boot_threads)).
  { eexists; apply step_round, window_ok. }
  pose proof (step_inv _ _ _ _ I H1) as I1. pose proof (iv_quiet _ _ _ I1) as Q. cbn [w_state] in Q.
  assert (Hb : (0 < NPROC)%nat) by (unfold NPROC; lia).
  pose proof (scheduler_try_ok 0 q (sie_off s) (qu_hart _ Q) (qu_procs _ Q) Hq) as Et.
  rewrite bool_decide_eq_true_2 in Et by done.
  assert (HT : boot_threads !! 0%nat = Some RStart) by done.
  destruct (inv_threads _ _ _ _ _ _ I1 Hq Hst) as (r & HT' & Hrd). rewrite HT in HT'. injection HT' as <-.
  destruct (forkret_ok 0 q (sie_off s)) as (j & [(_ & Ef)|(E0 & _)]);
    [by apply quiet_scheduling; [|apply (iv_runner _ _ _ I1)]|by apply (quiet_free _ L_print)|apply Q|done| |by destruct Hrd as (_ & _ & Hrd)].
  assert (H2 : step (World (sie_off s) (Scheduling 0) boot_threads)
    (World (started 0 q j (sie_off s)) (Running 0) (delete 0%nat boot_threads))) by by eexists; eapply step_start.
  eexists _, _, n. split_and!.
  - apply (reachable_steps _ _ Hr). eapply rtc_l; [exact H1|]. apply rtc_once, H2.
  - by eapply step_inv.
  - done.
  - done.
  - exists a, b, c, d. by rewrite <- Hps.
Qed.

(** Init creates a process and waits for it. *)
Lemma demo_sleeping : exists s T q, reachable (World s (Scheduling 1) T)
  /\ procs s !! 0%nat = Some q /\ p_state q = SLEEPING.
Proof.
  destruct demo_running as (s & T & n & Hr & I & Hn & Hpid & a & b & c & d & Hps).
  destruct (iv_memory _ _ _ I) as (free & tbls & ktbl & Hm). cbn [w_state] in Hm.
  pose proof (mo_count _ _ _ _ _ Hm) as Hcount.
  assert (Hu : first_unused (procs s) = Some 2%nat) by by rewrite Hps.
  assert (Hlc : live_count (procs s) = 2%nat) by (rewrite Hps; by vm_compute).
  pose proof (create_cases _ _ _ _ _ 0x80002004 free I (vm_pool _ _ _ _ (mo_kernel _ _ _ _ _ Hm))) as Hc.
  rewrite Hu in Hc. rewrite (proj2 (Nat.ltb_ge (length free) 4)) in Hc by lia.
  destruct Hc as (s1 & E1 & tf & pt & Hps1). rewrite Hps in Hps1.
  assert (H1 : step (World s (Running 0) T) (World s1 (Running 0) (<[2%nat := RStart]> T))).
  { eexists; apply (step_create 0 0x80002004 (nextpid s) 2); [lia|rewrite Hpid; lia|exact Hu|exact E1]. }
  clear E1. pose proof (step_inv _ _ _ _ I H1) as I1.
  destruct (inv_running _ _ _ _ _ I1) as (Hqu & Hoff & q & Hq & Hst & R).
  pose proof (wait_round_none s1 0 q R (quiet_free s1 L_wait Hqu Logic.I)) as Ew.
  rewrite Hps1 in Hq, Ew. injection Hq as <-. specialize (Ew eq_refl).
  cbn [p_killed created] in Ew.
  assert (Ew' : wait_round (Some 0%nat) (locked_state L_wait s1)
    = Done (WaitSleep 0 (c_bool (intr_get s1))) (parked 0 (asleep (PProc 0)) (touch s1))) by exact Ew.
  assert (H2 : step (World s1 (Running 0) (<[2%nat := RStart]> T))
    (World (descheduled 0 (asleep (PProc 0)) (touch (touch s1))) (Scheduling 1)
      (<[0%nat := RWait (c_bool (intr_get s1))]> (<[2%nat := RStart]> T)))).
  { eexists; eapply step_wait; [by eapply wait_begin_ok|exact Ew'|]. constructor.
    eapply back_parked; [apply _|by apply quiet_touch|]. apply (ru_slot _ _ _ R). }
  eexists _, _, _. split; [|split].
  - apply (reachable_steps _ _ Hr). eapply rtc_l; [exact H1|]. apply rtc_once, H2.
  - apply (lookup_alter_slot (touch (touch s1))). apply (ru_slot _ _ _ R).
  - done.
Qed.

Lemma no_lost_wakeup_witness : exists s T q, reachable (World s (Scheduling 1) T)
  /\ procs s !! 0%nat = Some q /\ p_chan q = PProc 0.
Proof.
  destruct demo_sleeping as (s & T & q & Hr & Hq & Hs). exists s, T, q.
  split; [exact Hr|]. split; [exact Hq|]. exact (proj1 (no_lost_wakeup _ 0 q Hr Hq Hs)).
Defined.

(** After init's first turn has begun: no page is lost. *)
Lemma system_invariant_witness : exists s T free rest, reachable (World s (Running 0) T)
  /\ pool s free /\ free ++ rest ≡ₚ all_pages.
Proof.
  destruct demo_running as (s & T & n & Hr & _). destruct (system_invariant _ Hr) as [total H].
  destruct (H _ (rtc_refl _ _)) as (_ & free & tbls & ktbl & Hp & _ & _ & _ & _ & Hall & _).
  exists s, T, free, ((map_to_list ktbl).*2 ++ stack_pages total ++ slots_pages 0 (procs s) tbls).
  split; [exact Hr|]. split; [exact Hp|exact Hall].
Defined.

Lemma one_process_runs_witness : exists s T q, procs s !! 0%nat = Some q /\ p_state q = RUNNING
  /\ reachable (World s (Running 0) T).
Proof.
  destruct demo_running as (s & T & n & Hr & I & _).
  destruct (iv_runner _ _ _ I) as [_ (q & Hq & _)]. exists s, T, q.
  split; [exact Hq|]. split; [|exact Hr].
  exact (proj2 (proj1 (one_process_runs _ 0 q Hr Hq)) eq_refl).
Defined.

Lemma process_tree_witness : exists s, can_parent (procs s) 0 /\ initproc s = Some 0%nat.
Proof.
  destruct demo_running as (s & T & n & Hr & I & _). exists s.
  destruct (process_tree _ Hr) as (_ & _ & _ & Hi & Hc & _ & _). split; [exact Hc|exact Hi].
Defined.

Lemma pages_conserved_witness : exists s T total free, pool s free
  /\ (length free + 4 * live_count (procs s))%nat = total /\ reachable (World s (Running 0) T).
Proof.
  destruct demo_running as (s & T & n & Hr & I & _). destruct (pages_conserved _ _ Hr (rtc_refl _ _)) as [total H].
  destruct (H _ (or_introl eq_refl)) as (free & _ & _ & _ & Hp & Hc).
  exists s, T, total, free. split; [exact Hp|]. split; [exact Hc|exact Hr].
Defined.

Lemma stacks_are_private_witness : exists s T stacks, reachable (World s (Running 0) T)
  /\ kernel_map s stacks /\ length stacks = NPROC.
Proof.
  destruct demo_running as (s & T & n & Hr & I & _). destruct (stacks_are_private _ _ Hr (rtc_refl _ _)) as (l & Hl & _ & _ & H).
  exists s, T, l. split; [exact Hr|]. split; [exact (proj1 (H _ (or_introl eq_refl)))|exact Hl].
Defined.

Lemma threads_uninterrupted_witness : exists s T, reachable (World s (Running 0) T) /\ intr_get s = false.
Proof.
  destruct demo_running as (s & T & n & Hr & I & _). exists s, T. split; [exact Hr|].
  exact (threads_uninterrupted _ 0 Hr eq_refl).
Defined.

Lemma system_progress_witness :
  exists s T, reachable (World s (Running 0) T) /\ exists s1, exit_process 0 s = Panic "init exiting" s1.
Proof.
  destruct demo_running as (s & T & n & Hr & I & _). exists s, T. split; [exact Hr|].
  destruct (system_progress _ Hr) as (_ & _ & Hx & _). exact (Hx 0).
Defined.

Lemma scheduler_fair_witness :
  exists s w, reachable (World s (Scheduling NPROC) boot_threads)
    /\ rtc step (World s (Scheduling NPROC) boot_threads) w /\ dispatches 0 w.
Proof.
  destruct demo_boot as (s & n & Hr & _ & _ & _ & _ & q & Hq & Hst).
  destruct (scheduler_fair _ _ 0 0 Hr (ex_intro _ q (conj Hq Hst)) (waits_none _ _))
    as (_ & _ & _ & w & Hw & Hd).
  exists s, w. split; [exact Hr|]. split; [exact Hw|exact Hd].
Defined.
