(* ===== verification/Refine.v ===== *)
(** * The kernel refines the process model

    [abs] forgets everything about a world but its processes: their pids, their
    parents' pids, whether they can run, wait or have exited, and who has the
    CPU.  Every step of the kernel is then a run of ProcModel.v's events, with
    the results the system calls return; so every run of the kernel, from reset
    through any interrupted boot, is a run of the model, and what the model
    promises holds of the pids and statuses that the kernel's [wait_process]
    gives out. *)

From S2P Require Import Prelude Riscv Memory State Spinlock Kalloc Vm VmMap Sv39 VmKernel VmDestroy Uart Printf Csr Proc ProcTable ProcMem ProcExit Switch Trap ProcModel Sched SchedMem SchedStep SchedInv SchedLive ProcInit Boot BootInv BootIrq System.

Section refine.
Context {L : Linker} {LO : LinkerOk}.

(** ** The abstraction *)

Definition pstatus_of (q : proc) : pstatus :=
  match p_state q with
  | SLEEPING => Waiting
  | ZOMBIE => Exited (p_xstate q)
  | _ => Able
  end.

Definition pid_of (ps : list proc) (j : nat) : option Z := p_pid <$> ps !! j.

Definition entry (ps : list proc) (q : proc) : process := Process (p_parent q ≫= pid_of ps) (pstatus_of q).

#[global] Instance live_dec q : Decision (live q). Proof. unfold live. apply _. Defined.

Definition abs_procs (ps : list proc) : gmap Z process :=
  list_to_map ((fun q => (p_pid q, entry ps q)) <$> filter live ps).

Definition abs_current (s : kstate) (m : runner) : option Z :=
  match m with
  | Scheduling _ => None
  | Running p => Some (pid_at s p)
  end.

Definition abs (w : world) : kernel :=
  let s := w_state w in
  Kernel (abs_procs (procs s)) (abs_current s (w_runner w)) (nextpid s)
    (pid_at s (default 0%nat (initproc s))).

(** ** Tables and maps *)

Section table.
Context {m : runner} {T : gmap nat resume_point} {ip : nat} {np : Z} {ps : list proc}.
Hypothesis Hok : table_ok m T ip np ps.

Lemma abs_lookup c P :
  abs_procs ps !! c = Some P <-> exists k q, ps !! k = Some q /\ live q /\ p_pid q = c /\ P = entry ps q.
Proof.
  assert (Hin : forall c P, (c, P) ∈ (fun q => (p_pid q, entry ps q)) <$> filter live ps
    <-> exists k q, ps !! k = Some q /\ live q /\ p_pid q = c /\ P = entry ps q).
  { intros c' P'. rewrite list_elem_of_fmap. split.
    - intros (q & [= -> ->] & [Hl [k Hk]%list_elem_of_lookup_1]%list_elem_of_filter). by exists k, q.
    - intros (k & q & Hk & Hl & <- & ->). exists q. split; [done|].
      apply list_elem_of_filter. split; [done|by eapply list_elem_of_lookup_2]. }
  unfold abs_procs. rewrite <- Hin. split.
  - apply elem_of_list_to_map_2.
  - intros HP. apply elem_of_list_to_map_1'; [|done]. intros Q HQ. apply Hin in HP, HQ.
    destruct HP as (j & q & Hq & Lq & <- & ->), HQ as (k & r & Hr & Lr & E & ->).
    assert (j = k) as -> by exact (to_pids _ _ _ _ _ Hok _ _ _ _ Hq Hr Lq Lr (eq_sym E)). by simplify_eq.
Qed.

Lemma abs_slot k q : ps !! k = Some q -> live q -> abs_procs ps !! p_pid q = Some (entry ps q).
Proof. intros Hk Hl. apply abs_lookup. by exists k, q. Qed.

(** A map is the abstraction of the table if it has its entries and no other keys. *)
Lemma abs_eq M :
  (forall k q, ps !! k = Some q -> live q -> M !! p_pid q = Some (entry ps q)) ->
  (forall c, is_Some (M !! c) -> exists k q, ps !! k = Some q /\ live q /\ p_pid q = c) ->
  abs_procs ps = M.
Proof.
  intros H1 H2. apply map_eq. intros c. destruct (M !! c) as [P|] eqn:HM.
  - destruct (H2 c) as (k & q & Hk & Hl & <-); [by rewrite HM|]. rewrite (abs_slot k q Hk Hl). by rewrite <- HM, (H1 k q).
  - destruct (abs_procs ps !! c) as [P|] eqn:HP; [|done].
    apply abs_lookup in HP as (k & q & Hk & Hl & <- & ->). by rewrite (H1 k q) in HM.
Qed.

Lemma abs_key c : is_Some (abs_procs ps !! c) -> exists k q, ps !! k = Some q /\ live q /\ p_pid q = c.
Proof. intros [P (k & q & Hk & Hl & Hc & _)%abs_lookup]. by exists k, q. Qed.

(** A parent's pid belongs to the slot the parent pointer names. *)
Lemma parent_pid k q j r :
  ps !! k = Some q -> ps !! j = Some r -> live r -> p_parent q ≫= pid_of ps = Some (p_pid r) -> p_parent q = Some j.
Proof.
  intros Hq Hr Hl Hp. destruct (p_parent q) as [i|] eqn:Hi; [|done]. cbn in Hp. unfold pid_of in Hp.
  destruct (to_parent _ _ _ _ _ Hok _ _ _ Hq Hi) as [_ (t & Ht & Hu & _)]. rewrite Ht in Hp. injection Hp as Hp.
  f_equal. exact (to_pids _ _ _ _ _ Hok _ _ _ _ Ht Hr Hu Hl Hp).
Qed.

Lemma parent_some k q i : ps !! k = Some q -> p_parent q = Some i ->
  exists r, ps !! i = Some r /\ live r /\ p_state r <> ZOMBIE /\ p_parent q ≫= pid_of ps = Some (p_pid r).
Proof.
  intros Hq Hi. destruct (to_parent _ _ _ _ _ Hok _ _ _ Hq Hi) as [_ (t & Ht & Hu & Hz)].
  exists t. rewrite Hi. unfold pid_of. cbn. by rewrite Ht.
Qed.

Lemma parent_live k q i : ps !! k = Some q -> p_parent q = Some i -> live q.
Proof.
  intros Hq Hi Hu. pose proof (to_slot _ _ _ _ _ Hok _ _ Hq) as Hs. unfold slot_ok in Hs. rewrite Hu in Hs.
  destruct Hs. congruence.
Qed.

(** Children in the map are children in the table. *)
Lemma abs_child k q p r :
  ps !! k = Some q -> live q -> ps !! p = Some r -> live r ->
  (parent (entry ps q) = Some (p_pid r) <-> p_parent q = Some p).
Proof.
  intros Hq Hl Hr Hlr. cbn [parent entry]. split; [by eapply parent_pid|].
  intros Hp. destruct (parent_some k q p Hq Hp) as (t & Ht & _ & _ & E). by simplify_eq.
Qed.

Lemma abs_has_child p r :
  ps !! p = Some r -> live r ->
  has_child (p_pid r) (abs_procs ps) <-> exists k q, ps !! k = Some q /\ p_parent q = Some p.
Proof.
  intros Hr Hl. unfold has_child, map_Exists. split.
  - intros (c & P & (k & q & Hq & Hlq & <- & ->)%abs_lookup & Hp). exists k, q. split; [done|]. by eapply abs_child.
  - intros (k & q & Hq & Hp). pose proof (parent_live _ _ _ Hq Hp) as Hlq.
    exists (p_pid q), (entry ps q). split; [by eapply abs_slot|]. by eapply abs_child.
Qed.

Lemma exited_zombie q : is_exited (entry ps q) = true <-> p_state q = ZOMBIE.
Proof. unfold is_exited, entry, pstatus_of. cbn. by destruct (p_state q). Qed.

Lemma abs_dead_child p r :
  ps !! p = Some r -> live r ->
  dead_child (p_pid r) (abs_procs ps) <-> exists k q, ps !! k = Some q /\ p_parent q = Some p /\ p_state q = ZOMBIE.
Proof.
  intros Hr Hl. unfold dead_child, map_Exists. split.
  - intros (c & P & (k & q & Hq & Hlq & <- & ->)%abs_lookup & Hp & Hz). exists k, q.
    split; [done|]. split; [by eapply abs_child|by apply exited_zombie].
  - intros (k & q & Hq & Hp & Hz). pose proof (parent_live _ _ _ Hq Hp) as Hlq.
    exists (p_pid q), (entry ps q). split; [by eapply abs_slot|]. split; [by eapply abs_child|by apply exited_zombie].
Qed.

End table.

(** ** Updates of the table *)

Lemma pid_of_alter f k ps j : (forall q, p_pid (f q) = p_pid q) -> pid_of (alter f k ps) j = pid_of ps j.
Proof.
  intros Hf. unfold pid_of. rewrite alter_lookup. case_decide as Hj; [|done]. subst j.
  destruct (ps !! k); [|done]. cbn. by rewrite Hf.
Qed.

Lemma entry_pids ps ps' q :
  (forall j, p_parent q = Some j -> pid_of ps' j = pid_of ps j) -> entry ps' q = entry ps q.
Proof. intros H. unfold entry. destruct (p_parent q); [|done]. cbn. by rewrite H. Qed.

Section update.
Context {m m' : runner} {T T' : gmap nat resume_point} {ip : nat} {np np' : Z} {ps : list proc} {k : nat} {q : proc}.
Context (f : proc -> proc).
Hypothesis Hok : table_ok m T ip np ps.
Hypothesis Hok' : table_ok m' T' ip np' (alter f k ps).
Hypothesis Hq : ps !! k = Some q.

Lemma update_self : alter f k ps !! k = Some (f q).
Proof. by rewrite list_lookup_alter_eq, Hq. Qed.

Lemma update_slot j r : alter f k ps !! j = Some r -> j = k /\ r = f q \/ j <> k /\ ps !! j = Some r.
Proof. rewrite alter_lookup. case_decide as Hj; [subst j; rewrite Hq; intros [= <-]|]; auto. Qed.

(** A slot whose pid and parent stay. *)
Lemma abs_alter :
  live q -> live (f q) -> (forall q, p_pid (f q) = p_pid q) -> (forall q, p_parent (f q) = p_parent q) ->
  abs_procs (alter f k ps) = <[p_pid q := Process (parent (entry ps q)) (pstatus_of (f q))]> (abs_procs ps).
Proof.
  intros Hl Hl' Hpid Hpar. apply (abs_eq Hok').
  - intros j r Hr Hlr. rewrite (entry_pids ps (alter f k ps) r) by (intros; by apply pid_of_alter).
    apply update_slot in Hr as [[-> ->]|[Hj Hr]].
    + rewrite Hpid, lookup_insert_eq. unfold entry. by rewrite Hpar.
    + rewrite lookup_insert_ne; [by eapply abs_slot|]. intros E.
      apply Hj. exact (to_pids _ _ _ _ _ Hok _ _ _ _ Hr Hq Hlr Hl (eq_sym E)).
  - intros c [<-|[Hc Hs]]%lookup_insert_is_Some.
    + exists k, (f q). split; [apply update_self|]. split; [done|apply Hpid].
    + destruct (abs_key Hok c Hs) as (j & r & Hr & Hlr & <-). exists j, r. split; [|done].
      rewrite list_lookup_alter_ne; [done|]. intros ->. simplify_eq.
Qed.

Lemma abs_alter_same :
  live q -> live (f q) -> (forall q, p_pid (f q) = p_pid q) -> (forall q, p_parent (f q) = p_parent q) ->
  pstatus_of (f q) = pstatus_of q -> abs_procs (alter f k ps) = abs_procs ps.
Proof.
  intros Hl Hl' Hpid Hpar Hst. rewrite abs_alter by done. apply insert_id. rewrite Hst. by apply (abs_slot Hok k).
Qed.

(** Other slots' entries when slot [k] is nobody's parent. *)
Lemma entry_other j r :
  alter f k ps !! j = Some r -> j <> k -> ~ can_parent ps k -> entry (alter f k ps) r = entry ps r.
Proof.
  intros Hr Hj Hk. destruct (update_slot j r Hr) as [[? _]|[_ Hr0]]; [done|].
  apply entry_pids. intros i Hi. unfold pid_of. rewrite list_lookup_alter_ne; [done|]. intros ->.
  by destruct (to_parent _ _ _ _ _ Hok _ _ _ Hr0 Hi).
Qed.

Lemma abs_create p r tf pt fn :
  f = created np tf pt fn (Some p) -> p_state q = UNUSED -> ps !! p = Some r -> live r ->
  abs_procs (alter f k ps) = <[np := Process (Some (p_pid r)) Able]> (abs_procs ps).
Proof.
  intros Ef Hu Hr Hlr.
  assert (Hk : ~ can_parent ps k) by (intros (x & Hx & Hxu & _); by simplify_eq).
  assert (Hpk : p <> k) by (intros ->; by simplify_eq).
  assert (Hnp : forall j r, ps !! j = Some r -> live r -> np <> p_pid r).
  { intros j x Hx Hlx E. pose proof (to_pid _ _ _ _ _ Hok _ _ Hx Hlx). lia. }
  apply (abs_eq Hok').
  - intros j x Hx Hlx. pose proof (update_slot j x Hx) as [[-> Ex]|[Hj Hx0]].
    + subst x f. cbn [p_pid created born set_p_state set_p_context set_p_parent set_p_pagetable set_p_trapframe set_p_pid].
      rewrite lookup_insert_eq. unfold entry, pid_of. cbn. rewrite list_lookup_alter_ne by done. by rewrite Hr.
    + rewrite (entry_other j x) by done. rewrite lookup_insert_ne by by eapply Hnp. by eapply abs_slot.
  - intros c [<-|[Hc Hs]]%lookup_insert_is_Some.
    + exists k, (f q). split; [apply update_self|]. by subst f.
    + destruct (abs_key Hok c Hs) as (j & x & Hx & Hlx & <-). exists j, x. split; [|done].
      rewrite list_lookup_alter_ne; [done|]. intros ->. by simplify_eq.
Qed.

Lemma abs_reap :
  f = emptied -> p_state q = ZOMBIE -> abs_procs (alter f k ps) = delete (p_pid q) (abs_procs ps).
Proof.
  intros Ef Hz.
  assert (Hk : ~ can_parent ps k) by (intros (x & Hx & _ & Hxz); by simplify_eq).
  assert (Hl : live q) by (unfold live; by rewrite Hz).
  apply (abs_eq Hok').
  - intros j x Hx Hlx. pose proof (update_slot j x Hx) as [[-> Ex]|[Hj Hx0]].
    + subst x f. by destruct Hlx.
    + rewrite (entry_other j x) by done. rewrite lookup_delete_ne; [by eapply abs_slot|]. intros E.
      apply Hj. exact (to_pids _ _ _ _ _ Hok _ _ _ _ Hx0 Hq Hlx Hl (eq_sym E)).
  - intros c [P [Hc HP]%lookup_delete_Some]. destruct (abs_key Hok c) as (j & x & Hx & Hlx & <-); [by rewrite HP|].
    exists j, x. split; [|done]. rewrite list_lookup_alter_ne; [done|]. intros ->. by simplify_eq.
Qed.

End update.

(** ** The table after an exit *)

Section exit.
Context {T : gmap nat resume_point} {ip : nat} {np : Z} {ps : list proc} {me : nat} {q ri : proc}.
Context (f : proc -> proc).
Hypothesis Hok : table_ok (Running me) T ip np ps.
Hypothesis Hq : ps !! me = Some q.
Hypothesis Hrun : p_state q = RUNNING.
Hypothesis Hip : me <> ip.
Hypothesis Hri : ps !! ip = Some ri.
Hypothesis Hf : forall q, p_state (f q) = ZOMBIE /\ p_parent (f q) = p_parent q /\ p_pid (f q) = p_pid q
  /\ fixed (f q) = fixed q.

Let b := zombies_upto NPROC (Some me) ps.
Let ps' := alter f me (exit_table me (p_parent q) (Some ip) b ps).

Lemma live_me : live q.
Proof. unfold live. by rewrite Hrun. Qed.

Lemma live_init : live ri.
Proof. destruct (to_init _ _ _ _ _ Hok) as [(r & Hr & Hu & _) _]. by simplify_eq. Qed.

Lemma exit_me : ps' !! me = Some (f q).
Proof. exact (exit_slot_self f Hok Hq). Qed.

Lemma exit_other j r : ps !! j = Some r -> j <> me ->
  exists r', ps' !! j = Some r' /\ exit1_spec me (p_parent q) ip b r r'.
Proof. exact (exit_slot_other f Hok j r). Qed.

Lemma exit_pids j : pid_of ps' j = pid_of ps j.
Proof.
  unfold pid_of. destruct (decide (j = me)) as [->|Hj].
  - rewrite exit_me, Hq. cbn. f_equal. apply Hf.
  - destruct (ps !! j) as [r|] eqn:Hr.
    + destruct (exit_other j r Hr Hj) as (r' & -> & E). cbn. f_equal. apply E.
    + rewrite (proj2 (lookup_ge_None ps' j)); [done|]. apply lookup_ge_None in Hr. unfold ps'.
      by rewrite length_alter, (tn_length (F := exit_table me (p_parent q) (Some ip) b)).
Qed.

Lemma exit_dead : bool_decide (dead_child (p_pid q) (abs_procs ps)) = b.
Proof.
  apply eq_true_iff_eq. rewrite bool_decide_eq_true, (abs_dead_child Hok me q Hq live_me). split.
  - intros (k & r & Hr & Hp & Hz). apply (zombies_all _ _ k r); [apply (to_length _ _ _ _ _ Hok)|done|done].
  - intros (k & r & Hr & Hp & Hz)%zombies_some. by exists k, r.
Qed.

(** A survivor's status. *)
Lemma exit_status j r r' :
  ps !! j = Some r -> j <> me -> live r -> exit1_spec me (p_parent q) ip b r r' ->
  pstatus_of r' = if decide (pstatus_of r = Waiting /\ (parent (entry ps q) = Some (p_pid r)
    \/ p_pid r = p_pid ri /\ b = true)) then Able else pstatus_of r.
Proof.
  intros Hr Hj Hl E. pose proof (abs_child Hok me q j r Hq live_me Hr Hl) as Hpar.
  assert (Hi : p_pid r = p_pid ri <-> j = ip).
  { split; [|intros ->; by simplify_eq]. intros H. exact (to_pids _ _ _ _ _ Hok _ _ _ _ Hr Hri Hl live_init H). }
  rewrite (decide_ext _ (pstatus_of r = Waiting /\ (p_parent q = Some j \/ j = ip /\ b = true)))
    by by rewrite Hi, Hpar.
  destruct (decide (p_state r = SLEEPING)) as [Hs|Hs].
  - pose proof (to_slot _ _ _ _ _ Hok _ _ Hr) as Ho. unfold slot_ok in Ho. rewrite Hs in Ho. destruct Ho as [_ Hc].
    assert (Hw : pstatus_of r = Waiting) by (unfold pstatus_of; by rewrite Hs). rewrite Hw.
    destruct (e1_state _ _ _ _ _ _ E) as [Hs'|[_ Hs']]; unfold pstatus_of; rewrite Hs', ?Hs.
    + rewrite decide_False; [done|]. rewrite Hs in Hs'. destruct (e1_asleep _ _ _ _ _ _ E Hs') as [H1 H2].
      intros [_ [Hp|[-> Hb]]]; [by apply (H2 j)|by apply H1].
    + rewrite decide_True; [done|]. split; [done|].
      destruct (e1_woken _ _ _ _ _ _ E Hs Hs') as [[Hb Heq]|(i & Hpi & Heq)]; rewrite Hc in Heq; injection Heq as <-; auto.
  - rewrite decide_False by (intros [Hw _]; unfold pstatus_of in Hw; by destruct (p_state r)).
    destruct (e1_state _ _ _ _ _ _ E) as [Hs'|[? _]]; [|done]. unfold pstatus_of.
    by rewrite Hs', (e1_xstate _ _ _ _ _ _ E).
Qed.

Lemma exit_survivor j r r' :
  ps !! j = Some r -> j <> me -> live r -> exit1_spec me (p_parent q) ip b r r' ->
  entry ps' r' = bereave (p_pid q) (parent (entry ps q)) (p_pid ri) b (p_pid r) (entry ps r).
Proof.
  intros Hr Hj Hl E. rewrite (entry_pids ps ps' r') by (intros; apply exit_pids).
  unfold entry at 1, bereave. cbn [stat entry parent]. f_equal; [|by eapply exit_status].
  pose proof (abs_child Hok j r me q Hr Hl Hq live_me) as Hpar. cbn [parent entry] in Hpar.
  rewrite (e1_parent _ _ _ _ _ _ E). destruct (decide (p_parent r = Some me)) as [H|H].
  - rewrite decide_True by tauto. unfold pid_of. cbn. by rewrite Hri.
  - by rewrite decide_False by tauto.
Qed.

Lemma abs_exit x :
  p_xstate (f q) = x ->
  abs_procs ps' = exit_processes (p_pid q) (entry ps q) x (p_pid ri) (abs_procs ps).
Proof.
  intros Hx. assert (Hok' : table_ok (Running me) T ip np ps') by exact (table_ok_exit f Hok Hq Hrun Hip Hf (Running me)).
  apply (abs_eq Hok').
  - intros j r' Hr' Hl'. destruct (Hf q) as (Hz & Hp & Hpid & _).
    pose proof (exit_slot f Hok Hq j r' Hr') as [[-> ->]|(r & Hj & Hr & E)].
    + rewrite Hpid, exit_processes_self, (entry_pids ps ps' (f q)) by (intros; apply exit_pids).
      unfold entry, pstatus_of. by rewrite Hp, Hz, Hx.
    + destruct (exit_live f Hok Hq Hrun Hf j r' Hr' Hl') as (r0 & Hr0 & Hl & _). rewrite Hr in Hr0. simplify_eq.
      rewrite (e1_pid _ _ _ _ _ _ E), exit_processes_other, (abs_slot Hok j r0 Hr Hl), exit_dead.
      * cbn. f_equal. symmetry. by eapply exit_survivor.
      * intros H. apply Hj. exact (to_pids _ _ _ _ _ Hok _ _ _ _ Hr Hq Hl live_me H).
  - intros c Hc. destruct (decide (c = p_pid q)) as [->|Hne].
    + exists me, (f q). split; [apply exit_me|]. destruct (Hf q) as (Hz & _ & Hpid & _).
      split; [unfold live; by rewrite Hz|done].
    + rewrite exit_processes_other in Hc by done. apply fmap_is_Some in Hc.
      destruct (abs_key Hok c Hc) as (j & r & Hr & Hl & <-). assert (Hj : j <> me) by (intros ->; by simplify_eq).
      destruct (exit_other j r Hr Hj) as (r' & Hr' & E). exists j, r'. split; [done|].
      split; [|apply E]. unfold live. by destruct (e1_state _ _ _ _ _ _ E) as [->|[_ ->]].
Qed.

End exit.

(** ** Worlds *)

Lemma abs_size ps k q :
  length ps = NPROC -> ps !! k = Some q -> p_state q = UNUSED -> (size (abs_procs ps) < NPROC)%nat.
Proof.
  intros Hl Hq Hu. unfold abs_procs.
  assert (Hs : forall l : list (Z * process), (size (list_to_map l : gmap Z process) <= length l)%nat).
  { induction l as [|[c P] l IH]; cbn [length]; [by rewrite list_to_map_nil, map_size_empty|].
    rewrite list_to_map_cons, map_size_insert. destruct ((list_to_map l : gmap Z process) !! c); cbn; lia. }
  eapply Nat.le_lt_trans; [apply Hs|]. rewrite length_fmap, <- Hl.
  rewrite <- (take_drop_middle ps k q Hq), filter_app, filter_cons_False by (unfold live; tauto).
  rewrite !length_app. cbn [length]. pose proof (length_filter live (take k ps)). pose proof (length_filter live (drop (S k) ps)).
  lia.
Qed.

Lemma pid_at_slot s k q : procs s !! k = Some q -> pid_at s k = p_pid q.
Proof. unfold pid_at. by intros ->. Qed.

Lemma pid_at_alter s s' f k j :
  procs s' = alter f k (procs s) -> (j = k -> forall q, p_pid (f q) = p_pid q) ->
  (j = k -> is_Some (procs s !! k)) -> pid_at s' j = pid_at s j.
Proof.
  intros Hps Hf Hk. unfold pid_at. rewrite Hps, alter_lookup. case_decide as Hj; [|done].
  symmetry in Hj. destruct (Hk Hj) as [q Hq]. subst j. rewrite Hq. cbn. by apply Hf.
Qed.

Section worlds.
Context {n : resources} {ip : nat}.

Lemma abs_running s p T :
  inv n ip (World s (Running p) T) ->
  exists q, procs s !! p = Some q /\ p_state q = RUNNING /\ live q /\ pid_at s p = p_pid q
    /\ abs_procs (procs s) !! p_pid q = Some (entry (procs s) q).
Proof.
  intros I. destruct (inv_running _ _ _ _ _ I) as (_ & _ & q & Hq & Hrun & _). exists q.
  assert (Hl : live q) by (unfold live; by rewrite Hrun). split_and!; try done.
  - by apply pid_at_slot.
  - by apply (abs_slot (iv_table _ _ _ I) p).
Qed.

Lemma abs_ok w : inv n ip w -> kernel_ok (abs w).
Proof.
  intros I. pose proof (iv_table _ _ _ I) as Ht. split; cbn [processes current next_pid abs].
  - intros c Hc. destruct (abs_key Ht c Hc) as (k & q & Hk & Hl & <-). by eapply to_pid.
  - intros p. destruct w as [s [i|j] T]; [done|]. cbn [w_state w_runner abs_current]. intros [= <-].
    destruct (abs_running s j T I) as (q & Hq & Hrun & Hl & -> & ->). cbn. f_equal. unfold pstatus_of. by rewrite Hrun.
Qed.

(** Worlds with the same processes. *)
Lemma abs_same w w' :
  procs (w_state w') = procs (w_state w) -> nextpid (w_state w') = nextpid (w_state w) ->
  initproc (w_state w') = initproc (w_state w) ->
  abs_current (w_state w') (w_runner w') = abs_current (w_state w) (w_runner w) -> abs w' = abs w.
Proof. intros Hp Hn Hi Hc. unfold abs, pid_at. by rewrite Hp, Hn, Hi, Hc. Qed.

(** Worlds that differ in one slot, which keeps its pid and its parent. *)
Lemma abs_moved w w' f k q :
  inv n ip w -> inv n ip w' -> procs (w_state w) !! k = Some q -> live q -> live (f q) ->
  (forall q, p_pid (f q) = p_pid q) -> (forall q, p_parent (f q) = p_parent q) ->
  procs (w_state w') = alter f k (procs (w_state w)) -> nextpid (w_state w') = nextpid (w_state w) ->
  abs w' = with_processes (<[p_pid q := Process (parent (entry (procs (w_state w)) q)) (pstatus_of (f q))]>
      (processes (abs w))) (abs_current (w_state w') (w_runner w')) (abs w).
Proof.
  intros I I' Hq Hl Hl' Hpid Hpar Hps Hn. unfold abs, with_processes. cbn [processes next_pid init_pid].
  rewrite Hps, (iv_init _ _ _ I), (iv_init _ _ _ I'), Hn. f_equal.
  - eapply abs_alter; [apply (iv_table _ _ _ I)|rewrite <- Hps; apply (iv_table _ _ _ I')|done..].
  - apply (pid_at_alter _ _ f k); eauto.
Qed.

Lemma refine_dispatch s i T q f s' T' :
  inv n ip (World s (Scheduling i) T) -> inv n ip (World s' (Running i) T') ->
  procs s !! i = Some q -> p_state q = RUNNABLE -> p_state (f q) = RUNNING ->
  (forall q, p_pid (f q) = p_pid q) -> (forall q, p_parent (f q) = p_parent q) ->
  procs s' = alter f i (procs s) -> nextpid s' = nextpid s ->
  perform (Dispatch (pid_at s i)) (abs (World s (Scheduling i) T)) = Some (abs (World s' (Running i) T')).
Proof.
  intros I I' Hq Hst Hst' Hpid Hpar Hps Hn.
  assert (Hl : live q) by (unfold live; by rewrite Hst). assert (Hl' : live (f q)) by (unfold live; by rewrite Hst').
  pose proof (abs_slot (iv_table _ _ _ I) i q Hq Hl) as Hm. cbn [w_state] in Hm.
  rewrite (abs_moved _ _ f i q I I') by done. cbn [perform current abs w_runner abs_current processes w_state].
  rewrite (pid_at_slot s i q Hq), Hm, decide_True by (cbn; f_equal; unfold pstatus_of; by rewrite Hst).
  f_equal. unfold with_processes. f_equal.
  - rewrite insert_id; [done|]. rewrite Hm. unfold entry, pstatus_of. cbn. by rewrite Hst, Hst'.
  - f_equal. rewrite <- (pid_at_slot s i q Hq). symmetry. apply (pid_at_alter s s' f i); eauto.
Qed.

Lemma refine_park s p T q f s' i T' :
  inv n ip (World s (Running p) T) -> inv n ip (World s' (Scheduling i) T') ->
  procs s !! p = Some q -> live (f q) ->
  (forall q, p_pid (f q) = p_pid q) -> (forall q, p_parent (f q) = p_parent q) ->
  procs s' = alter f p (procs s) -> nextpid s' = nextpid s ->
  let k := abs (World s (Running p) T) in
  abs (World s' (Scheduling i) T')
  = with_processes (<[pid_at s p := Process (parent (entry (procs s) q)) (pstatus_of (f q))]> (processes k)) None k.
Proof.
  intros I I' Hq Hl' Hpid Hpar Hps Hn k. destruct (abs_running s p T I) as (r & Hr & _ & Hl & -> & _).
  rewrite Hq in Hr. injection Hr as <-. by rewrite (abs_moved _ _ f p q I I').
Qed.

(** ** Steps are events *)

Lemma refine_wait s p T r w' :
  inv n ip (World s (Running p) T) -> waited (n := n) p s T r w' -> inv n ip w' ->
  run (wait_events (pid_at s p) r) (abs (World s (Running p) T)) = Some (abs w').
Proof.
  intros I Hw I'. destruct (abs_running s p T I) as (q & Hq & Hrun & Hl & Hpid & Hm).
  pose proof (iv_table _ _ _ I) as Ht. pose proof (iv_init _ _ _ I) as Hi.
  pose proof (iv_init _ _ _ I') as Hi'. cbn [w_state] in Ht, Hi.
  destruct Hw as [k z tbls ktbl free free' s' Hk Hp Hz _ Es _ _ _|Hno|i Hkids Hno _];
    cbn [wait_events run perform current abs w_runner abs_current processes w_state] in *.
  - assert (Hlz : live z) by (unfold live; by rewrite Hz).
    assert (Hps : procs s' = alter emptied k (procs s)) by by rewrite Es.
    assert (Hn : nextpid s' = nextpid s) by by rewrite Es.
    pose proof (abs_slot Ht k z Hk Hlz) as Hzm.
    rewrite decide_True; [cbn [mbind option_bind]|].
    + f_equal. unfold abs, with_processes. cbn [w_state w_runner abs_current processes next_pid init_pid].
      rewrite Hi, Hi', Hn. change (default 0%nat (Some ip)) with ip.
      assert (Hpk : p <> k) by (intros ->; congruence).
      assert (Hik : ip <> k).
      { intros ->. destruct (to_init _ _ _ _ _ Ht) as [(x & Hx & _ & Hxz) _]. by simplify_eq. }
      rewrite !(pid_at_alter s s' emptied k) by first [done|intros; congruence]. f_equal.
      rewrite Hps. symmetry. eapply abs_reap; [exact Ht| |exact Hk|done|done].
      rewrite <- Hps. apply (iv_table _ _ _ I').
    + split; [done|]. rewrite Hzm. f_equal. unfold entry, pstatus_of. rewrite Hz. f_equal.
      rewrite Hpid. destruct (parent_some Ht k z p Hk Hp) as (t & Hpt & _ & _ & ->). by simplify_eq.
  - rewrite decide_True; [done|]. split; [done|]. rewrite Hpid, (abs_has_child Ht p q Hq Hl).
    intros (k & t & Hk & Hp). by apply (Hno k t).
  - rewrite decide_True, Hpid, Hm; [cbn [mbind option_bind]|].
    + f_equal. symmetry. rewrite <- Hpid.
      by apply (refine_park s p T q (fun q => set_p_context (regs (touch s)) (asleep (PProc p) q))).
    + split; [done|]. rewrite Hpid, (abs_has_child Ht p q Hq Hl), (abs_dead_child Ht p q Hq Hl).
      split; [done|]. intros (k & t & Hk & Hp & Hz). by apply (Hno k t).
Qed.

Lemma refine_create s p fn pid k s' T :
  inv n ip (World s (Running p) T) -> nextpid s < 2 ^ 31 - 1 -> first_unused (procs s) = Some k ->
  create_process fn s = Done pid s' -> inv n ip (World s' (Running p) (<[k := RStart]> T)) ->
  perform (Create (pid_at s p) pid) (abs (World s (Running p) T))
  = Some (abs (World s' (Running p) (<[k := RStart]> T))).
Proof.
  intros I Hnp Hk E I'. destruct (abs_running s p T I) as (r & Hr & Hrun & Hl & Hpid & _).
  pose proof (iv_table _ _ _ I) as Ht. pose proof (iv_init _ _ _ I) as Hi.
  pose proof (iv_init _ _ _ I') as Hi'. cbn [w_state] in Ht, Hi, Hi'.
  destruct (create_effect _ _ _ _ _ _ _ I Hnp Hk E)
    as (q & tf & pt & t1 & t2 & free & tbls & ktbl & tbl & i & bs & Hq & Hu & -> & _ & Es & _).
  assert (Hps : procs s' = alter (created (nextpid s) tf pt fn (Some p)) k (procs s)) by by rewrite Es.
  assert (Hn : nextpid s' = nextpid s + 1) by by rewrite Es. clear E Es.
  assert (Hpk : p <> k) by (intros ->; congruence).
  assert (Hik : ip <> k).
  { intros ->. destruct (to_init _ _ _ _ _ Ht) as [(x & Hx & Hxu & _) _]. by simplify_eq. }
  cbn [perform current abs w_runner abs_current processes w_state next_pid init_pid].
  rewrite decide_True.
  - f_equal. unfold abs. cbn [w_state w_runner abs_current].
    rewrite Hi, Hi', Hn. change (default 0%nat (Some ip)) with ip.
    rewrite !(pid_at_alter s s' (created (nextpid s) tf pt fn (Some p)) k) by first [done|intros; congruence].
    f_equal. rewrite Hps, Hpid. symmetry. eapply abs_create; [exact Ht| |exact Hq|done|exact Hu|exact Hr|exact Hl].
    rewrite <- Hps. apply (iv_table _ _ _ I').
  - split_and!; [done|done|]. by eapply abs_size; [apply (to_length _ _ _ _ _ Ht)|..].
Qed.

Lemma refine_exit s p status v s1 s2 T :
  inv n ip (World s (Running p) T) -> exit_process status s = Done v s1 -> scheduler_back p s1 = Done tt s2 ->
  perform (Exit (pid_at s p) (i32 status)) (abs (World s (Running p) T)) = Some (abs (World s2 (Scheduling (S p)) T)).
Proof.
  intros I E Eb. pose proof (inv_exit _ _ _ _ _ _ _ _ _ I E Eb) as I'.
  destruct (abs_running s p T I) as (q & Hq & Hrun & Hl & Hpid & Hm).
  pose proof (iv_table _ _ _ I) as Ht. pose proof (iv_init _ _ _ I) as Hi.
  pose proof (iv_init _ _ _ I') as Hi'. cbn [w_state] in Ht, Hi, Hi'.
  destruct (exit_effect _ _ _ _ _ _ _ I E Eb) as (q' & Hq' & _ & Hip & _ & ->).
  clear E Eb. rewrite Hq in Hq'. injection Hq' as <-.
  destruct (to_init _ _ _ _ _ Ht) as [(ri & Hri & Hiu & _) _].
  cbn [perform current abs w_runner abs_current processes w_state next_pid init_pid].
  rewrite Hi. change (default 0%nat (Some ip)) with ip. rewrite (pid_at_slot s ip ri Hri), Hpid. rewrite decide_True, Hm.
  - cbn [mbind option_bind]. f_equal. unfold abs, with_processes.
    cbn [w_state w_runner abs_current processes next_pid init_pid]. rewrite Hi, Hi'. change (default 0%nat (Some ip)) with ip.
    set (g := fun q => set_p_context (regs s) (exited status q)).
    assert (Hg : forall q, p_state (g q) = ZOMBIE /\ p_parent (g q) = p_parent q /\ p_pid (g q) = p_pid q
      /\ fixed (g q) = fixed q) by done.
    f_equal.
    + symmetry. by apply (abs_exit g Ht Hq Hrun Hip Hri Hg).
    + pose proof (exit_pids g Ht Hq Hg ip) as Hx. unfold pid_of in Hx. rewrite Hri in Hx.
      change (p_pid <$> procs (after_exit p ip status q s) !! ip = Some (p_pid ri)) in Hx.
      rewrite (pid_at_slot s ip ri Hri). unfold pid_at.
      destruct (procs (after_exit p ip status q s) !! ip) as [x|]; [|done]. cbn in Hx |- *. congruence.
  - split; [done|]. intros H. apply Hip. exact (to_pids _ _ _ _ _ Ht _ _ _ _ Hq Hri Hl Hiu H).
Qed.

Lemma lstep_refines w es w' :
  inv n ip w -> lstep w es w' -> run es (abs w) = Some (abs w').
Proof.
  intros I Hs. assert (I' : inv n ip w') by (eapply step_inv; [exact I|by exists es]).
  assert (H0 : abs w' = abs w -> run [] (abs w) = Some (abs w')) by by intros ->.
  assert (H1 : forall e, perform e (abs w) = Some (abs w') -> run [e] (abs w) = Some (abs w')).
  { intros e He. cbn [run]. by rewrite He. }
  destruct Hs as
    [i s s1 T Hi E | s s1 T E | cause pc tval a b s s1 s2 s3 T E E2 E3 | i s s1 s2 fn T Hi E HT E2
    | i v s s1 s2 T Hi E HT E2 | i v s s1 s2 r s3 T w' Hi E HT E2 E3 Ha | p fn pid k s s1 T Hfn Hnp Hk E
    | p q s s1 T E | p fmt ap bs s s1 T Hf Hb E
    | p q v s s1 s2 T E Eb | p status v s s1 s2 T E Eb | p q r s s1 s2 T w' E E2 Ha].
  - apply H0. rewrite (try_false _ _ _ _ _ _ I Hi E). by apply abs_same.
  - apply H0. rewrite window_ok in E. injection E as <-. by apply abs_same.
  - apply H0. destruct (interrupt_view _ _ _ _ _ _ _ _ _ _ _ _ I E E2 E3) as [[V1 _ _ _ _ V2 V3 _] _].
    by apply abs_same.
  - apply H1. destruct (start_effect _ _ _ _ _ _ I Hi E E2) as (q & j & Hq & Hst & ->).
    by apply (refine_dispatch s i T q (set_p_state RUNNING)).
  - apply H1. destruct (resume_effect _ _ _ _ _ _ I Hi E HT E2) as (q & Hq & Hst & ->).
    by apply (refine_dispatch s i T q (set_p_state RUNNING)).
  - destruct (rewait_effect _ _ _ _ _ _ I Hi E HT E2) as (q & Hq & Hst & ->).
    set (t := resumed i q (set_p_chan PNull) 0 s) in *.
    assert (It : inv n ip (World t (Running i) (delete i T))) by by apply inv_dispatch; [apply _|..].
    cbn [run]. rewrite (refine_dispatch s i T q (fun q => set_p_chan PNull (set_p_state RUNNING q)) t (delete i T)) by done.
    cbn [mbind option_bind].
    assert (Hpid : pid_at s i = pid_at t i).
    { symmetry. apply (pid_at_alter s t (fun q => set_p_chan PNull (set_p_state RUNNING q)) i); eauto. }
    rewrite Hpid. apply (refine_wait t i (delete i T) r w' It); [|done]. by eapply wait_effect.
  - apply H1. by eapply refine_create.
  - apply H0. rewrite myproc_ok in E by apply (iv_quiet _ _ _ I). injection E as <- <-. by apply abs_same.
  - apply H0. destruct (inv_print _ _ _ _ _ _ _ _ _ I Hf Hb E) as [j ->]. by apply abs_same.
  - apply H1. destruct (yield_effect _ _ _ _ _ _ _ I E Eb) as (r & Hr & Hrun & -> & ->).
    destruct (abs_running s p T I) as (r' & Hr' & _ & Hl & Hpid & Hm). rewrite Hr in Hr'. injection Hr' as <-.
    rewrite (refine_park s p T r (fun q => set_p_context (regs (touch s)) (set_p_state RUNNABLE q)) _ _ _ I I') by done.
    cbn [perform current abs w_runner abs_current w_state processes]. rewrite decide_True by done. f_equal. f_equal.
    rewrite insert_id; [done|]. rewrite Hpid, Hm. unfold entry, pstatus_of. cbn. by rewrite Hrun.
  - apply H1. by eapply refine_exit.
  - rewrite (wait_begin_ok _ _ _ _ _ I) in E. injection E as <- <-.
    apply (refine_wait s p T r w' I); [|done]. by eapply wait_effect.
Qed.

Lemma lsteps_refine w es w' : inv n ip w -> lsteps w es w' -> run es (abs w) = Some (abs w').
Proof.
  intros I H. induction H as [|w es w1 es' w2 Hs _ IH]; [done|].
  rewrite run_events_app, (lstep_refines w es w1 I Hs). cbn [mbind option_bind].
  apply IH. eapply step_inv; [exact I|by exists es].
Qed.

End worlds.

(** ** From reset *)

Lemma abs_boot s : boot_done s -> abs (boot_world s) = boot_kernel.
Proof.
  intros [[n I] [Hn (tf0 & pt0 & tf1 & pt1 & Hp)]]. pose proof (iv_init _ _ _ I) as Hi.
  pose proof (iv_table _ _ _ I) as Ht. cbn [w_state w_runner w_threads] in *.
  assert (H0 : procs s !! 0%nat = Some (created 1 tf0 pt0 sym_init_task None (init_slot 0 zero_proc))) by by rewrite Hp.
  assert (H1 : procs s !! 1%nat = Some (created 2 tf1 pt1 sym_simple_task None (init_slot 1 zero_proc))) by by rewrite Hp.
  unfold abs, boot_world, boot_kernel. cbn [w_state w_runner abs_current]. rewrite Hn, Hi.
  change (default 0%nat (Some 0%nat)) with 0%nat. rewrite (pid_at_slot s 0 _ H0). f_equal.
  apply (abs_eq Ht).
  - intros k q Hk Hl. rewrite Hp in Hk. apply boot_lookup in Hk as [[-> ->]|[[-> ->]|[_ ->]]]; [done|done|].
    by destruct Hl.
  - intros c [<-|[_ <-%lookup_singleton_is_Some]]%lookup_insert_is_Some;
      [exists 0%nat|exists 1%nat]; eexists; (split; [first [exact H0|exact H1]|done]).
Qed.

(** [es] are the events of a run from reset to [w]. *)
Definition history (es : list event) (w : world) : Prop :=
  exists s1, boots s1 /\ lsteps (boot_world s1) es w.

Lemma reachable_history w : reachable w -> exists es, history es w.
Proof. intros (s1 & Hb & [es Hr]%rtc_lsteps). by exists es, s1. Qed.

Lemma history_reachable es w : history es w -> reachable w.
Proof. intros (s1 & Hb & Hr%lsteps_rtc). by exists s1. Qed.

Lemma history_run es w : history es w -> run es boot_kernel = Some (abs w).
Proof.
  intros (s1 & Hb & Hr). apply boots_done in Hb. rewrite <- (abs_boot s1 Hb).
  destruct Hb as [[n I] _]. by eapply lsteps_refine.
Qed.

(** ** Theorem *)

(** C2: the kernel refines the process model.  Whatever the kernel does from
    reset, under any interrupts and any interleaving of its threads' calls, has a
    history of events, with the pids and statuses its system calls return, and
    the model can replay it from its boot state: it allows every event, and it
    arrives at exactly the processes, parents, statuses and current process that
    the process table of the kernel stands for. *)
Theorem kernel_refines_model w :
  reachable w ->
  (exists es, history es w) /\ forall es, history es w -> run es boot_kernel = Some (abs w).
Proof. intros H. split; [by apply reachable_history|]. intros es. apply history_run. Qed.

End refine.

(** ** Witness *)

#[local] Existing Instance demo_linker.
#[local] Existing Instance demo_linker_ok.

Lemma kernel_refines_model_witness :
  exists s T es, reachable (World s (Running 0) T) /\ run es boot_kernel = Some (abs (World s (Running 0) T)).
Proof.
  destruct demo_running as (s & T & n & Hr & _).
  destruct (kernel_refines_model _ Hr) as [[es Hes] Hrun]. exists s, T, es. split; [exact Hr|exact (Hrun es Hes)].
Defined.
