(* ===== verification/VmTest.v ===== *)
(** * Tests and debugging aids of the page-table code

    [dump_pagetable] and [test_virtual_memory] of kernel/mm/vm.c.  The first
    prints a page table; the second turns paging on and checks that code, data
    and the serial line still work, on the file's variable [test_data_integrity],
    which is an argument and a result here since nothing else uses it. *)

From S2P Require Import Prelude Riscv Memory State Spinlock Kalloc Vm VmMap Sv39 VmKernel VmDestroy Uart Printf Csr Proc ProcTable ProcMem ProcInit Boot.

Section vm_test.
Context {L : Linker} {LO : LinkerOk}.

(** ** Operations *)

(** [fuel] bounds the depth of the recursion. *)
Fixpoint dump_pagetable (fuel : nat) (pt level : Z) : M unit :=
  match fuel with
  | O => fun _ => NoFuel
  | S fuel' =>
      for_loop 512 0 (fun i =>
        pte ← load64 (pt + 8 * i);
        if pte .& PTE_V =? 0 then mret tt else
        for_loop (Z.to_nat level) 0 (fun _ => printf (str "  ") [] ;; mret tt) ;;
        let va := u64 (Z.shiftl i (VPN_SHIFT level)) in
        printf (str "VA: 0x%lx -> PTE: 0x%lx" ++ nl) [VInt va; VInt pte] ;;
        if pte .& (PTE_R .| PTE_W .| PTE_X) =? 0 then
          let child := PTE2PA pte in
          dump_pagetable fuel' child (level - 1)
        else mret tt)
  end.

(** The initial value of the variable, [0xDEADBEEF] as an [int]. *)
Definition test_data_integrity : Z := i32 0xDEADBEEF.

Definition test_virtual_memory (data : Z) : M Z :=
  printf (str "--- Starting test_virtual_memory ---" ++ nl) [] ;;
  printf (str "Value before enabling paging: 0x%x" ++ nl) [VInt data] ;;
  printf (str "Calling printf before paging works." ++ nl) [] ;;
  printf (str "Enabling virtual memory..." ++ nl) [] ;;
  kvminit ;;
  kvminithart ;;
  printf (str "Virtual memory enabled." ++ nl) [] ;;
  printf (str "Kernel code execution test: PASSED (still running after kvminithart)" ++ nl) [] ;;
  (if u32 data =? 0xDEADBEEF then
     printf (str "Kernel data access test: PASSED (value is 0x%x)" ++ nl) [VInt data] ;; mret tt
   else
     printf (str "Kernel data access test: FAILED" ++ nl) [] ;;
     panic "Data integrity check failed after paging.") ;;
  let data := 0x12345678 in
  (if data =? 0x12345678 then
     printf (str "Kernel data write test: PASSED (new value is 0x%x)" ++ nl) [VInt data] ;; mret tt
   else
     printf (str "Kernel data write test: FAILED" ++ nl) [] ;;
     panic "Data write failed after paging.") ;;
  printf (str "Device access test (UART): PASSED (printf with %%d and %%s works: %d, %s)" ++ nl)
    [VInt 100; VStr (Some (str "OK"))] ;;
  printf (str "--- test_virtual_memory finished successfully ---" ++ nl ++ nl) [] ;;
  mret data.

(** ** What they print *)

(** One entry: indented by the level, with the part of the virtual address that
    its index contributes at this level. *)
Definition dump_line (level i e : Z) : list Z :=
  mjoin (replicate (Z.to_nat level) (str "  ")) ++ str "VA: 0x" ++ render 16 false (i64 (u64 (Z.shiftl i (VPN_SHIFT level))))
  ++ str " -> PTE: 0x" ++ render 16 false (i64 e) ++ nl.

Definition dump_entry (m : memory) (level : Z) (p i : Z) (below : list Z) : list Z :=
  let e := ld64 m (p + 8 * i) in
  if pte_valid e then dump_line level i e ++ below else [].

(** The whole table, depth first. *)
Definition dump_text (m : memory) (tbl : gmap (list Z) Z) (root : Z) : list Z :=
  seqZ 0 512 ≫= fun i => dump_entry m 2 root i
    (match tbl !! [i] with
     | None => []
     | Some p1 => seqZ 0 512 ≫= fun j => dump_entry m 1 p1 j
         (match tbl !! [i; j] with
          | None => []
          | Some p0 => seqZ 0 512 ≫= fun k => dump_entry m 0 p0 k []
          end)
     end).

Definition vm_test_before (data : Z) : list Z :=
  str "--- Starting test_virtual_memory ---" ++ nl
  ++ str "Value before enabling paging: 0x" ++ render 16 false (u32 data) ++ nl
  ++ str "Calling printf before paging works." ++ nl
  ++ str "Enabling virtual memory..." ++ nl.

Definition vm_test_after : list Z :=
  str "Virtual memory enabled." ++ nl
  ++ str "Kernel code execution test: PASSED (still running after kvminithart)" ++ nl.

Definition vm_test_passed : list Z :=
  str "Kernel data access test: PASSED (value is 0xdeadbeef)" ++ nl
  ++ str "Kernel data write test: PASSED (new value is 0x12345678)" ++ nl
  ++ str "Device access test (UART): PASSED (printf with %d and %s works: 100, OK)" ++ nl
  ++ str "--- test_virtual_memory finished successfully ---" ++ nl ++ nl.

(** ** Printing without changing memory *)

(** [act], run with memory [m], ends after printing [bs]. *)
Definition prints (m : memory) (act : M unit) (bs : list Z) : Prop :=
  forall s, ready s -> mem s = m -> exists s', act s = Done tt s' /\ talks bs s s'.

Lemma talks_mem bs s s' : talks bs s s' -> mem s' = mem s.
Proof. intros T. exact (f_equal mem (tk_core _ _ _ T)). Qed.

Lemma prints_ret m : prints m (mret tt) [].
Proof. intros s R _. exists s. split; [done|by apply talks_refl]. Qed.

Lemma prints_talks m act bs : Talks act bs -> prints m act bs.
Proof. intros T s R _. destruct (T s R) as ([] & s' & E & H). by exists s'. Qed.

Lemma prints_seq {A} m (a : M A) b b1 b2 : Talks a b1 -> prints m b b2 -> prints m (a ;; b) (b1 ++ b2).
Proof.
  intros Ha Hb s R Em. destruct (Ha s R) as (x & s1 & E1 & T1).
  destruct (Hb s1 (tk_ready _ _ _ T1)) as (s2 & E2 & T2); [by rewrite (talks_mem _ _ _ T1)|].
  exists s2. split; [by mstep; [exact E1|]|by eapply talks_trans].
Qed.

Lemma prints_then m a b b1 b2 : prints m a b1 -> prints m b b2 -> prints m (a ;; b) (b1 ++ b2).
Proof.
  intros Ha Hb s R Em. destruct (Ha s R Em) as (s1 & E1 & T1).
  destruct (Hb s1 (tk_ready _ _ _ T1)) as (s2 & E2 & T2); [by rewrite (talks_mem _ _ _ T1)|].
  exists s2. split; [by mstep; [exact E1|]|by eapply talks_trans].
Qed.

Lemma prints_load m p i k bs :
  page_ok p -> 0 <= i < 512 -> prints m (k (ld64 m (p + 8 * i))) bs ->
  prints m (e ← load64 (p + 8 * i); k e) bs.
Proof.
  intros Hp Hi H s R Em. destruct (H s R Em) as (s' & E & T). exists s'. split; [|done].
  mstep; [by apply load64_ok, slot_ram|]. by rewrite Em.
Qed.

Lemma prints_loop m n i body g :
  (forall j, i <= j < i + Z.of_nat n -> prints m (body j) (g j)) ->
  prints m (for_loop n i body) (seqZ i (Z.of_nat n) ≫= g).
Proof.
  revert i; induction n as [|n IH]; intros i H; [apply prints_ret|]. cbn [for_loop].
  rewrite (seqZ_cons i (Z.of_nat (S n))) by lia. cbn [mbind list_bind].
  apply prints_then; [apply H; lia|].
  replace (Z.pred (Z.of_nat (S n))) with (Z.of_nat n) by lia. apply IH. intros j Hj. apply H. lia.
Qed.

(** ** dump_pagetable *)

Lemma dump_indent m n i :
  prints m (for_loop n i (fun _ => printf (str "  ") [] ;; mret tt)) (mjoin (replicate n (str "  "))).
Proof.
  revert i; induction n as [|n IH]; intros i; [apply prints_ret|]. cbn [for_loop replicate mjoin list_join].
  apply prints_then; [|apply IH]. rewrite <- (app_nil_r (str "  ")) at 2.
  apply prints_seq; [talk_printf|apply prints_ret].
Qed.

Lemma dump_formatted va e :
  formatted (str "VA: 0x%lx -> PTE: 0x%lx" ++ nl) [VInt va; VInt e]
  = Some (str "VA: 0x" ++ render 16 false (i64 va) ++ str " -> PTE: 0x" ++ render 16 false (i64 e) ++ nl).
Proof. reflexivity. Qed.

(** One entry, with what the recursive call prints if there is one. *)
Lemma dump_step m fuel p i level below :
  page_ok p -> 0 <= i < 512 ->
  (pte_is_table (ld64 m (p + 8 * i)) = true ->
    prints m (dump_pagetable fuel (PTE2PA (ld64 m (p + 8 * i))) (level - 1)) below) ->
  (pte_valid (ld64 m (p + 8 * i)) = true -> pte_is_table (ld64 m (p + 8 * i)) = false -> below = []) ->
  prints m (pte ← load64 (p + 8 * i);
    if pte .& PTE_V =? 0 then mret tt else
    for_loop (Z.to_nat level) 0 (fun _ => printf (str "  ") [] ;; mret tt) ;;
    printf (str "VA: 0x%lx -> PTE: 0x%lx" ++ nl) [VInt (u64 (Z.shiftl i (VPN_SHIFT level))); VInt pte] ;;
    if pte .& (PTE_R .| PTE_W .| PTE_X) =? 0 then dump_pagetable fuel (PTE2PA pte) (level - 1) else mret tt)
    (dump_entry m level p i below).
Proof.
  intros Hp Hi Ht Hn. apply (prints_load m p i _ _ Hp Hi). unfold dump_entry. cbv zeta.
  set (e := ld64 m (p + 8 * i)) in *. unfold pte_is_table in *. rewrite pte_v_test in *.
  destruct (pte_valid e); cbn [negb andb] in *; [|apply prints_ret].
  unfold dump_line. rewrite <- !app_assoc. apply prints_then; [apply dump_indent|].
  assert (E : forall l, str "VA: 0x" ++ render 16 false (i64 (u64 (Z.shiftl i (VPN_SHIFT level))))
      ++ str " -> PTE: 0x" ++ render 16 false (i64 e) ++ nl ++ l
    = (str "VA: 0x" ++ render 16 false (i64 (u64 (Z.shiftl i (VPN_SHIFT level))))
      ++ str " -> PTE: 0x" ++ render 16 false (i64 e) ++ nl) ++ l) by (intros; by rewrite <- !app_assoc).
  rewrite E. apply prints_seq; [apply talks_printf; [by apply (bool_decide_unpack _)|apply dump_formatted]|].
  destruct (e .& _ =? 0); [by apply Ht|]. rewrite Hn by done. apply prints_ret.
Qed.

(** A table at an inner level of a well-formed table. *)
Lemma dump_node m root tbl path p fuel level (g : Z -> Z -> list Z) :
  pt_wf m root tbl -> tbl !! path = Some p -> (length path < 2)%nat ->
  (forall i c, 0 <= i < 512 -> tbl !! (path ++ [i]) = Some c ->
    prints m (dump_pagetable fuel c (level - 1)) (g i c)) ->
  prints m (dump_pagetable (S fuel) p level)
    (seqZ 0 512 ≫= fun i => dump_entry m level p i
      (match tbl !! (path ++ [i]) with None => [] | Some c => g i c end)).
Proof.
  intros Hwf Hp Hl Hg. cbn [dump_pagetable]. apply (prints_loop m 512 0). intros i Hi.
  pose proof (wf_node _ _ _ Hwf _ _ i Hp Hl ltac:(lia)) as Hn. assert (Hpp : page_ok p) by by eapply wf_page.
  apply dump_step; [done|lia| |]; destruct (tbl !! (path ++ [i])) as [c|] eqn:E; try done.
  - intros _. rewrite Hn, table_pte_decode by by eapply wf_page. apply Hg; [lia|done].
  - intros H. by destruct (invalid_not_table _ Hn) as [H' _]; rewrite H' in H.
  - intros _ H. by rewrite Hn, table_pte_is_table in H by by eapply wf_page.
Qed.

(** A lowest-level table whose valid entries have a permission. *)
Lemma dump_leaves m p fuel :
  page_ok p -> (forall k, 0 <= k < 512 -> pte_is_table (ld64 m (p + 8 * k)) = false) ->
  prints m (dump_pagetable (S fuel) p 0) (seqZ 0 512 ≫= fun k => dump_entry m 0 p k []).
Proof.
  intros Hp H. cbn [dump_pagetable]. apply (prints_loop m 512 0). intros k Hk.
  apply dump_step; [done|lia| |done]. intros Ht. by rewrite H in Ht by lia.
Qed.

Lemma dump_wf m root tbl :
  pt_wf m root tbl -> (forall va e, leaf_pte m tbl va = Some e -> pte_is_table e = false) ->
  prints m (dump_pagetable 3 root 2) (dump_text m tbl root).
Proof.
  intros Hwf Hleaf.
  apply (dump_node m root tbl [] root 2 2 (fun i p1 => seqZ 0 512 ≫= fun j => dump_entry m 1 p1 j
         (match tbl !! [i; j] with
          | None => []
          | Some p0 => seqZ 0 512 ≫= fun k => dump_entry m 0 p0 k []
          end))); [done|apply (wf_root _ _ _ Hwf)|cbn; lia|].
  intros i p1 Hi Hp1. cbn [app] in *.
  apply (dump_node m root tbl [i] p1 1 1 (fun j p0 => seqZ 0 512 ≫= fun k => dump_entry m 0 p0 k []));
    [done|done|cbn; lia|].
  intros j p0 Hj Hp0. cbn [app] in *. apply dump_leaves; [by eapply wf_page|]. intros k Hk.
  destruct (pte_valid (ld64 m (p0 + 8 * k))) eqn:Hv; [|by apply invalid_not_table].
  apply (Hleaf (((i * 512 + j) * 512 + k) * 4096)). rewrite (leaf_at m tbl i j k p0) by done. by rewrite Hv.
Qed.

(** ** test_virtual_memory *)

Lemma value_formatted data :
  formatted (str "Value before enabling paging: 0x%x" ++ nl) [VInt data]
  = Some (str "Value before enabling paging: 0x" ++ render 16 false (u32 data) ++ nl).
Proof. reflexivity. Qed.

Lemma talks_before {A B} (m : M A) (k : M B) bs s :
  Talks m bs -> ready s -> exists s', (m ;; k) s = k s' /\ talks bs s s'.
Proof. intros T R. destruct (T s R) as (x & s' & E & H). exists s'. split; [by mstep; [exact E|]|done]. Qed.

(** The part before paging is turned on, whatever [rest] follows. *)
Lemma vm_test_start {A} data (rest : M A) s :
  ready s -> exists s', (printf (str "--- Starting test_virtual_memory ---" ++ nl) [] ;;
      printf (str "Value before enabling paging: 0x%x" ++ nl) [VInt data] ;;
      printf (str "Calling printf before paging works." ++ nl) [] ;;
      printf (str "Enabling virtual memory..." ++ nl) [] ;; rest) s = rest s'
    /\ talks (vm_test_before data) s s'.
Proof.
  intros R.
  destruct (talks_before (printf (str "--- Starting test_virtual_memory ---" ++ nl) [])
    (printf (str "Value before enabling paging: 0x%x" ++ nl) [VInt data] ;;
      printf (str "Calling printf before paging works." ++ nl) [] ;;
      printf (str "Enabling virtual memory..." ++ nl) [] ;; rest)
    (str "--- Starting test_virtual_memory ---" ++ nl) s ltac:(talk_printf) R) as (s1 & E1 & T1).
  destruct (talks_before (printf (str "Value before enabling paging: 0x%x" ++ nl) [VInt data])
    (printf (str "Calling printf before paging works." ++ nl) [] ;;
      printf (str "Enabling virtual memory..." ++ nl) [] ;; rest) _ s1
    ltac:(apply talks_printf; [by apply (bool_decide_unpack _)|apply value_formatted]) (tk_ready _ _ _ T1))
    as (s2 & E2 & T2).
  destruct (talks_before (printf (str "Calling printf before paging works." ++ nl) [])
    (printf (str "Enabling virtual memory..." ++ nl) [] ;; rest)
    (str "Calling printf before paging works." ++ nl) s2 ltac:(talk_printf) (tk_ready _ _ _ T2)) as (s3 & E3 & T3).
  destruct (talks_before (printf (str "Enabling virtual memory..." ++ nl) []) rest
    (str "Enabling virtual memory..." ++ nl) s3 ltac:(talk_printf) (tk_ready _ _ _ T3)) as (s4 & E4 & T4).
  exists s4. split; [congruence|].
  replace (vm_test_before data) with (((str "--- Starting test_virtual_memory ---" ++ nl)
    ++ (str "Value before enabling paging: 0x" ++ render 16 false (u32 data) ++ nl)
    ++ (str "Calling printf before paging works." ++ nl)) ++ str "Enabling virtual memory..." ++ nl)
    by (unfold vm_test_before; by rewrite <- !app_assoc).
  eapply talks_trans; [|exact T4]. eapply talks_trans; [exact T1|]. by eapply talks_trans.
Qed.

Lemma pool_talks bs s s' free : pool s free -> talks bs s s' -> pool s' free.
Proof.
  intros [P1 P2 P3 P4] T. pose proof (tk_core _ _ _ T) as C. split; [|done|apply T|].
  - rewrite (talks_mem _ _ _ T). by replace (freelist s') with (freelist s) by (by apply (f_equal freelist) in C).
  - unfold lock_free, get_lock. by replace (kmem_lock s') with (kmem_lock s) by (by apply (f_equal kmem_lock) in C).
Qed.

Lemma ready_frame s s' : frame s s' -> ready s -> hart_ok s' -> ready s'.
Proof.
  intros [F _] R H. split; [done| |].
  - unfold lock_free, get_lock. replace (printlock s') with (printlock s) by (by apply (f_equal printlock) in F).
    apply R.
  - unfold uart_live. replace (io s') with (io s) by (by apply (f_equal io) in F). apply R.
Qed.

(** Turning paging on keeps the machine able to print. *)
Lemma paging_on s free :
  ready s -> pool s free -> (kvminit_pages <= length free)%nat ->
  exists s1 s' tbl k, kvminit s = Done tt s1 /\ kvminithart s1 = Done tt s' /\ ready s'
    /\ line (io_log (io s')) = line (io_log (io s))
    /\ (k <= kvminit_pages)%nat /\ vm_inv s' (kernel_pagetable s') tbl (drop k free)
    /\ forall va, 0 <= va < 2 ^ 64 -> hw_translate s' va = kernel_translate va.
Proof.
  intros R Hp Hl. destruct free as [|root free]; [cbn in Hl; unfold kvminit_pages in Hl; lia|].
  destruct (kvminit_ok s root free Hp Hl) as (s1 & tbl & k & E & Hr & Hk & K & F & _).
  set (s2 := set_csr (set_satp (MAKE_SATP (kernel_pagetable s1)) (csr s1)) s1).
  assert (H1 : hart_ok s1) by apply (pool_hart _ _ (vm_pool _ _ _ _ (ks_inv _ _ _ K))).
  assert (H2 : hart_ok s2) by by apply (hart_ok_tp s1).
  exists s1, s2, tbl, k. split; [exact E|]. split; [done|]. split; [|split; [|split; [done|split]]].
  - assert (R1 : ready s1).
    { apply (ready_frame (set_kernel_pagetable root s)); [exact F| |exact H1].
      destruct R as [A1 A2 A3]. split; [by apply (hart_ok_same s)|done|done]. }
    split; [done|apply R1|apply R1].
  - change (io s2) with (io s1). by replace (io s1) with (io s) by (by destruct F as [F _]; apply (f_equal io) in F).
  - pose proof (ks_inv _ _ _ K) as I. apply (vm_inv_move s1); try done. apply (pool_lock s1 _ (vm_pool _ _ _ _ I)).
  - intros va Hva. destruct (kvminithart_translate s1 tbl _ va K Hva) as (s3 & E3 & _ & H3).
    unfold kvminithart in E3. injection E3 as <-. exact H3.
Qed.

(** [act] returns [r] after printing [bs]. *)
Definition runs {A} (r : A) (act : M A) (bs : list Z) : Prop :=
  forall s, ready s -> exists s', act s = Done r s' /\ talks bs s s'.

Lemma runs_seq {A B} (r : B) (a : M A) b b1 b2 : Talks a b1 -> runs r b b2 -> runs r (a ;; b) (b1 ++ b2).
Proof.
  intros Ha Hb s R. destruct (Ha s R) as (x & s1 & E1 & T1).
  destruct (Hb s1 (tk_ready _ _ _ T1)) as (s2 & E2 & T2).
  exists s2. split; [by mstep; [exact E1|]|by eapply talks_trans].
Qed.

Lemma runs_ret {A} (r : A) : runs r (mret r) [].
Proof. intros s R. exists s. split; [done|by apply talks_refl]. Qed.

Lemma runs_eq {A} (r : A) act b1 b2 : runs r act b1 -> b1 = b2 -> runs r act b2.
Proof. by intros ? <-. Qed.

(** The test after paging is on, for the data it starts with. *)
Lemma vm_test_end :
  runs 0x12345678
    (printf (str "Virtual memory enabled." ++ nl) [] ;;
     printf (str "Kernel code execution test: PASSED (still running after kvminithart)" ++ nl) [] ;;
     (printf (str "Kernel data access test: PASSED (value is 0x%x)" ++ nl) [VInt test_data_integrity] ;; mret tt) ;;
     (printf (str "Kernel data write test: PASSED (new value is 0x%x)" ++ nl) [VInt 0x12345678] ;; mret tt) ;;
     printf (str "Device access test (UART): PASSED (printf with %%d and %%s works: %d, %s)" ++ nl)
       [VInt 100; VStr (Some (str "OK"))] ;;
     printf (str "--- test_virtual_memory finished successfully ---" ++ nl ++ nl) [] ;;
     mret 0x12345678) (vm_test_after ++ vm_test_passed).
Proof.
  eapply runs_eq; [repeat (apply runs_seq; [talk|]); apply runs_ret|]. by vm_compute.
Qed.

(** [act] panics with [msg]. *)
Definition panics {A} (msg : string) (act : M A) : Prop :=
  forall s, ready s -> exists s', act s = Panic msg s'.

Lemma panics_seq {A B} msg (a : M A) (b : M B) bs : Talks a bs -> panics msg b -> panics msg (a ;; b).
Proof.
  intros Ha Hb s R. destruct (Ha s R) as (x & s1 & E1 & T1).
  destruct (Hb s1 (tk_ready _ _ _ T1)) as (s2 & E2). exists s2. by mstep; [exact E1|].
Qed.

Lemma panics_first {A B} msg (a : M A) (b : M B) : panics msg a -> panics msg (a ;; b).
Proof. intros Ha s R. destruct (Ha s R) as (s1 & E1). exists s1. unfold mbind, M_bind. by rewrite E1. Qed.

Lemma panics_panic {A} msg : panics msg (@panic A msg).
Proof. intros s _. by exists s. Qed.

Lemma deadbeef data : - 2 ^ 31 <= data < 2 ^ 31 -> u32 data = 0xDEADBEEF -> data = test_data_integrity.
Proof. unfold test_data_integrity, u32, i32. intros Hr E. dmlia. Qed.

(** The first part, and paging. *)
Lemma vm_test_paged {A} data (rest : M A) s free :
  ready s -> pool s free -> (kvminit_pages <= length free)%nat ->
  exists s' tbl k, (printf (str "--- Starting test_virtual_memory ---" ++ nl) [] ;;
      printf (str "Value before enabling paging: 0x%x" ++ nl) [VInt data] ;;
      printf (str "Calling printf before paging works." ++ nl) [] ;;
      printf (str "Enabling virtual memory..." ++ nl) [] ;;
      kvminit ;; kvminithart ;; rest) s = rest s'
    /\ ready s' /\ line (io_log (io s')) = line (io_log (io s)) ++ vm_test_before data
    /\ (k <= kvminit_pages)%nat /\ vm_inv s' (kernel_pagetable s') tbl (drop k free)
    /\ forall va, 0 <= va < 2 ^ 64 -> hw_translate s' va = kernel_translate va.
Proof.
  intros R Hp Hl. destruct (vm_test_start data (kvminit ;; kvminithart ;; rest) s R) as (s1 & E1 & T1).
  assert (Hp1 : pool s1 free) by by eapply pool_talks.
  destruct (paging_on s1 free (tk_ready _ _ _ T1) Hp1 Hl) as (s2 & s3 & tbl & k & E2 & E3 & R2 & L2 & Hk & I & Ht).
  exists s3, tbl, k. split; [|split; [done|split; [|done]]].
  - rewrite E1. mstep; [exact E2|]. by mstep; [exact E3|].
  - by rewrite L2, (tk_line _ _ _ T1).
Qed.

(** ** Theorems *)

(** [dump_pagetable] prints the table.  Called on the root of a well-formed
    table, with level 2, it ends after printing one line for every valid entry,
    an inner table's before its own entries and in the order of the indices, and
    changes nothing.  The address on a line is what the entry's index
    contributes at its level, not the virtual address the entry maps. *)
Theorem dump_pagetable_prints s root tbl :
  ready s -> pt_wf (mem s) root tbl ->
  (forall va e, leaf_pte (mem s) tbl va = Some e -> pte_is_table e = false) ->
  exists s', dump_pagetable 3 root 2 s = Done tt s' /\ core s' = core s /\ mem s' = mem s
    /\ line (io_log (io s')) = line (io_log (io s)) ++ dump_text (mem s) tbl root.
Proof.
  intros R Hwf Hl. destruct (dump_wf (mem s) root tbl Hwf Hl s R eq_refl) as (s' & E & T).
  exists s'. split; [done|]. split; [apply T|]. split; [apply (talks_mem _ _ _ T)|apply (tk_line _ _ _ T)].
Qed.

(** [test_virtual_memory] passes: with enough free pages and the variable at its
    initial value it returns with every check passed, paging on and the kernel's
    address space in force; with any other value it turns paging on and panics. *)
Theorem test_virtual_memory_passes s free data :
  ready s -> pool s free -> (kvminit_pages <= length free)%nat -> - 2 ^ 31 <= data < 2 ^ 31 ->
  if decide (data = test_data_integrity) then
    exists s', test_virtual_memory data s = Done 0x12345678 s'
      /\ line (io_log (io s')) = line (io_log (io s)) ++ vm_test_before data ++ vm_test_after ++ vm_test_passed
      /\ forall va, 0 <= va < 2 ^ 64 -> hw_translate s' va = kernel_translate va
  else exists s', test_virtual_memory data s = Panic "Data integrity check failed after paging." s'.
Proof.
  intros R Hp Hl Hr. unfold test_virtual_memory.
  match goal with |- context [kvminithart ;; ?rest] =>
    destruct (vm_test_paged data rest s free R Hp Hl) as (s1 & tbl & k & E1 & R1 & L1 & _ & _ & Ht)
  end.
  rewrite E1. clear E1. case_decide as Hd.
  - subst data. destruct (vm_test_end s1 R1) as (s2 & E2 & T2). exists s2. split; [exact E2|split].
    + by rewrite (tk_line _ _ _ T2), L1, <- app_assoc.
    + intros va Hva. rewrite <- Ht by done. unfold hw_translate, satp_translate.
      by rewrite (tk_satp _ _ _ T2), (talks_mem _ _ _ T2).
  - rewrite (proj2 (Z.eqb_neq (u32 data) 0xDEADBEEF)) by (intros E; apply Hd; by apply deadbeef).
    refine (_ s1 R1 : exists s', _ = Panic "Data integrity check failed after paging." s').
    apply (panics_seq _ _ _ (str "Virtual memory enabled." ++ nl)); [talk_printf|].
    apply (panics_seq _ _ _ (str "Kernel code execution test: PASSED (still running after kvminithart)" ++ nl));
      [talk_printf|].
    apply panics_first.
    apply (panics_seq _ _ _ (str "Kernel data access test: FAILED" ++ nl)); [talk_printf|apply panics_panic].
Qed.

End vm_test.

(** ** Witnesses *)

#[local] Existing Instance demo_linker.
#[local] Existing Instance demo_linker_ok.

Lemma demo_ready : ready demo_state.
Proof. split; done || apply demo_uart_live. Qed.

Lemma frame_pool_with l : frame demo_state (pool_with l).
Proof.
  induction l as [|p l IH]; [apply frame_refl|]. eapply frame_trans; [exact IH|]. apply frame_freed.
Qed.

Lemma demo_pool_ready n : (n <= 1000)%nat -> ready (pool_with (demo_pages n)).
Proof.
  intros Hn. apply (ready_frame demo_state); [apply frame_pool_with|apply demo_ready|].
  apply (pool_hart _ (demo_pages n)). by apply demo_pages_pool.
Qed.

Lemma demo_table_ready : ready demo_table.
Proof.
  apply (ready_frame (pool_with (demo_pages 6))); [|apply demo_pool_ready; lia|apply demo_table_inv].
  apply frame_set_mem, frame_alloced.
Qed.

Lemma demo_leaf_not_table : pte_is_table (leaf_entry page_b (PTE_R .| PTE_W)) = false.
Proof. by vm_compute. Qed.

Lemma dump_pagetable_prints_witness :
  exists s tbl s', leaf_pte (mem s) tbl 0x1000000 = Some (leaf_entry page_b (PTE_R .| PTE_W))
    /\ dump_pagetable 3 page_a 2 s = Done tt s'
    /\ line (io_log (io s')) = line (io_log (io s)) ++ dump_text (mem s) tbl page_a.
Proof.
  destruct demo_mapped as (s & tbl & _ & M).
  assert (R : ready s).
  { apply (ready_frame demo_table); [apply M|apply demo_table_ready|apply (mp_inv _ _ _ _ _ _ _ _ _ M)]. }
  destruct (dump_pagetable_prints s page_a tbl R (vm_wf _ _ _ _ (mp_inv _ _ _ _ _ _ _ _ _ M)))
    as (s' & E & _ & _ & H).
  - intros va e He. rewrite (mp_leaf _ _ _ _ _ _ _ _ _ M), leaf_pte_new in He. case_decide; [|done].
    injection He as <-. apply demo_leaf_not_table.
  - exists s, tbl, s'. split; [|split; [exact E|exact H]].
    rewrite (mp_leaf _ _ _ _ _ _ _ _ _ M). by rewrite decide_True.
Defined.

Lemma test_virtual_memory_passes_witness :
  exists s', test_virtual_memory test_data_integrity (pool_with (demo_pages 70)) = Done 0x12345678 s'
    /\ hw_translate s' 0x80000000 = Some (0x80000000, PTE_R .| PTE_X .| PTE_V).
Proof.
  pose proof (test_virtual_memory_passes (pool_with (demo_pages 70)) (demo_pages 70) test_data_integrity) as H.
  rewrite decide_True in H by reflexivity. destruct H as (s' & E & _ & Ht).
  - apply demo_pool_ready. lia.
  - apply demo_pages_pool. lia.
  - unfold demo_pages. rewrite pages_from_length. unfold kvminit_pages. lia.
  - vm_compute. split; congruence.
  - exists s'. split; [exact E|]. rewrite Ht by (vm_compute; split; congruence). reflexivity.
Defined.
