(* ===== verification/SmpLock.v ===== *)
(** * Spin locks on several harts

    Spinlock.v treats the lock code on the one hart the kernel is configured for.
    Here any number of harts run it at the same time, interleaved at every access
    to the shared lock: the two reads of [holding], the atomic swap, the record of
    the holder, and the two writes of [release].  Each hart runs a sequence of
    [acquire]s and [release]s; what it holds is recorded on the side.  Interrupt
    nesting is per hart and is left to Spinlock.v.

    Locks exclude each other and, used in nesting order, never panic, whatever the
    interleaving.  If all harts acquire locks in an order, one of them can always
    go on; [create_process] and [exit_process] do not keep to one order, and
    Deadlock.v has the run in which they block each other for ever. *)

From stdpp Require Import functions.
From S2P Require Import Prelude Riscv Memory State Spinlock.

(** ** The program of a hart *)

Inductive op := Acq (l : lock_id) | Rel (l : lock_id).

(** Where a hart is in [acquire] or [release]: before the read of [lk->locked] in
    [holding], the read of [lk->cpu], the swap, the write of [lk->cpu]; and in
    [release] the same two reads and the two writes. *)
Inductive point :=
  | Idle
  | AcqLocked (l : lock_id) | AcqCpu (l : lock_id) | AcqSwap (l : lock_id) | AcqRecord (l : lock_id)
  | RelLocked (l : lock_id) | RelCpu (l : lock_id) | RelClear (l : lock_id) | RelUnlock (l : lock_id)
  | Panicked (msg : string).

Record hart := Hart {
  h_point : point;
  h_prog : list op;
  h_held : list lock_id;
}.

Record smp := Smp {
  locks : lock_id -> spinlock;
  harts : nat -> hart;
}.

Definition drop_lock (l : lock_id) (held : list lock_id) : list lock_id := filter (fun l' => l' <> l) held.

(** Hart [h] goes on to [p]. *)
Definition goto (h : nat) (p : point) (c : smp) : smp :=
  Smp (locks c) (alter (fun x => Hart p (h_prog x) (h_held x)) h (harts c)).

Definition write (l : lock_id) (f : spinlock -> spinlock) (c : smp) : smp :=
  Smp (alter f l (locks c)) (harts c).

Definition hold (h : nat) (f : list lock_id -> list lock_id) (c : smp) : smp :=
  Smp (locks c) (alter (fun x => Hart (h_point x) (h_prog x) (f (h_held x))) h (harts c)).

Definition next_op (h : nat) (c : smp) : smp :=
  Smp (locks c) (alter (fun x => Hart (h_point x) (tail (h_prog x)) (h_held x)) h (harts c)).

(** One access of hart [h]; nothing when it is done or has panicked. *)
Definition hstep (h : nat) (c : smp) : smp :=
  match h_point (harts c h) with
  | Idle =>
      match h_prog (harts c h) with
      | [] => c
      | Acq l :: _ => goto h (AcqLocked l) (next_op h c)
      | Rel l :: _ => goto h (RelLocked l) (next_op h c)
      end
  | AcqLocked l => if locked (locks c l) =? 0 then goto h (AcqSwap l) c else goto h (AcqCpu l) c
  | AcqCpu l =>
      if bool_decide (lk_cpu (locks c l) = Some h) then goto h (Panicked "acquire") c else goto h (AcqSwap l) c
  | AcqSwap l =>
      let c' := write l (set_locked 1) c in
      if locked (locks c l) =? 0 then hold h (cons l) (goto h (AcqRecord l) c') else c'
  | AcqRecord l => goto h Idle (write l (set_lk_cpu (Some h)) c)
  | RelLocked l => if locked (locks c l) =? 0 then goto h (Panicked "release") c else goto h (RelCpu l) c
  | RelCpu l =>
      if bool_decide (lk_cpu (locks c l) = Some h) then goto h (RelClear l) c else goto h (Panicked "release") c
  | RelClear l => goto h (RelUnlock l) (write l (set_lk_cpu None) c)
  | RelUnlock l => hold h (drop_lock l) (goto h Idle (write l (set_locked 0) c))
  | Panicked _ => c
  end.

Definition sstep (c c' : smp) : Prop := exists h, c' = hstep h c.

(** All locks free; hart [h] is about to run [progs h]. *)
Definition smp_start (progs : nat -> list op) : smp :=
  Smp (fun _ => Spinlock 0 "" None) (fun h => Hart Idle (progs h) []).

(** The discipline: a hart does not acquire what it holds, releases only what it
    holds, and holds nothing at the end. *)
Fixpoint disciplined (held : list lock_id) (p : list op) : Prop :=
  match p with
  | [] => held = []
  | Acq l :: r => (l ∉ held) /\ disciplined (l :: held) r
  | Rel l :: r => l ∈ held /\ disciplined (drop_lock l held) r
  end.

(** Each lock acquired ranks above the locks held. *)
Fixpoint ordered (rank : lock_id -> nat) (held : list lock_id) (p : list op) : Prop :=
  match p with
  | [] => True
  | Acq l :: r => Forall (fun l' => (rank l' < rank l)%nat) held /\ ordered rank (l :: held) r
  | Rel l :: r => ordered rank (drop_lock l held) r
  end.

(** ** The invariant *)

(** What hart [x] may be doing. *)
Definition busy_ok (x : hart) : Prop :=
  match h_point x with
  | Idle => disciplined (h_held x) (h_prog x)
  | AcqLocked l | AcqCpu l | AcqSwap l => (l ∉ h_held x) /\ disciplined (l :: h_held x) (h_prog x)
  | AcqRecord l => l ∈ h_held x /\ disciplined (h_held x) (h_prog x)
  | RelLocked l | RelCpu l | RelClear l | RelUnlock l =>
      l ∈ h_held x /\ disciplined (drop_lock l (h_held x)) (h_prog x)
  | Panicked _ => False
  end.

(** [x] holds [l] and [lk->cpu] says so. *)
Definition recorded (l : lock_id) (x : hart) : Prop :=
  l ∈ h_held x /\ h_point x <> AcqRecord l /\ h_point x <> RelUnlock l.

Record smp_inv (c : smp) : Prop := {
  si_free : forall l, locked (locks c l) = 0 <-> forall h, l ∉ h_held (harts c h);
  si_excl : forall l h h', l ∈ h_held (harts c h) -> l ∈ h_held (harts c h') -> h = h';
  si_cpu : forall l h, lk_cpu (locks c l) = Some h <-> recorded l (harts c h);
  si_hart : forall h, busy_ok (harts c h);
}.

Lemma elem_of_drop_lock l l' held : l' ∈ drop_lock l held <-> l' <> l /\ l' ∈ held.
Proof. unfold drop_lock. by rewrite list_elem_of_filter. Qed.

(** A step of hart [h] that touches no lock but [l]. *)
Lemma smp_inv_update h l c c' :
  smp_inv c ->
  (forall h', h <> h' -> harts c' h' = harts c h') ->
  (forall l', l <> l' -> locks c' l' = locks c l'
    /\ (l' ∈ h_held (harts c' h) <-> l' ∈ h_held (harts c h))
    /\ (recorded l' (harts c' h) <-> recorded l' (harts c h))) ->
  busy_ok (harts c' h) ->
  (locked (locks c' l) = 0 <-> forall h', l ∉ h_held (harts c' h')) ->
  (forall h', h <> h' -> l ∈ h_held (harts c' h) -> l ∉ h_held (harts c h')) ->
  (forall h', lk_cpu (locks c' l) = Some h' <-> recorded l (harts c' h')) ->
  smp_inv c'.
Proof.
  intros [F X C B] Hh Hl Hb H1 H2 H3.
  assert (E : forall l' h', l <> l' -> (l' ∈ h_held (harts c' h') <-> l' ∈ h_held (harts c h'))).
  { intros l' h' Hne. destruct (decide (h = h')) as [->|Hn]; [by apply Hl|by rewrite Hh]. }
  split.
  - intros l'. destruct (decide (l = l')) as [<-|Hne]; [done|].
    destruct (Hl l' Hne) as (-> & _ & _). rewrite F. split; intros H h' Hin; eapply H, E; eauto.
  - intros l' h1 h2 A1 A2. destruct (decide (l = l')) as [<-|Hne].
    + destruct (decide (h = h1)) as [<-|N1], (decide (h = h2)) as [<-|N2]; [done| | |].
      * rewrite (Hh h2) in A2 by done. by destruct (H2 h2 N2 A1).
      * rewrite (Hh h1) in A1 by done. by destruct (H2 h1 N1 A2).
      * rewrite Hh in A1, A2 by done. by eapply X.
    + apply E in A1, A2; [|done..]. by eapply X.
  - intros l' h'. destruct (decide (l = l')) as [<-|Hne]; [done|].
    destruct (Hl l' Hne) as (-> & _ & Hr). rewrite C.
    destruct (decide (h = h')) as [<-|Hn]; [by rewrite Hr|by rewrite Hh].
  - intros h'. destruct (decide (h = h')) as [<-|Hn]; [done|]. rewrite Hh by done. apply B.
Qed.

(** A step that only moves on. *)
Lemma smp_inv_move h c c' :
  smp_inv c -> (forall l, locks c' l = locks c l) ->
  (forall h', h <> h' -> harts c' h' = harts c h') ->
  h_held (harts c' h) = h_held (harts c h) -> busy_ok (harts c' h) ->
  (forall l, h_point (harts c h) <> AcqRecord l /\ h_point (harts c h) <> RelUnlock l) ->
  (forall l, h_point (harts c' h) <> AcqRecord l /\ h_point (harts c' h) <> RelUnlock l) ->
  smp_inv c'.
Proof.
  intros I Hl Hh He Hb P P'.
  assert (R : forall l, recorded l (harts c' h) <-> recorded l (harts c h)).
  { intros l. unfold recorded. rewrite He. specialize (P l). specialize (P' l). tauto. }
  assert (E : forall h', h_held (harts c' h') = h_held (harts c h')).
  { intros h'. destruct (decide (h = h')) as [<-|Hn]; [done|by rewrite Hh]. }
  apply (smp_inv_update h L_kmem c); try done.
  - intros l' _. by rewrite He, Hl.
  - rewrite Hl, (si_free _ I). by setoid_rewrite E.
  - intros h' Hn Hin Hin'. rewrite He in Hin. by apply Hn, (si_excl _ I L_kmem).
  - intros h'. rewrite Hl, (si_cpu _ I). destruct (decide (h = h')) as [<-|Hn]; [by rewrite R|by rewrite Hh].
Qed.

(** ** What [hstep] changes *)

Lemma goto_hart h p c : harts (goto h p c) h = Hart p (h_prog (harts c h)) (h_held (harts c h)).
Proof. unfold goto. cbn [harts]. by rewrite fn_lookup_alter. Qed.

Lemma goto_ne h p c h' : h <> h' -> harts (goto h p c) h' = harts c h'.
Proof. intros H. unfold goto. cbn [harts]. by rewrite fn_lookup_alter_ne. Qed.

Lemma hold_hart h f c : harts (hold h f c) h = Hart (h_point (harts c h)) (h_prog (harts c h)) (f (h_held (harts c h))).
Proof. unfold hold. cbn [harts]. by rewrite fn_lookup_alter. Qed.

Lemma hold_ne h f c h' : h <> h' -> harts (hold h f c) h' = harts c h'.
Proof. intros H. unfold hold. cbn [harts]. by rewrite fn_lookup_alter_ne. Qed.

Lemma next_hart h c : harts (next_op h c) h = Hart (h_point (harts c h)) (tail (h_prog (harts c h))) (h_held (harts c h)).
Proof. unfold next_op. cbn [harts]. by rewrite fn_lookup_alter. Qed.

Lemma next_ne h c h' : h <> h' -> harts (next_op h c) h' = harts c h'.
Proof. intros H. unfold next_op. cbn [harts]. by rewrite fn_lookup_alter_ne. Qed.

Lemma write_lock l f c : locks (write l f c) l = f (locks c l).
Proof. unfold write. cbn [locks]. by rewrite fn_lookup_alter. Qed.

Lemma write_ne l f c l' : l <> l' -> locks (write l f c) l' = locks c l'.
Proof. intros H. unfold write. cbn [locks]. by rewrite fn_lookup_alter_ne. Qed.

(** A hart's step leaves the others alone. *)
Lemma hstep_ne h c h' : h <> h' -> harts (hstep h c) h' = harts c h'.
Proof.
  intros Hn. unfold hstep. repeat case_match; rewrite ?hold_ne, ?goto_ne, ?next_ne by done; cbn [harts write];
    rewrite ?goto_ne by done; done.
Qed.

Ltac smp_simpl := rewrite ?goto_hart, ?hold_hart, ?next_hart, ?goto_hart, ?next_hart in *; cbn [harts locks write goto hold next_op h_point h_prog h_held] in *.

(** ** Every step keeps the invariant *)

(** Points between which the record of the holder does not change. *)
Definition quiet_point (p : point) : bool :=
  match p with AcqRecord _ | RelUnlock _ => false | _ => true end.

Lemma quiet_point_ne p : quiet_point p = true -> forall l, p <> AcqRecord l /\ p <> RelUnlock l.
Proof. by destruct p. Qed.

Lemma smp_inv_goto h p c :
  smp_inv c -> quiet_point (h_point (harts c h)) = true -> quiet_point p = true ->
  busy_ok (Hart p (h_prog (harts c h)) (h_held (harts c h))) -> smp_inv (goto h p c).
Proof.
  intros I Hq Hp Hb. apply (smp_inv_move h c); try done.
  - intros h' Hn. by apply goto_ne.
  - by rewrite goto_hart.
  - by rewrite goto_hart.
  - by apply quiet_point_ne.
  - rewrite goto_hart. by apply quiet_point_ne.
Qed.

Lemma smp_inv_next h p c o r :
  smp_inv c -> h_point (harts c h) = Idle -> h_prog (harts c h) = o :: r -> quiet_point p = true ->
  busy_ok (Hart p r (h_held (harts c h))) -> smp_inv (goto h p (next_op h c)).
Proof.
  intros I Hi Ho Hp Hb. apply (smp_inv_move h c); try done.
  - intros h' Hn. by rewrite goto_ne, next_ne.
  - by rewrite goto_hart, next_hart.
  - rewrite goto_hart, next_hart. cbn [h_prog h_held]. by rewrite Ho.
  - rewrite Hi. by apply quiet_point_ne.
  - rewrite goto_hart. by apply quiet_point_ne.
Qed.

(** The swap fails: the lock's word stays nonzero. *)
Lemma smp_inv_spin l c : smp_inv c -> locked (locks c l) <> 0 -> smp_inv (write l (set_locked 1) c).
Proof.
  intros [F X C B] Hl. assert (E : forall l', lk_cpu (locks (write l (set_locked 1) c) l') = lk_cpu (locks c l')
    /\ (locked (locks (write l (set_locked 1) c) l') = 0 <-> locked (locks c l') = 0)).
  { intros l'. destruct (decide (l = l')) as [<-|Hn]; [rewrite write_lock|by rewrite write_ne]. cbn. split; [done|lia]. }
  split; [|exact X| |exact B].
  - intros l'. rewrite (proj2 (E l')). apply F.
  - intros l' h. rewrite (proj1 (E l')). apply C.
Qed.

(** The swap succeeds. *)
Lemma smp_inv_swap h l c :
  smp_inv c -> h_point (harts c h) = AcqSwap l -> locked (locks c l) = 0 ->
  smp_inv (hold h (cons l) (goto h (AcqRecord l) (write l (set_locked 1) c))).
Proof.
  intros I Ep Hl. pose proof (proj1 (si_free _ I l) Hl) as Hfree.
  pose proof (si_hart _ I h) as Hb. unfold busy_ok in Hb. rewrite Ep in Hb. destruct Hb as [Hni Hd].
  assert (Eh : harts (hold h (cons l) (goto h (AcqRecord l) (write l (set_locked 1) c))) h
    = Hart (AcqRecord l) (h_prog (harts c h)) (l :: h_held (harts c h))).
  { by rewrite hold_hart, goto_hart. }
  assert (En : forall h', h <> h' ->
    harts (hold h (cons l) (goto h (AcqRecord l) (write l (set_locked 1) c))) h' = harts c h').
  { intros h' Hn. by rewrite hold_ne, goto_ne. }
  apply (smp_inv_update h l c); try done; try rewrite Eh.
  - intros l' Hn. split; [by apply write_ne|]. unfold recorded. cbn [h_held h_point]. rewrite elem_of_cons, Ep.
    split; [split; [intros [->|]; done|by right]|]. split; intros (H1 & H2 & H3); split_and!; try done; try congruence.
    + by destruct H1 as [->|].
    + by right.
  - split; [by left|done].
  - cbn [hold goto locks]. rewrite write_lock. split; [done|]. intros H. specialize (H h). rewrite Eh in H.
    exfalso. apply H. by left.
  - intros h'. cbn [hold goto locks]. rewrite write_lock. cbn [lk_cpu set_locked]. rewrite (si_cpu _ I).
    split; [intros [Hin _]; by destruct (Hfree h')|]. destruct (decide (h = h')) as [<-|Hn].
    + rewrite Eh. intros (_ & Hx & _). done.
    + rewrite En by done. intros [Hin _]. by destruct (Hfree h').
Qed.

(** [lk->cpu = mycpu()] *)
Lemma smp_inv_record h l c :
  smp_inv c -> h_point (harts c h) = AcqRecord l -> smp_inv (goto h Idle (write l (set_lk_cpu (Some h)) c)).
Proof.
  intros I Ep. pose proof (si_hart _ I h) as Hb. unfold busy_ok in Hb. rewrite Ep in Hb. destruct Hb as [Hin Hd].
  apply (smp_inv_update h l c); try rewrite goto_hart; cbn [harts write h_held h_prog]; try done.
  - intros h' Hn. by rewrite goto_ne.
  - intros l' Hn. split; [by apply write_ne|]. split; [done|]. unfold recorded. cbn [h_held h_point]. rewrite Ep.
    split; intros (H1 & _ & _); split_and!; try done; congruence.
  - cbn [goto locks]. rewrite write_lock. cbn [locked set_lk_cpu]. rewrite (si_free _ I).
    split; intros H h'; specialize (H h'); (destruct (decide (h = h')) as [<-|Hn];
      [rewrite goto_hart in *|rewrite goto_ne in * by done]); done.
  - intros h' Hn _ Hin'. by apply Hn, (si_excl _ I l).
  - intros h'. cbn [goto locks]. rewrite write_lock. cbn [lk_cpu set_lk_cpu].
    destruct (decide (h = h')) as [<-|Hn].
    + rewrite goto_hart. split; [intros _; split_and!; done|done].
    + rewrite goto_ne by done. split; [congruence|]. intros [Hin' _]. by destruct Hn; apply (si_excl _ I l).
Qed.

(** [lk->cpu = 0] *)
Lemma smp_inv_clear h l c :
  smp_inv c -> h_point (harts c h) = RelClear l -> smp_inv (goto h (RelUnlock l) (write l (set_lk_cpu None) c)).
Proof.
  intros I Ep. pose proof (si_hart _ I h) as Hb. unfold busy_ok in Hb. rewrite Ep in Hb. destruct Hb as [Hin Hd].
  apply (smp_inv_update h l c); try rewrite goto_hart; cbn [harts write h_held h_prog]; try done.
  - intros h' Hn. by rewrite goto_ne.
  - intros l' Hn. split; [by apply write_ne|]. split; [done|]. unfold recorded. cbn [h_held h_point]. rewrite Ep.
    split; intros (H1 & _ & _); split_and!; try done; congruence.
  - cbn [goto locks]. rewrite write_lock. cbn [locked set_lk_cpu]. rewrite (si_free _ I).
    split; intros H h'; specialize (H h'); (destruct (decide (h = h')) as [<-|Hn];
      [rewrite goto_hart in *|rewrite goto_ne in * by done]); done.
  - intros h' Hn _ Hin'. by apply Hn, (si_excl _ I l).
  - intros h'. cbn [goto locks]. rewrite write_lock. cbn [lk_cpu set_lk_cpu]. split; [done|].
    destruct (decide (h = h')) as [<-|Hn].
    + rewrite goto_hart. intros (_ & _ & Hx). done.
    + rewrite goto_ne by done. intros [Hin' _]. by destruct Hn; apply (si_excl _ I l).
Qed.

(** [lk->locked = 0] *)
Lemma smp_inv_unlock h l c :
  smp_inv c -> h_point (harts c h) = RelUnlock l ->
  smp_inv (hold h (drop_lock l) (goto h Idle (write l (set_locked 0) c))).
Proof.
  intros I Ep. pose proof (si_hart _ I h) as Hb. unfold busy_ok in Hb. rewrite Ep in Hb. destruct Hb as [Hin Hd].
  set (c' := hold _ _ _).
  assert (Eh : harts c' h = Hart Idle (h_prog (harts c h)) (drop_lock l (h_held (harts c h)))).
  { unfold c'. by rewrite hold_hart, goto_hart. }
  assert (En : forall h', h <> h' -> harts c' h' = harts c h').
  { intros h' Hn. unfold c'. by rewrite hold_ne, goto_ne. }
  assert (Hno : forall h', l ∉ h_held (harts c' h')).
  { intros h'. destruct (decide (h = h')) as [<-|Hn].
    - rewrite Eh. cbn [h_held]. rewrite elem_of_drop_lock. tauto.
    - rewrite En by done. intros Hin'. by apply Hn, (si_excl _ I l). }
  apply (smp_inv_update h l c); try done; try rewrite Eh.
  - intros l' Hn. split; [by apply write_ne|]. unfold recorded. cbn [h_held h_point]. rewrite elem_of_drop_lock, Ep.
    split; [split; [tauto|split; [congruence|done]]|].
    split; [intros ((_ & H1) & _ & _); split_and!; congruence|intros (H1 & _ & _); split_and!; congruence].
  - done.
  - unfold c'. cbn [hold goto locks]. rewrite write_lock. done.
  - intros h' Hn Hi. by rewrite <- En.
  - intros h'. unfold c' at 1. cbn [hold goto locks]. rewrite write_lock. cbn [lk_cpu set_locked].
    rewrite (si_cpu _ I). split; [|intros [Hi _]; by destruct (Hno h')].
    intros (Hi & H1 & H2). destruct (decide (h = h')) as [<-|Hn]; [by rewrite Ep in H2|].
    by destruct Hn; apply (si_excl _ I l).
Qed.

Lemma smp_inv_hstep h c : smp_inv c -> smp_inv (hstep h c).
Proof.
  intros I. pose proof (si_hart _ I h) as Hb. unfold busy_ok in Hb. unfold hstep.
  destruct (h_point (harts c h)) as [|l|l|l|l|l|l|l|l|msg] eqn:Ep.
  - destruct (h_prog (harts c h)) as [|[l|l] r] eqn:Eo; [done| |]; cbn [disciplined] in Hb.
    + by eapply smp_inv_next.
    + by eapply smp_inv_next.
  - destruct (_ =? 0); apply smp_inv_goto; by rewrite ?Ep.
  - rewrite bool_decide_eq_false_2; [apply smp_inv_goto; by rewrite ?Ep|].
    intros E. apply (si_cpu _ I) in E as [Hin _]. by destruct Hb.
  - destruct (locked (locks c l) =? 0) eqn:E; b2p.
    + by apply smp_inv_swap.
    + by apply smp_inv_spin.
  - by apply smp_inv_record.
  - destruct Hb as [Hin Hd]. rewrite (proj2 (Z.eqb_neq _ _)).
    + apply smp_inv_goto; by rewrite ?Ep.
    + intros E. by apply (proj1 (si_free _ I l) E h).
  - destruct Hb as [Hin Hd]. rewrite bool_decide_eq_true_2.
    + apply smp_inv_goto; by rewrite ?Ep.
    + apply (si_cpu _ I). split_and!; [done|by rewrite Ep..].
  - by apply smp_inv_clear.
  - by apply smp_inv_unlock.
  - done.
Qed.

Lemma smp_inv_start progs : (forall h, disciplined [] (progs h)) -> smp_inv (smp_start progs).
Proof.
  intros H. split; cbn.
  - intros l. split; [by intros _ h ?%elem_of_nil|done].
  - by intros l h h' ?%elem_of_nil.
  - intros l h. split; [done|]. by intros [?%elem_of_nil _].
  - exact H.
Qed.

Lemma smp_inv_steps c c' : rtc sstep c c' -> smp_inv c -> smp_inv c'.
Proof. induction 1 as [|c c1 c2 [h ->] _ IH]; [done|]. intros I. by apply IH, smp_inv_hstep. Qed.

(** ** A hart that runs alone *)

Fixpoint hsteps (n h : nat) (c : smp) : smp :=
  match n with
  | O => c
  | S n' => hsteps n' h (hstep h c)
  end.

Lemma hsteps_rtc n h c : rtc sstep c (hsteps n h c).
Proof. revert c; induction n as [|n IH]; intros c; [done|]. eapply rtc_l; [by exists h|apply IH]. Qed.

Lemma hsteps_S n h c : hsteps (S n) h c = hsteps n h (hstep h c).
Proof. done. Qed.

(** Only hart [h] and lock [l] are different in [c']. *)
Record only_at (h : nat) (l : lock_id) (x : hart) (v : spinlock) (c c' : smp) : Prop := {
  oa_hart : harts c' h = x;
  oa_harts : forall h', h <> h' -> harts c' h' = harts c h';
  oa_lock : locks c' l = v;
  oa_locks : forall l', l <> l' -> locks c' l' = locks c l';
}.

Lemma acquire_alone h l r held c :
  harts c h = Hart Idle (Acq l :: r) held -> locked (locks c l) = 0 ->
  only_at h l (Hart Idle r (l :: held)) (Spinlock 1 (lk_name (locks c l)) (Some h)) c (hsteps 4 h c).
Proof.
  intros Eh Hl. rewrite hsteps_S. unfold hstep. rewrite Eh. cbn [h_point h_prog].
  set (c1 := goto h (AcqLocked l) (next_op h c)).
  assert (E1 : harts c1 h = Hart (AcqLocked l) r held) by (unfold c1; by rewrite goto_hart, next_hart, Eh).
  assert (L1 : locks c1 = locks c) by done.
  rewrite hsteps_S. unfold hstep. rewrite E1. cbn [h_point]. rewrite L1, Hl. cbn [Z.eqb].
  set (c2 := goto h (AcqSwap l) c1).
  assert (E2 : harts c2 h = Hart (AcqSwap l) r held) by (unfold c2; by rewrite goto_hart, E1).
  assert (L2 : locks c2 = locks c) by done.
  rewrite hsteps_S. unfold hstep. rewrite E2. cbn [h_point]. rewrite L2, Hl. cbn [Z.eqb].
  set (c3 := hold h (cons l) _).
  assert (E3 : harts c3 h = Hart (AcqRecord l) r (l :: held))
    by (unfold c3; rewrite hold_hart, goto_hart; cbn [harts write h_point h_prog h_held]; by rewrite E2).
  rewrite hsteps_S. unfold hstep. rewrite E3. cbn [h_point hsteps]. split.
  - rewrite goto_hart. cbn [harts write]. by rewrite E3.
  - intros h' Hn. rewrite goto_ne by done. cbn [harts write]. unfold c3, c2, c1.
    rewrite hold_ne, goto_ne by done. cbn [harts write]. by rewrite !goto_ne, next_ne.
  - cbn [goto locks]. rewrite write_lock. unfold c3. cbn [hold goto locks]. by rewrite write_lock.
  - intros l' Hn. cbn [goto locks]. rewrite write_ne by done. unfold c3. cbn [hold goto locks]. by rewrite write_ne.
Qed.

Lemma release_alone h l r held c :
  harts c h = Hart Idle (Rel l :: r) held -> locked (locks c l) <> 0 -> lk_cpu (locks c l) = Some h ->
  only_at h l (Hart Idle r (drop_lock l held)) (Spinlock 0 (lk_name (locks c l)) None) c (hsteps 5 h c).
Proof.
  intros Eh Hl Hc. rewrite hsteps_S. unfold hstep. rewrite Eh. cbn [h_point h_prog].
  set (c1 := goto h (RelLocked l) (next_op h c)).
  assert (E1 : harts c1 h = Hart (RelLocked l) r held) by (unfold c1; by rewrite goto_hart, next_hart, Eh).
  assert (L1 : locks c1 = locks c) by done.
  rewrite hsteps_S. unfold hstep. rewrite E1. cbn [h_point]. rewrite L1, (proj2 (Z.eqb_neq _ _) Hl).
  set (c2 := goto h (RelCpu l) c1).
  assert (E2 : harts c2 h = Hart (RelCpu l) r held) by (unfold c2; by rewrite goto_hart, E1).
  assert (L2 : locks c2 = locks c) by done.
  rewrite hsteps_S. unfold hstep. rewrite E2. cbn [h_point]. rewrite L2, Hc, bool_decide_eq_true_2 by done.
  set (c3 := goto h (RelClear l) c2).
  assert (E3 : harts c3 h = Hart (RelClear l) r held) by (unfold c3; by rewrite goto_hart, E2).
  rewrite hsteps_S. unfold hstep. rewrite E3. cbn [h_point].
  set (c4 := goto h (RelUnlock l) _).
  assert (E4 : harts c4 h = Hart (RelUnlock l) r held)
    by (unfold c4; rewrite goto_hart; cbn [harts write]; by rewrite E3).
  rewrite hsteps_S. unfold hstep. rewrite E4. cbn [h_point hsteps]. split.
  - rewrite hold_hart, goto_hart. cbn [harts write h_point h_prog h_held]. by rewrite E4.
  - intros h' Hn. rewrite hold_ne, goto_ne by done. cbn [harts write]. unfold c4, c3, c2, c1.
    rewrite goto_ne by done. cbn [harts write]. by rewrite !goto_ne, next_ne.
  - cbn [hold goto locks]. rewrite write_lock. unfold c4. cbn [goto locks]. by rewrite write_lock.
  - intros l' Hn. cbn [hold goto locks]. rewrite write_ne by done. unfold c4. cbn [goto locks]. by rewrite write_ne.
Qed.

(** [acquire] of a lock that hart [h0] holds: three steps to the loop on the swap. *)
Lemma acquire_blocked h h0 l r held c :
  harts c h = Hart Idle (Acq l :: r) held -> locked (locks c l) <> 0 -> lk_cpu (locks c l) = Some h0 -> h0 <> h ->
  only_at h l (Hart (AcqSwap l) r held) (locks c l) c (hsteps 3 h c).
Proof.
  intros Eh Hl Hc Hn. rewrite hsteps_S. unfold hstep. rewrite Eh. cbn [h_point h_prog].
  set (c1 := goto h (AcqLocked l) (next_op h c)).
  assert (E1 : harts c1 h = Hart (AcqLocked l) r held) by (unfold c1; by rewrite goto_hart, next_hart, Eh).
  assert (L1 : locks c1 = locks c) by done.
  rewrite hsteps_S. unfold hstep. rewrite E1. cbn [h_point]. rewrite L1, (proj2 (Z.eqb_neq _ _) Hl).
  set (c2 := goto h (AcqCpu l) c1).
  assert (E2 : harts c2 h = Hart (AcqCpu l) r held) by (unfold c2; by rewrite goto_hart, E1).
  assert (L2 : locks c2 = locks c) by done.
  rewrite hsteps_S. unfold hstep. rewrite E2. cbn [h_point hsteps].
  rewrite L2, Hc, bool_decide_eq_false_2 by congruence. split.
  - by rewrite goto_hart, E2.
  - intros h' Hne. rewrite goto_ne by done. unfold c2, c1. by rewrite !goto_ne, next_ne.
  - done.
  - done.
Qed.

(** ** Who holds a lock that is taken *)

Definition taken_held (c : smp) : Prop :=
  forall l, locked (locks c l) <> 0 -> exists h, l ∈ h_held (harts c h).

Lemma taken_same c c' :
  (forall l, locked (locks c' l) <> 0 -> locked (locks c l) <> 0) ->
  (forall h, h_held (harts c' h) = h_held (harts c h)) -> taken_held c -> taken_held c'.
Proof. intros Hl Hh H l Hne. destruct (H l (Hl l Hne)) as [h Hin]. exists h. by rewrite Hh. Qed.

Lemma held_goto h p c h' : h_held (harts (goto h p c) h') = h_held (harts c h').
Proof. destruct (decide (h = h')) as [<-|Hn]; [by rewrite goto_hart|by rewrite goto_ne]. Qed.

Lemma held_next h c h' : h_held (harts (next_op h c) h') = h_held (harts c h').
Proof. destruct (decide (h = h')) as [<-|Hn]; [by rewrite next_hart|by rewrite next_ne]. Qed.

Lemma held_hold h f c h' :
  h_held (harts (hold h f c) h') = if decide (h = h') then f (h_held (harts c h')) else h_held (harts c h').
Proof. case_decide as Hn; [subst h'; by rewrite hold_hart|by rewrite hold_ne]. Qed.

Lemma taken_hstep h c : taken_held c -> taken_held (hstep h c).
Proof.
  intros H. unfold hstep. destruct (h_point (harts c h)) as [|l|l|l|l|l|l|l|l|msg].
  - destruct (h_prog (harts c h)) as [|[l|l] r]; [done|..];
      (apply (taken_same c); [done|intros h'; by rewrite held_goto, held_next|done]).
  - case_match; (apply (taken_same c); [done|intros h'; by rewrite held_goto|done]).
  - case_match; (apply (taken_same c); [done|intros h'; by rewrite held_goto|done]).
  - destruct (_ =? 0) eqn:E; b2p.
    + intros l' Hne. destruct (decide (l = l')) as [<-|Hn].
      * exists h. rewrite held_hold, decide_True by done. by left.
      * cbn [hold goto locks] in Hne. rewrite write_ne in Hne by done. destruct (H l' Hne) as [h' Hin].
        exists h'. rewrite held_hold, held_goto. case_decide; [by right|done].
    + apply (taken_same c); [|done|done]. intros l'. destruct (decide (l = l')) as [<-|Hn]; [done|by rewrite write_ne].
  - apply (taken_same c); [|intros h'; by rewrite held_goto|done].
    intros l'. cbn [goto locks]. destruct (decide (l = l')) as [<-|Hn]; [by rewrite write_lock|by rewrite write_ne].
  - case_match; (apply (taken_same c); [done|intros h'; by rewrite held_goto|done]).
  - case_match; (apply (taken_same c); [done|intros h'; by rewrite held_goto|done]).
  - apply (taken_same c); [|intros h'; by rewrite held_goto|done].
    intros l'. cbn [goto locks]. destruct (decide (l = l')) as [<-|Hn]; [by rewrite write_lock|by rewrite write_ne].
  - intros l' Hne. cbn [hold goto locks] in Hne. destruct (decide (l = l')) as [<-|Hn]; [by rewrite write_lock in Hne|].
    rewrite write_ne in Hne by done. destruct (H l' Hne) as [h' Hin].
    exists h'. rewrite held_hold, held_goto. case_decide; [|done]. by apply elem_of_drop_lock.
  - done.
Qed.

(** ** Acquiring in an order *)

Definition hart_ordered (rank : lock_id -> nat) (x : hart) : Prop :=
  match h_point x with
  | Idle | AcqRecord _ => ordered rank (h_held x) (h_prog x)
  | AcqLocked l | AcqCpu l | AcqSwap l =>
      Forall (fun l' => (rank l' < rank l)%nat) (h_held x) /\ ordered rank (l :: h_held x) (h_prog x)
  | RelLocked l | RelCpu l | RelClear l | RelUnlock l => ordered rank (drop_lock l (h_held x)) (h_prog x)
  | Panicked _ => True
  end.

Lemma ordered_hstep rank h c h' :
  hart_ordered rank (harts c h') -> hart_ordered rank (harts (hstep h c) h').
Proof.
  intros H. destruct (decide (h = h')) as [<-|Hn]; [|by rewrite hstep_ne].
  unfold hart_ordered in H. unfold hstep.
  destruct (h_point (harts c h)) as [|l|l|l|l|l|l|l|l|msg] eqn:Ep.
  - destruct (h_prog (harts c h)) as [|[l|l] r] eqn:Eo.
    + unfold hart_ordered. by rewrite Ep, Eo.
    + rewrite goto_hart, next_hart. unfold hart_ordered. cbn [h_point h_held h_prog]. by rewrite Eo.
    + rewrite goto_hart, next_hart. unfold hart_ordered. cbn [h_point h_held h_prog]. by rewrite Eo.
  - case_match; by rewrite goto_hart.
  - case_match; by rewrite goto_hart.
  - case_match; [|unfold hart_ordered; cbn [write harts]; by rewrite Ep].
    rewrite hold_hart, goto_hart. apply H.
  - by rewrite goto_hart.
  - case_match; by rewrite goto_hart.
  - case_match; by rewrite goto_hart.
  - by rewrite goto_hart.
  - by rewrite hold_hart, goto_hart.
  - unfold hart_ordered. by rewrite Ep.
Qed.

Lemma taken_steps c c' : rtc sstep c c' -> taken_held c -> taken_held c'.
Proof. induction 1 as [|c c1 c2 [h ->] _ IH]; [done|]. intros H. by apply IH, taken_hstep. Qed.

Lemma ordered_steps rank c c' :
  rtc sstep c c' -> (forall h, hart_ordered rank (harts c h)) -> forall h, hart_ordered rank (harts c' h).
Proof.
  induction 1 as [|c c1 c2 [h ->] _ IH]; [done|]. intros H. apply IH. intros h'. by apply ordered_hstep.
Qed.

(** A hart at the end of its program, and one whose next swap fails. *)
Definition finished (c : smp) (h : nat) : Prop := h_point (harts c h) = Idle /\ h_prog (harts c h) = [].

Definition spinning (c : smp) (h : nat) : Prop :=
  exists l, h_point (harts c h) = AcqSwap l /\ locked (locks c l) <> 0.

Lemma spinning_dec c h : spinning c h \/ ~ spinning c h.
Proof.
  unfold spinning. destruct (h_point (harts c h)) as [|l|l|l|l|l|l|l|l|msg];
    try (right; by intros (l' & [=] & _)).
  destruct (decide (locked (locks c l) = 0)) as [E|E]; [right|left; eauto].
  intros (l' & [= <-] & H). done.
Qed.

(** Following the harts that wait for each other ends at one that does not. *)
Lemma waits_end rank R c :
  smp_inv c -> taken_held c -> (forall h, hart_ordered rank (harts c h)) -> (forall l, (rank l < R)%nat) ->
  forall n h l, h_point (harts c h) = AcqSwap l -> locked (locks c l) <> 0 -> (R - rank l <= n)%nat ->
  exists h', ~ finished c h' /\ ~ spinning c h'.
Proof.
  intros I T O HR. induction n as [|n IH]; intros h l Ep Hl Hn; [specialize (HR l); lia|].
  destruct (T l Hl) as [h' Hin].
  destruct (spinning_dec c h') as [(l' & Ep' & Hl')|Hs].
  - pose proof (O h') as Ho. unfold hart_ordered in Ho. rewrite Ep' in Ho. destruct Ho as [Hf _].
    rewrite Forall_forall in Hf. specialize (Hf l Hin). apply (IH h' l' Ep' Hl'). lia.
  - exists h'. split; [|done]. intros [Ei Eo]. pose proof (si_hart _ I h') as Hb.
    unfold busy_ok in Hb. rewrite Ei, Eo in Hb. cbn [disciplined] in Hb. rewrite Hb in Hin. by apply elem_of_nil in Hin.
Qed.

Lemma drop_lock_id l held : l ∉ held -> drop_lock l held = held.
Proof.
  unfold drop_lock. induction held as [|x held IH]; intros H; [done|].
  apply not_elem_of_cons in H as [Hx H]. rewrite filter_cons_True by congruence. by rewrite IH.
Qed.

Lemma drop_lock_top l held : l ∉ held -> drop_lock l (l :: held) = held.
Proof. intros H. unfold drop_lock. rewrite filter_cons_False by tauto. by apply drop_lock_id. Qed.

(** Two locks nested. *)
Lemma nested_disciplined a b : a <> b -> disciplined [] [Acq a; Acq b; Rel b; Rel a].
Proof.
  intros H. cbn [disciplined]. rewrite !drop_lock_top by set_solver. set_solver.
Qed.

Lemma get_lock_popped l s : get_lock l (popped s) = get_lock l s.
Proof. unfold popped. cbv zeta. by destruct (_ && _), l. Qed.

(** ** Theorems *)

(** C20: locks exclude each other.  Whatever the interleaving of the harts' memory
    accesses, if every hart keeps to the discipline then no two of them hold the
    same lock, no [acquire] or [release] panics, [lk->locked] is 0 exactly when
    nobody holds the lock, and [lk->cpu] names only the holder. *)
Theorem locks_exclude progs c :
  (forall h, disciplined [] (progs h)) -> rtc sstep (smp_start progs) c ->
  (forall l h h', l ∈ h_held (harts c h) -> l ∈ h_held (harts c h') -> h = h')
  /\ (forall h msg, h_point (harts c h) <> Panicked msg)
  /\ (forall l, locked (locks c l) = 0 <-> forall h, l ∉ h_held (harts c h))
  /\ (forall l h, lk_cpu (locks c l) = Some h -> l ∈ h_held (harts c h)).
Proof.
  intros Hd Hr. pose proof (smp_inv_steps _ _ Hr (smp_inv_start _ Hd)) as [F X C B]. split_and!; try done.
  - intros h msg E. specialize (B h). unfold busy_ok in B. by rewrite E in B.
  - intros l h H. by apply C in H as [].
Qed.

(** C21: no deadlock with ordered locks.  If every hart acquires locks in the order of
    their rank, then as long as one has not finished there is one that has not
    finished and whose next access is not a failing swap. *)
Theorem ordered_locks_progress rank R progs c :
  (forall l, (rank l < R)%nat) ->
  (forall h, disciplined [] (progs h)) -> (forall h, ordered rank [] (progs h)) ->
  rtc sstep (smp_start progs) c ->
  forall h, ~ finished c h -> exists h', ~ finished c h' /\ ~ spinning c h'.
Proof.
  intros HR Hd Ho Hr h Hf. pose proof (smp_inv_steps _ _ Hr (smp_inv_start _ Hd)) as I.
  pose proof (taken_steps _ _ Hr ltac:(by intros l)) as T.
  pose proof (ordered_steps rank _ _ Hr Ho) as O.
  destruct (spinning_dec c h) as [(l & Ep & Hl)|Hs]; [|by exists h].
  by eapply (waits_end rank R c I T O HR R); [exact Ep|exact Hl|lia].
Qed.

(** With one hart running, these are the [acquire] and [release] of Spinlock.v:
    they leave the same lock, and [Spin] is the loop on the failing swap. *)
Theorem alone_agrees s l r held c :
  hart_ok s -> lock_exists l s -> locks c l = get_lock l s ->
  (lock_free l s -> harts c 0%nat = Hart Idle (Acq l :: r) held ->
    exists s', acquire l s = Done tt s' /\ locks (hsteps 4 0 c) l = get_lock l s'
      /\ harts (hsteps 4 0 c) 0%nat = Hart Idle r (l :: held))
  /\ (lock_held l s -> 0 < noff s -> harts c 0%nat = Hart Idle (Rel l :: r) held ->
    exists s', release l s = Done tt s' /\ locks (hsteps 5 0 c) l = get_lock l s'
      /\ harts (hsteps 5 0 c) 0%nat = Hart Idle r (drop_lock l held))
  /\ (forall h0, locked (get_lock l s) <> 0 -> lk_cpu (get_lock l s) = Some h0 -> h0 <> 0%nat ->
    harts c 0%nat = Hart Idle (Acq l :: r) held ->
    (exists s', acquire l s = Spin s') /\ spinning (hsteps 3 0 c) 0).
Proof.
  intros Hh Hex El. split_and!.
  - intros [Hl Hc] Eh. destruct (acquire_alone 0 l r held c Eh) as [A1 _ A3 _]; [by rewrite El|].
    exists (locked_state l s). split; [by apply acquire_ok|]. split; [|done]. rewrite A3, El.
    unfold locked_state. by rewrite get_set_lock.
  - intros [Hl Hc] Hn Eh. destruct (release_alone 0 l r held c Eh) as [A1 _ A3 _];
      [by rewrite El, Hl|by rewrite El|].
    exists (unlocked_state l s). split; [|split; [|done]].
    + apply release_ok; try done; try apply Hh; [done|]. pose proof (hart_noff s Hh). lia.
    + rewrite A3, El. unfold unlocked_state. rewrite get_lock_popped. by rewrite get_set_lock.
  - intros h0 Hl Hc Hn Eh. split.
    + rewrite acquire_taken, bool_decide_eq_false_2 by congruence. by eexists.
    + destruct (acquire_blocked 0 h0 l r held c Eh) as [B1 _ B3 _]; [by rewrite El..|done|].
      exists l. by rewrite B1, B3, El.
Qed.

(** ** Witnesses *)

(** [wait_lock] before a slot's lock, as in [exit_process] and [wait_process]. *)
Definition demo_rank (l : lock_id) : nat := match l with L_wait => 0 | L_proc _ => 1 | _ => 2 end.

Definition demo_exit (h : nat) : list op :=
  if (h <? 2)%nat then [Acq L_wait; Acq (L_proc 3); Rel (L_proc 3); Rel L_wait] else [].

Lemma demo_exit_disciplined h : disciplined [] (demo_exit h).
Proof. unfold demo_exit. destruct (h <? 2)%nat; [by apply nested_disciplined|done]. Qed.

Lemma demo_exit_ordered h : ordered demo_rank [] (demo_exit h).
Proof.
  unfold demo_exit. destruct (h <? 2)%nat; [|done]. cbn.
  split; [constructor|]. split; [repeat constructor|done].
Qed.

Lemma locks_exclude_witness :
  exists c, rtc sstep (smp_start demo_exit) c /\ L_wait ∈ h_held (harts c 0%nat)
    /\ forall h, L_wait ∈ h_held (harts c h) -> h = 0%nat.
Proof.
  exists (hsteps 4 0 (smp_start demo_exit)).
  destruct (locks_exclude demo_exit (hsteps 4 0 (smp_start demo_exit)) demo_exit_disciplined (hsteps_rtc _ _ _))
    as (H & _). split; [apply hsteps_rtc|].
  assert (Hin : L_wait ∈ h_held (harts (hsteps 4 0 (smp_start demo_exit)) 0%nat)) by (cbn; left).
  split; [exact Hin|]. intros h Hh. exact (H _ _ _ Hh Hin).
Defined.

Lemma ordered_locks_progress_witness :
  exists h', ~ finished (smp_start demo_exit) h' /\ ~ spinning (smp_start demo_exit) h'.
Proof.
  apply (ordered_locks_progress demo_rank 3 demo_exit (smp_start demo_exit)) with (h := 0%nat).
  - intros l. destruct l; cbn; lia.
  - apply demo_exit_disciplined.
  - apply demo_exit_ordered.
  - apply rtc_refl.
  - intros [_ H]. discriminate H.
Defined.

Lemma alone_agrees_witness :
  exists s', acquire L_kmem demo_state = Done tt s'
    /\ locks (hsteps 4 0 (Smp (fun l => get_lock l demo_state) (fun _ => Hart Idle [Acq L_kmem] []))) L_kmem
       = get_lock L_kmem s'.
Proof.
  destruct (alone_agrees demo_state L_kmem [] []
    (Smp (fun l => get_lock l demo_state) (fun _ => Hart Idle [Acq L_kmem] []))) as [H _].
  - exact demo_hart.
  - intros i [=].
  - reflexivity.
  - destruct H as (s' & E1 & E2 & _); [split; reflexivity|reflexivity|]. exists s'. split; [exact E1|exact E2].
Defined.
