(* ===== verification/Deadlock.v ===== *)
(** * A deadlock of two harts

    kernel/spinlock.c is written for several harts, although include/param.h sets NCPU
    to 1, and kernel/proc.c takes its locks in two orders: [create_process] takes [wait_lock] while it holds the lock
    of the new slot, and [exit_process] runs [wakeup], which takes the lock of every
    slot, while it holds [wait_lock].  Here two harts run the operations of Proc.v
    themselves.  The harts share RAM, the devices, the locks and the process table;
    each has its own control registers, [struct cpu] and registers.  The state is
    always that of the hart that runs, for which cpu 0 is its own and cpu 1 the
    other's; [handover] passes it to the other hart.

    [exit_process] is cut in two after its [acquire] of [wait_lock].  When another
    hart runs [create_process] in between, it gets as far as that lock, and then
    the first hart gets as far as the new slot's lock: both loop for ever on the
    swap of [acquire]. *)

From S2P Require Import Prelude Riscv Memory State Spinlock Kalloc Vm VmMap VmDestroy Uart Printf Csr Proc ProcTable ProcMem ProcExit Switch ProcSpec.

(** ** Definitions *)

(** What a hart has of its own. *)
Record own := Own { o_csr : csrs; o_cpu : cpu; o_regs : context }.

Definition own_of (s : kstate) : own := Own (csr s) (cpu0 s) (regs s).

(** The holder of a lock, as the other hart sees it. *)
Definition other_cpu (c : option nat) : option nat :=
  match c with
  | Some 0%nat => Some 1%nat
  | Some 1%nat => Some 0%nat
  | _ => c
  end.

Definition mirror_lock (k : spinlock) : spinlock := set_lk_cpu (other_cpu (lk_cpu k)) k.

Definition mirror_proc (q : proc) : proc := set_p_lock (mirror_lock (p_lock q)) q.

(** The state as the hart with the parts [o] sees it, from that of the other. *)
Definition handover (o : own) (s : kstate) : kstate :=
  Kstate (mem s) (o_csr o) (io s) (o_cpu o) (o_regs o) (mirror_lock (kmem_lock s)) (freelist s)
    (mirror_lock (pid_lock s)) (mirror_lock (wait_lock s)) (mirror_lock (tickslock s))
    (mirror_lock (printlock s)) (kernel_pagetable s) (mirror_proc <$> procs s) (initproc s) (nextpid s)
    (ticks s) (forkret_first s).

(** The other hart has the lock. *)
Definition lock_elsewhere (l : lock_id) (s : kstate) : Prop :=
  locked (get_lock l s) = 1 /\ lk_cpu (get_lock l s) = Some 1%nat.

(** One more round of the loop on the swap. *)
Definition swap_again (l : lock_id) (s : kstate) : kstate := set_lock l (set_locked 1 (get_lock l s)) s.

Section deadlock.
Context {L : Linker} {LO : LinkerOk}.

(** [exit_process] up to its [acquire] of [wait_lock], and from there. *)
Definition exit_begin : M (option nat) :=
  p ← myproc;
  ip ← gets initproc;
  if bool_decide (p = ip) then panic "init exiting" else
  acquire L_wait ;;
  mret p.

Definition exit_rest (status : Z) (p : option nat) : M Z :=
  reparent p ;;
  i ← deref p;
  pr ← get_proc i;
  match p_parent pr with
  | Some par => wakeup (PProc par)
  | None => mret tt
  end ;;
  acquire (L_proc i) ;;
  upd (set_p_xstate (i32 status)) i ;;
  upd (set_p_state ZOMBIE) i ;;
  release L_wait ;;
  sched_enter.

Lemma exit_split status s : exit_process status s = (p ← exit_begin; exit_rest status p) s.
Proof.
  unfold exit_process, exit_begin, exit_rest. rewrite bind_assoc. apply bind_ext. intros p r.
  rewrite bind_assoc. apply bind_ext. intros ip r'. case_bool_decide; [done|].
  by rewrite bind_assoc.
Qed.

(** ** The other hart's view *)

Lemma other_cpu_other c : other_cpu (other_cpu c) = c.
Proof. by destruct c as [[|[|]]|]. Qed.

Lemma mirror_mirror q : mirror_proc (mirror_proc q) = q.
Proof.
  destruct q as [[l n c]]. unfold mirror_proc, mirror_lock. cbn. by rewrite other_cpu_other.
Qed.

Lemma handover_lock o l s : get_lock l (handover o s) = mirror_lock (get_lock l s).
Proof.
  destruct l as [| | | | |i]; try done. cbn. rewrite list_lookup_fmap. by destruct (procs s !! i).
Qed.

Lemma handover_io o s : io (handover o s) = io s.
Proof. done. Qed.

Lemma handover_nextpid o s : nextpid (handover o s) = nextpid s.
Proof. done. Qed.

Lemma handover_hart s s' : hart_ok s -> hart_ok (handover (own_of s) s').
Proof. by apply hart_ok_same. Qed.

(** While one hart has [wait_lock], the other can still allocate. *)
Lemma handover_locked o s :
  handover o (locked_state L_wait s)
  = set_lock L_wait (Spinlock 1 (lk_name (wait_lock s)) (Some 1%nat)) (handover o s).
Proof. reflexivity. Qed.

Lemma can_alloc_locked s v free k : can_alloc s free k -> can_alloc (set_lock L_wait v s) free k.
Proof.
  intros [H1 H2 H3 H4 H5 H6 H7 H8 H9]. split; try done; [by apply (hart_ok_same s)|by apply (pool_same s)].
Qed.

(** ** The first hart, blocked *)

(** Process [me], with parent [par], runs on this hart and is exiting; slot [k] is
    locked by the other hart. *)
Record blocked (me par k : nat) (t : kstate) : Prop := {
  bk_hart : hart_ok t;
  bk_depth : noff t = 1;
  bk_cur : c_proc (cpu0 t) = Some me;
  bk_length : length (procs t) = NPROC;
  bk_free : forall j, (j < NPROC)%nat -> j <> k -> lock_free (L_proc j) t;
  bk_taken : lock_elsewhere (L_proc k) t;
  bk_wait : lock_held L_wait t;
  bk_self : exists q, procs t !! me = Some q /\ p_parent q = Some par;
}.

(** Both locks are taken, crosswise. *)
Definition crossed (k : nat) (t : kstate) : Prop := lock_held L_wait t /\ lock_elsewhere (L_proc k) t.

(** An operation that ends, or does not get past the lock of slot [k]. *)
Definition stays {A} (me par k : nat) (m : M A) : Prop :=
  forall t, blocked me par k t ->
    (exists a t', m t = Done a t' /\ blocked me par k t') \/ exists t', m t = Spin t' /\ crossed k t'.

Definition sticks {A} (me par k : nat) (m : M A) : Prop :=
  forall t, blocked me par k t -> exists t', m t = Spin t' /\ crossed k t'.

Section first_hart.
Context (me par k : nat) (Hme : me <> k) (Hpar : par <> me) (Hk : (k < NPROC)%nat).

Lemma stays_ret {A} (a : A) : stays me par k (mret a).
Proof. intros t H. left. by exists a, t. Qed.

Lemma stays_bind {A B} (m : M A) (f : A -> M B) :
  stays me par k m -> (forall a, stays me par k (f a)) -> stays me par k (x ← m; f x).
Proof.
  intros Hm Hf t H. destruct (Hm t H) as [(a & t1 & E & H1)|(t1 & E & C)].
  - destruct (Hf a t1 H1) as [(b & t2 & E2 & H2)|(t2 & E2 & C)]; [left|right].
    + exists b, t2. split; [by mstep; [exact E|]|done].
    + exists t2. split; [by mstep; [exact E|]|done].
  - right. exists t1. split; [by apply bind_Spin|done].
Qed.

Lemma stays_sticks {A B} (m : M A) (f : A -> M B) :
  stays me par k m -> (forall a, sticks me par k (f a)) -> sticks me par k (x ← m; f x).
Proof.
  intros Hm Hf t H. destruct (Hm t H) as [(a & t1 & E & H1)|(t1 & E & C)].
  - destruct (Hf a t1 H1) as (t2 & E2 & C). exists t2. split; [by mstep; [exact E|]|done].
  - exists t1. split; [by apply bind_Spin|done].
Qed.

Lemma sticks_bind {A B} (m : M A) (f : A -> M B) : sticks me par k m -> sticks me par k (x ← m; f x).
Proof. intros Hm t H. destruct (Hm t H) as (t1 & E & C). exists t1. split; [by apply bind_Spin|done]. Qed.

Lemma sticks_stays {A} (m : M A) : sticks me par k m -> stays me par k m.
Proof. intros Hm t H. right. by apply Hm. Qed.

Lemma blocked_table F t `{!TableNeutral F} :
  (forall ps q, ps !! me = Some q -> exists q', F ps !! me = Some q' /\ p_parent q' = p_parent q) ->
  blocked me par k t -> blocked me par k (table F t).
Proof.
  intros HF [B1 B2 B3 B4 B5 B6 B7 (q & Hq & Hp)]. split; try done.
  - by apply hart_ok_table.
  - cbn. by rewrite (tn_length (F := F)).
  - intros j Hj Hne. unfold lock_free. rewrite (ind_get (l := L_proc j)). by apply B5.
  - unfold lock_elsewhere. by rewrite (ind_get (l := L_proc k)).
  - destruct (HF _ q Hq) as (q' & Hq' & E). exists q'. by rewrite E.
Qed.

Lemma blocked_touch t : blocked me par k t -> touch t = t.
Proof. intros B. apply touch_deep. by rewrite (bk_depth _ _ _ _ B). Qed.

(** An update of one slot that keeps the parent of slot [me]. *)
Lemma blocked_alter f i t `{!LockNeutral f} :
  (i = me -> forall q, p_parent (f q) = p_parent q) -> blocked me par k t -> blocked me par k (table (alter f i) t).
Proof.
  intros Hf B. apply blocked_table; [apply _| |done]. intros ps q Hq. rewrite alter_lookup.
  case_decide as E; [|by exists q]. rewrite Hq. exists (f q). split; [done|by apply Hf].
Qed.

Lemma wakeup_body_stays chan i : (i < NPROC)%nat -> i <> k -> stays me par k (wakeup_body chan i).
Proof.
  intros Hi Hne t B. left. eexists _, _. split.
  - apply wakeup_body_ok; [apply B|apply B|done|]. intros _. by apply (bk_free _ _ _ _ B).
  - rewrite (blocked_touch t B). case_bool_decide; [done|].
    apply blocked_alter; [apply ln_wake1| |done]. intros _ q. apply wake1_parent.
Qed.

Lemma wakeup_body_sticks chan : sticks me par k (wakeup_body chan k).
Proof.
  intros t B. pose proof (bk_taken _ _ _ _ B) as [T1 T2].
  assert (Hex : lock_exists (L_proc k) t) by (apply lock_exists_proc; [apply B|done]).
  exists (set_lock (L_proc k) (set_locked 1 (get_lock (L_proc k) t)) (pushed t)). split.
  - unfold wakeup_body. mstep; [apply myproc_ok, B|]. rewrite (bk_cur _ _ _ _ B), (blocked_touch t B).
    rewrite bool_decide_eq_false_2 by congruence. cbn [negb when]. apply bind_Spin.
    rewrite acquire_taken; [|apply B|by rewrite T1]. by rewrite bool_decide_eq_false_2 by (by rewrite T2).
  - split; [apply (bk_wait _ _ _ _ B)|]. unfold lock_elsewhere.
    rewrite get_set_lock by by apply lock_exists_pushed. done.
Qed.

(** [wakeup] does not get past slot [k]. *)
Lemma wakeup_sticks chan : sticks me par k (wakeup chan).
Proof.
  unfold wakeup. fold (wakeup_body chan).
  assert (H : forall n i, (i <= k < i + n)%nat -> (i + n <= NPROC)%nat ->
    sticks me par k (for_procs n i (wakeup_body chan))).
  { induction n as [|n IH]; intros i Hi Hn; [lia|]. cbn [for_procs].
    destruct (decide (i = k)) as [->|Hne]; [apply sticks_bind, wakeup_body_sticks|].
    apply stays_sticks; [by apply wakeup_body_stays; [lia|]|]. intros _. apply IH; lia. }
  apply H; [lia|done].
Qed.

Lemma stays_for n i body : (forall j, (i <= j < i + n)%nat -> stays me par k (body j)) ->
  stays me par k (for_procs n i body).
Proof.
  revert i; induction n as [|n IH]; intros i H; [apply stays_ret|]. cbn [for_procs].
  apply stays_bind; [apply H; lia|]. intros _. apply IH. intros j Hj. apply H. lia.
Qed.

Lemma reparent_stays : stays me par k (reparent (Some me)).
Proof.
  apply stays_for. intros pp Hpp t B.
  destruct (lookup_lt_is_Some_2 (procs t) pp) as [r Hr]; [rewrite (bk_length _ _ _ _ B); lia|].
  destruct (bool_decide (p_parent r = Some me)) eqn:Eb; last first.
  { left. exists tt, t. split; [|done]. mstep; [by apply get_proc_ok|]. by rewrite Eb. }
  apply bool_decide_eq_true in Eb.
  assert (Hne : pp <> me).
  { intros ->. destruct (bk_self _ _ _ _ B) as (q & Hq & Hp). congruence. }
  set (t1 := table (alter (set_p_parent (initproc t)) pp) t).
  assert (B1 : blocked me par k t1) by (by apply blocked_alter; [apply _|..]).
  assert (Hr1 : procs t1 !! pp = Some (set_p_parent (initproc t) r)) by (by apply lookup_alter_slot).
  assert (Hw : stays me par k (match initproc t with
    | Some i => when (bool_decide (p_state (set_p_parent (initproc t) r) = ZOMBIE)) (wakeup (PProc i))
    | None => mret tt end)).
  { destruct (initproc t) as [i|]; [|apply stays_ret]. unfold when. case_bool_decide; [|apply stays_ret].
    apply sticks_stays, wakeup_sticks. }
  destruct (Hw t1 B1) as [(a & t2 & E & B2)|(t2 & E & C)]; [left; exists a, t2|right; exists t2];
    (split; [|done]); (mstep; [by apply get_proc_ok|]); rewrite bool_decide_eq_true_2 by done; cbn [when]; mrun;
    (mstep; [apply upd_ok|]); fold t1; (mstep; [by apply get_proc_ok|]); exact E.
Qed.

Lemma exit_rest_sticks status : sticks me par k (exit_rest status (Some me)).
Proof.
  apply stays_sticks; [apply reparent_stays|]. intros _ t B. cbn [deref].
  destruct (bk_self _ _ _ _ B) as (q & Hq & Hp). destruct (wakeup_sticks (PProc par) t B) as (t' & E & C).
  exists t'. split; [|done]. mrun. mstep; [by apply get_proc_ok|]. rewrite Hp. by apply bind_Spin.
Qed.

End first_hart.

(** ** The second hart *)

Lemma create_process_spins s fn k mb tf pt t1 t2 free :
  can_alloc s (tf :: pt :: t1 :: t2 :: free) k -> c_proc (cpu0 s) = Some mb -> lock_elsewhere L_wait s ->
  exists s', create_process fn s = Spin s' /\ lock_held (L_proc k) s' /\ get_lock L_wait s' = get_lock L_wait s
    /\ length (procs s') = NPROC /\ forall j, j <> k -> procs s' !! j = procs s !! j.
Proof.
  intros Hc Hmb [W1 W2]. destruct (alloc_process_ok s k tf pt t1 t2 free Hc) as (s1 & n & tbl & E & Es & _).
  destruct Hc as [Hh Hd Hpl _ _ _ _ _ Hk]. pose proof (slot_bound s k Hpl Hk) as Hkb.
  set (F := alter (born (nextpid s) tf pt) k) in Es.
  assert (Hps : procs s1 = F (procs (locked_state (L_proc k) s))) by by rewrite Es.
  assert (Hcpu : cpu0 s1 = cpu0 (locked_state (L_proc k) s)) by by rewrite Es.
  assert (Hcsr : csr s1 = csr (locked_state (L_proc k) s)) by by rewrite Es.
  assert (Hw : get_lock L_wait s1 = get_lock L_wait s) by by rewrite Es.
  assert (Hl : lock_held (L_proc k) s1).
  { unfold lock_held. assert (E1 : get_lock (L_proc k) s1 = get_lock (L_proc k) (table F (locked_state (L_proc k) s)))
      by (unfold get_lock; by rewrite Hps). rewrite E1, (ind_get (l := L_proc k)).
    apply locked_state_held. by apply lock_exists_proc; [apply Hpl|]. }
  clear Es. pose proof (hart_noff s Hh).
  assert (Hh1 : hart_ok s1) by (apply (hart_ok_same (locked_state (L_proc k) s)); [done|done|];
    by apply hart_ok_locked_state; [|lia]).
  assert (Ht : touch s1 = s1).
  { apply touch_deep. unfold noff. rewrite Hcpu. fold (noff (locked_state (L_proc k) s)). rewrite noff_locked. lia. }
  exists (set_lock L_wait (set_locked 1 (get_lock L_wait s1)) (pushed s1)). split_and!.
  - unfold create_process. mstep; [exact E|]. mstep; [by apply myproc_ok|]. rewrite Ht, Hcpu.
    change (c_proc (cpu0 (locked_state (L_proc k) s))) with (c_proc (cpu0 s)). rewrite Hmb. cbn [is_null negb when].
    do 2 apply bind_Spin. rewrite acquire_taken; [|done|by rewrite Hw, W1].
    by rewrite bool_decide_eq_false_2 by (by rewrite Hw, W2).
  - exact Hl.
  - change (set_locked 1 (get_lock L_wait s1) = get_lock L_wait s). rewrite Hw.
    destruct (get_lock L_wait s) as [l nm c]. cbn in W1 |- *. by rewrite W1.
  - change (length (procs s1) = NPROC). rewrite Hps. unfold F. rewrite length_alter, length_procs_locked. apply Hpl.
  - intros j Hj. change (procs s1 !! j = procs s !! j). rewrite Hps. unfold F.
    rewrite list_lookup_alter_ne, procs_locked by done. by apply list_lookup_alter_ne.
Qed.

Lemma swap_again_id l s : locked (get_lock l s) = 1 -> swap_again l s = s.
Proof.
  intros H. unfold swap_again. rewrite <- (set_get_lock l s) at 3.
  destruct (get_lock l s) as [b nm c]. cbn in H. by rewrite H.
Qed.

(** ** Theorem *)

(** C22: [create_process] and [exit_process] can deadlock when two harts run them.
    Let a process whose parent is another one exit on one hart, and let a process
    on another hart be able to create one, in slot [k].  [exit_process] is
    [exit_begin], up to its [acquire] of [wait_lock], then [exit_rest].  If the
    second hart runs [create_process] between the two, then it does not return:
    it loops on [wait_lock], holding the lock of slot [k].  When the first hart
    goes on with [exit_rest] it does not return either: it loops too, holding
    [wait_lock] while the second hart has slot [k].  And no further round of either
    hart's swap changes the state. *)
Theorem create_exit_deadlock s o status fn me mb par k qa qb tf pt t1 t2 free :
  running s me qa -> p_parent qa = Some par -> par <> me -> initproc s <> Some me ->
  running (handover o s) mb qb -> can_alloc (handover o s) (tf :: pt :: t1 :: t2 :: free) k ->
  lock_free L_wait s -> me <> k ->
  (forall s, exit_process status s = (p ← exit_begin; exit_rest status p) s)
  /\ exists s1 s2 s3,
       exit_begin s = Done (Some me) s1 /\ lock_held L_wait s1
       /\ create_process fn (handover o s1) = Spin s2
       /\ lock_held (L_proc k) s2 /\ lock_elsewhere L_wait s2
       /\ exit_rest status (Some me) (handover (own_of s1) s2) = Spin s3
       /\ lock_held L_wait s3 /\ lock_elsewhere (L_proc k) s3
       /\ swap_again L_wait s3 = s3 /\ swap_again (L_proc k) s3 = s3.
Proof.
  intros R Hp Hpm Hip Rb Hc Hw Hmk. split; [by apply exit_split|].
  pose proof R as [Hh Hn Hcur Hq [Hlen Hpl]]. set (s1 := locked_state L_wait s).
  assert (E1 : exit_begin s = Done (Some me) s1).
  { unfold exit_begin. mstep; [by apply myproc_ok|]. mrun. rewrite Hcur.
    rewrite bool_decide_eq_false_2 by (intros E; by apply Hip). 
    mstep. { apply acquire_ok; [by apply hart_ok_touch|by apply lock_exists_global|]. rewrite get_lock_touch. apply Hw. }
    by rewrite locked_state_touch. }
  pose proof (handover_locked o s) as Eo. fold s1 in Eo.
  destruct (create_process_spins (handover o s1) fn k mb tf pt t1 t2 free) as (s2 & E2 & H2 & W2 & L2 & P2).
  { rewrite Eo. by apply can_alloc_locked. }
  { rewrite Eo. apply Rb. }
  { by rewrite Eo. }
  assert (Hkb : (k < NPROC)%nat) by (eapply slot_bound; [apply (ca_locks _ _ _ Hc)|apply (ca_slot _ _ _ Hc)]).
  assert (Hback : forall j, j <> k -> procs (handover (own_of s1) s2) !! j = procs s !! j).
  { intros j Hj. cbn. rewrite list_lookup_fmap, (P2 j Hj), Eo. cbn. rewrite list_lookup_fmap.
    destruct (procs s !! j) as [q|]; [|done]. cbn. by rewrite mirror_mirror. }
  assert (B : blocked me par k (handover (own_of s1) s2)).
  { split.
    - apply handover_hart. apply hart_ok_locked_state; [done|lia].
    - change (noff s1 = 1). unfold s1. rewrite noff_locked. lia.
    - exact Hcur.
    - cbn. by rewrite length_fmap.
    - intros j Hj Hne. pose proof (Hpl j Hj (fun H => H)) as Hf. unfold lock_free, get_lock in *.
      by rewrite Hback.
    - unfold lock_elsewhere. rewrite handover_lock. destruct H2 as [H21 H22].
      destruct (get_lock (L_proc k) s2). cbn in *. by subst.
    - unfold lock_held. rewrite handover_lock, W2, Eo. done.
    - exists qa. by rewrite Hback. }
  destruct (exit_rest_sticks me par k Hmk Hpm Hkb status _ B) as (s3 & E3 & C3 & T3).
  exists s1, s2, s3. split; [done|]. split; [by apply locked_state_held, lock_exists_global|].
  split; [done|]. split; [done|]. split; [unfold lock_elsewhere; by rewrite W2, Eo|].
  split; [done|]. split; [done|]. split; [done|]. split; apply swap_again_id; [apply C3|apply T3].
Qed.

End deadlock.

(** ** Witness *)

#[local] Existing Instance demo_linker.
#[local] Existing Instance demo_linker_ok.

(** Slot 1 runs here and exits, slot 2 runs on the other hart; slot 0 is the parent
    of slot 1, and four pages are free. *)
Definition demo_table : list proc :=
  set_p_state SLEEPING zero_proc :: set_p_state RUNNING (set_p_parent (Some 0%nat) zero_proc)
    :: set_p_state RUNNING zero_proc :: replicate 61 zero_proc.

Definition demo_pair : kstate :=
  set_initproc (Some 0%nat) (set_cpu0 (set_c_proc (Some 1%nat) (cpu0 demo_state)) (set_procs demo_table demo_free)).

Definition demo_other : own := Own (csr demo_state) (set_c_proc (Some 2%nat) (cpu0 demo_state)) (regs demo_state).

Lemma demo_pair_fields :
  csr demo_pair = csr demo_state /\ nextpid demo_pair = 1 /\ pid_lock demo_pair = zero_lock
  /\ printlock demo_pair = zero_lock /\ wait_lock demo_pair = zero_lock /\ kmem_lock demo_pair = zero_lock
  /\ io demo_pair = demo_io.
Proof.
  unfold demo_pair, demo_free. generalize (demo_pages 4). intros l. induction l as [|p l IH]; [done|]. exact IH.
Qed.

Lemma demo_slots_free s :
  procs s = demo_table \/ procs s = mirror_proc <$> demo_table -> plocks_free (fun _ => False) s.
Proof.
  intros H. assert (Hl : length (procs s) = NPROC) by (by destruct H as [->| ->]). split; [exact Hl|].
  intros i Hi _. unfold lock_free, get_lock.
  destruct H as [->| ->]; do 64 (destruct i as [|i]; [by vm_compute|]); unfold NPROC in Hi; lia.
Qed.

Lemma demo_pair_running : running demo_pair 1 (set_p_state RUNNING (set_p_parent (Some 0%nat) zero_proc)).
Proof.
  destruct demo_pair_fields as (C & _). split; [|done|done|done|apply demo_slots_free; by left].
  split; rewrite ?C; [done|by vm_compute|].
  intros H. exfalso. revert H. by vm_compute.
Qed.

Lemma demo_other_running : running (handover demo_other demo_pair) 2 (set_p_state RUNNING zero_proc).
Proof.
  split; [|done|done|done|apply demo_slots_free; by right]. split; [done| |done]. by vm_compute.
Qed.

Lemma demo_other_can_alloc : can_alloc (handover demo_other demo_pair) (demo_pages 4) 3.
Proof.
  destruct demo_pair_fields as (_ & I & L1 & L2 & _ & L4 & IO). pose proof demo_other_running as [Hh _ _ _ Hpl].
  assert (Hp : pool demo_free (demo_pages 4)) by (apply demo_pages_pool; lia).
  split.
  - exact Hh.
  - by vm_compute.
  - exact Hpl.
  - unfold lock_free. rewrite handover_lock. cbn [get_lock]. by rewrite L1.
  - unfold lock_free. rewrite handover_lock. cbn [get_lock]. by rewrite L2.
  - intros t. rewrite handover_io, IO. apply (demo_uart_live t).
  - rewrite handover_nextpid, I. lia.
  - destruct Hp as [P1 P2 _ _]. split; [exact P1|exact P2|exact Hh|].
    unfold lock_free. rewrite handover_lock. cbn [get_lock]. by rewrite L4.
  - reflexivity.
Qed.

Lemma create_exit_deadlock_witness :
  exists s1 s2 s3, exit_begin demo_pair = Done (Some 1%nat) s1
    /\ create_process 0x80002004 (handover demo_other s1) = Spin s2
    /\ exit_rest 0 (Some 1%nat) (handover (own_of s1) s2) = Spin s3.
Proof.
  destruct demo_pair_fields as (_ & _ & _ & _ & W & _).
  destruct (create_exit_deadlock demo_pair demo_other 0 0x80002004 1 2 0 3
    (set_p_state RUNNING (set_p_parent (Some 0%nat) zero_proc)) (set_p_state RUNNING zero_proc)
    0x8000a000 0x8000b000 0x8000c000 0x8000d000 [] demo_pair_running eq_refl)
    as (_ & s1 & s2 & s3 & E1 & _ & E2 & _ & _ & E3 & _).
  - discriminate.
  - discriminate.
  - exact demo_other_running.
  - exact demo_other_can_alloc.
  - unfold lock_free, get_lock. rewrite W. split; reflexivity.
  - discriminate.
  - exists s1, s2, s3. split; [exact E1|]. split; [exact E2|exact E3].
Defined.
