(* ===== verification/Asm.v ===== *)
(** * The assembly routines

    kernel/swtch.S, kernel/kernelvec.S and kernel/boot/entry.S, instruction by
    instruction, on the integer registers and RAM of one hart.  [swtch] is shown
    to implement the exchange of register contexts that Proc.v uses, [kernelvec]
    to be transparent to the code it interrupts, and the entry code to clear the
    bytes between its two labels and set up the stack.  Trampoline.v extends this
    hart by paging for trampoline.S. *)

From S2P Require Import Prelude Riscv Memory State Spinlock Kalloc Vm VmMap Uart Printf Csr Proc ProcTable.

(** ** The machine *)

Inductive reg :=
  | ZERO | RA | SP | GP | TP | T0 | T1 | T2 | S0 | S1 | A0 | A1 | A2 | A3 | A4 | A5 | A6 | A7
  | S2 | S3 | S4 | S5 | S6 | S7 | S8 | S9 | S10 | S11 | T3 | T4 | T5 | T6.

#[global] Instance reg_dec : EqDecision reg.
Proof. solve_decision. Defined.

(** Register [ZERO] of [gpr] is never read. *)
Record mach := Mach {
  gpr : reg -> Z;
  ram : memory;
  pc : Z;
}.

Definition get (r : reg) (m : mach) : Z := if decide (r = ZERO) then 0 else gpr m r.

Definition put (r : reg) (v : Z) (m : mach) : mach :=
  Mach (fun r' => if decide (r' = r) then v else gpr m r') (ram m) (pc m).

(** [CALL f] is a call of compiled C code; [RET] and [SRET] end a routine.  What
    [SRET] does to the control registers is [sret] of Trap.v. *)
Inductive instr :=
  | SD (r : reg) (off : Z) (b : reg)
  | LD (r : reg) (off : Z) (b : reg)
  | ADDI (rd rs : reg) (imm : Z)
  | ADD (rd rs1 rs2 : reg)
  | MUL (rd rs1 rs2 : reg)
  | LI (rd : reg) (v : Z)
  | CALL (f : mach -> option mach)
  | RET
  | SRET.

(** [None] when an access leaves RAM or is not aligned. *)
Definition word_ok (a : Z) : bool := in_ram a 8 && (a mod 8 =? 0).

Definition exec (i : instr) (m : mach) : option mach :=
  match i with
  | SD r off b =>
      let a := u64 (get b m + off) in
      if word_ok a then Some (Mach (gpr m) (st64 (ram m) a (get r m)) (pc m)) else None
  | LD r off b =>
      let a := u64 (get b m + off) in
      if word_ok a then Some (put r (ld64 (ram m) a) m) else None
  | ADDI rd rs imm => Some (put rd (u64 (get rs m + imm)) m)
  | ADD rd rs1 rs2 => Some (put rd (u64 (get rs1 m + get rs2 m)) m)
  | MUL rd rs1 rs2 => Some (put rd (u64 (get rs1 m * get rs2 m)) m)
  | LI rd v => Some (put rd v m)
  | CALL f => f m
  | RET => Some (Mach (gpr m) (ram m) (get RA m))
  | SRET => Some m
  end.

Fixpoint run (l : list instr) (m : mach) : option mach :=
  match l with
  | [] => Some m
  | i :: l' => m' ← exec i m; run l' m'
  end.

(** ** The routines *)

Definition swtch : list instr :=
  [SD RA 0 A0; SD SP 8 A0; SD S0 16 A0; SD S1 24 A0; SD S2 32 A0; SD S3 40 A0; SD S4 48 A0;
   SD S5 56 A0; SD S6 64 A0; SD S7 72 A0; SD S8 80 A0; SD S9 88 A0; SD S10 96 A0; SD S11 104 A0;
   LD RA 0 A1; LD SP 8 A1; LD S0 16 A1; LD S1 24 A1; LD S2 32 A1; LD S3 40 A1; LD S4 48 A1;
   LD S5 56 A1; LD S6 64 A1; LD S7 72 A1; LD S8 80 A1; LD S9 88 A1; LD S10 96 A1; LD S11 104 A1;
   RET].

Definition kernelvec (kerneltrap : mach -> option mach) : list instr :=
  [ADDI SP SP (-256);
   SD RA 0 SP; SD GP 16 SP; SD TP 24 SP; SD T0 32 SP; SD T1 40 SP; SD T2 48 SP; SD A0 72 SP;
   SD A1 80 SP; SD A2 88 SP; SD A3 96 SP; SD A4 104 SP; SD A5 112 SP; SD A6 120 SP; SD A7 128 SP;
   SD T3 216 SP; SD T4 224 SP; SD T5 232 SP; SD T6 240 SP;
   CALL kerneltrap;
   LD RA 0 SP; LD GP 16 SP; LD T0 32 SP; LD T1 40 SP; LD T2 48 SP; LD A0 72 SP;
   LD A1 80 SP; LD A2 88 SP; LD A3 96 SP; LD A4 104 SP; LD A5 112 SP; LD A6 120 SP; LD A7 128 SP;
   LD T3 216 SP; LD T4 224 SP; LD T5 232 SP; LD T6 240 SP;
   ADDI SP SP 256;
   SRET].

(** The loop of entry.S, [fuel] bounds its rounds; [blt] compares signed. *)
Fixpoint bss_loop (fuel : nat) (m : mach) : option mach :=
  match fuel with
  | O => None
  | S fuel' =>
      m ← run [SD ZERO 0 A0; ADDI A0 A0 8] m;
      if i64 (get A0 m) <? i64 (get A1 m) then bss_loop fuel' m else Some m
  end.

(** entry.S up to [call start]; the labels and [mhartid] are arguments. *)
Definition entry (fuel : nat) (sbss ebss stack0 mhartid : Z) (m : mach) : option mach :=
  m ← run [LI A0 sbss; LI A1 ebss] m;
  m ← bss_loop fuel m;
  run [LI SP stack0; LI A0 (1024 * 4); LI A1 mhartid; ADDI A1 A1 1; MUL A0 A0 A1; ADD SP SP A0] m.

(** ** What they mean *)

(** The context in the registers, and a context in memory at [base]. *)
Definition regs_of (m : mach) : context :=
  Context (gpr m RA) (gpr m SP) (gpr m S0) (gpr m S1) (gpr m S2) (gpr m S3) (gpr m S4) (gpr m S5)
    (gpr m S6) (gpr m S7) (gpr m S8) (gpr m S9) (gpr m S10) (gpr m S11).

Definition ctx_at (h : memory) (b : Z) : context :=
  Context (ld64 h b) (ld64 h (b + 8)) (ld64 h (b + 16)) (ld64 h (b + 24)) (ld64 h (b + 32))
    (ld64 h (b + 40)) (ld64 h (b + 48)) (ld64 h (b + 56)) (ld64 h (b + 64)) (ld64 h (b + 72))
    (ld64 h (b + 80)) (ld64 h (b + 88)) (ld64 h (b + 96)) (ld64 h (b + 104)).

(** Every register holds a 64-bit word. *)
Definition words (m : mach) : Prop := forall r, 0 <= gpr m r < 2 ^ 64.

(** [n] bytes at [b], aligned and in RAM. *)
Definition block (b n : Z) : Prop := b mod 8 = 0 /\ KERNBASE <= b /\ b + n <= PHYSTOP.

(** ** Saving and loading a list of registers *)

Definition saves (b : reg) (l : list (reg * Z)) : list instr := (fun p => SD p.1 p.2 b) <$> l.

Definition loads (b : reg) (l : list (reg * Z)) : list instr := (fun p => LD p.1 p.2 b) <$> l.

(** Slots inside a block of [n] bytes. *)
Definition slots (n : Z) (l : list (reg * Z)) : Prop :=
  Forall (fun p => p.1 <> ZERO /\ p.2 mod 8 = 0 /\ 0 <= p.2 /\ p.2 + 8 <= n) l.

#[global] Instance slots_dec n l : Decision (slots n l).
Proof. unfold slots. apply _. Defined.

Lemma run_app l1 l2 m : run (l1 ++ l2) m = (m' ← run l1 m; run l2 m').
Proof.
  revert m; induction l1 as [|i l1 IH]; intros m; [done|]. cbn [app run].
  destruct (exec i m) as [m1|]; [|done]. cbn [mbind option_bind]. apply IH.
Qed.

Lemma block_slot b n off :
  block b n -> off mod 8 = 0 -> 0 <= off -> off + 8 <= n -> u64 (b + off) = b + off /\ word_ok (b + off) = true.
Proof.
  intros (H1 & H2 & H3) H4 H5 H6. unfold word_ok, in_ram, u64, PHYSTOP, KERNBASE in *.
  split; [apply Z.mod_small; lia|]. rewrite !andb_true_iff, !Z.leb_le, Z.eqb_eq.
  split; [lia|]. rewrite Z.add_mod by lia. by rewrite H1, H4.
Qed.

Lemma get_gpr r m : r <> ZERO -> get r m = gpr m r.
Proof. intros H. unfold get. by rewrite decide_False. Qed.

Lemma gpr_put r v m : gpr (put r v m) r = v.
Proof. unfold put. cbn [gpr]. by rewrite decide_True. Qed.

Lemma gpr_put_ne r r' v m : r' <> r -> gpr (put r v m) r' = gpr m r'.
Proof. intros H. unfold put. cbn [gpr]. by rewrite decide_False. Qed.

(** Reads registers of a machine built by [put]. *)
Ltac gprs := repeat first [rewrite gpr_put | rewrite gpr_put_ne by done | rewrite get_gpr by done].

(** What saving leaves in memory. *)
Record saved_to (b n : Z) (l : list (reg * Z)) (m m' : mach) : Prop := {
  sv_gpr : gpr m' = gpr m;
  sv_pc : pc m' = pc m;
  sv_slot : forall r off, (r, off) ∈ l -> ld64 (ram m') (b + off) = gpr m r;
  sv_rest : forall a, ~ (b <= a < b + n) -> ldb (ram m') a = ldb (ram m) a;
  sv_other : forall off, off mod 8 = 0 -> off ∉ l.*2 -> ld64 (ram m') (b + off) = ld64 (ram m) (b + off);
}.

Lemma run_saves b n l m :
  words m -> b <> ZERO -> block (gpr m b) n -> slots n l -> NoDup l.*2 ->
  exists m', run (saves b l) m = Some m' /\ saved_to (gpr m b) n l m m'.
Proof.
  revert m; induction l as [|[r off] l IH]; intros m Hw Hb Hbl Hs Hn.
  - exists m. split; [done|]. split; try done. intros r off H. by apply elem_of_nil in H.
  - apply Forall_cons in Hs as [(Hr & Ho & H0 & H1) Hs]. cbn [fst snd] in *.
    cbn [fmap list_fmap] in Hn. apply NoDup_cons in Hn as [Hni Hn].
    destruct (block_slot _ _ _ Hbl Ho H0 H1) as [Eu Eok].
    set (m1 := Mach (gpr m) (st64 (ram m) (gpr m b + off) (gpr m r)) (pc m)).
    destruct (IH m1) as (m' & E & [G P S R O]); try done.
    exists m'. split; [|split; [done|done| | |]].
    + cbn [saves fmap list_fmap run exec fst snd]. rewrite !get_gpr, Eu, Eok by done. exact E.
    + intros r' off' [[= -> ->]|Hin]%elem_of_cons; [|by apply S].
      rewrite O by done. unfold m1. cbn [ram]. apply ld64_st64_same, Hw.
    + intros a Ha. rewrite R by done. unfold m1. cbn [ram]. unfold st64. rewrite ldb_st_other; [done|]. lia.
    + intros off' Hm Hni'. cbn [fmap list_fmap] in Hni'. apply not_elem_of_cons in Hni' as [Hne Hni'].
      rewrite O by done. unfold m1. cbn [ram]. apply ld64_st64_other. cbn [snd] in Hne.
      assert (off' + 8 <= off \/ off + 8 <= off') by dmlia. lia.
Qed.

(** What loading leaves in the registers. *)
Record loaded_from (b : Z) (l : list (reg * Z)) (m m' : mach) : Prop := {
  lo_ram : ram m' = ram m;
  lo_pc : pc m' = pc m;
  lo_slot : forall r off, (r, off) ∈ l -> gpr m' r = ld64 (ram m) (b + off);
  lo_other : forall r, r ∉ l.*1 -> gpr m' r = gpr m r;
}.

Lemma run_loads b n l m :
  b <> ZERO -> b ∉ l.*1 -> block (gpr m b) n -> slots n l -> NoDup l.*1 ->
  exists m', run (loads b l) m = Some m' /\ loaded_from (gpr m b) l m m'.
Proof.
  revert m; induction l as [|[r off] l IH]; intros m Hb Hbi Hbl Hs Hn.
  - exists m. split; [done|]. split; try done. intros r off H. by apply elem_of_nil in H.
  - apply Forall_cons in Hs as [(Hr & Ho & H0 & H1) Hs]. cbn [fst snd] in *.
    cbn [fmap list_fmap fst] in Hn, Hbi. apply NoDup_cons in Hn as [Hni Hn]. apply not_elem_of_cons in Hbi as [Hbr Hbi].
    destruct (block_slot _ _ _ Hbl Ho H0 H1) as [Eu Eok].
    set (m1 := put r (ld64 (ram m) (gpr m b + off)) m).
    assert (Eb : gpr m1 b = gpr m b) by (by apply gpr_put_ne).
    destruct (IH m1) as (m' & E & [R P S O]); try done; [by rewrite Eb|].
    rewrite Eb in S. exists m'. split; [|split; [done|done| |]].
    + cbn [loads fmap list_fmap run exec fst snd]. rewrite get_gpr, Eu, Eok by done. exact E.
    + intros r' off' [[= -> ->]|Hin]%elem_of_cons; [|by apply S].
      rewrite O by done. apply gpr_put.
    + intros r' Hni'. cbn [fmap list_fmap fst] in Hni'. apply not_elem_of_cons in Hni' as [Hne Hni'].
      rewrite O by done. by apply gpr_put_ne.
Qed.

(** ** swtch *)

Definition context_slots : list (reg * Z) :=
  [(RA, 0); (SP, 8); (S0, 16); (S1, 24); (S2, 32); (S3, 40); (S4, 48); (S5, 56); (S6, 64); (S7, 72);
   (S8, 80); (S9, 88); (S10, 96); (S11, 104)].

Lemma swtch_split : swtch = saves A0 context_slots ++ loads A1 context_slots ++ [RET].
Proof. reflexivity. Qed.

Lemma saved_context b n m m' : saved_to b n context_slots m m' -> ctx_at (ram m') b = regs_of m.
Proof.
  intros [_ _ S _ _]. unfold ctx_at, regs_of. replace (ld64 (ram m') b) with (ld64 (ram m') (b + 0)) by (by rewrite Z.add_0_r).
  rewrite (S RA), (S SP), (S S0), (S S1), (S S2), (S S3), (S S4), (S S5), (S S6), (S S7), (S S8), (S S9),
    (S S10), (S S11) by (by apply (bool_decide_unpack _)). done.
Qed.

Lemma loaded_context b m m' : loaded_from b context_slots m m' -> regs_of m' = ctx_at (ram m) b.
Proof.
  intros [_ _ S _]. unfold ctx_at, regs_of. replace (ld64 (ram m) b) with (ld64 (ram m) (b + 0)) by (by rewrite Z.add_0_r).
  rewrite (S RA 0), (S SP 8), (S S0 16), (S S1 24), (S S2 32), (S S3 40), (S S4 48), (S S5 56), (S S6 64), (S S7 72),
    (S S8 80), (S S9 88), (S S10 96), (S S11 104) by (by apply (bool_decide_unpack _)). done.
Qed.

Lemma ctx_at_ext h h' b :
  (forall a, b <= a < b + 112 -> ldb h' a = ldb h a) -> ctx_at h' b = ctx_at h b.
Proof.
  intros H. assert (W : forall o, 0 <= o -> o + 8 <= 112 -> ld64 h' (b + o) = ld64 h (b + o)).
  { intros o H0 H1. apply ld_ext. intros a Ha. apply H. lia. }
  unfold ctx_at. replace (ld64 h' b) with (ld64 h b) by (pose proof (W 0 ltac:(lia) ltac:(lia)) as W0; by rewrite Z.add_0_r in W0).
  by rewrite !W by lia.
Qed.

Lemma swtch_ok m :
  words m -> block (gpr m A0) 112 -> block (gpr m A1) 112 ->
  gpr m A0 + 112 <= gpr m A1 \/ gpr m A1 + 112 <= gpr m A0 ->
  exists m', run swtch m = Some m' /\ ctx_at (ram m') (gpr m A0) = regs_of m
    /\ regs_of m' = ctx_at (ram m) (gpr m A1) /\ pc m' = ra (regs_of m')
    /\ (forall r, r ∉ context_slots.*1 -> gpr m' r = gpr m r)
    /\ (forall a, ~ (gpr m A0 <= a < gpr m A0 + 112) -> ldb (ram m') a = ldb (ram m) a).
Proof.
  intros Hw H0 H1 Hd.
  destruct (run_saves A0 112 context_slots m) as (m1 & E1 & V); try done; try by apply (bool_decide_unpack _).
  pose proof (sv_gpr _ _ _ _ _ V) as G.
  destruct (run_loads A1 112 context_slots m1) as (m2 & E2 & W); try done; try by apply (bool_decide_unpack _).
  { by rewrite G. }
  rewrite G in W. exists (Mach (gpr m2) (ram m2) (get RA m2)).
  split; [|split; [|split; [|split; [|split]]]].
  - rewrite swtch_split, run_app, E1. cbn [mbind option_bind]. by rewrite run_app, E2.
  - cbn [ram]. rewrite (lo_ram _ _ _ _ W). by eapply saved_context.
  - change (regs_of (Mach (gpr m2) (ram m2) (get RA m2))) with (regs_of m2).
    rewrite (loaded_context _ _ _ W). apply ctx_at_ext. intros a Ha. apply (sv_rest _ _ _ _ _ V). lia.
  - cbn [pc regs_of ra gpr]. by apply get_gpr.
  - intros r Hr. cbn [gpr]. by rewrite (lo_other _ _ _ _ W), G.
  - intros a Ha. cbn [ram]. rewrite (lo_ram _ _ _ _ W). by apply (sv_rest _ _ _ _ _ V).
Qed.

(** ** kernelvec *)

Definition vec_saved : list (reg * Z) :=
  [(RA, 0); (GP, 16); (TP, 24); (T0, 32); (T1, 40); (T2, 48); (A0, 72); (A1, 80); (A2, 88); (A3, 96);
   (A4, 104); (A5, 112); (A6, 120); (A7, 128); (T3, 216); (T4, 224); (T5, 232); (T6, 240)].

Definition vec_loaded : list (reg * Z) :=
  [(RA, 0); (GP, 16); (T0, 32); (T1, 40); (T2, 48); (A0, 72); (A1, 80); (A2, 88); (A3, 96);
   (A4, 104); (A5, 112); (A6, 120); (A7, 128); (T3, 216); (T4, 224); (T5, 232); (T6, 240)].

Lemma kernelvec_split f :
  kernelvec f = ADDI SP SP (-256) :: saves SP vec_saved ++ CALL f :: loads SP vec_loaded ++ [ADDI SP SP 256; SRET].
Proof. reflexivity. Qed.

(** What the calling convention promises of the compiled [kerneltrap], called in
    [m1] and returning in [m2]: the callee-saved registers and tp are kept, and
    so is the stack from the stack pointer up to the caller's. *)
Record returns (f : mach -> option mach) (m1 m2 : mach) : Prop := {
  rt_run : f m1 = Some m2;
  rt_saved : forall r, r ∈ [SP; TP; S0; S1; S2; S3; S4; S5; S6; S7; S8; S9; S10; S11] -> gpr m2 r = gpr m1 r;
  rt_stack : forall a, gpr m1 SP <= a < gpr m1 SP + 256 -> ldb (ram m2) a = ldb (ram m1) a;
}.

(** The machine when [kerneltrap] is called. *)
Definition at_call (m m1 : mach) : Prop :=
  run (ADDI SP SP (-256) :: saves SP vec_saved) m = Some m1.

Lemma at_call_ok m :
  words m -> block (gpr m SP - 256) 256 ->
  exists m1, at_call m m1 /\ gpr m1 SP = gpr m SP - 256 /\ pc m1 = pc m
    /\ (forall r, r <> SP -> gpr m1 r = gpr m r)
    /\ (forall r off, (r, off) ∈ vec_saved -> ld64 (ram m1) (gpr m SP - 256 + off) = gpr m r)
    /\ (forall a, ~ (gpr m SP - 256 <= a < gpr m SP) -> ldb (ram m1) a = ldb (ram m) a).
Proof.
  intros Hw Hb. set (m0 := put SP (u64 (gpr m SP + -256)) m).
  assert (E0 : gpr m0 SP = gpr m SP - 256).
  { unfold m0. rewrite gpr_put. destruct Hb as (_ & Hb1 & Hb2).
    unfold u64, PHYSTOP, KERNBASE in *. apply Z.mod_small. lia. }
  assert (E1 : forall r, r <> SP -> gpr m0 r = gpr m r).
  { intros r Hr. by apply gpr_put_ne. }
  destruct (run_saves SP 256 vec_saved m0) as (m1 & E & [G P S R _]); try done; try by apply (bool_decide_unpack _).
  { intros r. destruct (decide (r = SP)) as [->|Hr]; [|rewrite E1 by done; apply Hw].
    unfold m0. rewrite gpr_put. apply u64_range. }
  { by rewrite E0. }
  rewrite E0 in S, R. exists m1. split; [|split; [|split; [|split; [|split]]]].
  - unfold at_call. cbn [run exec]. by rewrite get_gpr by done.
  - by rewrite G.
  - by rewrite P.
  - intros r Hr. rewrite G. by apply E1.
  - intros r off Hin. rewrite (S r off Hin). apply E1. intros ->. revert Hin. by apply (bool_decide_unpack _).
  - intros a Ha. rewrite R by lia. done.
Qed.

(** The registers [kerneltrap] may change are the ones loaded back. *)
Lemma vec_registers r :
  r <> ZERO -> r ∉ vec_loaded.*1 -> r ∈ [SP; TP; S0; S1; S2; S3; S4; S5; S6; S7; S8; S9; S10; S11].
Proof. intros Hz Hl. destruct r; first [done | by apply (bool_decide_unpack _) | exfalso; by apply Hl, (bool_decide_unpack _)]. Qed.

Lemma vec_loaded_saved r off : (r, off) ∈ vec_loaded -> (r, off) ∈ vec_saved.
Proof. unfold vec_loaded, vec_saved. set_solver. Qed.

Lemma kernelvec_ok f m m1 m2 :
  words m -> block (gpr m SP - 256) 256 -> at_call m m1 -> returns f m1 m2 ->
  exists m', run (kernelvec f) m = Some m' /\ ram m' = ram m2 /\ pc m' = pc m2
    /\ forall r, r <> ZERO -> gpr m' r = gpr m r.
Proof.
  intros Hw Hb Hc [Ef Es Et]. destruct (at_call_ok m Hw Hb) as (m1' & Hc' & C1 & C2 & C3 & C4 & _).
  unfold at_call in *. rewrite Hc in Hc'. injection Hc' as <-.
  assert (Esp : gpr m2 SP = gpr m SP - 256) by (rewrite Es by (by apply (bool_decide_unpack _)); exact C1).
  destruct (run_loads SP 256 vec_loaded m2) as (m3 & E3 & [R P S O]); try done; try by apply (bool_decide_unpack _).
  { by rewrite Esp. }
  exists (put SP (u64 (gpr m3 SP + 256)) m3). split; [|split; [done|split; [done|]]].
  - rewrite kernelvec_split, app_comm_cons, run_app, Hc. cbn [mbind option_bind run exec]. rewrite Ef.
    cbn [mbind option_bind]. rewrite run_app, E3. cbn [mbind option_bind run exec]. by rewrite get_gpr by done.
  - intros r Hz. unfold put. cbn [gpr]. case_decide as Hr.
    + subst r. rewrite O, Esp by (by apply (bool_decide_unpack _)).
      replace (gpr m SP - 256 + 256) with (gpr m SP) by lia. apply Z.mod_small, Hw.
    + destruct (decide (r ∈ vec_loaded.*1)) as [Hin|Hni].
      * apply list_elem_of_fmap in Hin as ([r' off] & -> & Hin). cbn [fst].
        rewrite (S r' off Hin), Esp. rewrite <- (C4 r' off (vec_loaded_saved _ _ Hin)).
        apply ld_ext. intros a Ha. apply Et. rewrite C1.
        assert (0 <= off /\ off + 8 <= 256); [|lia].
        assert (Hs : slots 256 vec_loaded) by (by apply (bool_decide_unpack _)).
        apply (proj1 (Forall_forall _ _) Hs) in Hin. cbn in Hin. lia.
      * rewrite O by done. rewrite Es by by apply vec_registers. by apply C3.
Qed.

(** ** entry.S *)

(** How often the loop of entry.S runs: once at least. *)
Definition bss_rounds (sbss ebss : Z) : nat := Z.to_nat (Z.max 1 ((ebss - sbss + 7) / 8)).

Lemma ldb_st_zero n h a b : a <= b < a + Z.of_nat n -> ldb (st n h a 0) b = 0.
Proof.
  revert h a; induction n as [|n IH]; intros h a Hb; [lia|]. cbn [st]. change (0 mod 256) with 0. change (0 / 256) with 0.
  destruct (decide (a = b)) as [->|Hne]; [|apply IH; lia].
  rewrite ldb_st_other by lia. by rewrite ldb_insert, decide_True.
Qed.

Lemma ldb_st64_zero h a b : ldb (st64 h a 0) b = if decide (a <= b < a + 8) then 0 else ldb h b.
Proof. unfold st64. case_decide; [by apply ldb_st_zero|apply ldb_st_other; lia]. Qed.

Lemma i64_small x : - 2 ^ 63 <= x < 2 ^ 63 -> i64 x = x.
Proof. intros. unfold i64. rewrite Z.mod_small; lia. Qed.

Lemma bss_loop_ok k fuel m e :
  block (gpr m A0) (8 * Z.of_nat (S k)) -> gpr m A1 = e -> KERNBASE <= e <= gpr m A0 + 8 * Z.of_nat (S k) ->
  (k = 0%nat \/ gpr m A0 + 8 * Z.of_nat k < e) -> (k < fuel)%nat ->
  exists m', bss_loop fuel m = Some m'
    /\ forall b, ldb (ram m') b = if decide (gpr m A0 <= b < gpr m A0 + 8 * Z.of_nat (S k)) then 0 else ldb (ram m) b.
Proof.
  revert fuel m; induction k as [|k IH]; intros fuel m Hb He Hr Hl Hf; (destruct fuel as [|fuel]; [lia|]);
    pose proof Hb as (B1 & B2 & B3); unfold block, PHYSTOP, KERNBASE in *;
    (destruct (block_slot (gpr m A0) 8 0) as [Eu Eok]; [unfold block, PHYSTOP, KERNBASE; lia|done|lia|lia|]);
    rewrite Z.add_0_r in Eu, Eok; cbn [bss_loop run exec]; rewrite (get_gpr A0) by done; rewrite Z.add_0_r, Eu, Eok;
    cbn [mbind option_bind];
    set (m1 := put A0 _ _);
    assert (E0 : gpr m1 A0 = gpr m A0 + 8)
      by (unfold m1; rewrite gpr_put; apply Z.mod_small; lia);
    assert (E1 : gpr m1 A1 = e) by (unfold m1; by rewrite gpr_put_ne);
    assert (Em : ram m1 = st64 (ram m) (gpr m A0) 0) by done;
    rewrite !get_gpr, E0, E1, !i64_small by (done || lia).
  - rewrite (proj2 (Z.ltb_ge _ _)) by lia. exists m1. split; [done|]. intros b. rewrite Em. apply ldb_st64_zero.
  - rewrite (proj2 (Z.ltb_lt _ _)) by lia.
    destruct (IH fuel m1) as (m' & E & H); try lia.
    { rewrite E0. split; [|split]; [|lia..]. rewrite Z.add_mod by lia. by rewrite B1. }
    exists m'. split; [done|]. intros b. rewrite H, Em, ldb_st64_zero, E0. repeat case_decide; done || lia.
Qed.

(** ** Theorems *)

(** C30: [swtch] implements the switches of Proc.v.  With a0 and a1 pointing to two
    contexts in RAM, it leaves the registers' context in the first, takes that of
    the second into the registers, jumps to its ra, and changes nothing else.  So
    if the first is a process's [context] and the second the [context] of its
    CPU, memory and registers afterwards are those that [swtch_to_cpu] computes;
    and with the roles exchanged, those of [swtch_to_proc]. *)
Theorem swtch_refines m s p q :
  words m -> block (gpr m A0) 112 -> block (gpr m A1) 112 ->
  gpr m A0 + 112 <= gpr m A1 \/ gpr m A1 + 112 <= gpr m A0 ->
  regs s = regs_of m -> procs s !! p = Some q ->
  exists m', run swtch m = Some m' /\ pc m' = ra (regs_of m')
    /\ (forall r, r ∉ context_slots.*1 -> gpr m' r = gpr m r)
    /\ (forall a, ~ (gpr m A0 <= a < gpr m A0 + 112) -> ldb (ram m') a = ldb (ram m) a)
    /\ (ctx_at (ram m) (gpr m A1) = c_context (cpu0 s) ->
        exists s' q', swtch_to_cpu p s = Done tt s' /\ regs s' = regs_of m'
          /\ procs s' !! p = Some q' /\ p_context q' = ctx_at (ram m') (gpr m A0))
    /\ (ctx_at (ram m) (gpr m A1) = p_context q ->
        exists s', swtch_to_proc p s = Done tt s' /\ regs s' = regs_of m'
          /\ c_context (cpu0 s') = ctx_at (ram m') (gpr m A0)).
Proof.
  intros Hw H0 H1 Hd Hr Hq. destruct (swtch_ok m Hw H0 H1 Hd) as (m' & E & C0 & C1 & C2 & C3 & C4).
  exists m'. split_and!; try done.
  - intros Hc. eexists _, (set_p_context (regs s) q). split; [|split; [|split]].
    + unfold swtch_to_cpu. mrun. mstep; [apply upd_ok|]. reflexivity.
    + cbn. by rewrite C1.
    + cbn. by rewrite list_lookup_alter_eq, Hq.
    + cbn. by rewrite C0.
  - intros Hc. eexists. split; [|split].
    + unfold swtch_to_proc. mrun. mstep; [by apply get_proc_ok|]. reflexivity.
    + cbn. by rewrite C1.
    + cbn. by rewrite C0.
Qed.

(** C39: [kernelvec] is transparent.  For a stack with 256 bytes to spare and a
    compiled [kerneltrap] that keeps to the calling convention, it calls it with
    the stack pointer moved down by 256, and when the call returns every register
    has the value it had when the trap was taken; what memory holds is what
    [kerneltrap] left. *)
Theorem kernelvec_transparent kerneltrap m :
  words m -> block (gpr m SP - 256) 256 ->
  exists m1, at_call m m1
    /\ (forall a, ~ (gpr m SP - 256 <= a < gpr m SP) -> ldb (ram m1) a = ldb (ram m) a)
    /\ forall m2, returns kerneltrap m1 m2 ->
       exists m', run (kernelvec kerneltrap) m = Some m' /\ ram m' = ram m2
         /\ forall r, r <> ZERO -> gpr m' r = gpr m r.
Proof.
  intros Hw Hb. destruct (at_call_ok m Hw Hb) as (m1 & Hc & _ & _ & _ & _ & Hr).
  exists m1. split_and!; [done|done|]. intros m2 Ht.
  destruct (kernelvec_ok kerneltrap m m1 m2 Hw Hb Hc Ht) as (m' & E & H1 & _ & H2). by exists m'.
Qed.

(** The entry code.  It ends, however the registers and memory were, with the
    bytes between its labels cleared, rounded up to words and at least one word,
    all other bytes kept, and the stack pointer at the top of the hart's page of
    [stack0]. *)
Theorem entry_clears_bss sbss ebss stack0 hart m :
  block sbss (8 * Z.of_nat (bss_rounds sbss ebss)) -> sbss <= ebss ->
  0 <= hart < 2 ^ 32 -> 0 <= stack0 < PHYSTOP ->
  exists m', entry (bss_rounds sbss ebss) sbss ebss stack0 hart m = Some m'
    /\ gpr m' SP = stack0 + 4096 * (hart + 1)
    /\ (forall b, sbss <= b < ebss -> ldb (ram m') b = 0)
    /\ forall b, ~ (sbss <= b < sbss + 8 * Z.of_nat (bss_rounds sbss ebss)) -> ldb (ram m') b = ldb (ram m) b.
Proof.
  intros Hb Hle Hh Hs. set (m0 := put A1 ebss (put A0 sbss m)).
  assert (E0 : gpr m0 A0 = sbss) by done. assert (E1 : gpr m0 A1 = ebss) by done.
  assert (Hk : exists k, bss_rounds sbss ebss = S k /\ ebss <= sbss + 8 * Z.of_nat (S k)
    /\ (k = 0%nat \/ sbss + 8 * Z.of_nat k < ebss)).
  { exists (pred (bss_rounds sbss ebss)). unfold bss_rounds.
    assert (H : 8 * ((ebss - sbss + 7) / 8) <= ebss - sbss + 7 < 8 * ((ebss - sbss + 7) / 8) + 8) by dmlia.
    clear -H Hle. lia. }
  destruct Hk as (k & Ek & Hk1 & Hk2). rewrite Ek in *. pose proof Hb as (B1 & B2 & B3).
  destruct (bss_loop_ok k (S k) m0 ebss) as (m1 & E & H); try done; try lia.
  rewrite E0 in H. unfold entry. cbn [run exec mbind option_bind].
  fold m0. rewrite E. cbn [mbind option_bind run exec]. eexists. split; [reflexivity|]. split; [|split].
  - gprs. unfold u64, PHYSTOP, KERNBASE in *. change (1024 * 4) with 4096.
    rewrite (Z.mod_small (hart + 1)) by lia. rewrite (Z.mod_small (4096 * _)) by lia. apply Z.mod_small. lia.
  - intros b Hbb. cbn [ram put]. rewrite H. by rewrite decide_True by lia.
  - intros b Hbb. cbn [ram put]. rewrite H. by rewrite decide_False by lia.
Qed.

(** ** Witnesses *)

(** A machine with the same number in every register but the given two. *)
Definition demo_mach (r1 : reg) (v1 : Z) (r2 : reg) (v2 : Z) : mach :=
  put r1 v1 (put r2 v2 (Mach (fun _ => 7) ∅ 0)).

Lemma demo_words r1 v1 r2 v2 : 0 <= v1 < 2 ^ 64 -> 0 <= v2 < 2 ^ 64 -> words (demo_mach r1 v1 r2 v2).
Proof. intros H1 H2 r. unfold demo_mach, put. cbn. repeat case_decide; lia. Qed.

Lemma demo_block b n : bool_decide (b mod 8 = 0 /\ KERNBASE <= b /\ b + n <= PHYSTOP) = true -> block b n.
Proof. apply bool_decide_eq_true. Qed.

Lemma swtch_refines_witness :
  let m := demo_mach A0 0x80010000 A1 0x80020000 in
  exists m', run swtch m = Some m' /\ pc m' = ra (regs_of m').
Proof.
  destruct (swtch_refines (demo_mach A0 0x80010000 A1 0x80020000)
    (set_regs (regs_of (demo_mach A0 0x80010000 A1 0x80020000)) demo_state) 3 zero_proc) as (m' & E & H & _).
  - apply demo_words; lia.
  - by apply demo_block.
  - by apply demo_block.
  - left. vm_compute. congruence.
  - reflexivity.
  - reflexivity.
  - exists m'. split; [exact E|exact H].
Defined.

(** A compiled function that overwrites every register it may. *)
Definition clobbered (m : mach) : mach :=
  Mach (fun r => if decide (r ∈ [SP; TP; S0; S1; S2; S3; S4; S5; S6; S7; S8; S9; S10; S11]) then gpr m r else 0)
    (ram m) 0.

Definition clobber (m : mach) : option mach := Some (clobbered m).

Lemma clobber_returns m : returns clobber m (clobbered m).
Proof. split; [done| |done]. intros r Hr. unfold clobbered. cbn [gpr]. by rewrite decide_True. Qed.

Lemma kernelvec_transparent_witness :
  exists m', run (kernelvec clobber) (demo_mach SP 0x80011000 A1 5) = Some m'
    /\ gpr m' A1 = 5 /\ gpr m' SP = 0x80011000 /\ gpr m' T0 = 7.
Proof.
  destruct (kernelvec_transparent clobber (demo_mach SP 0x80011000 A1 5)) as (m1 & _ & _ & H).
  - apply demo_words; lia.
  - by apply demo_block.
  - destruct (H (clobbered m1) (clobber_returns m1)) as (m' & E & _ & Hr).
    exists m'. split; [exact E|].
    split; [|split]; (etransitivity; [apply Hr; discriminate|reflexivity]).
Defined.

Lemma entry_clears_bss_witness :
  exists m', entry 4 0x80005000 0x80005020 0x80006000 0 (demo_mach A0 1 A1 2) = Some m'
    /\ gpr m' SP = 0x80007000.
Proof.
  destruct (entry_clears_bss 0x80005000 0x80005020 0x80006000 0 (demo_mach A0 1 A1 2)) as (m' & E & H & _).
  - by apply demo_block.
  - lia.
  - lia.
  - vm_compute. split; congruence.
  - exists m'. split; [exact E|exact H].
Defined.
