(* ===== verification/Trampoline.v ===== *)
(** * The user-mode trampoline

    kernel/trampoline.S, [uservec] and [userret], instruction by instruction: the
    hart of Asm.v with paging on, whose instruction fetches, loads and stores go
    through the page table that satp names.  Nothing in this kernel reaches this
    code yet.  In every state the kernel does reach, both routines fault: [uservec]
    with the page table of any process, [userret] with the kernel's
    ([trampoline_faults]).

    The code itself is right: [user_trap_round_trip] takes what its callers would
    have to provide as hypotheses - address spaces that map the two pages the code
    relies on, and a [usertrap] that comes back with the trapframe as it was - and
    concludes that a trap from user mode and the return from it give the program
    its registers back. *)

From S2P Require Import Prelude Riscv Memory State Spinlock Kalloc Vm VmMap Sv39 VmKernel Uart Printf Csr Proc ProcTable ProcMem ProcInit Trap Sched SchedMem SchedStep SchedInv BootInv System Asm.

(** ** The hart *)

(** [stale] holds the values satp has had since the last [sfence.vma]: the hart
    may still translate with any of them. *)
Record hart := Hart {
  regfile : mach;
  h_satp : Z;
  sscratch : Z;
  stale : list Z;
}.

Definition set_regfile (m : mach) (h : hart) : hart := Hart m (h_satp h) (sscratch h) (stale h).

(** An [I] instruction is one of Asm.v, whose memory operands are virtual here.
    [JALR r next] jumps to [r] and leaves [next], the address of the instruction
    after it, in ra. *)
Inductive vinstr :=
  | I (i : instr)
  | CSRW_SSCRATCH (r : reg)
  | CSRR_SSCRATCH (rd : reg)
  | CSRW_SATP (r : reg)
  | SFENCE_VMA
  | JALR (r : reg) (next : Z).

Definition ints (l : list instr) : list vinstr := I <$> l.

(** The bits of an entry that allow an access. *)
Definition R_BIT : Z := 1.
Definition W_BIT : Z := 2.
Definition X_BIT : Z := 3.
Definition U_BIT : Z := 4.

(** In supervisor mode, and with sstatus.SUM clear, user pages are out of reach. *)
Definition look (m : memory) (bit x va : Z) : option Z :=
  '(pa, fl) ← satp_translate m x va;
  if Z.testbit fl bit && negb (Z.testbit fl U_BIT) then Some pa else None.

(** [None] is a page fault, or an address that stale translations leave open. *)
Definition access (bit : Z) (h : hart) (va : Z) : option Z :=
  pa ← look (ram (regfile h)) bit (h_satp h) va;
  if forallb (fun x => bool_decide (look (ram (regfile h)) bit x va = Some pa)) (stale h) then Some pa else None.

Definition vexec (i : vinstr) (h : hart) : option hart :=
  let m := regfile h in
  match i with
  | I (SD r off b) =>
      a ← access W_BIT h (u64 (get b m + off));
      if word_ok a then Some (set_regfile (Mach (gpr m) (st64 (ram m) a (get r m)) (pc m)) h) else None
  | I (LD r off b) =>
      a ← access R_BIT h (u64 (get b m + off));
      if word_ok a then Some (set_regfile (put r (ld64 (ram m) a) m) h) else None
  | I i => m' ← exec i m; Some (set_regfile m' h)
  | CSRW_SSCRATCH r => Some (Hart m (h_satp h) (get r m) (stale h))
  | CSRR_SSCRATCH rd => Some (set_regfile (put rd (sscratch h) m) h)
  | CSRW_SATP r =>
      let x := get r m in
      if (x / 2 ^ 60 =? 8) || (x / 2 ^ 60 =? 0) then Some (Hart m x (sscratch h) (h_satp h :: stale h)) else Some h
  | SFENCE_VMA => Some (Hart m (h_satp h) (sscratch h) [])
  | JALR r next =>
      let target := get r m - get r m mod 2 in
      Some (set_regfile (Mach (gpr (put RA next m)) (ram m) target) h)
  end.

(** [struct trapframe] *)
Record trapframe := Trapframe {
  kernel_satp : Z; kernel_sp : Z; kernel_trap : Z; tf_epc : Z; kernel_hartid : Z;
  tf_ra : Z; tf_sp : Z; tf_gp : Z; tf_tp : Z; tf_t0 : Z; tf_t1 : Z; tf_t2 : Z; tf_s0 : Z; tf_s1 : Z;
  tf_a0 : Z; tf_a1 : Z; tf_a2 : Z; tf_a3 : Z; tf_a4 : Z; tf_a5 : Z; tf_a6 : Z; tf_a7 : Z;
  tf_s2 : Z; tf_s3 : Z; tf_s4 : Z; tf_s5 : Z; tf_s6 : Z; tf_s7 : Z; tf_s8 : Z; tf_s9 : Z; tf_s10 : Z;
  tf_s11 : Z; tf_t3 : Z; tf_t4 : Z; tf_t5 : Z; tf_t6 : Z;
}.

Section trampoline.
Context {L : Linker} {LO : LinkerOk}.

(** The code lies in one page, so every fetch of it needs the same translation. *)
Definition fetch_ok (h : hart) : bool := bool_decide (access X_BIT h TRAMPOLINE = Some sym_trampoline).

Fixpoint vrun (l : list vinstr) (h : hart) : option hart :=
  match l with
  | [] => Some h
  | i :: l' =>
      if fetch_ok h then h' ← vexec i h; vrun l' h' else None
  end.

(** ** The routines *)

(** [next] is the address of [userret], which follows [jalr t0]. *)
Definition uservec (next : Z) : list vinstr :=
  CSRW_SSCRATCH A0 ::
  ints
    [LI A0 trampoline_S_TRAPFRAME;
     SD RA 40 A0; SD SP 48 A0; SD GP 56 A0; SD TP 64 A0; SD T0 72 A0; SD T1 80 A0; SD T2 88 A0;
     SD S0 96 A0; SD S1 104 A0; SD A1 120 A0; SD A2 128 A0; SD A3 136 A0; SD A4 144 A0; SD A5 152 A0;
     SD A6 160 A0; SD A7 168 A0; SD S2 176 A0; SD S3 184 A0; SD S4 192 A0; SD S5 200 A0; SD S6 208 A0;
     SD S7 216 A0; SD S8 224 A0; SD S9 232 A0; SD S10 240 A0; SD S11 248 A0; SD T3 256 A0; SD T4 264 A0;
     SD T5 272 A0; SD T6 280 A0] ++
  CSRR_SSCRATCH T0 ::
  ints [SD T0 112 A0; LD SP 8 A0; LD TP 32 A0; LD T0 16 A0; LD T1 0 A0] ++
  [SFENCE_VMA; CSRW_SATP T1; SFENCE_VMA; JALR T0 next].

Definition userret : list vinstr :=
  [SFENCE_VMA; CSRW_SATP A0; SFENCE_VMA] ++
  ints
    [LI A0 trampoline_S_TRAPFRAME;
     LD RA 40 A0; LD SP 48 A0; LD GP 56 A0; LD TP 64 A0; LD T0 72 A0; LD T1 80 A0; LD T2 88 A0;
     LD S0 96 A0; LD S1 104 A0; LD A1 120 A0; LD A2 128 A0; LD A3 136 A0; LD A4 144 A0; LD A5 152 A0;
     LD A6 160 A0; LD A7 168 A0; LD S2 176 A0; LD S3 184 A0; LD S4 192 A0; LD S5 200 A0; LD S6 208 A0;
     LD S7 216 A0; LD S8 224 A0; LD S9 232 A0; LD S10 240 A0; LD S11 248 A0; LD T3 256 A0; LD T4 264 A0;
     LD T5 272 A0; LD T6 280 A0;
     LD A0 112 A0;
     SRET].

(** ** Trapframes *)

Definition tf_at (h : memory) (b : Z) : trapframe :=
  Trapframe (ld64 h (b + 0)) (ld64 h (b + 8)) (ld64 h (b + 16)) (ld64 h (b + 24)) (ld64 h (b + 32))
    (ld64 h (b + 40)) (ld64 h (b + 48)) (ld64 h (b + 56)) (ld64 h (b + 64)) (ld64 h (b + 72))
    (ld64 h (b + 80)) (ld64 h (b + 88)) (ld64 h (b + 96)) (ld64 h (b + 104)) (ld64 h (b + 112))
    (ld64 h (b + 120)) (ld64 h (b + 128)) (ld64 h (b + 136)) (ld64 h (b + 144)) (ld64 h (b + 152))
    (ld64 h (b + 160)) (ld64 h (b + 168)) (ld64 h (b + 176)) (ld64 h (b + 184)) (ld64 h (b + 192))
    (ld64 h (b + 200)) (ld64 h (b + 208)) (ld64 h (b + 216)) (ld64 h (b + 224)) (ld64 h (b + 232))
    (ld64 h (b + 240)) (ld64 h (b + 248)) (ld64 h (b + 256)) (ld64 h (b + 264)) (ld64 h (b + 272))
    (ld64 h (b + 280)).

(** The trapframe [f] with the registers of [m] saved in it. *)
Definition with_regs (m : mach) (f : trapframe) : trapframe :=
  Trapframe (kernel_satp f) (kernel_sp f) (kernel_trap f) (tf_epc f) (kernel_hartid f)
    (gpr m RA) (gpr m SP) (gpr m GP) (gpr m TP) (gpr m T0) (gpr m T1) (gpr m T2) (gpr m S0) (gpr m S1)
    (gpr m A0) (gpr m A1) (gpr m A2) (gpr m A3) (gpr m A4) (gpr m A5) (gpr m A6) (gpr m A7)
    (gpr m S2) (gpr m S3) (gpr m S4) (gpr m S5) (gpr m S6) (gpr m S7) (gpr m S8) (gpr m S9) (gpr m S10)
    (gpr m S11) (gpr m T3) (gpr m T4) (gpr m T5) (gpr m T6).

(** The slots of the registers but a0, and the slots of the kernel's values. *)
Definition user_slots : list (reg * Z) :=
  [(RA, 40); (SP, 48); (GP, 56); (TP, 64); (T0, 72); (T1, 80); (T2, 88); (S0, 96); (S1, 104);
   (A1, 120); (A2, 128); (A3, 136); (A4, 144); (A5, 152); (A6, 160); (A7, 168); (S2, 176); (S3, 184);
   (S4, 192); (S5, 200); (S6, 208); (S7, 216); (S8, 224); (S9, 232); (S10, 240); (S11, 248); (T3, 256);
   (T4, 264); (T5, 272); (T6, 280)].

Definition kernel_slots : list (reg * Z) := [(SP, 8); (TP, 32); (T0, 16); (T1, 0)].

Lemma uservec_split next :
  uservec next = CSRW_SSCRATCH A0 :: I (LI A0 TRAPFRAME) :: ints (saves A0 user_slots)
    ++ CSRR_SSCRATCH T0 :: ints (saves A0 [(T0, 112)] ++ loads A0 kernel_slots)
    ++ [SFENCE_VMA; CSRW_SATP T1; SFENCE_VMA; JALR T0 next].
Proof. reflexivity. Qed.

Lemma userret_split :
  userret = SFENCE_VMA :: CSRW_SATP A0 :: SFENCE_VMA :: I (LI A0 TRAPFRAME) :: ints (loads A0 user_slots)
    ++ [I (LD A0 112 A0); I SRET].
Proof. reflexivity. Qed.

(** ** Address spaces *)

(** By [x] the pages [l] are mapped, each a virtual and a physical address and
    permissions, and the page [tf] holds none of the page table. *)
Definition space (m : memory) (x tf : Z) (l : list (Z * Z * Z)) : Prop :=
  exists root tbl, x = MAKE_SATP root /\ pt_wf m root tbl
    /\ (forall path p, tbl !! path = Some p -> p <> tf)
    /\ forall va pa perm, (va, pa, perm) ∈ l -> leaf_pte m tbl va = Some (leaf_entry pa perm).

Definition code_page : Z * Z * Z := (TRAMPOLINE, sym_trampoline, PTE_R .| PTE_X).

Definition frame_page (tf : Z) : Z * Z * Z := (TRAPFRAME, tf, PTE_R .| PTE_W).

(** A page table only depends on its own pages. *)
Lemma space_ext m m' x tf l :
  page_ok tf -> space m x tf l -> (forall a, ~ (tf <= a < tf + PGSIZE) -> ldb m' a = ldb m a) -> space m' x tf l.
Proof.
  intros Htf (root & tbl & Hx & Hwf & Hne & Hl) Hm.
  destruct (pt_wf_ext m m' root tbl Hwf) as [Hwf' Hl'].
  { intros path p a Hp Ha. apply Hm. intros Ha'. apply (Hne path p Hp).
    pose proof (wf_page _ _ _ Hwf _ _ Hp) as [H1 _]. destruct Htf as [H2 _].
    unfold PGSIZE in *. dmlia. }
  exists root, tbl. split_and!; try done. intros va pa perm H. rewrite Hl'. by apply Hl.
Qed.

Lemma space_translate m x tf l va pa perm off :
  space m x tf l -> (va, pa, perm) ∈ l -> 0 <= va < 2 ^ 38 -> va mod PGSIZE = 0 -> 0 <= off < PGSIZE ->
  0 <= pa < 2 ^ 56 -> pa mod PGSIZE = 0 -> 0 <= perm < 2 ^ 10 -> Z.testbit perm 1 = true ->
  satp_translate m x (va + off) = Some (pa + off, perm .| PTE_V).
Proof.
  intros (root & tbl & -> & Hwf & _ & Hl) Hin Hva Hal Hoff Hpa Hpal Hperm Hr.
  destruct (make_satp_root root) as [E1 E2]; [by eapply wf_page; [|eapply wf_root]|].
  unfold satp_translate. rewrite E1, E2. cbn [Z.eqb Pos.eqb]. rewrite (translate_wf _ _ tbl) by done.
  unfold canonical. unfold PGSIZE in *. rewrite (proj2 (Z.leb_le 0 (va + off))), (proj2 (Z.ltb_lt (va + off) _)) by dmlia.
  cbn [andb orb]. rewrite (leaf_pte_vbase _ _ (va + off) va), (Hl _ _ _ Hin).
  - cbn [mbind option_bind]. destruct (leaf_entry_hw pa perm) as (-> & -> & ->); try done.
    assert ((va + off) mod 4096 = off) as -> by dmlia. done.
  - unfold vbase. do 2 f_equal. dmlia.
Qed.

Lemma space_code m x tf l :
  space m x tf l -> code_page ∈ l -> look m X_BIT x TRAMPOLINE = Some sym_trampoline.
Proof.
  intros H Hin. destruct trampoline_bounds as [T1 T2].
  pose proof (space_translate m x tf l TRAMPOLINE sym_trampoline (PTE_R .| PTE_X) 0 H Hin) as E.
  rewrite !Z.add_0_r in E. unfold look. rewrite E; [done|by vm_compute; split|done|done|done|done|by vm_compute; split|done].
Qed.

(** The hart runs with the user page table, and no stale translation is left. *)
Record in_user (tf : Z) (h : hart) : Prop := {
  iu_page : page_ok tf;
  iu_space : space (ram (regfile h)) (h_satp h) tf [code_page; frame_page tf];
  iu_fenced : stale h = [];
}.

Lemma fetch_ok_fenced h : stale h = [] ->
  look (ram (regfile h)) X_BIT (h_satp h) TRAMPOLINE = Some sym_trampoline -> fetch_ok h = true.
Proof. intros Hs H. unfold fetch_ok, access. rewrite H, Hs. by apply bool_decide_eq_true. Qed.

Lemma in_user_fetch tf h : in_user tf h -> fetch_ok h = true.
Proof. intros [_ H1 H2]. apply fetch_ok_fenced; [done|]. eapply space_code; [done|]. by left. Qed.

Lemma in_user_access tf h bit off :
  in_user tf h -> bit = R_BIT \/ bit = W_BIT -> 0 <= off < PGSIZE -> access bit h (TRAPFRAME + off) = Some (tf + off).
Proof.
  intros [H0 H1 H2] Hb Hoff. pose proof (page_ok_pos tf H0). destruct H0 as [H0 _].
  unfold access, look. rewrite H2.
  rewrite (space_translate _ _ tf _ TRAPFRAME tf (PTE_R .| PTE_W) off H1); try done.
  - by destruct Hb as [-> | ->].
  - right. by left.
  - lia.
Qed.

(** ** Runs on the trapframe *)

(** While a0 holds TRAPFRAME, the hart does what the one of Asm.v does with the
    page's physical address in a0. *)
Record like (tf : Z) (m : mach) (h : hart) : Prop := {
  lk_user : in_user tf h;
  lk_ram : ram (regfile h) = ram m;
  lk_pc : pc (regfile h) = pc m;
  lk_regs : forall r, r <> A0 -> gpr (regfile h) r = gpr m r;
  lk_frame : gpr (regfile h) A0 = TRAPFRAME;
  lk_phys : gpr m A0 = tf;
}.

(** An access to a slot of the trapframe. *)
Definition on_frame (i : instr) : Prop :=
  match i with
  | SD r off b | LD r off b => b = A0 /\ r <> A0 /\ r <> ZERO /\ off mod 8 = 0 /\ 0 <= off /\ off + 8 <= PGSIZE
  | _ => False
  end.

#[local] Instance on_frame_dec i : Decision (on_frame i).
Proof. destruct i; apply _. Defined.

Lemma page_slot tf off :
  page_ok tf -> off mod 8 = 0 -> 0 <= off -> off + 8 <= PGSIZE -> u64 (tf + off) = tf + off /\ word_ok (tf + off) = true.
Proof.
  intros Htf H1 H2 H3. pose proof (page_ok_pos tf Htf) as Hp. destruct Htf as [Ha [Hk1 Hk2]].
  apply (block_slot tf PGSIZE); try done. pose proof end_above. pose proof etext_above.
  unfold block, PGSIZE in *. split; [dmlia|lia].
Qed.

Lemma frame_slot_addr off : 0 <= off < PGSIZE -> u64 (TRAPFRAME + off) = TRAPFRAME + off.
Proof. intros H. unfold PGSIZE in H. apply u64_small. change TRAPFRAME with 274877898752. lia. Qed.

Lemma like_step tf i m h m' :
  on_frame i -> like tf m h -> exec i m = Some m' ->
  exists h', vexec (I i) h = Some h' /\ like tf m' h' /\ h_satp h' = h_satp h /\ sscratch h' = sscratch h.
Proof.
  intros Hi [U R P G F A] E. pose proof (iu_page _ _ U) as Hpg.
  destruct i as [r off b|r off b| | | | | | |]; cbn [on_frame] in Hi; try done;
    destruct Hi as (-> & Hr & Hz & H1 & H2 & H3); destruct (page_slot tf off Hpg H1 H2 H3) as [Eu Eok];
    cbn [exec] in E; rewrite !get_gpr, A, Eu, Eok in E by done; injection E as <-;
    cbn [vexec]; rewrite !get_gpr, F, frame_slot_addr by (done || lia).
  - rewrite (in_user_access tf) by (done || auto || lia). cbn [mbind option_bind]. rewrite Eok.
    eexists. split; [done|]. split; [|done]. split; cbn [regfile set_regfile ram pc gpr]; try done.
    + split; [done| |apply U]. cbn [regfile set_regfile ram h_satp]. eapply space_ext; [done|apply U|].
      intros a Ha. unfold st64. apply ldb_st_other. lia.
    + by rewrite R, G.
  - rewrite (in_user_access tf) by (done || auto || lia). cbn [mbind option_bind]. rewrite Eok.
    eexists. split; [done|]. split; [|done]. split; cbn [regfile set_regfile ram pc put]; try done.
    + split; [done|apply U|apply U].
    + intros r' Hr'. rewrite R. unfold put. cbn [gpr]. by case_decide; [|apply G].
    + by rewrite gpr_put_ne.
    + by rewrite gpr_put_ne.
Qed.

Lemma like_run tf l m h m' :
  Forall on_frame l -> like tf m h -> run l m = Some m' ->
  exists h', vrun (ints l) h = Some h' /\ like tf m' h' /\ h_satp h' = h_satp h /\ sscratch h' = sscratch h.
Proof.
  revert m h; induction l as [|i l IH]; intros m h Hl Hk E.
  - injection E as <-. by exists h.
  - apply Forall_cons in Hl as [Hi Hl]. cbn [run] in E. destruct (exec i m) as [m1|] eqn:E1; [|done].
    destruct (like_step tf i m h m1 Hi Hk E1) as (h1 & V1 & K1 & S1 & C1).
    destruct (IH m1 h1 Hl K1 E) as (h2 & V2 & K2 & S2 & C2).
    exists h2. split; [|split; [done|split; congruence]].
    cbn [ints fmap list_fmap vrun]. rewrite (in_user_fetch tf h) by apply Hk. rewrite V1. exact V2.
Qed.

Lemma vrun_app l1 l2 h : vrun (l1 ++ l2) h = (h' ← vrun l1 h; vrun l2 h').
Proof.
  revert h; induction l1 as [|i l1 IH]; intros h; [done|]. cbn [app vrun].
  destruct (fetch_ok h); [|done]. destruct (vexec i h) as [h1|]; [|done]. cbn [mbind option_bind]. apply IH.
Qed.

(** One instruction. *)
Lemma vrun_step i l h h1 h' : fetch_ok h = true -> vexec i h = Some h1 -> vrun l h1 = h' -> vrun (i :: l) h = h'.
Proof. intros H1 H2 H3. cbn [vrun]. by rewrite H1, H2. Qed.

Lemma vrun_none i l h h1 : vexec i h = Some h1 -> vrun l h1 = None -> vrun (i :: l) h = None.
Proof. intros H1 H2. cbn [vrun]. destruct (fetch_ok h); [|done]. by rewrite H1. Qed.

Lemma vrun_fault i l h : vexec i h = None -> vrun (i :: l) h = None.
Proof. intros H. cbn [vrun]. destruct (fetch_ok h); [|done]. by rewrite H. Qed.

(** The fetch of the [sfence.vma] right after a change of page tables. *)
Lemma fetch_ok_switched h x tf tf' l l' :
  space (ram (regfile h)) (h_satp h) tf l -> code_page ∈ l ->
  space (ram (regfile h)) x tf' l' -> code_page ∈ l' -> stale h = [x] -> fetch_ok h = true.
Proof.
  intros H1 I1 H2 I2 Hs. unfold fetch_ok, access. apply bool_decide_eq_true_2.
  rewrite (space_code _ _ _ _ H1 I1), Hs. cbn [mbind option_bind forallb].
  by rewrite bool_decide_eq_true_2 by by eapply space_code.
Qed.

(** [sfence.vma; csrw satp, r; sfence.vma] and what follows. *)
Lemma vrun_switch r h l h' tf tf' k k' :
  space (ram (regfile h)) (h_satp h) tf k -> code_page ∈ k ->
  space (ram (regfile h)) (get r (regfile h)) tf' k' -> code_page ∈ k' -> stale h = [] ->
  vrun l (Hart (regfile h) (get r (regfile h)) (sscratch h) []) = h' ->
  vrun (SFENCE_VMA :: CSRW_SATP r :: SFENCE_VMA :: l) h = h'.
Proof.
  intros H1 I1 H2 I2 Hs H. pose proof (space_code _ _ _ _ H1 I1) as F1.
  assert (Hm : get r (regfile h) / 2 ^ 60 = 8).
  { destruct H2 as (root & tbl & -> & Hwf & _). apply make_satp_root. by eapply wf_page; [|eapply wf_root]. }
  eapply vrun_step; [by apply fetch_ok_fenced|reflexivity|].
  eapply vrun_step; [by apply fetch_ok_fenced|cbn [vexec regfile]; rewrite Hm; reflexivity|].
  eapply vrun_step; [|reflexivity|exact H].
  eapply fetch_ok_switched; [exact H2|exact I2|exact H1|exact I1|]. cbn [stale]. done.
Qed.

Lemma like_set tf m h r v :
  r <> A0 -> like tf m h -> like tf (put r v m) (set_regfile (put r v (regfile h)) h).
Proof.
  intros Hr [[U1 U2 U3] R P G F A]. split; cbn [regfile set_regfile put ram pc]; try done.
  - intros r' Hr'. unfold put. cbn [gpr]. by case_decide; [|apply G].
  - by rewrite gpr_put_ne.
  - by rewrite gpr_put_ne.
Qed.

(** The beginning of both routines. *)
Lemma like_begin tf h :
  in_user tf h -> like tf (put A0 tf (regfile h)) (set_regfile (put A0 TRAPFRAME (regfile h)) h).
Proof.
  intros [U1 U2 U3]. split; cbn [regfile set_regfile put ram pc]; try done.
  intros r Hr. unfold put. cbn [gpr]. by rewrite !decide_False.
Qed.

Lemma page_block tf : page_ok tf -> block tf 288.
Proof.
  intros Htf. destruct Htf as [Ha [Hk1 Hk2]]. pose proof end_above. pose proof etext_above.
  unfold block, PGSIZE in *. split; [dmlia|lia].
Qed.

(** The trapframe and the registers when [uservec] has stored and loaded
    everything, on the hart of Asm.v. *)
Lemma frame_exchange tf m v :
  words m -> page_ok tf -> 0 <= v < 2 ^ 64 ->
  exists m1 m2, run (saves A0 user_slots) (put A0 tf m) = Some m1
    /\ run (saves A0 [(T0, 112)] ++ loads A0 kernel_slots) (put T0 v m1) = Some m2
    /\ tf_at (ram m2) tf = with_regs (put A0 v m) (tf_at (ram m) tf)
    /\ (forall a, ~ (tf <= a < tf + 288) -> ldb (ram m2) a = ldb (ram m) a)
    /\ gpr m2 SP = kernel_sp (tf_at (ram m) tf) /\ gpr m2 TP = kernel_hartid (tf_at (ram m) tf)
    /\ gpr m2 T0 = kernel_trap (tf_at (ram m) tf) /\ gpr m2 T1 = kernel_satp (tf_at (ram m) tf).
Proof.
  intros Hw Htf Hv. pose proof (page_block tf Htf) as Hb. pose proof (page_ok_pos tf Htf) as Hp.
  set (m0 := put A0 tf m). assert (W0 : words m0).
  { intros r. unfold m0, put. cbn [gpr]. case_decide; [lia|apply Hw]. }
  destruct (run_saves A0 288 user_slots m0 W0) as (m1 & E1 & V1); try done; try by apply (bool_decide_unpack _).
  change (gpr m0 A0) with tf in V1. destruct V1 as [G1 P1 S1 R1 O1].
  set (m1' := put T0 v m1). assert (W1 : words m1').
  { intros r. unfold m1', put. cbn [gpr]. rewrite G1. case_decide; [done|apply W0]. }
  assert (A1 : gpr m1' A0 = tf) by (unfold m1'; rewrite gpr_put_ne, G1 by done; done).
  destruct (run_saves A0 288 [(T0, 112)] m1' W1) as (m2 & E2 & V2); try by rewrite ?A1; try by apply (bool_decide_unpack _).
  rewrite A1 in V2. destruct V2 as [G2 P2 S2 R2 O2].
  destruct (run_loads A0 288 kernel_slots m2) as (m3 & E3 & V3); try by rewrite ?G2, ?A1; try by apply (bool_decide_unpack _).
  rewrite G2, A1 in V3. destruct V3 as [R3 P3 S3 _].
  change (ram m0) with (ram m) in O1, R1. change (ram m1') with (ram m1) in O2, R2.
  (* the slots of the kernel's values and of the registers *)
  assert (K : forall off, off mod 8 = 0 -> off ∉ user_slots.*2 -> off ∉ [112] -> ld64 (ram m2) (tf + off) = ld64 (ram m) (tf + off)).
  { intros off Ho H1 H2. by rewrite O2, O1. }
  assert (U : forall r off, (r, off) ∈ user_slots -> off mod 8 = 0 -> off ∉ [112] -> r <> A0 -> ld64 (ram m2) (tf + off) = gpr m r).
  { intros r off Hin Ho Hn Hr. rewrite O2 by done. rewrite (S1 r off Hin). by apply gpr_put_ne. }
  exists m1, m3. split; [done|]. split; [fold m1'; by rewrite run_app, E2|]. split; [|split; [|split_and!]].
  - rewrite R3. unfold tf_at, with_regs. cbn [kernel_satp kernel_sp kernel_trap tf_epc kernel_hartid].
    rewrite gpr_put. rewrite !gpr_put_ne by done.
    rewrite !K by (done || by apply (bool_decide_unpack _)).
    rewrite (S2 T0 112) by by left. unfold m1'. rewrite gpr_put.
    f_equal; apply U; done || by apply (bool_decide_unpack _).
  - intros a Ha. by rewrite R3, R2, R1.
  - rewrite (S3 SP 8) by (by apply (bool_decide_unpack _)). apply K; done || by apply (bool_decide_unpack _).
  - rewrite (S3 TP 32) by (by apply (bool_decide_unpack _)). apply K; done || by apply (bool_decide_unpack _).
  - rewrite (S3 T0 16) by (by apply (bool_decide_unpack _)). apply K; done || by apply (bool_decide_unpack _).
  - rewrite (S3 T1 0) by (by apply (bool_decide_unpack _)). apply K; done || by apply (bool_decide_unpack _).
Qed.

Lemma with_regs_put m f : with_regs (put A0 (gpr m A0) m) f = with_regs m f.
Proof. unfold with_regs. rewrite gpr_put, !gpr_put_ne by done. done. Qed.

(** The registers of two machines are the same if the trapframes they save are. *)
Lemma with_regs_inj m m' f f' r : with_regs m f = with_regs m' f' -> r <> ZERO -> gpr m r = gpr m' r.
Proof. intros E Hr. unfold with_regs in E. injection E. intros. by destruct r. Qed.

Lemma uservec_ok tf h next :
  words (regfile h) -> in_user tf h ->
  space (ram (regfile h)) (kernel_satp (tf_at (ram (regfile h)) tf)) tf [code_page] ->
  exists h', vrun (uservec next) h = Some h'
    /\ tf_at (ram (regfile h')) tf = with_regs (regfile h) (tf_at (ram (regfile h)) tf)
    /\ (forall a, ~ (tf <= a < tf + 288) -> ldb (ram (regfile h')) a = ldb (ram (regfile h)) a)
    /\ gpr (regfile h') SP = kernel_sp (tf_at (ram (regfile h)) tf)
    /\ gpr (regfile h') TP = kernel_hartid (tf_at (ram (regfile h)) tf)
    /\ gpr (regfile h') RA = next
    /\ pc (regfile h') = kernel_trap (tf_at (ram (regfile h)) tf) - kernel_trap (tf_at (ram (regfile h)) tf) mod 2
    /\ h_satp h' = kernel_satp (tf_at (ram (regfile h)) tf) /\ stale h' = [].
Proof.
  intros Hw U HK. set (m := regfile h) in *. set (f := tf_at (ram m) tf) in *.
  pose proof (iu_page _ _ U) as Hpg. pose proof (page_ok_pos tf Hpg) as Hp.
  destruct (frame_exchange tf m (gpr m A0) Hw Hpg (Hw A0)) as (m1 & m2 & E1 & E2 & T & R & D1 & D2 & D3 & D4).
  fold f in T, D1, D2, D3, D4. rewrite with_regs_put in T.
  set (h1 := Hart m (h_satp h) (gpr m A0) (stale h)).
  assert (U1 : in_user tf h1) by (destruct U; by split).
  destruct (like_run tf (saves A0 user_slots) _ _ m1 ltac:(by apply (bool_decide_unpack _)) (like_begin tf h1 U1) E1)
    as (h3 & V3 & K3 & S3 & C3).
  destruct (like_run tf (saves A0 [(T0, 112)] ++ loads A0 kernel_slots) _ _ m2 ltac:(by apply (bool_decide_unpack _))
    (like_set tf m1 h3 T0 (gpr m A0) ltac:(done) K3) E2) as (h5 & V5 & K5 & S5 & C5).
  pose proof (lk_user _ _ _ K5) as U5. pose proof (lk_ram _ _ _ K5) as R5.
  assert (HT1 : get T1 (regfile h5) = kernel_satp f) by (by rewrite get_gpr, (lk_regs _ _ _ K5) by done).
  assert (HK5 : space (ram (regfile h5)) (kernel_satp f) tf [code_page]).
  { eapply space_ext; [done|exact HK|]. intros a Ha. rewrite R5. apply R. unfold PGSIZE in Ha. lia. }
  eexists. split.
  - rewrite uservec_split.
    eapply (vrun_step _ _ h h1); [by eapply in_user_fetch|cbn [vexec]; by rewrite get_gpr by done|].
    eapply (vrun_step _ _ h1 (set_regfile (put A0 TRAPFRAME (regfile h1)) h1)); [by eapply in_user_fetch|reflexivity|].
    rewrite vrun_app, V3. cbn [mbind option_bind].
    eapply (vrun_step _ _ h3); [eapply in_user_fetch, K3|cbn [vexec]; rewrite C3; reflexivity|].
    rewrite vrun_app. cbn [set_regfile sscratch h1]. rewrite V5. cbn [mbind option_bind].
    eapply vrun_switch; [apply U5|by left|rewrite HT1; exact HK5|by left|apply U5|]. rewrite HT1.
    eapply vrun_step; [|reflexivity|reflexivity]. apply fetch_ok_fenced; [done|]. cbn [regfile h_satp].
    eapply space_code; [exact HK5|by left].
  - cbn [regfile set_regfile ram pc gpr h_satp stale]. rewrite R5, !(get_gpr T0), gpr_put, !gpr_put_ne by done.
    rewrite !(lk_regs _ _ _ K5) by done. rewrite D1, D2, D3. split_and!; try done.
Qed.

Lemma userret_ok tf tf' h k :
  page_ok tf -> space (ram (regfile h)) (h_satp h) tf' k -> code_page ∈ k ->
  space (ram (regfile h)) (gpr (regfile h) A0) tf [code_page; frame_page tf] -> stale h = [] ->
  exists h', vrun userret h = Some h' /\ ram (regfile h') = ram (regfile h)
    /\ h_satp h' = gpr (regfile h) A0
    /\ forall f, f = tf_at (ram (regfile h)) tf -> with_regs (regfile h') f = f.
Proof.
  intros Hpg HK Ik HU Hs. set (m := regfile h) in *.
  set (h1 := Hart m (gpr m A0) (sscratch h) []). assert (U1 : in_user tf h1) by (by split).
  destruct (run_loads A0 288 user_slots (put A0 tf m)) as (m1 & E1 & [R P S O]); try done;
    try by apply (bool_decide_unpack _). { rewrite gpr_put. by apply page_block. }
  rewrite gpr_put in S. change (ram (put A0 tf m)) with (ram m) in R, S.
  destruct (like_run tf (loads A0 user_slots) _ _ m1 ltac:(by apply (bool_decide_unpack _)) (like_begin tf h1 U1) E1)
    as (h3 & V3 & K3 & S3 & C3).
  pose proof (lk_user _ _ _ K3) as U3. destruct (page_slot tf 112 Hpg) as [_ Eok]; [done..|].
  exists (set_regfile (put A0 (ld64 (ram (regfile h3)) (tf + 112)) (regfile h3)) h3). split.
  - rewrite userret_split. eapply vrun_switch; [exact HK|exact Ik|rewrite get_gpr by done; exact HU|by left|done|].
    rewrite get_gpr by done. fold m h1.
    eapply (vrun_step _ _ h1 (set_regfile (put A0 TRAPFRAME (regfile h1)) h1)); [by eapply in_user_fetch|reflexivity|].
    rewrite vrun_app, V3. cbn [mbind option_bind].
    eapply vrun_step; [by eapply in_user_fetch| |].
    { cbn [vexec]. rewrite get_gpr, (lk_frame _ _ _ K3), frame_slot_addr by done.
      rewrite (in_user_access tf) by (done || auto). cbn [mbind option_bind]. rewrite Eok. reflexivity. }
    eapply vrun_step; [|reflexivity|reflexivity]. eapply (in_user_fetch tf). by destruct U3.
  - cbn [regfile set_regfile ram put h_satp]. rewrite (lk_ram _ _ _ K3), R. split; [done|].
    split; [exact S3|]. intros f ->. unfold with_regs, tf_at.
    cbn [kernel_satp kernel_sp kernel_trap tf_epc kernel_hartid].
    rewrite gpr_put, !gpr_put_ne, !(lk_regs _ _ _ K3) by done.
    f_equal; apply S; by apply (bool_decide_unpack _).
Qed.

(** ** Theorems *)

(** The trampoline gives a user program its registers back.  Assume the
    user page table maps the code page and, at TRAPFRAME, a trapframe page, and
    the page table that the trapframe names for the kernel maps the code page too;
    neither is stored in the trapframe page.  Then a trap into [uservec]
    saves every user register in the trapframe, writes nothing else, and enters
    the kernel's handler with the kernel's stack, hart number and page table.
    When the handler returns to [userret] with the user page table in a0, both
    page tables and the saved registers intact, [userret] ends in user mode
    with that page table and every register as the trap found it.  No access or
    fetch faults or could use a stale translation. *)
Theorem user_trap_round_trip tf h next :
  words (regfile h) -> in_user tf h ->
  space (ram (regfile h)) (kernel_satp (tf_at (ram (regfile h)) tf)) tf [code_page] ->
  exists h1, vrun (uservec next) h = Some h1
    /\ tf_at (ram (regfile h1)) tf = with_regs (regfile h) (tf_at (ram (regfile h)) tf)
    /\ (forall a, ~ (tf <= a < tf + 288) -> ldb (ram (regfile h1)) a = ldb (ram (regfile h)) a)
    /\ gpr (regfile h1) SP = kernel_sp (tf_at (ram (regfile h)) tf)
    /\ gpr (regfile h1) TP = kernel_hartid (tf_at (ram (regfile h)) tf)
    /\ gpr (regfile h1) RA = next
    /\ pc (regfile h1) = kernel_trap (tf_at (ram (regfile h)) tf) - kernel_trap (tf_at (ram (regfile h)) tf) mod 2
    /\ h_satp h1 = kernel_satp (tf_at (ram (regfile h)) tf) /\ stale h1 = []
    /\ forall h2, h_satp h2 = h_satp h1 -> stale h2 = [] -> gpr (regfile h2) A0 = h_satp h ->
         space (ram (regfile h2)) (h_satp h2) tf [code_page] ->
         space (ram (regfile h2)) (h_satp h) tf [code_page; frame_page tf] ->
         tf_at (ram (regfile h2)) tf = with_regs (regfile h) (tf_at (ram (regfile h2)) tf) ->
         exists h3, vrun userret h2 = Some h3 /\ ram (regfile h3) = ram (regfile h2) /\ h_satp h3 = h_satp h
           /\ forall r, r <> ZERO -> gpr (regfile h3) r = gpr (regfile h) r.
Proof.
  intros Hw U HK. destruct (uservec_ok tf h next Hw U HK) as (h1 & E & T & R & D1 & D2 & D3 & D4 & D5 & D6).
  exists h1. split_and!; try done. intros h2 S2 F2 Ha K2 U2 T2. rewrite <- Ha in U2.
  destruct (userret_ok tf tf h2 _ (iu_page _ _ U) K2 ltac:(by left) U2 F2) as (h3 & E3 & R3 & S3 & G3).
  exists h3. split; [done|]. split; [done|]. split; [congruence|]. intros r Hr.
  eapply with_regs_inj; [|done]. rewrite (G3 _ eq_refl). exact T2.
Qed.

(** The address spaces of this kernel do not meet these conditions. *)

(** With a table that [proc_pagetable] builds, [uservec] itself can be fetched, but
    TRAPFRAME is physical page 1. *)
Lemma user_space_code s pt tbl free h :
  user_space s pt tbl free -> ram (regfile h) = mem s -> h_satp h = MAKE_SATP pt ->
  space (ram (regfile h)) (h_satp h) 0 [code_page; (TRAPFRAME, PGSIZE, PTE_R .| PTE_W)].
Proof.
  intros [I Hl] Hr Hs. exists pt, tbl. rewrite Hr. split; [done|]. split; [apply I|]. split.
  - intros path p Hp ->. by destruct (page_ok_pos 0 (wf_page _ _ _ (vm_wf _ _ _ _ I) _ _ Hp)).
  - intros va pa perm [[= -> -> ->]|[= -> -> ->]%list_elem_of_singleton]%elem_of_cons; by rewrite Hl.
Qed.

Lemma uservec_faults s pt tbl free h next :
  user_space s pt tbl free -> ram (regfile h) = mem s -> h_satp h = MAKE_SATP pt -> stale h = [] ->
  fetch_ok h = true /\ access W_BIT h (TRAPFRAME + 40) = Some (PGSIZE + 40)
  /\ (exists h2, vrun (take 2 (uservec next)) h = Some h2) /\ vrun (take 3 (uservec next)) h = None.
Proof.
  intros U Hr Hs Hf. pose proof (user_space_code s pt tbl free h U Hr Hs) as Sp.
  assert (F : fetch_ok h = true) by (apply fetch_ok_fenced; [done|]; eapply space_code; [done|]; by left).
  assert (Ha : forall h', ram (regfile h') = ram (regfile h) -> h_satp h' = h_satp h -> stale h' = [] ->
    access W_BIT h' (TRAPFRAME + 40) = Some (PGSIZE + 40)).
  { intros h' E1 E2 E3. unfold access, look. rewrite E1, E2, E3.
    by rewrite (space_translate _ _ 0 _ TRAPFRAME PGSIZE (PTE_R .| PTE_W) 40 Sp) by (done || by right; left). }
  split; [exact F|]. split; [by apply Ha|].
  unfold uservec. cbn [app ints fmap list_fmap take vrun]. rewrite F.
  set (h1 := vexec _ h). assert (E1 : h1 = Some (Hart (regfile h) (h_satp h) (get A0 (regfile h)) (stale h))) by done.
  rewrite E1. cbn [mbind option_bind]. clear h1 E1. set (h1 := Hart _ _ _ _).
  assert (F1 : fetch_ok h1 = true) by exact F. rewrite F1.
  set (h2 := set_regfile (put A0 trampoline_S_TRAPFRAME (regfile h1)) h1).
  assert (E2 : vexec (I (LI A0 trampoline_S_TRAPFRAME)) h1 = Some h2) by done. rewrite E2.
  cbn [mbind option_bind]. split; [by eexists|].
  assert (F2 : fetch_ok h2 = true) by exact F. rewrite F2. cbn [vexec].
  change (u64 (get A0 (regfile h2) + 40)) with (TRAPFRAME + 40). by rewrite Ha.
Qed.

(** The kernel's table does not map the trampoline. *)
Lemma userret_faults s stacks h :
  kernel_map s stacks -> ram (regfile h) = mem s -> h_satp h = satp (csr s) ->
  access X_BIT h TRAMPOLINE = None /\ vrun (take 1 userret) h = None.
Proof.
  intros [_ _ Ho] Hr Hs.
  assert (Hst : stack_of stacks TRAMPOLINE = None).
  { destruct (stack_of stacks TRAMPOLINE) eqn:E; [|done]. apply stack_of_Some in E as (j & _ & Hv). exfalso.
    revert Hv. change (vbase TRAMPOLINE) with TRAMPOLINE. unfold KSTACK, PGSIZE. lia. }
  specialize (Ho TRAMPOLINE ltac:(by vm_compute; split) Hst). unfold hw_translate in Ho.
  assert (Hn : kernel_translate TRAMPOLINE = None).
  { unfold kernel_translate. pose proof etext_above. pose proof end_above. pose proof end_below.
    change KERNBASE with 2147483648 in *. change PHYSTOP with 2281701376 in *. change UART0 with 268435456.
    change PGSIZE with 4096. change TRAMPOLINE with 274877902848. by rewrite !decide_False by lia. }
  assert (E : access X_BIT h TRAMPOLINE = None) by (unfold access, look; by rewrite Hr, Hs, Ho, Hn).
  split; [exact E|]. unfold userret. cbn [app take vrun]. unfold fetch_ok. by rewrite E.
Qed.

(** C40: user mode cannot be entered or left.  In every state the kernel reaches,
    with the page table of any live process in force and no stale translations,
    [uservec] executes two instructions and faults on the third, the first register
    it saves: the code page is mapped, but the page table takes TRAPFRAME to
    physical address 4096, which is not RAM.  And with the kernel's own satp, the
    first fetch of [userret] faults: the kernel's page table does not map the
    trampoline. *)
Theorem trampoline_faults w :
  reachable w ->
  let s := w_state w in
  (forall k q h next, procs s !! k = Some q -> live q ->
     ram (regfile h) = mem s -> h_satp h = MAKE_SATP (p_pagetable q) -> stale h = [] ->
     fetch_ok h = true
     /\ access W_BIT h (TRAPFRAME + 40) = Some (PGSIZE + 40) /\ in_ram (PGSIZE + 40) 8 = false
     /\ (exists h2, vrun (take 2 (uservec next)) h = Some h2) /\ vrun (take 3 (uservec next)) h = None)
  /\ (forall h, ram (regfile h) = mem s -> h_satp h = satp (csr s) ->
     access X_BIT h TRAMPOLINE = None /\ vrun (take 1 userret) h = None).
Proof.
  intros [n Iv]%reachable_inv s. destruct (iv_memory _ _ _ Iv) as (free & tbls & ktbl & Hm). split.
  - intros k q h next Hq Hl Hr Hs Hf. pose proof (so_space _ _ _ _ _ (mo_slot _ _ _ _ _ Hm k q Hq Hl)) as U.
    destruct (uservec_faults s _ _ _ h next U Hr Hs Hf) as (F & A & E2 & E3). by split_and!.
  - intros h Hr Hs. destruct (inv_stacked _ _ _ Iv) as (tbl & fr & St).
    by apply (userret_faults s (stack_pages n)); [eapply stacked_map|..].
Qed.

(** An address space that meets the conditions: a table as [proc_pagetable] builds
    it, but with the page [tf] at TRAPFRAME. *)
Lemma two_mappings_space s pt t1 t2 free tf :
  pool s (pt :: t1 :: t2 :: free) -> page_ok tf -> tf ∉ [pt; t1; t2] ->
  exists m, space m (MAKE_SATP pt) tf [code_page; frame_page tf].
Proof.
  intros Hp Hpg Hni. pose proof (page_ok_pos tf Hpg).
  destruct (two_mappings_ok s pt t1 t2 free tf Hp ltac:(lia) (proj1 Hpg))
    as (s0 & s1 & s2 & tbl & _ & _ & _ & I & Hl & _ & _ & Hperm).
  exists (mem s2), pt, tbl. split; [done|]. split; [apply I|]. split.
  - intros path p Hpath ->. apply Hni. by eapply table_page.
  - intros va pa perm [[= -> -> ->]|[= -> -> ->]%list_elem_of_singleton]%elem_of_cons; by rewrite Hl.
Qed.

Lemma space_sub m x tf l l' : space m x tf l -> l' ⊆ l -> space m x tf l'.
Proof.
  intros (root & tbl & H1 & H2 & H3 & H4) Hs. exists root, tbl. split_and!; try done.
  intros va pa perm Hin. by apply H4, Hs.
Qed.

End trampoline.

(** ** Witnesses *)

#[local] Existing Instance demo_linker.
#[local] Existing Instance demo_linker_ok.

Definition demo_tf : Z := 0x8000d000.

Lemma demo_tf_ok : page_ok demo_tf.
Proof. apply (bool_decide_unpack _). vm_compute. done. Qed.

Lemma demo_space : exists m, space m (MAKE_SATP page_a) demo_tf [code_page; frame_page demo_tf].
Proof.
  apply (two_mappings_space (pool_with (demo_pages 3)) page_a 0x8000b000 0x8000c000 []).
  - apply (demo_pages_pool 3). lia.
  - apply demo_tf_ok.
  - by apply (bool_decide_unpack _).
Qed.

(** A hart in user mode, with one page table for the user and the kernel, named in
    the trapframe, and [v] in every register. *)
Definition demo_hart (m : memory) (v : Z) : hart :=
  Hart (Mach (fun _ => v) (st64 m (demo_tf + 0) (MAKE_SATP page_a)) 0) (MAKE_SATP page_a) 0 [].

Lemma demo_hart_space m v :
  space m (MAKE_SATP page_a) demo_tf [code_page; frame_page demo_tf] ->
  space (ram (regfile (demo_hart m v))) (MAKE_SATP page_a) demo_tf [code_page; frame_page demo_tf]
  /\ kernel_satp (tf_at (ram (regfile (demo_hart m v))) demo_tf) = MAKE_SATP page_a.
Proof.
  intros H. split.
  - eapply space_ext; [apply demo_tf_ok|exact H|].
    intros a Ha. cbn [demo_hart regfile ram]. unfold st64. apply ldb_st_other. unfold PGSIZE in Ha. lia.
  - cbn [tf_at kernel_satp demo_hart regfile ram]. apply ld64_st64_same. by vm_compute; split.
Qed.

Lemma user_trap_round_trip_witness :
  exists h h1 h2 h3, vrun (uservec (TRAMPOLINE + 0x9c)) h = Some h1 /\ h_satp h1 = MAKE_SATP page_a
    /\ vrun userret h2 = Some h3 /\ gpr (regfile h3) SP = 7 /\ gpr (regfile h3) A0 = 7.
Proof.
  destruct demo_space as [m Hm]. destruct (demo_hart_space m 7 Hm) as [HU HK].
  pose proof demo_tf_ok as Hpg.
  assert (Hsub : [code_page] ⊆ [code_page; frame_page demo_tf]) by set_solver.
  destruct (user_trap_round_trip demo_tf (demo_hart m 7) (TRAMPOLINE + 0x9c))
    as (h1 & E1 & T1 & R1 & _ & _ & _ & _ & S1 & _ & Hret).
  - intros r. cbn [demo_hart regfile gpr]. lia.
  - split; [exact Hpg|exact HU|reflexivity].
  - rewrite HK. by eapply space_sub.
  - rewrite HK in S1.
    assert (H1 : space (ram (regfile h1)) (MAKE_SATP page_a) demo_tf [code_page; frame_page demo_tf]).
    { eapply space_ext; [exact Hpg|exact HU|]. intros a Ha. apply R1. unfold PGSIZE in Ha. lia. }
    destruct (Hret (set_regfile (put A0 (MAKE_SATP page_a) (regfile h1)) (Hart (regfile h1) (h_satp h1) 0 [])))
      as (h3 & E3 & _ & _ & G3); try done.
    + cbn [set_regfile regfile put ram h_satp]. rewrite S1. by eapply space_sub.
    + cbn [set_regfile regfile put ram]. by rewrite T1.
    + eexists _, h1, _, h3. split; [exact E1|]. split; [exact S1|]. split; [exact E3|].
      split; by apply G3.
Defined.

(** Init's page table, while init runs. *)
Lemma trampoline_faults_witness :
  exists s T q h, reachable (World s (Running 0) T) /\ procs s !! 0%nat = Some q
    /\ h_satp h = MAKE_SATP (p_pagetable q) /\ fetch_ok h = true
    /\ vrun (take 3 (uservec (TRAMPOLINE + 0x9c))) h = None
    /\ vrun (take 1 userret) (Hart (regfile h) (satp (csr s)) 0 []) = None.
Proof.
  destruct demo_running as (s & T & n & Hr & Iv & _). destruct (iv_runner _ _ _ Iv) as [_ (q & Hq & Hrun)].
  set (h := Hart (Mach (fun _ => 7) (mem s) 0) (MAKE_SATP (p_pagetable q)) 0 []).
  destruct (trampoline_faults _ Hr) as [H1 H2].
  destruct (H1 0%nat q h (TRAMPOLINE + 0x9c) Hq) as (F & _ & _ & _ & E); [|reflexivity|reflexivity|reflexivity|].
  { unfold live. rewrite Hrun. discriminate. }
  destruct (H2 (Hart (regfile h) (satp (csr s)) 0 []) eq_refl eq_refl) as [_ E2].
  exists s, T, q, h. split; [exact Hr|]. split; [exact Hq|]. split; [reflexivity|]. split; [exact F|].
  split; [exact E|exact E2].
Defined.
