(* ===== verification/Tasks.v ===== *)
(** * The kernel's threads

    The two thread functions of kernel/proc.c, [init_task] and [simple_task], as
    programs: trees of the kernel calls they make, in which every call is one
    step of the system.  [tstep] runs a system whose threads execute programs;
    it refines Sched.v's [step], where a running thread calls what it likes. *)

From S2P Require Import Prelude Riscv Memory State Spinlock Kalloc Vm VmMap Sv39 VmDestroy Uart Printf Csr Proc ProcTable ProcMem ProcExit Switch Trap Sched SchedMem SchedStep SchedInv SchedLive.

(** ** Programs *)

(** The loop heads of the two functions. *)
Inductive label := InitLoop | SimpleIdle | Stuck.

(** [Self] is [myproc()], [Look] reads kernel data; [Wait k] continues with the
    pid and status that [wait_process] returned, if it found a child. *)
Inductive prog :=
  | Self (k : option nat -> prog)
  | Look (k : kstate -> prog)
  | Print (fmt : list Z) (ap : list vararg) (k : prog)
  | Create (fn : Z) (k : Z -> prog)
  | Wait (k : option (Z * Z) -> prog)
  | Yield (k : prog)
  | Exit (status : Z)
  | Goto (l : label).

Definition slot (p : option nat) (s : kstate) : proc :=
  match p with
  | Some i => default zero_proc (procs s !! i)
  | None => zero_proc
  end.

Section tasks.
Context `{L : Linker}.

(** The loop of [init_task]; [pid] is what [wait_process] returns. *)
Definition init_loop : prog :=
  Wait (fun r =>
    let pid := match r with Some (pid, _) => pid | None => -1 end in
    if 0 <=? pid then
      Print (str "init: reaped zombie pid %d" ++ nl) [VInt pid]
      (Goto InitLoop)
    else
      Yield
      (Goto InitLoop)).

Definition init_task : prog :=
  Print (str "init: starting" ++ nl) []
  (Goto InitLoop).

(** The end of the tester: a heartbeat for ever. *)
Definition simple_idle : prog :=
  Print (str ".") []
  (Goto SimpleIdle).

(** What the tester does once [wait_process] has returned. *)
Definition simple_check (child_pid : Z) (r : option (Z * Z)) : prog :=
  let waited_pid := match r with Some (pid, _) => pid | None => -1 end in
  let status := match r with Some (_, st) => st | None => -999 end in
  let finish :=
    Print (str "[Parent] Test finished. Idling..." ++ nl) []
    (Goto SimpleIdle) in
  if waited_pid =? child_pid then
    Print (str "[Parent] Catch exited child PID %d." ++ nl) [VInt waited_pid]
    (Print (str "[Parent] Exit status: %d (Expected: 88)" ++ nl) [VInt status]
    (if status =? 88 then
       Print (str "=== TEST PASSED ===" ++ nl) [] finish
     else
       Print (str "=== TEST FAILED: Wrong status ===" ++ nl) [] finish))
  else
    Print (str "[Parent] Error: wait_process returned %d" ++ nl) [VInt waited_pid] finish.

Definition simple_tester (pid : Z) : prog :=
  Print (nl ++ str "=== TEST START: Single Function Exit/Wait ===" ++ nl) []
  (Print (str "[Parent] PID %d: I am the parent. Spawning child..." ++ nl) [VInt pid]
  (Create sym_simple_task (fun child_pid =>
    if child_pid <? 0 then
      Print (str "[Parent] Failed to create child." ++ nl) [] (Goto Stuck)
    else
      Print (str "[Parent] Created child PID %d. Waiting for it to exit..." ++ nl) [VInt child_pid]
      (Wait (simple_check child_pid))))).

Definition simple_child (p : option nat) (pid : Z) : prog :=
  Print (str "  [Child] PID %d: I am the child." ++ nl) [VInt pid]
  (Look (fun s =>
    let rest :=
      Print (str "  [Child] Exiting with status 88..." ++ nl) []
      (Exit 88) in
    if is_null (p_parent (slot p s)) then
      Print (str "  [Child] Error: I have no parent!" ++ nl) [] rest
    else
      Print (str "  [Child] My parent is PID %d." ++ nl) [VInt (p_pid (slot (p_parent (slot p s)) s))] rest)).

Definition simple_task : prog :=
  Self (fun p =>
  Look (fun s =>
    let pr := slot p s in
    let is_tester := is_null (p_parent pr)
      || (negb (is_null (initproc s)) && bool_decide (p_parent pr = initproc s)) in
    Print (str "Process PID %d is running..." ++ nl) [VInt (p_pid pr)]
    (if is_tester then simple_tester (p_pid pr) else simple_child p (p_pid pr)))).

(** The code at a loop head; [Stuck] is [while (1);]. *)
Definition code (l : label) : prog :=
  match l with
  | InitLoop => init_loop
  | SimpleIdle => simple_idle
  | Stuck => Goto Stuck
  end.

(** The function at an address. *)
Definition function (fn : Z) : option prog :=
  if fn =? sym_init_task then Some init_task
  else if fn =? sym_simple_task then Some simple_task
  else None.

(** ** Running programs *)

(** [P] holds the rest of each started thread's program. *)
Inductive tstep : world * gmap nat prog -> world * gmap nat prog -> Prop :=
  | t_sched i j s s' T T' P :
      step (World s (Scheduling i) T) (World s' (Scheduling j) T') ->
      tstep (World s (Scheduling i) T, P) (World s' (Scheduling j) T', P)
  | t_start i s s1 s2 fn f T P :
      (i < NPROC)%nat -> scheduler_try i s = Done true s1 -> T !! i = Some RStart ->
      forkret s1 = Done fn s2 -> function fn = Some f ->
      tstep (World s (Scheduling i) T, P) (World s2 (Running i) (delete i T), <[i := f]> P)
  | t_resume i v s s1 s2 T P :
      (i < NPROC)%nat -> scheduler_try i s = Done true s1 -> T !! i = Some (RYield v) ->
      yield_leave i v s1 = Done tt s2 ->
      tstep (World s (Scheduling i) T, P) (World s2 (Running i) (delete i T), P)
  | t_rewait i v s s1 s2 pid status s3 k T P :
      (i < NPROC)%nat -> scheduler_try i s = Done true s1 -> T !! i = Some (RWait v) ->
      sleep_leave i v L_wait s1 = Done tt s2 -> P !! i = Some (Wait k) ->
      wait_round (Some i) s2 = Done (WaitRet pid status) s3 ->
      tstep (World s (Scheduling i) T, P) (World s3 (Running i) (delete i T), <[i := k (Some (pid, status))]> P)
  | t_rewait_none i v s s1 s2 s3 k T P :
      (i < NPROC)%nat -> scheduler_try i s = Done true s1 -> T !! i = Some (RWait v) ->
      sleep_leave i v L_wait s1 = Done tt s2 -> P !! i = Some (Wait k) ->
      wait_round (Some i) s2 = Done WaitNone s3 ->
      tstep (World s (Scheduling i) T, P) (World s3 (Running i) (delete i T), <[i := k None]> P)
  | t_self p k q s s' T P :
      P !! p = Some (Self k) -> myproc s = Done q s' ->
      tstep (World s (Running p) T, P) (World s' (Running p) T, <[p := k q]> P)
  | t_look p k s T P :
      P !! p = Some (Look k) ->
      tstep (World s (Running p) T, P) (World s (Running p) T, <[p := k s]> P)
  | t_goto p l s T P :
      P !! p = Some (Goto l) ->
      tstep (World s (Running p) T, P) (World s (Running p) T, <[p := code l]> P)
  | t_print p fmt ap k bs s s' T P :
      P !! p = Some (Print fmt ap k) ->
      Forall is_char fmt -> formatted fmt ap = Some bs -> printf fmt ap s = Done 0 s' ->
      tstep (World s (Running p) T, P) (World s' (Running p) T, <[p := k]> P)
  | t_create p fn k pid j s s' T P :
      P !! p = Some (Create fn k) ->
      fn <> 0 -> nextpid s < 2 ^ 31 - 1 -> first_unused (procs s) = Some j ->
      create_process fn s = Done pid s' ->
      tstep (World s (Running p) T, P) (World s' (Running p) (<[j := RStart]> T), <[p := k pid]> P)
  | t_yield p k q v s s1 s2 T P :
      P !! p = Some (Yield k) ->
      yield_enter s = Done (q, v) s1 -> scheduler_back p s1 = Done tt s2 ->
      tstep (World s (Running p) T, P) (World s2 (Scheduling (S p)) (<[p := RYield v]> T), <[p := k]> P)
  | t_exit p status v s s1 s2 T P :
      P !! p = Some (Exit status) ->
      exit_process status s = Done v s1 -> scheduler_back p s1 = Done tt s2 ->
      tstep (World s (Running p) T, P) (World s2 (Scheduling (S p)) T, delete p P)
  | t_wait p k q pid status s s1 s2 T P :
      P !! p = Some (Wait k) ->
      wait_begin s = Done q s1 -> wait_round q s1 = Done (WaitRet pid status) s2 ->
      tstep (World s (Running p) T, P) (World s2 (Running p) T, <[p := k (Some (pid, status))]> P)
  | t_wait_none p k q s s1 s2 T P :
      P !! p = Some (Wait k) ->
      wait_begin s = Done q s1 -> wait_round q s1 = Done WaitNone s2 ->
      tstep (World s (Running p) T, P) (World s2 (Running p) T, <[p := k None]> P)
  | t_wait_sleep p k q q' v s s1 s2 s3 T P :
      P !! p = Some (Wait k) ->
      wait_begin s = Done q s1 -> wait_round q s1 = Done (WaitSleep q' v) s2 ->
      scheduler_back p s2 = Done tt s3 ->
      tstep (World s (Running p) T, P) (World s3 (Scheduling (S p)) (<[p := RWait v]> T), P).

(** Every step of the programs is a step of the system, or none. *)
Lemma tstep_step w P w' P' : tstep (w, P) (w', P') -> w' = w \/ step w w'.
Proof.
  inversion 1; subst; first [by left|right].
  - done.
  - by eexists; eapply step_start.
  - by eexists; eapply step_resume.
  - eexists; eapply step_rewait; [done..|]. constructor.
  - eexists; eapply step_rewait; [done..|]. constructor.
  - by eexists; eapply step_myproc.
  - by eexists; eapply step_print.
  - by eexists; eapply step_create.
  - by eexists; eapply step_yield.
  - by eexists; eapply step_exit.
  - eexists; eapply step_wait; [done..|]. constructor.
  - eexists; eapply step_wait; [done..|]. constructor.
  - eexists; eapply step_wait; [done..|]. by constructor.
Qed.

Lemma tsteps_steps w P w' P' : rtc tstep (w, P) (w', P') -> rtc step w w'.
Proof.
  remember (w, P) as a eqn:Ea. remember (w', P') as b eqn:Eb. intros H. revert w P Ea.
  induction H as [x|x [w1 P1] z Hs Hr IH]; intros w P ->.
  - by injection Eb as -> _.
  - destruct (tstep_step _ _ _ _ Hs) as [->|Hs']; [by eapply IH|]. eapply rtc_l; [exact Hs'|by eapply IH].
Qed.

(** ** Runs without interrupts *)

(** A step that takes an interrupt: only those leave the scheduler at the end of
    the table. *)
Definition interrupted (a b : world * gmap nat prog) : Prop :=
  w_runner a.1 = Scheduling NPROC /\ w_runner b.1 = Scheduling NPROC.

Definition calm (a b : world * gmap nat prog) : Prop := tstep a b /\ ~ interrupted a b.

Lemma calm_tsteps a b : rtc calm a b -> rtc tstep a b.
Proof. apply rtc_subrel. by intros x y []. Qed.

(** Two results of one call are the same. *)
Ltac same_result :=
  repeat match goal with
  | H1 : ?x = Done _ _, H2 : ?x = Done _ _ |- _ => rewrite H1 in H2; injection H2 as ?; subst
  | H1 : ?x = Some _, H2 : ?x = Some _ |- _ => rewrite H1 in H2; injection H2 as ?; subst
  end.

(** What a step from the scheduler to the scheduler does, interrupts aside. *)
Inductive passes (i : nat) (s : kstate) (T : gmap nat resume_point) : world -> Prop :=
  | pass_skip s' :
      (i < NPROC)%nat -> scheduler_try i s = Done false s' -> passes i s T (World s' (Scheduling (S i)) T)
  | pass_round s' :
      i = NPROC -> scheduler_window s = Done tt s' -> passes i s T (World s' (Scheduling 0) T)
  | pass_sleep v s1 s2 q v' s3 s4 :
      (i < NPROC)%nat -> scheduler_try i s = Done true s1 -> T !! i = Some (RWait v) ->
      sleep_leave i v L_wait s1 = Done tt s2 -> wait_round (Some i) s2 = Done (WaitSleep q v') s3 ->
      scheduler_back i s3 = Done tt s4 ->
      passes i s T (World s4 (Scheduling (S i)) (<[i := RWait v']> (delete i T))).

Lemma step_passes i s T w :
  step (World s (Scheduling i) T) w -> (exists j, w_runner w = Scheduling j) ->
  ~ (Scheduling i = Scheduling NPROC /\ w_runner w = Scheduling NPROC) -> passes i s T w.
Proof.
  intros [es H] [j Hj] Hn. inversion H; subst; cbn [w_runner] in *; try done.
  - by apply pass_skip.
  - by apply pass_round.
  - by destruct Hn.
  - match goal with H : after_wait _ _ _ _ _ |- _ => inversion H; subst; cbn [w_runner] in *; try done end.
    by eapply pass_sleep.
Qed.

Lemma passes_det i s T w w' : passes i s T w -> passes i s T w' -> w = w'.
Proof.
  intros H H'. inversion H; inversion H'; subst; try (unfold NPROC in *; lia); same_result; done.
Qed.

(** Two runs of a deterministic relation: one goes on where the other stops. *)
Lemma rtc_det {A} (R : relation A) :
  (forall a b c, R a b -> R a c -> b = c) -> forall a b c, rtc R a b -> rtc R a c -> rtc R b c \/ rtc R c b.
Proof.
  intros HR a b c Hb. revert c. induction Hb as [a|a a1 b H1 Hb IH]; intros c Hc; [by left|].
  inversion Hc as [|? a2 ? H2 Hc']; subst; [right; by eapply rtc_l|].
  rewrite (HR _ _ _ H1 H2) in *. by apply IH.
Qed.

(** Running programs is deterministic but for interrupts. *)
Lemma calm_det a b c : calm a b -> calm a c -> b = c.
Proof.
  intros [H Hn] [H' Hn']. unfold interrupted in *.
  inversion H; subst; inversion H'; subst; cbn [fst snd w_runner] in *;
    repeat match goal with
    | Hs : step (World ?s (Scheduling ?i) ?T) ?w |- _ => apply step_passes in Hs; [|by eexists|done]
    end;
    try (match goal with H1 : passes _ _ _ ?w, H2 : passes _ _ _ ?w' |- _ =>
          pose proof (passes_det _ _ _ _ _ H1 H2) as E; injection E as ?; by subst end);
    try (match goal with H1 : passes _ _ _ _ |- _ =>
          exfalso; inversion H1; subst; solve [unfold NPROC in *; lia | same_result; discriminate | congruence] end);
    first [solve [exfalso; congruence] | same_result; try done; congruence].
Qed.

End tasks.
