(* ===== verification/TaskRun.v ===== *)
(** * Running the threads symbolically

    One lemma for each step of the programs of Tasks.v, on an abstraction of the
    kernel: the process table without what the memory and the hardware use
    ([view]), the next pid, and the text on the serial line.  On a concrete
    table the premises evaluate, so a run is a chain of these lemmas. *)

From S2P Require Import Prelude Riscv Memory State Spinlock Kalloc Vm VmMap Sv39 VmDestroy Uart Printf Csr Proc ProcTable ProcMem ProcExit Switch Trap Sched SchedMem SchedStep SchedInv SchedLive Tasks.

(** ** The abstraction *)

(** Of the saved registers only s0 is kept, which holds the thread function of a
    thread that has not started. *)
Definition saved (c : Z) : context := Context 0 0 c 0 0 0 0 0 0 0 0 0 0 0.

Definition view (q : proc) : proc :=
  Proc zero_lock (p_state q) (p_chan q) (p_killed q) (p_xstate q) (p_pid q) (p_parent q) 0 0 0 0
    (saved (s0 (p_context q))) [] 0 [].

(** A slot that gives up the CPU with s0 holding [c]. *)
Definition switched_out (c : Z) (q : proc) : proc := set_p_context (saved c) q.

(** A slot that a thread is created in. *)
Definition spawned (pid fn : Z) (me : nat) (q : proc) : proc :=
  set_p_state RUNNABLE (set_p_context (saved fn) (set_p_parent (Some me) (set_p_pid pid q))).

(** A slot that is reaped. *)
Definition reaped (q : proc) : proc :=
  set_p_state UNUSED (set_p_xstate 0 (set_p_killed 0 (set_p_chan PNull (set_p_parent None (set_p_pid 0 q))))).

(** The table [V], the next pid [np], whether a thread has started ([ff] is
    [forkret]'s variable [first]) and the text [out]. *)
Record shows (s : kstate) (V : list proc) (np ff : Z) (out : list Z) : Prop := {
  sh_view : view <$> procs s = V;
  sh_pid : nextpid s = np;
  sh_first : forkret_first s = ff;
  sh_line : line (io_log (io s)) = out;
}.

Section task_run.
Context {L : Linker} {LO : LinkerOk}.

(** ** Views of updates *)

Lemma view_lookup (ps V : list proc) i q :
  view <$> ps = V -> ps !! i = Some q -> V !! i = Some (view q).
Proof. intros <- H. by rewrite list_lookup_fmap, H. Qed.

Lemma view_lookup_inv (ps V : list proc) i v :
  view <$> ps = V -> V !! i = Some v -> exists q, ps !! i = Some q /\ v = view q.
Proof. intros <- H. rewrite list_lookup_fmap in H. apply fmap_Some in H as (q & H & ->). eauto. Qed.

Lemma view_alter f g (ps V : list proc) i :
  view <$> ps = V -> (forall q, view (f q) = g (view q)) -> view <$> alter f i ps = alter g i V.
Proof.
  intros <- H. apply list_eq. intros j. rewrite list_lookup_fmap, !alter_lookup, list_lookup_fmap.
  case_decide as E; [subst j|done]. destruct (ps !! i); [|done]. cbn. by rewrite H.
Qed.

Lemma view_imap (f : nat -> proc -> proc) (ps : list proc) :
  (forall j q, view (f j q) = f j (view q)) -> view <$> imap f ps = imap f (view <$> ps).
Proof.
  intros H. apply list_eq. intros j. rewrite list_lookup_fmap, !list_lookup_imap, list_lookup_fmap.
  destruct (ps !! j); [|done]. cbn. by rewrite H.
Qed.

Lemma view_wake1 chan q : view (wake1 chan q) = wake1 chan (view q).
Proof. unfold wake1. cbn [p_state p_chan view]. by destruct (_ && _). Qed.

Lemma view_woken chan cur ps : view <$> woken chan cur ps = woken chan cur (view <$> ps).
Proof. apply view_imap. intros j q. destruct (_ && _); [apply view_wake1|done]. Qed.

Lemma view_zombies p ps n : zombies_upto n p (view <$> ps) = zombies_upto n p ps.
Proof.
  unfold zombies_upto. revert n; induction ps as [|q ps IH]; intros [|n]; try done.
  cbn. f_equal. apply IH.
Qed.

Lemma view_exit_table me par ip b ps :
  view <$> exit_table me par ip b ps = exit_table me par ip b (view <$> ps).
Proof.
  assert (Ha : view <$> adopt_upto NPROC ip (Some me) ps = adopt_upto NPROC ip (Some me) (view <$> ps)).
  { apply view_imap. intros j q. destruct (j <? NPROC)%nat; [|done]. unfold adopt1. cbn [p_parent view].
    by case_bool_decide. }
  assert (Hw : view <$> wake_init b ip (Some me) (adopt_upto NPROC ip (Some me) ps)
    = wake_init b ip (Some me) (adopt_upto NPROC ip (Some me) (view <$> ps))).
  { unfold wake_init. destruct ip; [|done]. destruct b; [|done]. by rewrite view_woken, Ha. }
  unfold exit_table. destruct par; [by rewrite view_woken, Hw|done].
Qed.

Lemma view_find (P : proc -> Prop) `{!forall q, Decision (P q)} (ps : list proc) :
  (forall q, P (view q) <-> P q) ->
  list_find P (view <$> ps) = prod_map id view <$> list_find P ps.
Proof.
  intros HP. induction ps as [|q ps IH]; [done|]. cbn [fmap list_fmap list_find].
  destruct (decide (P q)) as [Hq|Hq].
  - rewrite decide_True by by apply HP. done.
  - rewrite decide_False by by rewrite HP. rewrite IH. by destruct (list_find P ps) as [[]|].
Qed.

Lemma view_first_unused ps : first_unused (view <$> ps) = first_unused ps.
Proof. unfold first_unused. rewrite view_find by done. by destruct (list_find _ ps) as [[]|]. Qed.

Lemma view_first_zombie p ps : first_zombie p (view <$> ps) = prod_map id view <$> first_zombie p ps.
Proof. unfold first_zombie. by rewrite view_find. Qed.

Lemma view_has_kids p ps : has_kids p (view <$> ps) = has_kids p ps.
Proof. unfold has_kids. induction ps as [|q ps IH]; [done|]. cbn. by rewrite IH. Qed.

Lemma line_sent k bs s :
  line (io_log (io (io_step k ((fun b => (UART0 + THR, b)) <$> bs) s))) = line (io_log (io s)) ++ bs.
Proof. apply (sent_log bs s). by exists k. Qed.

(** ** The scheduler's steps *)

(** A state of the run that satisfies the invariant. *)
Definition at_ (n : resources) (w : world) (V : list proc) (np ff : Z) (out : list Z) : Prop :=
  inv n 0 w /\ shows (w_state w) V np ff out.

Lemma run_skip n i s T P V np ff out :
  at_ n (World s (Scheduling i) T) V np ff out -> (i < NPROC)%nat ->
  bool_decide (p_state (default zero_proc (V !! i)) = RUNNABLE) = false ->
  exists s', tstep (World s (Scheduling i) T, P) (World s' (Scheduling (S i)) T, P)
    /\ at_ n (World s' (Scheduling (S i)) T) V np ff out.
Proof.
  intros [I [S1 S2 S3 S4]] Hi Hv. cbn [w_state] in *. pose proof (iv_quiet _ _ _ I) as Q. cbn [w_state] in Q.
  destruct (lookup_lt_is_Some_2 (procs s) i) as [q Hq].
  { pose proof (to_length _ _ _ _ _ (iv_table _ _ _ I)) as Hl. cbn [w_state] in Hl. lia. }
  rewrite (view_lookup _ _ _ _ S1 Hq) in Hv. change (bool_decide (p_state q = RUNNABLE) = false) in Hv.
  pose proof (scheduler_try_ok i q s (qu_hart _ Q) (qu_procs _ Q) Hq) as E. rewrite Hv in E.
  exists (touch s). split; [|split; [by apply inv_advance|by split]].
  apply t_sched. by eexists; apply step_skip.
Qed.

Lemma run_round n s T P V np ff out :
  at_ n (World s (Scheduling NPROC) T) V np ff out ->
  exists s', tstep (World s (Scheduling NPROC) T, P) (World s' (Scheduling 0) T, P)
    /\ at_ n (World s' (Scheduling 0) T) V np ff out.
Proof.
  intros [I [S1 S2 S3 S4]]. exists (sie_off s). split; [|split; [by apply inv_window|by split]].
  apply t_sched. eexists. apply step_round, window_ok.
Qed.

(** Past [d] slots that are not runnable. *)
Lemma run_skips n d i s T P V np ff out :
  at_ n (World s (Scheduling i) T) V np ff out -> (i + d <= NPROC)%nat ->
  forallb (fun q => negb (bool_decide (p_state q = RUNNABLE))) (take d (drop i V)) = true ->
  exists s', rtc calm (World s (Scheduling i) T, P) (World s' (Scheduling (i + d)) T, P)
    /\ at_ n (World s' (Scheduling (i + d)) T) V np ff out.
Proof.
  revert i s; induction d as [|d IH]; intros i s A Hd Hv.
  - rewrite Nat.add_0_r. by exists s.
  - assert (Hq : exists q, V !! i = Some q).
    { destruct A as [I [S1 _ _ _]]. cbn [w_state] in S1. apply lookup_lt_is_Some_2. rewrite <- S1, length_fmap.
      pose proof (to_length _ _ _ _ _ (iv_table _ _ _ I)) as Hl. cbn [w_state] in Hl. lia. }
    destruct Hq as [q Hq]. rewrite (drop_S _ q) in Hv by done. cbn [take forallb] in Hv.
    apply andb_true_iff in Hv as [Hv1 Hv2]. apply negb_true_iff in Hv1.
    destruct (run_skip n i s T P V np ff out A) as (s1 & E1 & A1); [lia|by rewrite Hq|].
    destruct (IH (S i) s1 A1 ltac:(lia) Hv2) as (s2 & E2 & A2).
    replace (i + S d)%nat with (S i + d)%nat by lia. exists s2. split; [|done].
    eapply rtc_l; [split; [exact E1|]|done]. intros [[= ->] _]. lia.
Qed.

(** The rest of the round, when no more slot is runnable. *)
Lemma run_round_out n i s T P V np ff out :
  at_ n (World s (Scheduling i) T) V np ff out -> (i <= NPROC)%nat ->
  forallb (fun q => negb (bool_decide (p_state q = RUNNABLE))) (take (NPROC - i) (drop i V)) = true ->
  exists s', rtc calm (World s (Scheduling i) T, P) (World s' (Scheduling 0) T, P)
    /\ at_ n (World s' (Scheduling 0) T) V np ff out.
Proof.
  intros A Hi Hv. destruct (run_skips n (NPROC - i) i s T P V np ff out A) as (s1 & E1 & A1); [lia|done|].
  replace (i + (NPROC - i))%nat with NPROC in * by lia.
  destruct (run_round n s1 T P V np ff out A1) as (s2 & E2 & A2).
  exists s2. split; [|done].
  eapply rtc_r; [exact E1|]. split; [exact E2|]. by intros [_ [=]].
Qed.

(** The slot the scheduler switches to. *)
Lemma run_dispatch n i s T V np ff out v :
  at_ n (World s (Scheduling i) T) V np ff out -> (i < NPROC)%nat -> V !! i = Some v -> p_state v = RUNNABLE ->
  exists q, procs s !! i = Some q /\ v = view q /\ p_state q = RUNNABLE
    /\ scheduler_try i s = Done true (dispatched i q s).
Proof.
  intros [I [S1 _ _ _]] Hi Hv Hst. cbn [w_state] in *. pose proof (iv_quiet _ _ _ I) as Q. cbn [w_state] in Q.
  destruct (view_lookup_inv _ _ _ _ S1 Hv) as (q & Hq & ->). exists q. split; [done|]. split; [done|].
  split; [exact Hst|]. rewrite (scheduler_try_ok i q s (qu_hart _ Q) (qu_procs _ Q) Hq).
  by rewrite bool_decide_eq_true_2.
Qed.

Lemma run_start n i s T P V np ff out v f :
  at_ n (World s (Scheduling i) T) V np ff out -> (i < NPROC)%nat -> V !! i = Some v -> p_state v = RUNNABLE ->
  T !! i = Some RStart -> function (s0 (p_context v)) = Some f ->
  exists s', tstep (World s (Scheduling i) T, P) (World s' (Running i) (delete i T), <[i := f]> P)
    /\ at_ n (World s' (Running i) (delete i T)) (alter (set_p_state RUNNING) i V) np 0 (out ++ first_message ff).
Proof.
  intros A Hi Hv Hst HT Hf. destruct (run_dispatch _ _ _ _ _ _ _ _ _ A Hi Hv Hst) as (q & Hq & -> & Hsq & Et).
  destruct A as [I [S1 S2 S3 S4]]. cbn [w_state] in *. pose proof (iv_quiet _ _ _ I) as Q. cbn [w_state] in Q.
  destruct (inv_threads _ _ _ _ _ _ I Hq Hsq) as (r & HT' & Hrd). rewrite HT in HT'. injection HT' as <-.
  destruct (forkret_ok i q s) as (j & [(_ & Ef)|(E0 & _)]);
    [apply quiet_scheduling; [done|apply (iv_runner _ _ _ I)]|by apply (quiet_free s L_print)|apply Q|done|
     |by destruct Hrd as (_ & _ & Hrd)].
  exists (started i q j s). split.
  - by eapply t_start.
  - split; [by apply inv_started|]. split.
    + change (procs (w_state _)) with (alter (set_p_state RUNNING) i (procs s)). by apply view_alter.
    + exact S2.
    + done.
    + rewrite <- S4, <- S3. apply (line_sent j (first_message (forkret_first s)) s).
Qed.

Lemma run_resume n i s T P V np ff out v :
  at_ n (World s (Scheduling i) T) V np ff out -> (i < NPROC)%nat -> V !! i = Some v -> p_state v = RUNNABLE ->
  T !! i = Some (RYield 0) ->
  exists s', tstep (World s (Scheduling i) T, P) (World s' (Running i) (delete i T), P)
    /\ at_ n (World s' (Running i) (delete i T)) (alter (set_p_state RUNNING) i V) np ff out.
Proof.
  intros A Hi Hv Hst HT. destruct (run_dispatch _ _ _ _ _ _ _ _ _ A Hi Hv Hst) as (q & Hq & -> & Hsq & Et).
  destruct A as [I [S1 S2 S3 S4]]. cbn [w_state] in *. pose proof (iv_quiet _ _ _ I) as Q. cbn [w_state] in Q.
  exists (resumed i q (fun q => q) 0 s). split.
  - eapply t_resume; [done|exact Et|exact HT|]. apply yield_leave_ok; first [apply Q|done].
  - split; [by apply inv_dispatch; [apply _|..]|]. split; try done.
    change (procs (w_state _)) with (alter (set_p_state RUNNING) i (procs s)). by apply view_alter.
Qed.

(** ** The thread's steps *)

Lemma run_self n p k s T P V np ff out :
  at_ n (World s (Running p) T) V np ff out -> P !! p = Some (Self k) ->
  exists s', tstep (World s (Running p) T, P) (World s' (Running p) T, <[p := k (Some p)]> P)
    /\ at_ n (World s' (Running p) T) V np ff out.
Proof.
  intros [I S] HP. destruct (inv_running _ _ _ _ _ I) as (Q & _ & q & _ & _ & R). exists (touch s). split.
  - apply t_self; [done|]. rewrite myproc_ok by apply R. by rewrite (ru_cur _ _ _ R).
  - split; [by apply inv_touch|by destruct S].
Qed.

Lemma at_printf n p fmt ap bs s T V np ff out :
  at_ n (World s (Running p) T) V np ff out -> Forall is_char fmt -> formatted fmt ap = Some bs ->
  exists s', printf fmt ap s = Done 0 s' /\ at_ n (World s' (Running p) T) V np ff (out ++ bs).
Proof.
  intros [I [S1 S2 S3 S4]] Hc Hb. destruct (inv_running _ _ _ _ _ I) as (Q & _ & q & _ & _ & R).
  destruct (printf_ok fmt ap bs s (qu_hart _ Q) (quiet_free s L_print Q Logic.I) (qu_uart _ Q) Hc Hb)
    as (s1 & E1 & j & ->).
  exists (io_step j ((fun b => (UART0 + THR, b)) <$> bs) (touch s)). split; [done|].
  split; [by apply inv_io_step, inv_touch|]. split; [exact S1|exact S2|exact S3|].
  cbn [w_state] in *. rewrite line_sent. by rewrite <- S4.
Qed.

Lemma run_print n p fmt ap k bs s T P V np ff out :
  at_ n (World s (Running p) T) V np ff out -> P !! p = Some (Print fmt ap k) ->
  forallb (fun c => bool_decide (is_char c)) fmt = true -> formatted fmt ap = Some bs ->
  exists s', tstep (World s (Running p) T, P) (World s' (Running p) T, <[p := k]> P)
    /\ at_ n (World s' (Running p) T) V np ff (out ++ bs).
Proof.
  intros A HP Hf Hb. assert (Hc : Forall is_char fmt).
  { rewrite forallb_forall in Hf. apply Forall_forall. intros c Hin. apply list_elem_of_In, Hf in Hin.
    by apply bool_decide_eq_true in Hin. }
  destruct (at_printf _ _ fmt ap bs _ _ _ _ _ _ A Hc Hb) as (s1 & E1 & A1).
  exists s1. split; [by eapply t_print|done].
Qed.

Lemma run_create n p fn k j s T P V np ff out :
  at_ n (World s (Running p) T) V np ff out -> P !! p = Some (Create fn k) ->
  fn <> 0 -> np < 2 ^ 31 - 1 -> first_unused V = Some j -> (4 * live_count V + 4 <= n)%nat ->
  exists s', tstep (World s (Running p) T, P) (World s' (Running p) (<[j := RStart]> T), <[p := k np]> P)
    /\ at_ n (World s' (Running p) (<[j := RStart]> T)) (alter (spawned np fn p) j V) (np + 1) ff
        (out ++ new_message np).
Proof.
  intros [I [S1 S2 S3 S4]] HP Hfn Hnp Hj Hn. destruct (inv_running _ _ _ _ _ I) as (Q & _ & q & _ & _ & R).
  destruct (iv_memory _ _ _ I) as (free & tbls & ktbl & Hm). cbn [w_state] in *.
  pose proof (mo_count _ _ _ _ _ Hm) as Hcount.
  assert (Hlv : live_count V = live_count (procs s)).
  { rewrite <- S1. clear. induction (procs s) as [|q ps IH]; [done|]. cbn. by rewrite IH. }
  rewrite <- S1, view_first_unused in Hj.
  pose proof (inv_can_alloc _ _ _ _ _ _ _ I (vm_pool _ _ _ _ (mo_kernel _ _ _ _ _ Hm)) Hj) as Hc.
  destruct free as [|tf [|pt [|t1 [|t2 free]]]]; try (cbn in Hcount; lia).
  destruct (create_process_ok s j tf pt t1 t2 free fn Hc (quiet_free s L_wait Q Logic.I))
    as (s1 & b & tbl & E & Es & _).
  rewrite (ru_cur _ _ _ R), S2 in Es. rewrite S2 in E.
  assert (H1 : step (World s (Running p) T) (World s1 (Running p) (<[j := RStart]> T))).
  { eexists; eapply step_create; [done| |done|done]. lia. }
  exists s1. split.
  - eapply t_create; [done|done|lia|done|done].
  - split; [by eapply step_inv|]. pose proof (iv_pid _ _ _ I) as Hpid. cbn [w_state] in Hpid.
    assert (Hv : view <$> procs s1 = alter (spawned np fn p) j V).
    { rewrite Es. change (procs (patch _ _ _ _ _ ?F (touch s))) with (F (procs s)). by apply view_alter. }
    assert (Hl : line (io_log (io s1)) = out ++ new_message np).
    { rewrite Es, <- S4. apply (line_sent b (new_message np) s). }
    split; [exact Hv| |by rewrite Es|exact Hl]. cbn [w_state]. rewrite Es.
    change (i32 (np + 1) = np + 1). apply i32_small. lia.
Qed.

Lemma run_yield n p k s T P V np ff out :
  at_ n (World s (Running p) T) V np ff out -> P !! p = Some (Yield k) ->
  exists s' c, tstep (World s (Running p) T, P) (World s' (Scheduling (S p)) (<[p := RYield 0]> T), <[p := k]> P)
    /\ at_ n (World s' (Scheduling (S p)) (<[p := RYield 0]> T))
        (alter (fun q => switched_out c (set_p_state RUNNABLE q)) p V) np ff out.
Proof.
  intros [I [S1 S2 S3 S4]] HP. destruct (inv_running _ _ _ _ _ I) as (Q & Ho & q & Hq & _ & R).
  cbn [w_state] in *. set (s' := descheduled p (set_p_state RUNNABLE) (touch s)).
  assert (E : yield_enter s = Done (p, 0) (parked p (set_p_state RUNNABLE) s)).
  { rewrite (yield_enter_ok s p q R). by rewrite Ho. }
  assert (Eb : scheduler_back p (parked p (set_p_state RUNNABLE) s) = Done tt s') by by eapply back_parked; [apply _|..].
  exists s', (s0 (regs s)). split; [by eapply t_yield|]. split; [by eapply step_inv; [exact I|eexists; eapply step_yield]|].
  split; try done. by apply (view_alter (fun q => set_p_context (regs s) (set_p_state RUNNABLE q))).
Qed.

Lemma run_exit n p status s T P V np ff out v :
  at_ n (World s (Running p) T) V np ff out -> P !! p = Some (Exit status) -> p <> 0%nat ->
  V !! p = Some v ->
  exists s' c, tstep (World s (Running p) T, P) (World s' (Scheduling (S p)) T, delete p P)
    /\ at_ n (World s' (Scheduling (S p)) T)
        (alter (fun q => switched_out c (exited status q)) p
          (exit_table p (p_parent v) (Some 0%nat) (zombies_upto NPROC (Some p) V) V)) np ff out.
Proof.
  intros [I [S1 S2 S3 S4]] HP Hp Hv. cbn [w_state] in *.
  destruct (inv_running _ _ _ _ _ I) as (Q & Ho & q & Hq & _ & R).
  destruct (view_lookup_inv _ _ _ _ S1 Hv) as (q' & Hq' & ->).
  rewrite Hq in Hq'. injection Hq' as <-.
  pose proof (iv_init _ _ _ I) as Hi. cbn [w_state] in Hi.
  assert (Hpar : p_parent q <> Some p).
  { intros H. by destruct (to_parent _ _ _ _ _ (iv_table _ _ _ I) _ _ _ Hq H). }
  pose proof (exit_process_ok s p q status R (quiet_free s L_wait Q Logic.I) ltac:(congruence) Hpar) as E.
  rewrite Hi in E. set (F := exit_table p (p_parent q) (Some 0%nat) (zombies_upto NPROC (Some p) (procs s))) in *.
  assert (Eb : scheduler_back p (parked p (exited status) (table F (touch s)))
    = Done tt (descheduled p (exited status) (touch (table F (touch s))))).
  { apply (back_parked _ p q); [apply _| |by apply exit_table_self].
    by apply quiet_table, quiet_touch; [apply _|]. }
  exists (descheduled p (exited status) (touch (table F (touch s)))), (s0 (regs s)).
  split; [by eapply t_exit|]. split; [by eapply step_inv; [exact I|eexists; eapply step_exit]|].
  split; try done. cbn [w_state p_parent view].
  change (procs (descheduled _ _ _)) with (alter (fun q => set_p_context (regs s) (exited status q)) p (F (procs s))).
  apply view_alter; [|done]. unfold F. by rewrite view_exit_table, <- S1, view_zombies.
Qed.

Lemma run_wait_none n p k s T P V np ff out :
  at_ n (World s (Running p) T) V np ff out -> P !! p = Some (Wait k) ->
  first_zombie (Some p) V = None -> has_kids (Some p) V = false ->
  exists s', tstep (World s (Running p) T, P) (World s' (Running p) T, <[p := k None]> P)
    /\ at_ n (World s' (Running p) T) V np ff out.
Proof.
  intros [I [S1 S2 S3 S4]] HP Hz Hk. destruct (inv_running _ _ _ _ _ I) as (Q & Ho & q & Hq & _ & R).
  cbn [w_state] in *. rewrite <- S1, view_first_zombie, fmap_None in Hz. rewrite <- S1, view_has_kids in Hk.
  pose proof (wait_round_none s p q R (quiet_free s L_wait Q Logic.I) Hz) as E. rewrite Hk in E. cbn [negb orb] in E.
  exists (touch s). split; [|split; [by apply inv_touch|by split]].
  eapply t_wait_none; [done|by eapply wait_begin_ok|exact E].
Qed.

Lemma run_wait_sleep n p k s T P V np ff out v :
  at_ n (World s (Running p) T) V np ff out -> P !! p = Some (Wait k) -> V !! p = Some v -> p_killed v = 0 ->
  first_zombie (Some p) V = None -> has_kids (Some p) V = true ->
  exists s' c, tstep (World s (Running p) T, P) (World s' (Scheduling (S p)) (<[p := RWait 0]> T), P)
    /\ at_ n (World s' (Scheduling (S p)) (<[p := RWait 0]> T))
        (alter (fun q => switched_out c (asleep (PProc p) q)) p V) np ff out.
Proof.
  intros [I [S1 S2 S3 S4]] HP Hv Hkl Hz Hk. destruct (inv_running _ _ _ _ _ I) as (Q & Ho & q & Hq & _ & R).
  cbn [w_state] in *. destruct (view_lookup_inv _ _ _ _ S1 Hv) as (q' & Hq' & ->).
  rewrite Hq in Hq'. injection Hq' as <-.
  rewrite <- S1, view_first_zombie, fmap_None in Hz. rewrite <- S1, view_has_kids in Hk.
  pose proof (wait_round_none s p q R (quiet_free s L_wait Q Logic.I) Hz) as E.
  change (p_killed (view q)) with (p_killed q) in Hkl. rewrite Hk, Hkl, Ho in E. cbn [negb orb Z.eqb c_bool] in E.
  assert (Eb : scheduler_back p (parked p (asleep (PProc p)) (touch s))
    = Done tt (descheduled p (asleep (PProc p)) (touch (touch s)))).
  { apply (back_parked (touch s) p q); [apply _|by apply quiet_touch|done]. }
  exists (descheduled p (asleep (PProc p)) (touch (touch s))), (s0 (regs s)).
  split; [eapply t_wait_sleep; [done|by eapply wait_begin_ok|exact E|exact Eb]|].
  split.
  - eapply step_inv; [exact I|]. eexists; eapply step_wait; [by eapply wait_begin_ok|exact E|]. by constructor.
  - split; try done. by apply (view_alter (fun q => set_p_context (regs s) (asleep (PProc p) q))).
Qed.

(** A waiting parent is dispatched and finds that the child in slot [j] has exited. *)
Lemma run_rewait n i k s T P V np ff out v j pid status :
  at_ n (World s (Scheduling i) T) V np ff out -> (i < NPROC)%nat -> V !! i = Some v -> p_state v = RUNNABLE ->
  T !! i = Some (RWait 0) -> P !! i = Some (Wait k) ->
  (fun jz => (jz.1, p_pid jz.2, p_xstate jz.2))
    <$> first_zombie (Some i) (alter (fun q => set_p_chan PNull (set_p_state RUNNING q)) i V)
  = Some (j, pid, status) ->
  exists s', tstep (World s (Scheduling i) T, P)
      (World s' (Running i) (delete i T), <[i := k (Some (pid, status))]> P)
    /\ at_ n (World s' (Running i) (delete i T))
        (alter reaped j (alter (fun q => set_p_chan PNull (set_p_state RUNNING q)) i V)) np ff out.
Proof.
  intros A Hi Hv Hst HT HP Hz. apply fmap_Some in Hz as ([j0 z] & Hz & [= -> -> ->]). destruct (run_dispatch _ _ _ _ _ _ _ _ _ A Hi Hv Hst) as (q & Hq & -> & Hsq & Et).
  destruct A as [I [S1 S2 S3 S4]]. cbn [w_state] in *. pose proof (iv_quiet _ _ _ I) as Q. cbn [w_state] in Q.
  set (r := resumed i q (set_p_chan PNull) 0 s).
  assert (Es : sleep_leave i 0 L_wait (dispatched i q s) = Done tt (locked_state L_wait r)).
  { apply sleep_leave_ok; first [done|by apply (quiet_free s L_wait)|apply Q]. }
  assert (I' : inv n 0 (World r (Running i) (delete i T))) by by apply inv_dispatch; [apply _|..].
  assert (Hvr : view <$> procs r = alter (fun q => set_p_chan PNull (set_p_state RUNNING q)) i V).
  { by apply (view_alter (fun q => set_p_chan PNull (set_p_state RUNNING q))). }
  rewrite <- Hvr, view_first_zombie in Hz. apply fmap_Some in Hz as ([j' z'] & Hz & Ez). injection Ez as -> ->.
  cbn [fst snd p_pid p_xstate view] in *.
  destruct (first_zombie_some _ _ _ _ Hz) as (Hj & Hpar & Hzs).
  destruct (iv_memory _ _ _ I') as (free & tbls & ktbl & Hm). cbn [w_state] in Hm.
  destruct (inv_running _ _ _ _ _ I') as (Q' & Ho' & q' & Hq' & _ & R').
  assert (Hlive : live z') by (unfold live; by rewrite Hzs).
  destruct (wait_round_reap r i j' z' (tbls j') free) as (s' & free' & E & Es' & _);
    try apply R'; [by apply (quiet_free r L_wait)|done|by eapply mo_slot|].
  exists s'. split; [by eapply t_rewait|]. split.
  - eapply step_inv; [exact I|]. eexists; eapply step_rewait; [done|exact Et|exact HT|exact Es|exact E|]. constructor.
  - rewrite <- Hvr. split; cbn [w_state].
    + rewrite Es'. change (procs (set_mem _ _)) with (alter emptied j' (procs r)). by apply view_alter.
    + by rewrite Es'.
    + by rewrite Es'.
    + by rewrite Es'.
Qed.

(** What a thread reads of a slot and of [initproc]. *)
Lemma at_slot n s m T V np ff out i par pid :
  at_ n (World s m T) V np ff out -> (fun v => (p_parent v, p_pid v)) <$> V !! i = Some (par, pid) ->
  p_parent (slot (Some i) s) = par /\ p_pid (slot (Some i) s) = pid /\ initproc s = Some 0%nat.
Proof.
  intros [I [S1 _ _ _]] Hv. apply fmap_Some in Hv as (v & Hv & [= -> ->]).
  destruct (view_lookup_inv _ _ _ _ S1 Hv) as (q & Hq & ->). cbn [w_state] in Hq.
  unfold slot. rewrite Hq. split; [done|]. split; [done|]. apply (iv_init _ _ _ I).
Qed.

(** ** Chaining steps *)

Lemma go {X} (a : world * gmap nat prog) (b : X -> world * gmap nat prog) (R : X -> Prop)
    (Q : world * gmap nat prog -> Prop) :
  (exists x, tstep a (b x) /\ R x) -> (forall x, ~ interrupted a (b x)) -> (forall x, R x -> exists f, rtc calm (b x) f /\ Q f) ->
  exists f, rtc calm a f /\ Q f.
Proof.
  intros (x & H & Hr) Hn Hk. destruct (Hk x Hr) as (f & Hf & Hq).
  exists f. split; [by eapply rtc_l; [split|]|done].
Qed.

(** The same for a step that leaves a register value open. *)
Lemma go_out {X} (a : world * gmap nat prog) (b : X -> world * gmap nat prog) (R : X -> Z -> Prop)
    (Q : world * gmap nat prog -> Prop) :
  (exists x c, tstep a (b x) /\ R x c) -> (forall x, ~ interrupted a (b x)) -> (forall x c, R x c -> exists f, rtc calm (b x) f /\ Q f) ->
  exists f, rtc calm a f /\ Q f.
Proof.
  intros (x & c & H & Hr) Hn Hk. destruct (Hk x c Hr) as (f & Hf & Hq).
  exists f. split; [by eapply rtc_l; [split|]|done].
Qed.

Lemma go_many {X} (a : world * gmap nat prog) (b : X -> world * gmap nat prog) (R : X -> Prop)
    (Q : world * gmap nat prog -> Prop) :
  (exists x, rtc calm a (b x) /\ R x) -> (forall x, R x -> exists f, rtc calm (b x) f /\ Q f) ->
  exists f, rtc calm a f /\ Q f.
Proof.
  intros (x & H & Hr) Hk. destruct (Hk x Hr) as (f & Hf & Hq). exists f. split; [by etrans|done].
Qed.

Lemma go_pure (a b : world * gmap nat prog) (Q : world * gmap nat prog -> Prop) :
  tstep a b -> ~ interrupted a b -> (exists f, rtc calm b f /\ Q f) -> exists f, rtc calm a f /\ Q f.
Proof. intros H Hn (f & Hr & Hq). exists f. split; [by eapply rtc_l; [split|]|done]. Qed.

End task_run.
