(* ===== verification/SelfTest.v ===== *)
(** * The kernel's self-test

    The run of the kernel from reset, with the thread functions of
    kernel/proc.c: init starts and finds nothing to do, the first thread creates
    a child and waits for it, the child exits with status 88, and the first
    thread reports success and idles for ever.  The text on the serial line is
    given in full. *)

From S2P Require Import Prelude Riscv Memory State Spinlock Kalloc Vm VmMap Sv39 VmKernel VmDestroy Uart Printf Csr Proc ProcTable ProcMem ProcExit Switch Trap Sched SchedMem SchedStep SchedInv SchedLive ProcInit Boot BootInv Tasks TaskRun.

Section self_test.
Context {L : Linker} {LO : LinkerOk}.

(** What is printed once the scheduler runs. *)
Definition transcript : list Z :=
  str "init: first process started" ++ nl
  ++ str "init: starting" ++ nl
  ++ str "Process PID 2 is running..." ++ nl
  ++ nl ++ str "=== TEST START: Single Function Exit/Wait ===" ++ nl
  ++ str "[Parent] PID 2: I am the parent. Spawning child..." ++ nl
  ++ str "alloc_process: allocated process 3" ++ nl
  ++ str "[Parent] Created child PID 3. Waiting for it to exit..." ++ nl
  ++ str "Process PID 3 is running..." ++ nl
  ++ str "  [Child] PID 3: I am the child." ++ nl
  ++ str "  [Child] My parent is PID 2." ++ nl
  ++ str "  [Child] Exiting with status 88..." ++ nl
  ++ str "[Parent] Catch exited child PID 3." ++ nl
  ++ str "[Parent] Exit status: 88 (Expected: 88)" ++ nl
  ++ str "=== TEST PASSED ===" ++ nl
  ++ str "[Parent] Test finished. Idling..." ++ nl.

(** ** The turns of the threads

    The abstract table, the resume points and the next pid after each turn; [c0]
    to [c3] are the values of s0 that the threads leave in their contexts. *)

(** What [main] leaves. *)
Definition boot_view : list proc := view <$> boot_table 0 0 0 0.

Lemma boot_view_eq tf0 pt0 tf1 pt1 : view <$> boot_table tf0 pt0 tf1 pt1 = boot_view.
Proof. reflexivity. Qed.

(** The slot of a thread that yields. *)
Definition yielded (c : Z) (q : proc) : proc := switched_out c (set_p_state RUNNABLE q).

Definition init_view (c0 : Z) : list proc := alter (yielded c0) 0%nat (alter (set_p_state RUNNING) 0%nat boot_view).

Definition init_points : gmap nat resume_point := <[0%nat := RYield 0]> (delete 0%nat boot_threads).

Definition tester_view (c0 c1 : Z) : list proc :=
  alter (fun q => switched_out c1 (asleep (PProc 1) q)) 1%nat
    (alter (spawned 3 sym_simple_task 1) 2%nat (alter (set_p_state RUNNING) 1%nat (init_view c0))).

Definition tester_points : gmap nat resume_point :=
  <[1%nat := RWait 0]> (<[2%nat := RStart]> (delete 1%nat init_points)).

Definition child_view (c0 c1 c2 : Z) : list proc :=
  let V := alter (set_p_state RUNNING) 2%nat (tester_view c0 c1) in
  alter (fun q => switched_out c2 (exited 88 q)) 2%nat
    (exit_table 2 (Some 1%nat) (Some 0%nat) (zombies_upto NPROC (Some 2%nat) V) V).

Definition child_points : gmap nat resume_point := delete 2%nat tester_points.

Definition init_view2 (c0 c1 c2 c3 : Z) : list proc :=
  alter (yielded c3) 0%nat (alter (set_p_state RUNNING) 0%nat (child_view c0 c1 c2)).

Definition init_points2 : gmap nat resume_point := <[0%nat := RYield 0]> (delete 0%nat child_points).

(** ** Tactics for a run *)

(** Neither end of the step is the scheduler at the end of the table. *)
Ltac calmly :=
  let H1 := fresh in let H2 := fresh in
  first [intros ? [H1 H2] | intros [H1 H2]]; first [discriminate H1 | discriminate H2].

(** Prints [bs]. *)
Tactic Notation "say" ident(A) constr(bs) "as" ident(s') ident(A') :=
  eapply go; [eapply (run_print _ _ _ _ _ bs _ _ _ _ _ _ _ A); [apply lookup_insert_eq|by vm_compute|by vm_compute]|calmly|];
  intros s' A'; clear A.

(** Evaluates the table in [A]. *)
Ltac evaluate A :=
  cbv beta in A;
  match type of A with
  | at_ _ _ ?V _ _ _ =>
      let V' := eval vm_compute in V in
      let E := fresh in
      assert (E : V = V') by (vm_compute; reflexivity); rewrite E in A; clear E
  end.

(** [P] has init at its loop, and the tester in [wait_process]. *)
Definition init_waits (P : gmap nat prog) : Prop := P !! 0%nat = Some (Goto InitLoop).

Definition tester_waits (P : gmap nat prog) : Prop := P !! 1%nat = Some (Wait (simple_check 3)).

Lemma function_init : function sym_init_task = Some init_task.
Proof. unfold function. by rewrite Z.eqb_refl. Qed.

Lemma function_simple : function sym_simple_task = Some simple_task.
Proof.
  unfold function. rewrite (proj2 (Z.eqb_neq _ _)); [by rewrite Z.eqb_refl|].
  intros E. symmetry in E. by apply tasks_apart.
Qed.

(** init's first turn. *)
Lemma init_turn n s out P :
  at_ n (World s (Scheduling NPROC) boot_threads) boot_view 3 1 out ->
  exists f, rtc calm (World s (Scheduling NPROC) boot_threads, P) f
    /\ exists s' P' c0, f = (World s' (Scheduling 1) init_points, P') /\ init_waits P'
      /\ at_ n (World s' (Scheduling 1) init_points) (init_view c0) 3 0
           (out ++ str "init: first process started" ++ nl ++ str "init: starting" ++ nl).
Proof.
  intros A.
  eapply go; [eapply (run_round _ _ _ _ _ _ _ _ A)|calmly|]. intros s1 A1. clear A.
  eapply go; [eapply (run_start _ _ _ _ _ _ _ _ _ _ _ A1);
    [unfold NPROC; lia|reflexivity..|exact function_init]|calmly|].
  intros s2 A2. clear A1. unfold init_task.
  say A2 (str "init: starting" ++ nl) as s3 A3.
  eapply go_pure; [apply t_goto; apply lookup_insert_eq|calmly|]. cbn [code]. unfold init_loop at 1.
  eapply go; [eapply (run_wait_none _ _ _ _ _ _ _ _ _ _ A3); [apply lookup_insert_eq|reflexivity..]|calmly|].
  intros s4 A4. clear A3. cbn [Z.leb Z.compare].
  eapply go_out; [eapply (run_yield _ _ _ _ _ _ _ _ _ _ A4); [apply lookup_insert_eq|reflexivity..]|calmly|]. intros s5 c0 A5. clear A4.
  eexists. split; [apply rtc_refl|]. rewrite <- ?app_assoc in A5.
  eexists s5, _, c0. split; [reflexivity|]. split; [apply lookup_insert_eq|exact A5].
Qed.

(** The tester's first turn, up to [wait_process]. *)
Lemma tester_turn n s out P c0 :
  at_ n (World s (Scheduling 1) init_points) (init_view c0) 3 0 out -> (12 <= n)%nat -> init_waits P ->
  exists f, rtc calm (World s (Scheduling 1) init_points, P) f
    /\ exists s' P' c1, f = (World s' (Scheduling 2) tester_points, P') /\ init_waits P' /\ tester_waits P'
      /\ at_ n (World s' (Scheduling 2) tester_points) (tester_view c0 c1) 4 0
           (out ++ str "Process PID 2 is running..." ++ nl
            ++ nl ++ str "=== TEST START: Single Function Exit/Wait ===" ++ nl
            ++ str "[Parent] PID 2: I am the parent. Spawning child..." ++ nl
            ++ str "alloc_process: allocated process 3" ++ nl
            ++ str "[Parent] Created child PID 3. Waiting for it to exit..." ++ nl).
Proof.
  intros A Hn HP. pose proof simple_task_text as X2. unfold KERNBASE in X2.
  eapply go; [eapply (run_start _ _ _ _ _ _ _ _ _ _ _ A);
    [unfold NPROC; lia|reflexivity..|exact function_simple]|calmly|].
  intros s6 A6. clear A. unfold simple_task at 1.
  eapply go; [eapply (run_self _ _ _ _ _ _ _ _ _ _ A6); apply lookup_insert_eq|calmly|]. intros s7 A7. clear A6.
  eapply go_pure; [apply t_look; apply lookup_insert_eq|calmly|]. cbv beta zeta.
  destruct (at_slot _ _ _ _ _ _ _ _ 1 None 2 A7 eq_refl) as (Ha & Hb & Hc). rewrite Ha, Hb, Hc. clear Ha Hb Hc.
  cbn [is_null orb]. unfold simple_tester.
  say A7 (str "Process PID 2 is running..." ++ nl) as s8 A8.
  say A8 (nl ++ str "=== TEST START: Single Function Exit/Wait ===" ++ nl) as s9 A9.
  say A9 (str "[Parent] PID 2: I am the parent. Spawning child..." ++ nl) as s10 A10.
  eapply go; [eapply (run_create _ _ _ _ _ _ _ _ _ _ _ _ A10); [apply lookup_insert_eq|lia|lia|reflexivity|]|calmly|].
  { change (4 * 2 + 4 <= n)%nat. lia. }
  intros s11 A11. clear A10. cbn [Z.ltb Z.compare].
  say A11 (str "[Parent] Created child PID 3. Waiting for it to exit..." ++ nl) as s12 A12.
  eapply go_out; [eapply (run_wait_sleep _ _ _ _ _ _ _ _ _ _ _ A12); [apply lookup_insert_eq|reflexivity..]|calmly|].
  intros s13 c1 A13. clear A12.
  eexists. split; [apply rtc_refl|]. rewrite <- ?app_assoc in A13.
  eexists s13, _, c1. split; [reflexivity|]. split; [|split; [apply lookup_insert_eq|exact A13]].
  unfold init_waits in *. by rewrite !lookup_insert_ne.
Qed.

(** The child's only turn. *)
Lemma child_turn n s out P c0 c1 :
  at_ n (World s (Scheduling 2) tester_points) (tester_view c0 c1) 4 0 out -> init_waits P -> tester_waits P ->
  exists f, rtc calm (World s (Scheduling 2) tester_points, P) f
    /\ exists s' P' c2, f = (World s' (Scheduling 3) child_points, P') /\ init_waits P' /\ tester_waits P'
      /\ at_ n (World s' (Scheduling 3) child_points) (child_view c0 c1 c2) 4 0
           (out ++ str "Process PID 3 is running..." ++ nl
            ++ str "  [Child] PID 3: I am the child." ++ nl
            ++ str "  [Child] My parent is PID 2." ++ nl
            ++ str "  [Child] Exiting with status 88..." ++ nl).
Proof.
  intros A HP0 HP1.
  eapply go; [eapply (run_start _ _ _ _ _ _ _ _ _ _ _ A);
    [unfold NPROC; lia|reflexivity..|exact function_simple]|calmly|].
  intros s14 A14. clear A. unfold simple_task at 1.
  eapply go; [eapply (run_self _ _ _ _ _ _ _ _ _ _ A14); apply lookup_insert_eq|calmly|]. intros s15 A15. clear A14.
  eapply go_pure; [apply t_look; apply lookup_insert_eq|calmly|]. cbv beta zeta.
  destruct (at_slot _ _ _ _ _ _ _ _ 2 (Some 1%nat) 3 A15 eq_refl) as (Ha & Hb & Hc). rewrite Ha, Hb, Hc.
  clear Ha Hb Hc. cbn [is_null orb negb andb]. rewrite bool_decide_eq_false_2 by done. unfold simple_child.
  say A15 (str "Process PID 3 is running..." ++ nl) as s16 A16.
  say A16 (str "  [Child] PID 3: I am the child." ++ nl) as s17 A17.
  eapply go_pure; [apply t_look; apply lookup_insert_eq|calmly|]. cbv beta zeta.
  destruct (at_slot _ _ _ _ _ _ _ _ 2 (Some 1%nat) 3 A17 eq_refl) as (Ha & _ & _). rewrite Ha. clear Ha.
  destruct (at_slot _ _ _ _ _ _ _ _ 1 None 2 A17 eq_refl) as (_ & Hb & _). rewrite Hb. clear Hb.
  cbn [is_null].
  say A17 (str "  [Child] My parent is PID 2." ++ nl) as s18 A18.
  say A18 (str "  [Child] Exiting with status 88..." ++ nl) as s19 A19.
  eapply go_out; [eapply (run_exit _ _ _ _ _ _ _ _ _ _ _ A19); [apply lookup_insert_eq|done|reflexivity]|calmly|].
  intros s20 c2 A20. clear A19.
  eexists. split; [apply rtc_refl|]. rewrite <- ?app_assoc in A20.
  eexists s20, _, c2. split; [reflexivity|]. unfold init_waits, tester_waits in *.
  split; [|split; [|exact A20]]; rewrite lookup_delete_ne, !lookup_insert_ne by done; done.
Qed.

(** The rest of the round, and init's second turn. *)
Lemma init_turn2 n s out P c0 c1 c2 :
  at_ n (World s (Scheduling 3) child_points) (child_view c0 c1 c2) 4 0 out -> init_waits P -> tester_waits P ->
  exists f, rtc calm (World s (Scheduling 3) child_points, P) f
    /\ exists s' P' c3, f = (World s' (Scheduling 1) init_points2, P') /\ tester_waits P'
      /\ at_ n (World s' (Scheduling 1) init_points2) (init_view2 c0 c1 c2 c3) 4 0 out.
Proof.
  intros A HP0 HP1.
  eapply go_many; [eapply (run_round_out _ 3 _ _ _ _ _ _ _ A); [unfold NPROC; lia|by vm_compute]|].
  intros s22 A22. clear A. evaluate A22.
  eapply go; [eapply (run_resume _ _ _ _ _ _ _ _ _ _ A22); [unfold NPROC; lia|reflexivity..]|calmly|].
  intros s23 A23. clear A22.
  eapply go_pure; [apply t_goto; exact HP0|calmly|]. cbn [code]. unfold init_loop at 1.
  eapply go; [eapply (run_wait_none _ _ _ _ _ _ _ _ _ _ A23); [apply lookup_insert_eq|by vm_compute..]|calmly|].
  intros s24 A24. clear A23. cbn [Z.leb Z.compare].
  eapply go_out; [eapply (run_yield _ _ _ _ _ _ _ _ _ _ A24); [apply lookup_insert_eq|reflexivity..]|calmly|].
  intros s25 c3 A25. clear A24.
  eexists. split; [apply rtc_refl|].
  eexists s25, _, c3. split; [reflexivity|]. unfold tester_waits in *. rewrite !lookup_insert_ne by done.
  split; [done|]. evaluate A25. exact A25.
Qed.

(** The tester's second turn, up to its idle loop. *)
Lemma tester_turn2 n s out P c0 c1 c2 c3 :
  at_ n (World s (Scheduling 1) init_points2) (init_view2 c0 c1 c2 c3) 4 0 out -> tester_waits P ->
  exists f, rtc calm (World s (Scheduling 1) init_points2, P) f
    /\ exists s' T P' V, f = (World s' (Running 1) T, P') /\ P' !! 1%nat = Some (Goto SimpleIdle)
      /\ p_pid <$> V = 1 :: 2 :: replicate 62 0
      /\ at_ n (World s' (Running 1) T) V 4 0
           (out ++ str "[Parent] Catch exited child PID 3." ++ nl
            ++ str "[Parent] Exit status: 88 (Expected: 88)" ++ nl
            ++ str "=== TEST PASSED ===" ++ nl
            ++ str "[Parent] Test finished. Idling..." ++ nl).
Proof.
  intros A HP. evaluate A.
  eapply go; [eapply (run_rewait _ _ _ _ _ _ _ _ _ _ _ 2 3 88 A); [unfold NPROC; lia|first [exact HP|reflexivity]..]|calmly|].
  intros s26 A26. clear A. unfold simple_check. cbn [Z.eqb Pos.eqb].
  say A26 (str "[Parent] Catch exited child PID 3." ++ nl) as s27 A27.
  say A27 (str "[Parent] Exit status: 88 (Expected: 88)" ++ nl) as s28 A28.
  say A28 (str "=== TEST PASSED ===" ++ nl) as s29 A29.
  say A29 (str "[Parent] Test finished. Idling..." ++ nl) as s30 A30.
  eexists. split; [apply rtc_refl|]. rewrite <- ?app_assoc in A30.
  eexists s30, _, _, _. split; [reflexivity|]. split; [apply lookup_insert_eq|]. split; [|exact A30]. by vm_compute.
Qed.

(** The whole run, from the scheduler's start to the idle loop. *)
Lemma test_run n s out :
  at_ n (World s (Scheduling NPROC) boot_threads) boot_view 3 1 out -> (12 <= n)%nat ->
  exists f, rtc calm (World s (Scheduling NPROC) boot_threads, ∅) f
    /\ exists s' T P V, f = (World s' (Running 1) T, P) /\ P !! 1%nat = Some (Goto SimpleIdle)
      /\ p_pid <$> V = 1 :: 2 :: replicate 62 0 /\ at_ n (World s' (Running 1) T) V 4 0 (out ++ transcript).
Proof.
  intros A Hn.
  destruct (init_turn _ _ _ ∅ A) as (f1 & R1 & s1 & P1 & c0 & -> & HI & A1).
  destruct (tester_turn _ _ _ P1 c0 A1 Hn HI) as (f2 & R2 & s2 & P2 & c1 & -> & HI2 & HT2 & A2).
  destruct (child_turn _ _ _ P2 c0 c1 A2 HI2 HT2) as (f3 & R3 & s3 & P3 & c2 & -> & HI3 & HT3 & A3).
  destruct (init_turn2 _ _ _ P3 c0 c1 c2 A3 HI3 HT3) as (f4 & R4 & s4 & P4 & c3 & -> & HT4 & A4).
  destruct (tester_turn2 _ _ _ P4 c0 c1 c2 c3 A4 HT4) as (f5 & R5 & s5 & T & P & V & -> & HP & HV & A5).
  eexists. split; [etrans; [exact R1|etrans; [exact R2|etrans; [exact R3|etrans; [exact R4|exact R5]]]]|].
  exists s5, T, P, V. split; [done|]. split; [done|]. split; [done|]. rewrite <- !app_assoc in A5. exact A5.
Qed.

(** ** The idle loop *)

(** [m] heartbeats. *)
Definition dots (m : nat) : list Z := replicate m 46.

(** The first thread in its idle loop, [m] dots after the state [s]. *)
Definition idling (s : kstate) (T : gmap nat resume_point) (m : nat) (w : world * gmap nat prog) : Prop :=
  exists s' P V np n, w = (World s' (Running 1) T, P)
    /\ at_ n (World s' (Running 1) T) V np 0 (line (io_log (io s)) ++ dots m)
    /\ (P !! 1%nat = Some (Goto SimpleIdle) \/ P !! 1%nat = Some simple_idle).

Lemma dots_S m : dots m ++ str "." = dots (S m).
Proof. induction m as [|m IH]; [done|]. cbn. by f_equal. Qed.

(** It can do nothing but print one more dot. *)
Lemma idle_step s T m w w' : idling s T m w -> tstep w w' -> exists m', idling s T m' w'.
Proof.
  intros (s1 & P & V & np & n & -> & A & HP) H. inversion H; subst; destruct HP as [HP|HP]; try unfold simple_idle in HP; try congruence.
  - match goal with H : P !! 1%nat = Some (Goto ?l) |- _ => assert (l = SimpleIdle) as -> by congruence end.
    exists m, s1, (<[1%nat := simple_idle]> P), V, np, n.
    split; [done|]. split; [exact A|]. right. apply lookup_insert_eq.
  - match goal with
    | H : P !! 1%nat = Some (Print ?fmt ?ap ?k), Hc : Forall is_char ?fmt, Hf : formatted ?fmt ?ap = Some _,
      Hp : printf ?fmt ?ap s1 = _ |- _ =>
        assert (fmt = str "." /\ ap = [] /\ k = Goto SimpleIdle) as (-> & -> & ->)
          by (rewrite HP in H; by injection H as -> -> ->);
        destruct (at_printf n 1 (str ".") [] _ s1 T V np 0 _ A Hc Hf) as (s2 & E2 & A2);
        rewrite E2 in Hp; apply Done_inj in Hp as [_ <-]
    end.
    exists (S m), s2, (<[1%nat := Goto SimpleIdle]> P), V, np, n. split; [done|].
    match goal with Hf : formatted _ _ = Some ?bs |- _ => assert (bs = str ".") as -> by by vm_compute in Hf; injection Hf end.
    rewrite <- app_assoc, dots_S in A2. split; [exact A2|]. left. apply lookup_insert_eq.
Qed.

Lemma idle_run s T m w w' : idling s T m w -> rtc tstep w w' -> exists m', idling s T m' w'.
Proof.
  intros H Hr. revert m H. induction Hr as [w|w w1 w2 Hs _ IH]; intros m H; [by exists m|].
  destruct (idle_step s T m w w1 H Hs) as [m1 H1]. by eapply IH.
Qed.

Lemma boot_at n s0 out :
  inv n 0 (World s0 (Scheduling NPROC) boot_threads) -> boot_left s0 out ->
  at_ n (World s0 (Scheduling NPROC) boot_threads) boot_view 3 1 out.
Proof.
  intros I [B1 B2 B3 (tf0 & pt0 & tf1 & pt1 & B4)]. split; [exact I|].
  split; [|exact B1|exact B2|exact B3]. change (view <$> procs s0 = boot_view). rewrite B4. apply boot_view_eq.
Qed.

(** The loop never blocks. *)
Lemma idle_goes_on s T m w : idling s T m w -> exists w', tstep w w'.
Proof.
  intros (s1 & P & V & np & n & -> & A & [HP|HP]).
  - eexists. by apply t_goto.
  - destruct (run_print n 1 (str ".") [] (Goto SimpleIdle) (str ".") s1 T P V np 0 _ A HP) as (s2 & H & _);
      [by vm_compute..|]. by eexists.
Qed.

(** C13: the kernel passes its own test.  From reset [start] and [main] reach
    the scheduler, and the run of [init_task] and [simple_task] under it that no
    interrupt disturbs prints exactly the transcript of a passed test: the child
    exits with status 88 and its parent, waiting for it, reaps it and gets that
    status.  There is no other such run: what an undisturbed run has reached
    either leads to that state or comes after it.  From then on the first thread
    has the CPU for ever: every continuation of the run has only printed one dot
    after the other, and goes on. *)
Theorem self_test_passes s :
  reset s -> (boot_pages + 4 <= n_pages)%nat ->
  exists sb s0 s' T P,
    start s = Done tt sb /\ main sb = Done tt s0
    /\ rtc calm (World s0 (Scheduling NPROC) boot_threads, ∅) (World s' (Running 1) T, P)
    /\ line (io_log (io s'))
         = line (io_log (io s)) ++ 3 :: greeting ++ greeting ++ boot_messages ++ transcript
    /\ (forall w, rtc calm (World s0 (Scheduling NPROC) boot_threads, ∅) w ->
          rtc calm w (World s' (Running 1) T, P) \/ rtc calm (World s' (Running 1) T, P) w)
    /\ (forall w P', rtc tstep (World s' (Running 1) T, P) (w, P') ->
          (exists s'' m, w = World s'' (Running 1) T /\ line (io_log (io s'')) = line (io_log (io s')) ++ dots m)
          /\ exists w', tstep (w, P') w').
Proof.
  intros R Hn. destruct (start_powers s R) as (sb & Eb & _ & Pw & _ & Hlog).
  destruct (main_ok sb Pw) as (s0 & n & E & I & Hl & HB); [lia|]. rewrite Hlog in HB.
  destruct (test_run n s0 _ (boot_at n s0 _ I HB)) as (f & Hr & s' & T & P & V & -> & HP & _ & A); [lia|].
  exists sb, s0, s', T, P. pose proof (sh_line _ _ _ _ _ (proj2 A)) as HL. cbn [w_state] in HL.
  split; [exact Eb|]. split; [exact E|]. split; [exact Hr|]. split.
  { rewrite HL. by rewrite <- !app_assoc, <- app_comm_cons, <- !app_assoc. }
  split; [intros w Hw; by apply (rtc_det calm calm_det _ _ _ Hw Hr)|].
  assert (Hidle : idling s' T 0 (World s' (Running 1) T, P)).
  { exists s', P, V, 4, n. split; [done|]. split; [|by left]. unfold dots. cbn [replicate].
    rewrite app_nil_r, HL. exact A. }
  intros w P' Hw. destruct (idle_run s' T 0 _ _ Hidle Hw) as [m Hm].
  split; [|by eapply idle_goes_on]. destruct Hm as (s'' & P'' & V' & np & n' & Ew & A' & _).
  injection Ew as -> ->. exists s'', m. split; [done|]. apply (sh_line _ _ _ _ _ (proj2 A')).
Qed.

End self_test.

(** ** Witnesses *)

#[local] Existing Instance demo_linker.
#[local] Existing Instance demo_linker_ok.

Lemma demo_test_pages : (boot_pages + 4 <= n_pages)%nat.
Proof. apply Nat.leb_le. by vm_compute. Qed.

Lemma self_test_passes_witness :
  exists sb s0 s' T P, start demo_state = Done tt sb /\ main sb = Done tt s0
    /\ rtc calm (World s0 (Scheduling NPROC) boot_threads, ∅) (World s' (Running 1) T, P)
    /\ line (io_log (io s'))
         = line (io_log (io demo_state)) ++ 3 :: greeting ++ greeting ++ boot_messages ++ transcript.
Proof.
  destruct (self_test_passes demo_state demo_reset demo_test_pages) as (sb & s0 & s' & T & P & H0 & H1 & H2 & H3 & _).
  exists sb, s0, s', T, P. split; [exact H0|]. split; [exact H1|]. split; [exact H2|exact H3].
Defined.
