(* ===== verification/History.v ===== *)
(** * What the kernel's users can rely on

    Consequences of the refinement: facts about the pids and statuses that
    [create_process] and [wait_process] return, over whole runs of the kernel.
    They are proved of the model and hold of the kernel because each of its
    histories is one of the model's. *)

From S2P Require Import Prelude Riscv Memory State Spinlock Kalloc Vm VmMap Sv39 VmKernel VmDestroy Uart Printf Csr Proc ProcTable ProcMem ProcExit Switch Trap Sched SchedMem SchedStep SchedInv SchedLive ProcInit Boot BootInv BootIrq System Refine Tasks TaskRun SelfTest ProcModel.

Section history.
Context {L : Linker} {LO : LinkerOk}.

Lemma boot_not_exited c x : ~ exited_with boot_kernel c x.
Proof.
  unfold exited_with. cbn [processes boot_kernel]. destruct (decide (c = 1)) as [->|H1]; [by rewrite lookup_insert_eq|].
  rewrite lookup_insert_ne by done. destruct (decide (c = 2)) as [->|H2]; [by rewrite lookup_singleton_eq|].
  by rewrite lookup_singleton_ne.
Qed.

(** C3: a status reaches the parent, once.  In every run of the kernel from reset,
    if [wait_process] called by [p] returns the child [c] with status [x], then
    [c] has called [exit_process] with that status before, and between the two
    nothing was done by [c] and its status was not given out; and never after
    does anybody act under the pid [c] or get its status again.  All pids that
    [create_process] returned in the run are different. *)
Theorem statuses_delivered es1 p c x es2 w :
  history (es1 ++ Reap p c x :: es2) w ->
  (exists es0 es, es1 = es0 ++ Exit c x :: es /\ Forall (silent c) es)
  /\ Forall (silent c) es2
  /\ NoDup (omap created_pid (es1 ++ Reap p c x :: es2)).
Proof.
  intros H%history_run. destruct (run_reaped _ _ _ _ _ _ _ boot_kernel_ok H) as [[[Hx _]|He] Hs].
  - by destruct (boot_not_exited c x).
  - split; [done|]. split; [done|]. rewrite (proj1 (run_created _ _ _ H)). apply NoDup_seqZ.
Qed.

(** A pid that was handed out and is in no slot has been reaped. *)
Lemma missing_reaped es w c :
  history es w -> 3 <= c < nextpid (w_state w) ->
  (forall k q, procs (w_state w) !! k = Some q -> p_pid q <> c) -> exists p x, Reap p c x ∈ es.
Proof.
  intros H Hc Hno. destruct (reachable_inv w (history_reachable es w H)) as [n I].
  apply (run_gone_reaped es boot_kernel (abs w)); [apply boot_kernel_ok|by apply history_run|by right|].
  destruct (processes (abs w) !! c) as [P|] eqn:HP; [|done].
  destruct (abs_key (iv_table _ _ _ I) c) as (k & q & Hq & _ & <-); [by exists P|]. by destruct (Hno k q Hq).
Qed.

End history.

(** ** Witness: the run of the self-test *)

#[local] Existing Instance demo_linker.
#[local] Existing Instance demo_linker_ok.

Lemma demo_reaped : exists es1 p x es2 w, history (es1 ++ Reap p 3 x :: es2) w.
Proof.
  destruct (start_powers demo_state demo_reset) as (sb & Eb & _ & Pw & _).
  destruct (main_ok sb Pw demo_boot_pages) as (s0 & n & E & I & Hl & HB).
  destruct (test_run n s0 _ (boot_at n s0 _ I HB)) as (f & Hr & s' & T & P & V & -> & _ & HV & A).
  { assert (H : (boot_pages + 12 <= n_pages)%nat) by (apply Nat.leb_le; by vm_compute). lia. }
  apply calm_tsteps, tsteps_steps, rtc_lsteps in Hr as [es Hr].
  pose proof (main_boots demo_state sb s0 demo_reset demo_boot_pages ltac:(by vm_compute) Eb E) as Hb.
  assert (H : history es (World s' (Running 1) T)) by by exists s0.
  destruct A as [_ [Hv Hp _ _]]. cbn [w_state] in Hv, Hp.
  destruct (missing_reaped es _ 3 H) as (p & x & (es1 & es2 & ->)%list_elem_of_split); [cbn [w_state]; lia| |].
  - intros k q Hq E3. cbn [w_state] in Hq.
    assert (Hk : (p_pid <$> V) !! k = Some 3) by (rewrite <- Hv, !list_lookup_fmap, Hq; cbn; by f_equal).
    rewrite HV in Hk. destruct k as [|[|k]]; [done|done|].
    change (replicate 62 0 !! k = Some 3) in Hk. by apply lookup_replicate in Hk as [? _].
  - by exists es1, p, x, es2, (World s' (Running 1) T).
Qed.

Lemma statuses_delivered_witness :
  exists es0 es x p es2 w, history ((es0 ++ Exit 3 x :: es) ++ Reap p 3 x :: es2) w
    /\ Forall (silent 3) es /\ Forall (silent 3) es2.
Proof.
  destruct demo_reaped as (es1 & p & x & es2 & w & H).
  destruct (statuses_delivered es1 p 3 x es2 w H) as ((es0 & es & He & Hs) & Hs2 & _).
  exists es0, es, x, p, es2, w. rewrite <- He. split; [exact H|]. split; [exact Hs|exact Hs2].
Defined.
